(** * tinytag: a shallow embedding of [tinytag/tinytag.py]

    The development follows the layout of the Python module: the
    exceptions and values of the run-time, the byte stream a parser
    reads from, the [struct] decoders, the [TinyTag] base class, and
    then the container parsers the statements below are about.

    Conventions.
    - A Python [int] is a [Z]; a [float] is a primitive binary64 float;
      [bytes] is a [list byte]; a [str] is a [string] whose characters
      stand for the characters of the Python string.
    - A function that may raise returns a [result]; the exception is
      kept as a value of [exn].
    - Loops that Python runs until the stream is exhausted are written
      with a fuel argument.  The entry points supply one unit of fuel
      for each byte of the stream, and the last part of the file shows
      that this is enough: every round that goes on has consumed bytes.
      The exceptions are the loop over the sub-atoms of an MP4 custom
      field and the loop over the objects of a WMA stream, which Python
      itself may never leave. *)

From Stdlib Require Import ZArith List String Ascii Lia Bool.
From Stdlib.Strings Require Import Byte.
From Stdlib Require Import PrimFloat SpecFloat FloatOps.
From Stdlib Require FloatAxioms.
From stdpp Require Import base option list gmap strings.

Local Open Scope string_scope.
Local Open Scope Z_scope.

(** ** Exceptions and results *)

Inductive exn : Type :=
| TinyTagException (msg : string)
| FailedToParse (cause : exn)      (* TinyTagException(f'Failed to parse file: {exc}') from exc *)
| StructError                      (* struct.error: buffer of the wrong size *)
| ZeroDivisionError (divisor : string)   (* the name of the divisor is kept for the proofs *)
| TypeError
| ValueError
| OSError
| UnicodeDecodeError
| UnicodeEncodeError
| IndexError
| NotImplementedError.

(** [OutOfFuel] is not an outcome of the Python code: it marks a loop of
    the model that was given too little fuel.  The parsers are shown not
    to produce it, the custom fields of MP4 and the objects of WMA
    apart. *)
Inductive result (A : Type) : Type :=
| Ok (a : A)
| Raise (e : exn)
| OutOfFuel.
Arguments Ok {A} a.
Arguments Raise {A} e.
Arguments OutOfFuel {A}.

Definition rbind {A B} (r : result A) (k : A -> result B) : result B :=
  match r with
  | Ok a => k a
  | Raise e => Raise e
  | OutOfFuel => OutOfFuel
  end.

Notation "'let?' x := r 'in' k" := (rbind r (fun x => k))
  (at level 10, x pattern, r at level 100, k at level 200).

(** ** Bytes and integers *)

Definition bytes := list byte.

Definition byte_val (b : byte) : Z := Z.of_N (Byte.to_N b).

Definition byte_of_Z (z : Z) : byte :=
  match Byte.of_N (Z.to_N z) with
  | Some b => b
  | None => x00
  end.

Definition bytes_of_string (s : string) : bytes := list_byte_of_string s.

(** [l[:n]] and [l[n:]] for a count [n] read from a file: the count is
    cut at the length of the list first, which changes nothing in the
    result and keeps huge counts from being unfolded. *)
Definition ztake {A} (n : Z) (l : list A) : list A :=
  take (Z.to_nat (Z.min n (Z.of_nat (length l)))) l.
Definition zdrop {A} (n : Z) (l : list A) : list A :=
  drop (Z.to_nat (Z.min n (Z.of_nat (length l)))) l.

(** Python slices [b[i:j]] and [b[i:]] for indices that are not negative. *)
Definition slice {A} (i j : nat) (l : list A) : list A := take (j - i) (drop i l).

(** [int.from_bytes(b, 'big')] and [int.from_bytes(b, 'little')] *)
Definition be_uint (b : bytes) : Z := fold_left (fun accu x => accu * 256 + byte_val x) b 0.
Definition le_uint (b : bytes) : Z := be_uint (rev b).

(** two's complement reading of a [bits]-bit unsigned value *)
Definition to_signed (bits z : Z) : Z :=
  if z <? 2 ^ (bits - 1) then z else z - 2 ^ bits.

(** ** Floats

    [float(z)] rounds to the nearest binary64 value, and [a / b] on two
    integers is the correctly rounded quotient (CPython rounds the exact
    quotient once).  Both raise [OverflowError] in Python when the result
    exceeds the binary64 range; the integers read from files here have at
    most 64 bits, far below that. *)

Definition py_float (z : Z) : float := SF2Prim (binary_normalize prec emax z 0 false).

Definition int_spec (z : Z) : spec_float :=
  match z with
  | Z0 => S754_zero false
  | Zpos p => S754_finite false p 0
  | Zneg p => S754_finite true p 0
  end.

Definition int_quotient (a b : Z) : float :=
  SF2Prim (SFdiv prec emax (int_spec a) (int_spec b)).

(** [a / b] for two [int]s; [what] names the divisor in the exception *)
Definition int_truediv (what : string) (a b : Z) : result float :=
  if b =? 0 then Raise (ZeroDivisionError what) else Ok (int_quotient a b).

(** [x / y] for two [float]s *)
Definition float_truediv (what : string) (x y : float) : result float :=
  if PrimFloat.eqb y 0 then Raise (ZeroDivisionError what) else Ok (x / y)%float.

(** ** The byte stream

    A [BinaryIO] is the contents of the stream and the current position.
    [io_in_memory] tells an [io.BytesIO] from a file on disk: the two
    differ when a seek would move before the start of the stream. *)

Record BinaryIO : Type := mkIO {
  io_data : bytes;
  io_pos : Z;
  io_in_memory : bool
}.

Definition BytesIO (b : bytes) : BinaryIO := mkIO b 0 true.
Definition file_on_disk (b : bytes) : BinaryIO := mkIO b 0 false.

Definition io_len (fh : BinaryIO) : Z := Z.of_nat (length (io_data fh)).
Definition io_rest (fh : BinaryIO) : bytes := zdrop (io_pos fh) (io_data fh).
Definition io_at (fh : BinaryIO) (p : Z) : BinaryIO :=
  mkIO (io_data fh) p (io_in_memory fh).

(** [fh.tell()] *)
Definition tell (fh : BinaryIO) : Z := io_pos fh.

(** [fh.read(n)] for a count that is not below -1, and for any count on
    an [io.BytesIO]: the count -1 reads to the end, as [fh.read()] does,
    and an [io.BytesIO] takes every negative count for -1.  The parsers
    call it with a count that is a literal, an unsigned field of the
    file or a size tested to be positive; the two reads whose count may
    be below -1 are the one of [_Wave._parse_tag] in a [LIST] chunk,
    written with [read_count], and those of [_parse_custom_field], which
    reads from an [io.BytesIO]. *)
Definition read (n : Z) (fh : BinaryIO) : bytes * BinaryIO :=
  let out := if n <? 0 then io_rest fh else ztake n (io_rest fh) in
  (out, io_at fh (io_pos fh + Z.of_nat (length out))).

Definition read_all (fh : BinaryIO) : bytes * BinaryIO := read (-1) fh.

(** [fh.read(n)] for any count: the buffered reader of a file opened by
    name raises [ValueError] on a count below -1 *)
Definition read_count (n : Z) (fh : BinaryIO) : result (bytes * BinaryIO) :=
  if (n <? -1) && negb (io_in_memory fh) then Raise ValueError else Ok (read n fh).

(** a seek that would end before the start: clamped by [io.BytesIO],
    refused by the operating system for a file *)
Definition seek_to (fh : BinaryIO) (p : Z) : result BinaryIO :=
  if p <? 0
  then if io_in_memory fh then Ok (io_at fh 0) else Raise OSError
  else Ok (io_at fh p).

(** [fh.seek(off, os.SEEK_CUR)] *)
Definition seek_cur (off : Z) (fh : BinaryIO) : result BinaryIO :=
  seek_to fh (io_pos fh + off).

(** [fh.seek(off, os.SEEK_END)] *)
Definition seek_end (off : Z) (fh : BinaryIO) : result BinaryIO :=
  seek_to fh (io_len fh + off).

(** [fh.seek(off)] *)
Definition seek_set (off : Z) (fh : BinaryIO) : result BinaryIO :=
  if off <? 0
  then Raise (if io_in_memory fh then ValueError else OSError)
  else Ok (io_at fh off).

(** [fh'] is the stream [fh], at least [n] bytes further on *)
Definition ahead_by (n : Z) (fh fh' : BinaryIO) : Prop :=
  io_data fh' = io_data fh /\ 0 <= io_pos fh /\ io_pos fh + n <= io_pos fh'.

(** the number of bytes a [read()] would return *)
Definition remaining (fh : BinaryIO) : nat := length (io_rest fh).

(** ** [struct.unpack] for a single integer field

    [struct.unpack] raises [struct.error] unless the buffer has exactly
    the size of the format.  The formats without a byte-order mark use
    the byte order of the host, taken to be little-endian. *)

Definition unpack_be (n : nat) (b : bytes) : result Z :=
  if (length b =? n)%nat then Ok (be_uint b) else Raise StructError.

Definition unpack_le (n : nat) (b : bytes) : result Z :=
  if (length b =? n)%nat then Ok (le_uint b) else Raise StructError.

Definition unpack_be_signed (n : nat) (b : bytes) : result Z :=
  let? z := unpack_be n b in Ok (to_signed (8 * Z.of_nat n) z).

Definition unpack_le_signed (n : nat) (b : bytes) : result Z :=
  let? z := unpack_le n b in Ok (to_signed (8 * Z.of_nat n) z).

(** ** The Python run-time

    The text codecs and the conversions of the Python library are not
    part of the module; the parsers take them as they are.  Nothing is
    assumed about them. *)
Class PyRuntime : Type := {
  (** [b.decode(encoding, errors)] *)
  py_decode : string -> string -> bytes -> result string;
  (** [int(s)]; [None] stands for [ValueError] *)
  py_int : string -> option Z;
  (** [s.lower()] *)
  py_lower : string -> string;
  (** [s.isdigit()] *)
  py_isdigit : string -> bool;
  (** [s.lstrip('﻿')] *)
  py_lstrip_bom : string -> string;
  (** [base64.b64decode(s)] *)
  py_b64decode : string -> result bytes
}.

(** the library functions return or raise *)
Definition runtime_completes (R : PyRuntime) : Prop :=
  (forall (encoding errors : string) (b : bytes), py_decode encoding errors b <> OutOfFuel) /\
  (forall s : string, py_b64decode s <> OutOfFuel).

(** ** Values and the [TinyTag] object *)

Inductive pyval : Type :=
| VNone
| VStr (s : string)
| VInt (z : Z)
| VFloat (f : float)
| VBytes (b : bytes).

(** the truth value of [if v:] *)
Definition truthy (v : pyval) : bool :=
  match v with
  | VNone => false
  | VStr s => negb (String.eqb s "")
  | VInt z => negb (z =? 0)
  | VFloat f => negb (PrimFloat.eqb f 0)
  | VBytes b => match b with [] => false | _ => true end
  end.

Definition is_str (v : pyval) : bool :=
  match v with VStr _ => true | _ => false end.

Definition NUL : string := String (ascii_of_nat 0) "".

Fixpoint str_drop (n : nat) (s : string) : string :=
  match n, s with
  | O, _ => s
  | S n', String _ s' => str_drop n' s'
  | S _, EmptyString => EmptyString
  end.

(** The instance dictionary [self.__dict__] is [attrs]; the [extra]
    dictionary and the attributes that no tag field name can reach are
    kept apart ([_filehandler] is passed to the methods explicitly). *)
Record TinyTag : Type := mkTag {
  attrs : gmap string pyval;
  extra : gmap string pyval;
  filesize : Z;
  _default_encoding : option string;
  _parse_tags : bool;
  _parse_duration : bool;
  _load_image : bool;
  _tags_parsed : bool;
  _ignore_errors : bool;
  _bytepos_after_id3v2 : Z;     (* set by _ID3.__init__ *)
  _max_samplenum : Z            (* set by _Ogg.__init__ *)
}.

Definition with_attrs (t : TinyTag) (a : gmap string pyval) : TinyTag :=
  mkTag a (extra t) (filesize t) (_default_encoding t) (_parse_tags t)
        (_parse_duration t) (_load_image t) (_tags_parsed t) (_ignore_errors t)
        (_bytepos_after_id3v2 t) (_max_samplenum t).

Definition with_extra (t : TinyTag) (e : gmap string pyval) : TinyTag :=
  mkTag (attrs t) e (filesize t) (_default_encoding t) (_parse_tags t)
        (_parse_duration t) (_load_image t) (_tags_parsed t) (_ignore_errors t)
        (_bytepos_after_id3v2 t) (_max_samplenum t).

Definition with_tags_parsed (t : TinyTag) (b : bool) : TinyTag :=
  mkTag (attrs t) (extra t) (filesize t) (_default_encoding t) (_parse_tags t)
        (_parse_duration t) (_load_image t) b (_ignore_errors t)
        (_bytepos_after_id3v2 t) (_max_samplenum t).

Definition with_bytepos_after_id3v2 (t : TinyTag) (p : Z) : TinyTag :=
  mkTag (attrs t) (extra t) (filesize t) (_default_encoding t) (_parse_tags t)
        (_parse_duration t) (_load_image t) (_tags_parsed t) (_ignore_errors t)
        p (_max_samplenum t).

Definition with_max_samplenum (t : TinyTag) (n : Z) : TinyTag :=
  mkTag (attrs t) (extra t) (filesize t) (_default_encoding t) (_parse_tags t)
        (_parse_duration t) (_load_image t) (_tags_parsed t) (_ignore_errors t)
        (_bytepos_after_id3v2 t) n.

(** [self._parse_tags = tags; self._parse_duration = duration;
    self._load_image = image] *)
Definition with_flags (self : TinyTag) (tags duration image : bool) : TinyTag :=
  mkTag (attrs self) (extra self) (filesize self) (_default_encoding self)
        tags duration image (_tags_parsed self) (_ignore_errors self)
        (_bytepos_after_id3v2 self) (_max_samplenum self).

(** the public attributes [__init__] sets to [None], and [_image_data] *)
Definition field_names : list string :=
  [ "album"; "albumartist"; "artist"; "bitrate"; "channels"; "comment";
    "disc"; "disc_total"; "duration"; "genre"; "samplerate"; "bitdepth";
    "title"; "track"; "track_total"; "year"; "_image_data" ].

(** [TinyTag.__init__] *)
Definition TinyTag_init : TinyTag :=
  {| attrs := list_to_map ((fun k => (k, VNone)) <$> field_names);
     extra := ∅;
     filesize := 0;
     _default_encoding := None;
     _parse_tags := true;
     _parse_duration := true;
     _load_image := false;
     _tags_parsed := false;
     _ignore_errors := false;
     _bytepos_after_id3v2 := -1;
     _max_samplenum := 0 |}.

(** [self.<name>] and [getattr(self, name)] for an attribute that exists;
    [dict.get(name)] for any name *)
Definition attr (t : TinyTag) (name : string) : pyval :=
  default VNone (attrs t !! name).

(** [self.<name> = v] *)
Definition set_attr (t : TinyTag) (name : string) (v : pyval) : TinyTag :=
  with_attrs t (<[name := v]> (attrs t)).

(** [TinyTag._set_field] *)
Definition _set_field (self : TinyTag) (fieldname : string) (value : pyval)
  : result TinyTag :=
  if is_str value && negb (truthy value) then Ok self   (* don't set empty value *)
  else
    let to_extra := String.prefix "extra." fieldname in
    let fieldname := if to_extra then str_drop 6 fieldname else fieldname in
    let write_dest := if to_extra then extra self else attrs self in
    let old_value := default VNone (write_dest !! fieldname) in
    let? value :=
      match value with
      | VStr new =>
          if truthy old_value then
            match old_value with
            | VStr old =>
                if String.eqb old new then Ok value
                else Ok (VStr (String.append old (String.append NUL new)))
            | _ => Raise TypeError     (* old_value + '\x00' on a value that is not a str *)
            end
          else Ok value
      | _ => Ok value
      end in
    Ok (if to_extra
        then with_extra self (<[fieldname := value]> write_dest)
        else with_attrs self (<[fieldname := value]> write_dest)).

(** what a field that held [old] holds after [_set_field] has written
    [new] without raising *)
Definition merge_field (old new : pyval) : pyval :=
  match new with
  | VStr n =>
      if String.eqb n "" then old
      else match old with
           | VStr o => if String.eqb o "" || String.eqb o n then new
                       else VStr (String.append o (String.append NUL n))
           | _ => new
           end
  | _ => new
  end.

Definition update_keys : list string :=
  [ "track"; "track_total"; "title"; "artist";
    "album"; "albumartist"; "year"; "duration";
    "genre"; "disc"; "disc_total"; "comment";
    "bitdepth"; "bitrate"; "channels"; "samplerate";
    "_image_data" ].

Definition update_key (other : TinyTag) (acc : result TinyTag) (key : string)
  : result TinyTag :=
  let? self := acc in
  let new_value := attr other key in
  if truthy new_value then _set_field self key new_value else Ok self.

Definition update_extra (key : string) (value : pyval) (acc : result TinyTag)
  : result TinyTag :=
  let? self := acc in _set_field self (String.append "extra." key) value.

(** [TinyTag._update].  The entries of [other.extra] have distinct keys
    and are written under distinct keys of [self.extra], so the order in
    which the dictionary is walked does not change the outcome. *)
Definition _update (self other : TinyTag) : result TinyTag :=
  map_fold update_extra (fold_left (update_key other) update_keys (Ok self)) (extra other).

(** [TinyTag._bytes_to_int] *)
Definition _bytes_to_int (b : list Z) : Z :=
  fold_left (fun accu elem => Z.shiftl accu 8 + elem) b 0.

(** the value [_set_field] finds under [fieldname]: in [self.extra] for a
    name that starts with [extra.], in the instance dictionary otherwise *)
Definition lookup_field (t : TinyTag) (fieldname : string) : pyval :=
  if String.prefix "extra." fieldname
  then default VNone (extra t !! str_drop 6 fieldname)
  else attr t fieldname.

(** [b.startswith(sub)] and [b.find(sub, start)] on [bytes] *)
Fixpoint starts_with (sub b : bytes) : bool :=
  match sub, b with
  | [], _ => true
  | x :: sub', y :: b' => Byte.eqb x y && starts_with sub' b'
  | _ :: _, [] => false
  end.

Fixpoint find_from (sub b : bytes) (i : nat) : option nat :=
  if starts_with sub b then Some i
  else match b with
       | [] => None
       | _ :: b' => find_from sub b' (S i)
       end.

Definition bytes_find (sub b : bytes) (start : nat) : option nat :=
  find_from sub (drop start b) start.

Definition bytes_eqb (a b : bytes) : bool :=
  (length a =? length b)%nat && starts_with a b.

(** [a < b] on [bytes]: the first byte that differs decides, and a
    proper prefix is smaller *)
Fixpoint bytes_ltb (a b : bytes) : bool :=
  match a, b with
  | _, [] => false
  | [], _ :: _ => true
  | x :: a', y :: b' =>
      (byte_val x <? byte_val y) || ((byte_val x =? byte_val y) && bytes_ltb a' b')
  end.

(** ** Operations on [str] and [bytes] *)

Definition chars (s : string) : list ascii := list_ascii_of_string s.
Definition str (l : list ascii) : string := string_of_list_ascii l.

Fixpoint lstrip_with {A} (p : A -> bool) (l : list A) : list A :=
  match l with
  | [] => []
  | x :: l' => if p x then lstrip_with p l' else l
  end.

Definition strip_with {A} (p : A -> bool) (l : list A) : list A :=
  rev (lstrip_with p (rev (lstrip_with p l))).

(** [s.partition(sep)] for a separator of one character: the part
    before, whether the separator was found, the part after *)
Fixpoint partition_chars (sep : ascii) (l : list ascii)
  : list ascii * bool * list ascii :=
  match l with
  | [] => ([], false, [])
  | c :: l' =>
      if Ascii.eqb c sep then ([], true, l')
      else let '(a, found, b) := partition_chars sep l' in (c :: a, found, b)
  end.

Definition str_partition (sep : ascii) (s : string) : string * bool * string :=
  let '(a, found, b) := partition_chars sep (chars s) in (str a, found, str b).

(** [sep in s] *)
Definition str_contains (sep : ascii) (s : string) : bool :=
  snd (fst (str_partition sep s)).

(** [s.split(sep)[:2]] for a string that contains [sep] *)
Definition split_first_two (sep : ascii) (s : string) : string * string :=
  let '(a, _, b) := str_partition sep s in
  (a, fst (fst (str_partition sep b))).

(** [s[i:-1]] *)
Definition slice_to_last {A} (i : nat) (l : list A) : list A :=
  take (length l - 1 - i) (drop i l).

(** [s[-n:]] *)
Definition last_n {A} (n : nat) (l : list A) : list A := drop (length l - n) l.

Definition is_nul (b : byte) : bool := byte_val b =? 0.

(** [b.isalpha()] on [bytes]: not empty, ASCII letters only *)
Definition bytes_isalpha (b : bytes) : bool :=
  match b with
  | [] => false
  | _ => forallb (fun x => let v := byte_val x in
                           ((65 <=? v) && (v <=? 90)) || ((97 <=? v) && (v <=? 122))) b
  end.

(** [TinyTag._unpad]: [s.strip('\x00')] *)
Definition _unpad (s : string) : string :=
  str (strip_with (Ascii.eqb (ascii_of_nat 0)) (chars s)).

(** ** [_ID3]: the ID3v2 header and the MP3 duration estimate *)

Module ID3.

(** [_ID3._calc_size(bytestr, bits_per_byte)]:
    [reduce(lambda accu, elem: (accu << bits_per_byte) + elem, bytestr, 0)] *)
Definition _calc_size (bytestr : list Z) (bits_per_byte : Z) : Z :=
  fold_left (fun accu elem => Z.shiftl accu bits_per_byte + elem) bytestr 0.

(** Modelled from the spec: the synchsafe encoder.  The module only
    decodes sizes; the encoder is the one the specification describes
    (seven payload bits per byte, most significant group first). *)
Definition synchsafe_encode (n : Z) : list Z :=
  [ Z.land (Z.shiftr n 21) 127;
    Z.land (Z.shiftr n 14) 127;
    Z.land (Z.shiftr n 7) 127;
    Z.land n 127 ].

Definition _MAX_ESTIMATION_SEC : Z := 30.
Definition _CBR_DETECTION_FRAME_COUNT : Z := 5.
Definition _USE_XING_HEADER : bool := true.

Definition samplerates : list (list Z) :=
  [ [11025; 12000; 8000];    (* MPEG 2.5 *)
    [];                      (* reserved *)
    [22050; 24000; 16000];   (* MPEG 2 *)
    [44100; 48000; 32000] ]. (* MPEG 1 *)

Definition v1l1 : list Z := [0; 32; 64; 96; 128; 160; 192; 224; 256; 288; 320; 352; 384; 416; 448; 0].
Definition v1l2 : list Z := [0; 32; 48; 56; 64; 80; 96; 112; 128; 160; 192; 224; 256; 320; 384; 0].
Definition v1l3 : list Z := [0; 32; 40; 48; 56; 64; 80; 96; 112; 128; 160; 192; 224; 256; 320; 0].
Definition v2l1 : list Z := [0; 32; 48; 56; 64; 80; 96; 112; 128; 144; 160; 176; 192; 224; 256; 0].
Definition v2l2 : list Z := [0; 8; 16; 24; 32; 40; 48; 56; 64; 80; 96; 112; 128; 144; 160; 0].
Definition v2l3 : list Z := v2l2.

(** [None] entries are the reserved version and the reserved layer *)
Definition bitrate_by_version_by_layer : list (option (list (option (list Z)))) :=
  [ Some [None; Some v2l3; Some v2l2; Some v2l1];   (* MPEG Version 2.5 *)
    None;                                           (* reserved *)
    Some [None; Some v2l3; Some v2l2; Some v2l1];   (* MPEG Version 2 *)
    Some [None; Some v1l3; Some v1l2; Some v1l1] ]. (* MPEG Version 1 *)

Definition samples_per_frame : Z := 1152.

Definition ID3V1_GENRES : list string :=
  [ "Blues"; "Classic Rock"; "Country"; "Dance"; "Disco"; "Funk"; "Grunge";
    "Hip-Hop"; "Jazz"; "Metal"; "New Age"; "Oldies"; "Other"; "Pop"; "R&B";
    "Rap"; "Reggae"; "Rock"; "Techno"; "Industrial"; "Alternative"; "Ska";
    "Death Metal"; "Pranks"; "Soundtrack"; "Euro-Techno"; "Ambient";
    "Trip-Hop"; "Vocal"; "Jazz+Funk"; "Fusion"; "Trance"; "Classical";
    "Instrumental"; "Acid"; "House"; "Game"; "Sound Clip"; "Gospel";
    "Noise"; "AlternRock"; "Bass"; "Soul"; "Punk"; "Space"; "Meditative";
    "Instrumental Pop"; "Instrumental Rock"; "Ethnic"; "Gothic";
    "Darkwave"; "Techno-Industrial"; "Electronic"; "Pop-Folk"; "Eurodance";
    "Dream"; "Southern Rock"; "Comedy"; "Cult"; "Gangsta"; "Top 40";
    "Christian Rap"; "Pop/Funk"; "Jungle"; "Native American"; "Cabaret";
    "New Wave"; "Psychadelic"; "Rave"; "Showtunes"; "Trailer"; "Lo-Fi";
    "Tribal"; "Acid Punk"; "Acid Jazz"; "Polka"; "Retro"; "Musical";
    "Rock & Roll"; "Hard Rock"; "Folk"; "Folk-Rock"; "National Folk";
    "Swing"; "Fast Fusion"; "Bebob"; "Latin"; "Revival"; "Celtic";
    "Bluegrass"; "Avantgarde"; "Gothic Rock"; "Progressive Rock";
    "Psychedelic Rock"; "Symphonic Rock"; "Slow Rock"; "Big Band";
    "Chorus"; "Easy Listening"; "Acoustic"; "Humour"; "Speech"; "Chanson";
    "Opera"; "Chamber Music"; "Sonata"; "Symphony"; "Booty Bass"; "Primus";
    "Porn Groove"; "Satire"; "Slow Jam"; "Club"; "Tango"; "Samba";
    "Folklore"; "Ballad"; "Power Ballad"; "Rhythmic Soul"; "Freestyle";
    "Duet"; "Punk Rock"; "Drum Solo"; "A capella"; "Euro-House";
    "Dance Hall"; "Goa"; "Drum & Bass"; "Club-House"; "Hardcore Techno";
    "Terror"; "Indie"; "BritPop"; ""; "Polsk Punk"; "Beat";
    "Christian Gangsta Rap"; "Heavy Metal"; "Black Metal";
    "Contemporary Christian"; "Christian Rock"; "Merengue"; "Salsa";
    "Thrash Metal"; "Anime"; "Jpop"; "Synthpop"; "Abstract"; "Art Rock";
    "Baroque"; "Bhangra"; "Big Beat"; "Breakbeat"; "Chillout"; "Downtempo";
    "Dub"; "EBM"; "Eclectic"; "Electro"; "Electroclash"; "Emo";
    "Experimental"; "Garage"; "Illbient"; "Industro-Goth"; "Jam Band";
    "Krautrock"; "Leftfield"; "Lounge"; "Math Rock"; "New Romantic";
    "Nu-Breakz"; "Post-Punk"; "Post-Rock"; "Psytrance"; "Shoegaze";
    "Space Rock"; "Trop Rock"; "World Music"; "Neoclassical"; "Audiobook";
    "Audio Theatre"; "Neue Deutsche Welle"; "Podcast"; "Indie Rock";
    "G-Funk"; "Dubstep"; "Garage Rock"; "Psybient" ].

Definition channels_per_channel_mode : list Z := [2; 2; 2; 1].

(** [seq[i]] on a list, for an index that is not negative *)
Definition index {A} (l : list A) (i : Z) : result A :=
  match l !! Z.to_nat i with
  | Some a => Ok a
  | None => Raise IndexError
  end.

(** subscripting an entry that may be [None] *)
Definition not_none {A} (o : option A) : result A :=
  match o with
  | Some a => Ok a
  | None => Raise TypeError
  end.

Definition Xing : bytes := bytes_of_string "Xing".

(** [_ID3._parse_xing_header] *)
Definition _parse_xing_header (fh : BinaryIO) : result (Z * Z * BinaryIO) :=
  let? fh := seek_cur 4 fh in                       (* read over Xing header *)
  let '(b, fh) := read 4 fh in
  let? header_flags := unpack_be_signed 4 b in
  let? (frames, fh) :=
    if negb (Z.land header_flags 1 =? 0)            (* FRAMES FLAG *)
    then let '(b, fh) := read 4 fh in
         let? v := unpack_be_signed 4 b in Ok (v, fh)
    else Ok (0, fh) in
  let? (byte_count, fh) :=
    if negb (Z.land header_flags 2 =? 0)            (* BYTES FLAG *)
    then let '(b, fh) := read 4 fh in
         let? v := unpack_be_signed 4 b in Ok (v, fh)
    else Ok (0, fh) in
  let? fh := if negb (Z.land header_flags 4 =? 0)   (* TOC FLAG *)
             then seek_cur 100 fh else Ok fh in
  let? fh := if negb (Z.land header_flags 8 =? 0)   (* VBR SCALE FLAG *)
             then seek_cur 4 fh else Ok fh in
  Ok (frames, byte_count, fh).

(** [_ID3._parse_id3v2_header]: returns [(size, extended, major)] *)
Definition _parse_id3v2_header (self : TinyTag) (fh : BinaryIO)
  : result (Z * bool * Z * TinyTag * BinaryIO) :=
  let '(b, fh) := read 10 fh in
  if negb (length b =? 10)%nat then Raise StructError
  else
    let header := byte_val <$> b in
    let '(size, extended, major) :=
      if bytes_eqb (take 3 b) (bytes_of_string "ID3")
      then (_calc_size (slice 6 10 header) 7,
            0 <? Z.land (nth 5 header 0) 64,
            nth 3 header 0)
      else (0, false, 0) in
    Ok (size, extended, major, with_bytepos_after_id3v2 self size, fh).

(** [x / v] where [x] is an [int] and [v] an attribute *)
Definition int_div_attr (what : string) (a : Z) (v : pyval) : result float :=
  match v with
  | VInt b => int_truediv what a b
  | VFloat f => float_truediv what (py_float a) f
  | _ => Raise TypeError
  end.

(** the local variables of the loop of [_determine_duration] *)
Record scan : Type := mkScan {
  s_self : TinyTag;
  s_fh : BinaryIO;
  s_walker : BinaryIO;
  s_frames : Z;
  s_bitrate_accu : Z;
  s_frame_size_accu : Z;
  s_last_bitrates : list Z;
  s_audio_offset : Z
}.

(** the fields of the four header bytes [_sync, conf, bitrate_freq, rest]
    at the start of the peeked buffer [b] *)
Definition br_id_of (b : bytes) : Z :=        (* biterate id *)
  Z.land (Z.shiftr (byte_val (nth 2 b x00)) 4) 15.
Definition sr_id_of (b : bytes) : Z :=        (* sample rate id *)
  Z.land (Z.shiftr (byte_val (nth 2 b x00)) 2) 3.
Definition padding_of (b : bytes) : Z :=
  if 0 <? Z.land (byte_val (nth 2 b x00)) 2 then 1 else 0.
Definition mpeg_id_of (b : bytes) : Z :=
  Z.land (Z.shiftr (byte_val (nth 1 b x00)) 3) 3.
Definition layer_id_of (b : bytes) : Z :=
  Z.land (Z.shiftr (byte_val (nth 1 b x00)) 1) 3.
Definition channel_mode_of (b : bytes) : Z :=
  Z.land (Z.shiftr (byte_val (nth 3 b x00)) 6) 3.

(** [not b[:2] > b'\xFF\xE0' or br_id > 14 or br_id == 0 or sr_id == 3
    or layer_id == 0 or mpeg_id == 1], for a buffer of at least four
    bytes; two [bytes] of length two compare byte by byte *)
Definition invalid_frame (b : bytes) : bool :=
  negb ((byte_val (nth 0 b x00) =? 255) && (224 <? byte_val (nth 1 b x00)))
  || (14 <? br_id_of b) || (br_id_of b =? 0) || (sr_id_of b =? 3)
  || (layer_id_of b =? 0) || (mpeg_id_of b =? 1).

(** [576 if mpeg_id <= 2 else self.samples_per_frame] *)
Definition xing_samples_per_frame (mpeg_id : Z) : Z :=
  if mpeg_id <=? 2 then 576 else samples_per_frame.

(** how the loop of [_determine_duration] is left *)
Inductive scan_exit : Type :=
| Returned (self : TinyTag) (fh : BinaryIO)              (* [return] *)
| Broke (self : TinyTag) (fh : BinaryIO) (frames : Z).   (* [break] at EOF *)

(** one pass through the body of [while True]: the loop is left ([inl])
    or goes round again ([inr]) *)
Definition scan_step (file_offset : Z) (st : scan)
  : result (scan_exit + scan) :=
  let self := s_self st in
  let walker := s_walker st in
  let frames := s_frames st in
  (* reading through garbage until 11 '1' sync-bits are found *)
  let '(b, walker) := read_all walker in
  let? walker := seek_cur (- Z.of_nat (length b)) walker in
  if (length b <? 4)%nat then
    let? self :=
      if negb (frames =? 0)
      then let? br := int_truediv "frames" (s_bitrate_accu st) frames in
           Ok (set_attr self "bitrate" (VFloat br))
      else Ok self in
    Ok (inl (Broke self (s_fh st) frames))           (* EOF *)
  else
    let padding := padding_of b in
    let mpeg_id := mpeg_id_of b in
    let layer_id := layer_id_of b in
    let br_id := br_id_of b in
    let sr_id := sr_id_of b in
    let channel_mode := channel_mode_of b in
    (* check for eleven 1s, validate bitrate and sample rate *)
    if invalid_frame b then
      (* invalid frame, find next sync header *)
      let idx := match bytes_find [xff] b 1 with
                 | Some i => Z.of_nat i
                 | None => Z.of_nat (length b)   (* not found: jump over the current peek buffer *)
                 end in
      let? walker := seek_cur (Z.max idx 1) walker in
      Ok (inr (mkScan self (s_fh st) walker frames (s_bitrate_accu st)
                      (s_frame_size_accu st) (s_last_bitrates st) (s_audio_offset st)))
    else
      let? channels := index channels_per_channel_mode channel_mode in
      let self := set_attr self "channels" (VInt channels) in
      let? by_layer := let? o := index bitrate_by_version_by_layer mpeg_id in not_none o in
      let? by_id := let? o := index by_layer layer_id in not_none o in
      let? frame_bitrate := index by_id br_id in
      let? samplerate := let? row := index samplerates mpeg_id in index row sr_id in
      let self := set_attr self "samplerate" (VInt samplerate) in
      (* There might be a xing header in the first frame that contains
         all the info we need *)
      let xing := if (frames =? 0) && _USE_XING_HEADER
                  then bytes_find Xing b 0 else None in
      match xing with
      | Some xing_header_offset =>
          let? walker := seek_cur (Z.of_nat xing_header_offset) walker in
          let? (xframes, byte_count, walker) := _parse_xing_header walker in
          if (0 <? xframes) && (0 <? byte_count) then
            (* MPEG-2 Audio Layer III uses 576 samples per frame *)
            let spf := xing_samples_per_frame mpeg_id in
            let? duration := int_truediv "samplerate" (xframes * spf) samplerate in
            let self := set_attr self "duration" (VFloat duration) in
            let? x := float_truediv "duration" (py_float (byte_count * 8)) duration in
            let self := set_attr self "bitrate" (VFloat (x / py_float 1000)%float) in
            Ok (inl (Returned self (s_fh st)))
          else
            Ok (inr (mkScan self (s_fh st) walker frames (s_bitrate_accu st)
                            (s_frame_size_accu st) (s_last_bitrates st) (s_audio_offset st)))
      | None =>
          let frames := frames + 1 in                (* it's most probably an mp3 frame *)
          let bitrate_accu := s_bitrate_accu st + frame_bitrate in
          let audio_offset := if frames =? 1 then file_offset + tell walker
                              else s_audio_offset st in
          let last_bitrates := if frames <=? _CBR_DETECTION_FRAME_COUNT
                               then (s_last_bitrates st ++ [frame_bitrate])%list
                               else s_last_bitrates st in
          let? walker := seek_cur 4 walker in        (* jump over peeked bytes *)
          let frame_length := 144000 * frame_bitrate / samplerate + padding in
          let frame_size_accu := s_frame_size_accu st + frame_length in
          (* if bitrate does not change over time its probably CBR *)
          let is_cbr := (frames =? _CBR_DETECTION_FRAME_COUNT)
                        && match last_bitrates with
                           | [] => false
                           | x :: l => forallb (Z.eqb x) l
                           end in
          (* (_MAX_ESTIMATION_SEC * 44100) // samples_per_frame *)
          let max_estimation_frames := _MAX_ESTIMATION_SEC * 44100 / samples_per_frame in
          if (frames =? max_estimation_frames) || is_cbr then
            (* try to estimate duration *)
            let? fh := seek_end (-128) (s_fh st) in  (* jump to last byte (leaving out id3v1 tag) *)
            let audio_stream_size := tell fh - audio_offset in
            let? mean := int_truediv "frames" frame_size_accu frames in
            let? est_frame_count := float_truediv "frame_size" (py_float audio_stream_size) mean in
            let samples := (est_frame_count * py_float samples_per_frame)%float in
            let? duration := float_truediv "samplerate" samples (py_float samplerate) in
            let self := set_attr self "duration" (VFloat duration) in
            let? br := int_truediv "frames" bitrate_accu frames in
            let self := set_attr self "bitrate" (VFloat br) in
            Ok (inl (Returned self fh))
          else
            let? walker := if 1 <? frame_length      (* jump over current frame body *)
                           then seek_cur (frame_length - 4) walker else Ok walker in
            Ok (inr (mkScan self (s_fh st) walker frames bitrate_accu
                            frame_size_accu last_bitrates audio_offset))
      end.

Fixpoint scan_loop (fuel : nat) (file_offset : Z) (st : scan)
  : result scan_exit :=
  match fuel with
  | O => OutOfFuel
  | S fuel' =>
      let? r := scan_step file_offset st in
      match r with
      | inl out => Ok out
      | inr st' => scan_loop fuel' file_offset st'
      end
  end.

(** [_ID3._determine_duration] *)
Definition _determine_duration (self : TinyTag) (fh : BinaryIO)
  : result (TinyTag * BinaryIO) :=
  (* if tag reading was disabled, find start position of audio data *)
  let? (self, fh) :=
    if _bytepos_after_id3v2 self =? -1
    then let? (_, _, _, self, fh) := _parse_id3v2_header self fh in Ok (self, fh)
    else Ok (self, fh) in
  (* seek to first position after id3 tag (speedup for large header) *)
  let? fh := seek_set (_bytepos_after_id3v2 self) fh in
  let file_offset := tell fh in
  let '(rest, fh) := read_all fh in
  let walker := BytesIO rest in
  let? out :=
    scan_loop (S (length rest)) file_offset (mkScan self fh walker 0 0 0 [] 0) in
  match out with
  | Returned self fh => Ok (self, fh)
  | Broke self fh frames =>
      if truthy (attr self "samplerate")
      then let? d := int_div_attr "samplerate" (frames * samples_per_frame)
                                  (attr self "samplerate") in
           Ok (set_attr self "duration" (VFloat d), fh)
      else Ok (self, fh)
  end.

(** *** ID3v2 frames and the ID3v1 tag *)

(** Mapping from Frame ID to a field of the TinyTag *)
Definition FRAME_ID_TO_FIELD : list (string * string) :=
  [ ("COMM", "comment"); ("COM", "comment"); ("TRCK", "track");
    ("TRK", "track"); ("TYER", "year"); ("TYE", "year"); ("TDRC", "year");
    ("TALB", "album"); ("TAL", "album"); ("TPE1", "artist");
    ("TP1", "artist"); ("TIT2", "title"); ("TT2", "title");
    ("TCON", "genre"); ("TCO", "genre"); ("TPOS", "disc"); ("TPA", "disc");
    ("TPE2", "albumartist"); ("TP2", "albumartist");
    ("TCOM", "extra.composer"); ("TCM", "extra.composer");
    ("WOAR", "extra.url"); ("WAR", "extra.url"); ("TSRC", "extra.isrc");
    ("TCOP", "extra.copyright"); ("TCR", "extra.copyright");
    ("TBPM", "extra.bpm"); ("TKEY", "extra.initial_key");
    ("TLAN", "extra.language"); ("TLA", "extra.language");
    ("TPUB", "extra.publisher"); ("TPB", "extra.publisher");
    ("USLT", "extra.lyrics"); ("ULT", "extra.lyrics") ].

Definition IMAGE_FRAME_IDS : list string := ["APIC"; "PIC"].
Definition CUSTOM_FRAME_IDS : list string := ["TXXX"; "TXX"].
Definition DISALLOWED_FRAME_IDS : list string :=
  ["PRIV"; "RGAD"; "GEOB"; "GEO";
   str [ascii_of_nat 255; ascii_of_nat 251; ascii_of_nat 176; ascii_of_nat 100]].

Definition str_in (s : string) (l : list string) : bool := existsb (String.eqb s) l.

(** [FRAME_ID_TO_FIELD.get(frame_id)] *)
Fixpoint assoc_get (l : list (string * string)) (k : string) : option string :=
  match l with
  | [] => None
  | (k', v) :: l' => if String.eqb k' k then Some v else assoc_get l' k
  end.

(** [_ID3._index_utf16] *)
Fixpoint index_utf16_from (fuel : nat) (s search : bytes) (i : nat) : Z :=
  match fuel with
  | O => -1
  | S fuel' =>
      if (length s <=? i)%nat then -1
      else if bytes_eqb (take (length search) (drop i s)) search then Z.of_nat i
      else index_utf16_from fuel' s search (i + length search)
  end.

Definition _index_utf16 (s search : bytes) : Z :=
  index_utf16_from (S (length s)) s search 0.

Section Tags.
Context {R : PyRuntime}.

Definition BOM_BE : bytes := [xfe; xff].
Definition BOM_LE : bytes := [xff; xfe].
Definition is_bom (b : bytes) : bool := bytes_eqb b BOM_BE || bytes_eqb b BOM_LE.

(** [_ID3._decode_string] *)
Definition _decode_string (self : TinyTag) (bytestr : bytes) (language : bool)
  : result string :=
  let default_encoding :=
    match _default_encoding self with
    | Some e => if String.eqb e "" then "ISO-8859-1" else e
    | None => "ISO-8859-1"
    end in
  (* it's not my fault, this is the spec. *)
  let first_byte := take 1 bytestr in
  let '(bytestr, encoding) :=
    if bytes_eqb first_byte [x00] then                 (* ISO-8859-1 *)
      (drop 1 bytestr, default_encoding)
    else if bytes_eqb first_byte [x01] then            (* UTF-16 with BOM *)
      let bytestr := drop 1 bytestr in
      (* remove language (but leave BOM) *)
      let bytestr :=
        if language then
          let bytestr := if is_bom (slice 3 5 bytestr) then drop 3 bytestr else bytestr in
          let bytestr := if bytes_isalpha (take 3 bytestr)
                         then drop 3 bytestr else bytestr in   (* remove language *)
          lstrip_with is_nul bytestr          (* strip optional additional null bytes *)
        else bytestr in
      (* read byte order mark to determine endianness *)
      let encoding := if bytes_eqb (take 2 bytestr) BOM_BE then "UTF-16be" else "UTF-16le" in
      (* strip the bom if it exists *)
      let bytestr :=
        if is_bom (take 2 bytestr)
        then if (length bytestr mod 2 =? 0)%nat then drop 2 bytestr
             else slice_to_last 2 bytestr
        else bytestr in
      (* remove ADDITIONAL EXTRA BOM *)
      let bytestr := if bytes_eqb (take 4 bytestr) [x00; x00; xff; xfe]
                     then drop 4 bytestr else bytestr in
      (bytestr, encoding)
    else if bytes_eqb first_byte [x02] then            (* UTF-16LE *)
      (* strip optional null byte, if byte count uneven *)
      (if (length bytestr mod 2 =? 0)%nat then slice_to_last 1 bytestr else drop 1 bytestr,
       "UTF-16le")
    else if bytes_eqb first_byte [x03] then            (* UTF-8 *)
      (drop 1 bytestr, "UTF-8")
    else (bytestr, default_encoding) in                (* wild guess *)
  let bytestr := if language && bytes_isalpha (take 3 bytestr)
                 then drop 3 bytestr else bytestr in   (* remove language *)
  let errors := if _ignore_errors self then "ignore" else "strict" in
  let? s := py_decode encoding errors bytestr in
  Ok (_unpad s).

(** [_ID3.__parse_custom_field] *)
Definition __parse_custom_field (self : TinyTag) (content : string)
  : result (bool * TinyTag) :=
  let '(custom_field_name, separator, value) := str_partition (ascii_of_nat 0) content in
  if negb (String.eqb custom_field_name "") && separator then
    let? self := _set_field self (String.append "extra." (py_lower custom_field_name))
                            (VStr (py_lstrip_bom value)) in
    Ok (true, self)
  else Ok (false, self).

(** the [try] block of [_parse_frame] with its [except ValueError] and
    [else] clauses: the field of a frame whose id is in the table *)
Definition set_frame_field (self : TinyTag) (fieldname value : string)
  : result TinyTag :=
  if String.eqb fieldname "comment" then
    (* check if comment is a key-value pair (used by iTunes) *)
    let? (custom, self) := __parse_custom_field self value in
    if custom then Ok self else _set_field self fieldname (VStr value)
  else if str_in fieldname ["track"; "disc"] then
    let '(value, total) :=
      if str_contains "/" value
      then let '(v, t) := split_first_two "/" value in (v, Some t)
      else (value, None) in
    let after_total : option (result TinyTag) :=
      match total with
      | Some t =>
          match py_int t with
          | Some n => Some (_set_field self (String.append fieldname "_total") (VInt n))
          | None => None                       (* ValueError *)
          end
      | None => Some (Ok self)
      end in
    match after_total with
    | None => Ok self
    | Some r =>
        let? self := r in
        match py_int value with
        | Some n => _set_field self fieldname (VInt n)
        | None => Ok self                      (* ValueError *)
        end
    end
  else if String.eqb fieldname "genre" then
    (* funky: id3v1 genre hidden in a id3v2 field *)
    let inner := str (slice_to_last 1 (chars value)) in
    let genre_id : option Z :=
      if py_isdigit value then py_int value
      (* funkier: the TCO may contain genres in parens, e.g. '(13)' *)
      else if String.eqb (str (take 1 (chars value))) "("
              && String.eqb (str (last_n 1 (chars value))) ")"
              && py_isdigit inner
      then py_int inner
      else Some 255 in
    match genre_id with
    | None => Ok self                          (* ValueError *)
    | Some genre_id =>
        let value :=
          if (0 <=? genre_id) && (genre_id <? Z.of_nat (length ID3V1_GENRES))
          then nth (Z.to_nat genre_id) ID3V1_GENRES value else value in
        _set_field self fieldname (VStr value)
    end
  else _set_field self fieldname (VStr value).

(** [content.index(b'\x00', 1)] *)
Definition index_nul_from_1 (content : bytes) : result Z :=
  match bytes_find [x00] content 1 with
  | Some i => Ok (Z.of_nat i)
  | None => Raise ValueError
  end.

(** [_ID3._parse_frame]: returns the frame size *)
Definition _parse_frame (self : TinyTag) (fh : BinaryIO) (id3version : Z)
  : result (Z * TinyTag * BinaryIO) :=
  (* ID3v2.2 especially ugly. *)
  let frame_header_size := if id3version =? 2 then 6 else 10 in
  let frame_size_bytes := if id3version =? 2 then 3%nat else 4%nat in
  let id_bytes := if id3version =? 2 then 3%nat else 4%nat in
  let bits_per_byte := if id3version =? 4 then 7 else 8 in   (* only id3v2.4 is synchsafe *)
  let '(frame_header_data, fh) := read frame_header_size fh in
  if negb (Z.of_nat (length frame_header_data) =? frame_header_size) then Ok (0, self, fh)
  else
    let? frame_id := _decode_string self (take id_bytes frame_header_data) false in
    let frame_size :=
      _calc_size (byte_val <$> slice id_bytes (id_bytes + frame_size_bytes) frame_header_data)
                 bits_per_byte in
    if 0 <? frame_size then
      let '(content, fh) := read frame_size fh in
      match assoc_get FRAME_ID_TO_FIELD frame_id with
      | Some fieldname =>
          if negb (_parse_tags self) then Ok (frame_size, self, fh)
          else
            let language := str_in fieldname ["comment"; "extra.lyrics"] in
            let? value := _decode_string self content language in
            let? self := set_frame_field self fieldname value in
            Ok (frame_size, self, fh)
      | None =>
          if str_in frame_id CUSTOM_FRAME_IDS then
            (* custom fields *)
            if _parse_tags self then
              let? s := _decode_string self content false in
              let? (_, self) := __parse_custom_field self s in
              Ok (frame_size, self, fh)
            else Ok (frame_size, self, fh)
          else if str_in frame_id IMAGE_FRAME_IDS then
            if _load_image self then
              let encoding := take 1 content in
              let? desc_start_pos :=
                if String.eqb frame_id "PIC"
                then Ok (1 + 3 + 1)    (* skip encoding (1), imgformat (3), pictype(1) *)
                else let? i := index_nul_from_1 content in
                     Ok (i + 1 + 1) in (* skip mtype, pictype(1) *)
              (* latin1 and utf-8 are 1 byte *)
              let termination :=
                if bytes_eqb encoding [x00] || bytes_eqb encoding [x03]
                then [x00] else [x00; x00] in
              let desc_length :=
                _index_utf16 (drop (Z.to_nat desc_start_pos) content) termination in
              let desc_end_pos := desc_start_pos + desc_length + Z.of_nat (length termination) in
              Ok (frame_size,
                  set_attr self "_image_data"
                           (VBytes (drop (Z.to_nat desc_end_pos) content)),
                  fh)
            else Ok (frame_size, self, fh)
          else if negb (str_in frame_id DISALLOWED_FRAME_IDS) then
            (* unknown, try to add to extra dict *)
            if _parse_tags self then
              let? s := _decode_string self content false in
              let? self := _set_field self (String.append "extra." (py_lower frame_id))
                                      (VStr s) in
              Ok (frame_size, self, fh)
            else Ok (frame_size, self, fh)
          else Ok (frame_size, self, fh)
      end
    else Ok (0, self, fh).

(** the [while parsed_size < size] loop of [_parse_id3v2] *)
Fixpoint frames_loop (fuel : nat) (self : TinyTag) (fh : BinaryIO)
         (major size parsed_size : Z) : result (TinyTag * BinaryIO) :=
  match fuel with
  | O => OutOfFuel
  | S fuel' =>
      if parsed_size <? size then
        let? (frame_size, self, fh) := _parse_frame self fh major in
        if frame_size =? 0 then Ok (self, fh)
        else frames_loop fuel' self fh major size (parsed_size + frame_size)
      else Ok (self, fh)
  end.

(** [_ID3._parse_id3v2] *)
Definition _parse_id3v2 (self : TinyTag) (fh : BinaryIO) : result (TinyTag * BinaryIO) :=
  let? (size, extended, major, self, fh) := _parse_id3v2_header self fh in
  if negb (size =? 0) then
    let end_pos := tell fh + size in
    let? fh :=
      if extended : bool then                  (* just read over the extended header. *)
        let '(b, fh) := read 6 fh in
        let size_bytes := take 4 b in
        if negb (length size_bytes =? 4)%nat then Raise StructError
        else
          let extd_size := _calc_size (byte_val <$> size_bytes) 7 in
          seek_cur (extd_size - 6) fh          (* jump over extended_header *)
      else Ok fh in
    let? (self, fh) := frames_loop (S (length (io_data fh))) self fh major size 0 in
    let? fh := seek_set end_pos fh in
    Ok (self, fh)
  else Ok (self, fh).

(** [asciidecode] of [_parse_id3v1] *)
Definition asciidecode (self : TinyTag) (x : bytes) : result string :=
  let encoding :=
    match _default_encoding self with
    | Some e => if String.eqb e "" then "latin1" else e
    | None => "latin1"
    end in
  let? s := py_decode encoding "strict" x in
  Ok (_unpad s).

(** [if not self.<name>: self._set_field(name, asciidecode(b))] *)
Definition set_if_unset (self : TinyTag) (name : string) (b : bytes) : result TinyTag :=
  if negb (truthy (attr self name))
  then let? s := asciidecode self b in _set_field self name (VStr s)
  else Ok self.

(** [_ID3._parse_id3v1] *)
Definition _parse_id3v1 (self : TinyTag) (fh : BinaryIO) : result (TinyTag * BinaryIO) :=
  let '(magic, fh) := read 3 fh in
  if negb (bytes_eqb magic (bytes_of_string "TAG")) then Ok (self, fh)
  else
    (* Only set fields that were not set by ID3v2 tags *)
    let '(fields, fh) := read (30 + 30 + 30 + 4 + 30 + 1) fh in
    let? self := set_if_unset self "title" (slice 0 30 fields) in
    let? self := set_if_unset self "artist" (slice 30 60 fields) in
    let? self := set_if_unset self "album" (slice 60 90 fields) in
    let? self := set_if_unset self "year" (slice 90 94 fields) in
    let comment := slice 94 124 fields in
    (* b'\x00\x00' < comment[-2:] < b'\x01\x00': a zero byte and a track
       number, or the single byte 1 when the stream ends after the first
       byte of the comment *)
    let has_track :=
      bytes_ltb [x00; x00] (last_n 2 comment) && bytes_ltb (last_n 2 comment) [x01; x00] in
    let? (self, comment) :=
      if has_track then
        let? self :=
          match attr self "track" with
          | VNone => _set_field self "track" (VInt (byte_val (nth 0 (last_n 1 comment) x00)))
          | _ => Ok self
          end in
        Ok (self, take (length comment - 2) comment)
      else Ok (self, comment) in
    let? self := set_if_unset self "comment" comment in
    let? self :=
      if negb (truthy (attr self "genre")) then
        match slice 124 125 fields with
        | [g] =>
            let genre_id := byte_val g in
            if genre_id <? Z.of_nat (length ID3V1_GENRES)
            then _set_field self "genre" (VStr (nth (Z.to_nat genre_id) ID3V1_GENRES ""))
            else Ok self
        | _ => Raise TypeError                 (* ord() of an empty bytes *)
        end
      else Ok self in
    Ok (self, fh).

(** [_ID3._parse_tag] *)
Definition _parse_tag (self : TinyTag) (fh : BinaryIO) : result (TinyTag * BinaryIO) :=
  let? (self, fh) := _parse_id3v2 self fh in
  if 128 <? filesize self then
    let? fh := seek_end (-128) fh in         (* try parsing id3v1 in last 128 bytes *)
    _parse_id3v1 self fh
  else Ok (self, fh).

End Tags.

End ID3.

(** ** [_Flac._parse_image] *)

Module FlacPicture.

(** [_Flac._parse_image] *)
Definition _parse_image (fh : BinaryIO) : result (bytes * BinaryIO) :=
  let '(b, fh) := read 8 fh in
  (* _pic_type, mime_len = struct.unpack('>2I', ...) *)
  if negb (length b =? 8)%nat then Raise StructError
  else
    let mime_len := be_uint (drop 4 b) in
    let '(_, fh) := read mime_len fh in
    let '(b, fh) := read 4 fh in
    let? description_len := unpack_be 4 b in
    let '(_, fh) := read description_len fh in
    let '(b, fh) := read 20 fh in
    (* _width, _height, _depth, _colors, pic_len = struct.unpack('>5I', ...) *)
    if negb (length b =? 20)%nat then Raise StructError
    else
      let pic_len := be_uint (drop 16 b) in
      Ok (read pic_len fh).

End FlacPicture.

(** ** [_Ogg]: pages and packets *)

Module Ogg.

(** the local variables of the [for segsize in segsizes] loop, and the
    packets yielded so far *)
Record lacing : Type := mkLacing {
  l_total : Z;
  l_previous_page : bytes;     (* contains data from previous (continuing) pages *)
  l_fh : BinaryIO;
  l_yielded : list bytes
}.

(** the body of [for segsize in segsizes]  (read all segments) *)
Definition segment_step (st : lacing) (segsize : Z) : lacing :=
  let total := l_total st + segsize in
  if total <? 255 then                   (* less than 255 bytes means end of page *)
    let '(d, fh) := read total (l_fh st) in
    mkLacing 0 [] fh (l_yielded st ++ [l_previous_page st ++ d])%list
  else mkLacing total (l_previous_page st) (l_fh st) (l_yielded st).

(** the rest of the loop body, after the segment table has been walked *)
Definition page_end (st : lacing) : lacing :=
  if l_total st =? 0 then st
  else
    let '(d, fh) := read (l_total st) (l_fh st) in
    if l_total st mod 255 =? 0
    then mkLacing (l_total st) (l_previous_page st ++ d)%list fh (l_yielded st)
    else mkLacing (l_total st) [] fh (l_yielded st ++ [l_previous_page st ++ d])%list.

(** [_Ogg._parse_pages], run to its end: the packets it yields, in order,
    and how it ends (the tag object with [_max_samplenum], and the
    stream).  [header_data] has been read before each round. *)
Fixpoint pages_loop (fuel : nat) (self : TinyTag) (fh : BinaryIO)
         (previous_page : bytes) (header_data : bytes) (yielded : list bytes)
  : list bytes * result (TinyTag * BinaryIO) :=
  match fuel with
  | O => (yielded, OutOfFuel)
  | S fuel' =>
      if negb (length header_data =? 27)%nat then (yielded, Ok (self, fh))
      else
        (* struct.unpack('<4sBBqIIiB', header_data) *)
        let oggs := slice 0 4 header_data in
        let version := le_uint (slice 4 5 header_data) in
        let pos := to_signed 64 (le_uint (slice 6 14 header_data)) in
        let segments := le_uint (slice 26 27 header_data) in
        let self := with_max_samplenum self (Z.max (_max_samplenum self) pos) in
        if negb (bytes_eqb oggs (bytes_of_string "OggS")) || negb (version =? 0)
        then (yielded, Raise (TinyTagException "Invalid OGG file"))
        else
          let '(table, fh) := read segments fh in
          if negb (Z.of_nat (length table) =? segments)
          then (yielded, Raise StructError)    (* struct.unpack('B' * segments, ...) *)
          else
            let segsizes := byte_val <$> table in
            let st := fold_left segment_step segsizes (mkLacing 0 previous_page fh yielded) in
            let st := page_end st in
            let '(header_data, fh) := read 27 (l_fh st) in
            pages_loop fuel' self fh (l_previous_page st) header_data (l_yielded st)
  end.

Definition _parse_pages (self : TinyTag) (fh : BinaryIO)
  : list bytes * result (TinyTag * BinaryIO) :=
  let '(header_data, fh') := read 27 fh in      (* read ogg page header *)
  pages_loop (S (length (io_rest fh))) self fh' [] header_data [].

Definition comment_type_to_attr_mapping : list (string * string) :=
  [ ("album", "album"); ("albumartist", "albumartist"); ("title", "title");
    ("artist", "artist"); ("author", "artist"); ("date", "year");
    ("tracknumber", "track"); ("tracktotal", "track_total");
    ("totaltracks", "track_total"); ("discnumber", "disc");
    ("disctotal", "disc_total"); ("totaldiscs", "disc_total");
    ("genre", "genre"); ("description", "comment"); ("comment", "comment");
    ("comments", "comment"); ("composer", "extra.composer"); ("bpm", "extra.bpm");
    ("copyright", "extra.copyright"); ("isrc", "extra.isrc");
    ("lyrics", "extra.lyrics"); ("publisher", "extra.publisher");
    ("language", "extra.language"); ("director", "extra.director");
    ("website", "extra.url") ].

Section Comments.
Context {R : PyRuntime}.

(** the [try] block of [_parse_vorbis_comment] with its [except
    ValueError] and [else] clauses *)
Definition set_comment_field (self : TinyTag) (fieldname value : string)
  : result TinyTag :=
  if ID3.str_in fieldname ["track"; "disc"] then
    let '(value, total) :=
      if str_contains "/" value
      then let '(v, t) := split_first_two "/" value in (v, Some t)
      else (value, None) in
    let after_total : option (result TinyTag) :=
      match total with
      | Some t =>
          match py_int t with
          | Some n => Some (_set_field self (String.append fieldname "_total") (VInt n))
          | None => None                       (* ValueError *)
          end
      | None => Some (Ok self)
      end in
    match after_total with
    | None => Ok self
    | Some r =>
        let? self := r in
        match py_int value with
        | Some n => _set_field self fieldname (VInt n)
        | None => Ok self                      (* ValueError *)
        end
    end
  else if ID3.str_in fieldname ["track_total"; "disc_total"] then
    match py_int value with
    | Some n => _set_field self fieldname (VInt n)
    | None => Ok self                          (* ValueError *)
    end
  else _set_field self fieldname (VStr value).

(** one element of the comment list *)
Definition comment_element (self : TinyTag) (fh : BinaryIO)
  : result (TinyTag * BinaryIO) :=
  let '(b, fh) := read 4 fh in
  let? length := unpack_le 4 b in
  let '(raw, fh) := read length fh in
  match py_decode "UTF-8" "strict" raw with
  | Raise UnicodeDecodeError => Ok (self, fh)        (* continue *)
  | Raise e => Raise e
  | OutOfFuel => OutOfFuel
  | Ok keyvalpair =>
      if str_contains "=" keyvalpair then
        let '(key, _, value) := str_partition "=" keyvalpair in
        let key_lowercase := py_lower key in
        if String.eqb key_lowercase "metadata_block_picture" && _load_image self then
          let? decoded := py_b64decode value in
          let? (image, _) := FlacPicture._parse_image (BytesIO decoded) in
          Ok (set_attr self "_image_data" (VBytes image), fh)
        else
          let fieldname :=
            match ID3.assoc_get comment_type_to_attr_mapping key_lowercase with
            | Some f => f
            | None => String.append "extra." key_lowercase   (* custom fields go in 'extra' *)
            end in
          let? self := set_comment_field self fieldname value in
          Ok (self, fh)
      else Ok (self, fh)
  end.

(** the [for _i in range(elements)] loop; a round that finds no length
    field raises, so the stream bounds the number of rounds *)
Fixpoint comments_loop (fuel : nat) (elements : Z) (self : TinyTag) (fh : BinaryIO)
  : result (TinyTag * BinaryIO) :=
  match fuel with
  | O => OutOfFuel
  | S fuel' =>
      if 0 <? elements then
        let? (self, fh) := comment_element self fh in
        comments_loop fuel' (elements - 1) self fh
      else Ok (self, fh)
  end.

(** [_Ogg._parse_vorbis_comment] *)
Definition _parse_vorbis_comment (self : TinyTag) (fh : BinaryIO) (contains_vendor : bool)
  : result (TinyTag * BinaryIO) :=
  let? fh :=
    if contains_vendor then
      let '(b, fh) := read 4 fh in
      let? vendor_length := unpack_le 4 b in
      seek_cur vendor_length fh                (* jump over vendor *)
    else Ok fh in
  let '(b, fh) := read 4 fh in
  let? elements := unpack_le 4 b in
  comments_loop (S (S (length (io_data fh)))) elements self fh.

End Comments.

(** Modelled from the spec: packets by the lacing rule of the
    specification.  A page is given by the data of its segments; a
    segment of 255 bytes continues the packet into the next segment or
    page, any shorter segment ends it. *)
Fixpoint spec_packets (pending : bytes) (segments : list bytes) : list bytes :=
  match segments with
  | [] => []
  | seg :: segments' =>
      if (length seg <? 255)%nat
      then (pending ++ seg)%list :: spec_packets [] segments'
      else spec_packets (pending ++ seg)%list segments'
  end.

End Ogg.

(** ** [_MP4]: the atom tree *)

Module MP4.

(** what a leaf of the parser tree returns: [{fieldname: value}], in the
    order of insertion *)
Definition fields := list (string * pyval).

(** The parser tree: each key is an atom name which is traversed if
    existing; the leaves are callables which receive the atom data. *)
#[local] Unset Elimination Schemes.
Inductive node : Type :=
| Tree (children : list (bytes * node))
| Leaf (parse : bytes -> result fields).
#[local] Set Elimination Schemes.

(** [path.get(atom_type, None)] *)
Fixpoint path_get (path : list (bytes * node)) (atom_type : bytes) : option node :=
  match path with
  | [] => None
  | (k, n) :: path' => if bytes_eqb k atom_type then Some n else path_get path' atom_type
  end.

(** [_Parser._unpack_integer] *)
Definition _unpack_integer (signed : bool) (value : bytes) : Z :=
  let n := length value in
  if (n =? 1)%nat || (n =? 2)%nat || (n =? 4)%nat || (n =? 8)%nat
  then if signed then to_signed (8 * Z.of_nat n) (be_uint value) else be_uint value
  else -1.

Definition _unpack_integer_unsigned (value : bytes) : Z := _unpack_integer false value.

Section Parsers.
Context {R : PyRuntime}.

(** [atom_decoder_by_type.get(data_type)] applied to the payload *)
Definition atom_decoder_by_type (data_type : Z) : option (bytes -> result pyval) :=
  let text codec := Some (fun x => let? s := py_decode codec "replace" x in Ok (VStr s)) in
  let raw := Some (fun x => Ok (VBytes x)) in
  let sint := Some (fun x => Ok (VInt (_unpack_integer true x))) in
  let uint := Some (fun x => Ok (VInt (_unpack_integer_unsigned x))) in
  match data_type with
  | 1 => text "utf-8"       (* UTF-8 *)
  | 2 => text "utf-16"      (* UTF-16 *)
  | 3 => text "s/jis"       (* S/JIS *)
  | 13 => raw               (* JPEG *)
  | 14 => raw               (* PNG *)
  | 21 => sint              (* BE Signed int *)
  | 22 => uint              (* BE Unsigned int *)
  | 65 => sint              (* 8-bit Signed int *)
  | 66 => sint              (* BE 16-bit Signed int *)
  | 67 => sint              (* BE 32-bit Signed int *)
  | 74 => sint              (* BE 64-bit Signed int *)
  | 75 => uint              (* 8-bit Unsigned int *)
  | 76 => uint              (* BE 16-bit Unsigned int *)
  | 77 => uint              (* BE 32-bit Unsigned int *)
  | 78 => uint              (* BE 64-bit Unsigned int *)
  | _ => None
  end.

(** [_Parser._make_data_atom_parser(fieldname)] *)
Definition _make_data_atom_parser (fieldname : string) (data_atom : bytes)
  : result fields :=
  let? data_type := unpack_be 4 (take 4 data_atom) in
  match atom_decoder_by_type data_type with
  | None => Ok []                          (* don't know how to convert data atom *)
  | Some conversion =>
      (* skip header & null-bytes, convert rest *)
      let? v := conversion (drop 8 data_atom) in Ok [(fieldname, v)]
  end.

(** [_Parser._make_number_parser(fieldname1, fieldname2)] *)
Definition _make_number_parser (fieldname1 fieldname2 : string) (data_atom : bytes)
  : result fields :=
  let number_data := slice 8 14 data_atom in
  (* struct.unpack('>HHH', number_data) *)
  if negb (length number_data =? 6)%nat then Raise StructError
  else
    (* for some reason the first number is always irrelevant. *)
    Ok [(fieldname1, VInt (be_uint (slice 2 4 number_data)));
        (fieldname2, VInt (be_uint (slice 4 6 number_data)))].

(** [_Parser._parse_id3v1_genre]; a negative index counts from the end
    of the list, as Python does *)
Definition _parse_id3v1_genre (data_atom : bytes) : result fields :=
  (* dunno why the genre is offset by -1 but that's how mutagen does it *)
  let? n := unpack_be 2 (drop 8 data_atom) in
  let idx := n - 1 in
  let len := Z.of_nat (length ID3.ID3V1_GENRES) in
  if idx <? len then
    let i := if idx <? 0 then idx + len else idx in
    match ID3.ID3V1_GENRES !! Z.to_nat i with
    | Some g => Ok [("genre", VStr g)]
    | None => Raise IndexError
    end
  else Ok [].

(** [_Parser._read_extended_descriptor] *)
Fixpoint _read_extended_descriptor (n : nat) (esds_atom : BinaryIO) : BinaryIO :=
  match n with
  | O => esds_atom
  | S n' =>
      let '(b, esds_atom) := read 1 esds_atom in
      if negb (bytes_eqb b [x80]) then esds_atom
      else _read_extended_descriptor n' esds_atom
  end.

(** [b.lower()] on [bytes]: the ASCII capitals only *)
Definition bytes_lower (b : bytes) : bytes :=
  (fun x => if (65 <=? byte_val x) && (byte_val x <=? 90)
            then byte_of_Z (byte_val x + 32) else x) <$> b.

(** the loop of [_Parser._parse_custom_field]; [fh] is the [io.BytesIO]
    made of the data of the atom *)
Fixpoint custom_field_loop (fuel : nat) (fh : BinaryIO) (atom_header : bytes)
         (field_name : option string) (data_atom : bytes)
  : result (option string * bytes) :=
  match fuel with
  | O => OutOfFuel
  | S fuel' =>
      if negb (length atom_header =? 8)%nat then Ok (field_name, data_atom)
      else
        let atom_size := be_uint (take 4 atom_header) - 8 in
        let atom_type := drop 4 atom_header in
        let? (field_name, data_atom, fh) :=
          if bytes_eqb atom_type (bytes_of_string "name") then
            let '(v, fh) := read atom_size fh in
            let atom_value := bytes_lower (drop 4 v) in
            let? s := py_decode "utf-8" "replace" atom_value in
            Ok (Some (String.append "extra." s), data_atom, fh)
          else if bytes_eqb atom_type (bytes_of_string "data") then
            let '(v, fh) := read atom_size fh in
            Ok (field_name, v, fh)
          else
            let? fh := seek_cur atom_size fh in
            Ok (field_name, data_atom, fh) in
        let '(atom_header, fh) := read 8 fh in      (* read next atom *)
        custom_field_loop fuel' fh atom_header field_name data_atom
  end.

(** [_Parser._parse_custom_field].  A sub-atom of unknown type whose
    size field is below 8 makes the Python loop seek backwards, and it
    may then read the same header for ever.  The position is all the
    loop depends on, so a run that ends sees no position twice and takes
    no more rounds than there are bytes. *)
Definition _parse_custom_field (data : bytes) : result fields :=
  let fh := BytesIO data in
  let '(atom_header, fh) := read 8 fh in
  let? (field_name, data_atom) :=
    custom_field_loop (S (S (length data))) fh atom_header None [] in
  match field_name with
  | Some name =>
      if (length data_atom <? 8)%nat then Ok []
      else _make_data_atom_parser name data_atom
  | None => Ok []
  end.

(** [_Parser._parse_audio_sample_entry_mp4a] *)
Definition _parse_audio_sample_entry_mp4a (data : bytes) : result fields :=
  let datafh := BytesIO data in
  let? datafh := seek_cur 16 datafh in           (* jump over version and flags *)
  let '(b, datafh) := read 2 datafh in
  let? channels := unpack_be 2 b in
  let? datafh := seek_cur 2 datafh in            (* jump over bit_depth *)
  let? datafh := seek_cur 2 datafh in            (* jump over QT compr id & pkt size *)
  let '(b, datafh) := read 4 datafh in
  let? sr := unpack_be 4 b in
  (* ES Description Atom *)
  let? esds_atom_size := unpack_be 4 (slice 28 32 data) in
  let esds_atom := BytesIO (ztake esds_atom_size (drop 36 data)) in
  let? esds_atom := seek_cur 5 esds_atom in      (* jump over version, flags and tag *)
  (* ES Descriptor *)
  let esds_atom := _read_extended_descriptor 4 esds_atom in
  let? esds_atom := seek_cur 4 esds_atom in      (* jump over ES id, flags and tag *)
  (* Decoder Config Descriptor *)
  let esds_atom := _read_extended_descriptor 4 esds_atom in
  let? esds_atom := seek_cur 9 esds_atom in
  let '(b, esds_atom) := read 4 esds_atom in
  let? avg := unpack_be 4 b in
  let avg_br := int_quotient avg 1000 in         (* kbit/s *)
  Ok [("channels", VInt channels); ("samplerate", VInt sr); ("bitrate", VFloat avg_br)].

(** [_Parser._parse_audio_sample_entry_alac] *)
Definition _parse_audio_sample_entry_alac (data : bytes) : result fields :=
  let? alac_atom_size := unpack_be 4 (slice 28 32 data) in
  let alac_atom := BytesIO (ztake alac_atom_size (drop 36 data)) in
  let? alac_atom := seek_cur 9 alac_atom in
  let '(b, alac_atom) := read 1 alac_atom in
  let? bitdepth := unpack_be_signed 1 b in
  let? alac_atom := seek_cur 3 alac_atom in
  let '(b, alac_atom) := read 1 alac_atom in
  let? channels := unpack_be_signed 1 b in
  let? alac_atom := seek_cur 6 alac_atom in
  let '(b, alac_atom) := read 4 alac_atom in
  let? avg := unpack_be 4 b in
  let avg_br := int_quotient avg 1000 in         (* kbit/s *)
  let '(b, alac_atom) := read 4 alac_atom in
  let? sr := unpack_be 4 b in
  Ok [("channels", VInt channels); ("samplerate", VInt sr);
      ("bitrate", VFloat avg_br); ("bitdepth", VInt bitdepth)].

(** [_Parser._parse_mvhd] *)
Definition _parse_mvhd (data : bytes) : result fields :=
  let walker := BytesIO data in
  let '(b, walker) := read 1 walker in
  let? version := unpack_be_signed 1 b in
  let? walker := seek_cur 3 walker in            (* jump over flags *)
  let? (time_scale, duration) :=
    if version =? 0 then                         (* uses 32 bit integers for timestamps *)
      let? walker := seek_cur 8 walker in        (* jump over create & mod times *)
      let '(b, walker) := read 4 walker in
      let? time_scale := unpack_be 4 b in
      let '(b, walker) := read 4 walker in
      let? duration := unpack_be 4 b in
      Ok (time_scale, duration)
    else                                         (* uses 64 bit integers for timestamps *)
      let? walker := seek_cur 16 walker in       (* jump over create & mod times *)
      let '(b, walker) := read 4 walker in
      let? time_scale := unpack_be 4 b in
      let '(b, walker) := read 8 walker in
      let? duration := unpack_be_signed 8 b in
      Ok (time_scale, duration) in
  let? d := int_truediv "time_scale" duration time_scale in
  Ok [("duration", VFloat d)].

Definition atom (name : list Z) : bytes := byte_of_Z <$> name.
Definition data_atom (parse : bytes -> result fields) : node :=
  Tree [(bytes_of_string "data", Leaf parse)].

(** the atom names that start with the byte [0xA9] *)
Definition c_atom (name : string) : bytes := byte_of_Z 169 :: bytes_of_string name.

Definition META_DATA_TREE : list (bytes * node) :=
  [(bytes_of_string "moov", Tree [(bytes_of_string "udta", Tree [(bytes_of_string "meta",
   Tree [(bytes_of_string "ilst", Tree [
    (c_atom "ART", data_atom (_make_data_atom_parser "artist"));
    (c_atom "alb", data_atom (_make_data_atom_parser "album"));
    (c_atom "cmt", data_atom (_make_data_atom_parser "comment"));
    (c_atom "day", data_atom (_make_data_atom_parser "year"));
    (c_atom "des", data_atom (_make_data_atom_parser "extra.description"));
    (c_atom "dir", data_atom (_make_data_atom_parser "extra.director"));
    (c_atom "gen", data_atom (_make_data_atom_parser "genre"));
    (c_atom "lyr", data_atom (_make_data_atom_parser "extra.lyrics"));
    (c_atom "mvn", data_atom (_make_data_atom_parser "movement"));
    (c_atom "nam", data_atom (_make_data_atom_parser "title"));
    (c_atom "pub", data_atom (_make_data_atom_parser "extra.publisher"));
    (c_atom "wrt", data_atom (_make_data_atom_parser "extra.composer"));
    (bytes_of_string "aART", data_atom (_make_data_atom_parser "albumartist"));
    (bytes_of_string "cprt", data_atom (_make_data_atom_parser "extra.copyright"));
    (bytes_of_string "desc", data_atom (_make_data_atom_parser "extra.description"));
    (bytes_of_string "disk", data_atom (_make_number_parser "disc" "disc_total"));
    (bytes_of_string "gnre", data_atom _parse_id3v1_genre);
    (bytes_of_string "trkn", data_atom (_make_number_parser "track" "track_total"));
    (bytes_of_string "tmpo", data_atom (_make_data_atom_parser "extra.bpm"));
    (bytes_of_string "covr", data_atom (_make_data_atom_parser "_image_data"));
    (bytes_of_string "----", Leaf _parse_custom_field)
   ])])])])].

Definition AUDIO_DATA_TREE : list (bytes * node) :=
  [(bytes_of_string "moov", Tree [
     (bytes_of_string "mvhd", Leaf _parse_mvhd);
     (bytes_of_string "trak", Tree [(bytes_of_string "mdia", Tree [(bytes_of_string "minf",
      Tree [(bytes_of_string "stbl", Tree [(bytes_of_string "stsd", Tree [
        (bytes_of_string "mp4a", Leaf _parse_audio_sample_entry_mp4a);
        (bytes_of_string "alac", Leaf _parse_audio_sample_entry_alac)
      ])])])])])
   ])].

End Parsers.

(** those have an extra 4 byte header *)
Definition VERSIONED_ATOMS : list bytes := [bytes_of_string "meta"; bytes_of_string "stsd"].
(** these also have an extra 4 byte header *)
Definition FLAGGED_ATOMS : list bytes := [bytes_of_string "stsd"].

Definition bytes_in (b : bytes) (l : list bytes) : bool := existsb (bytes_eqb b) l.

(** the [for fieldname, value in sub_path(...).items()] loop *)
Fixpoint set_fields (self : TinyTag) (items : fields) : result TinyTag :=
  match items with
  | [] => Ok self
  | (fieldname, value) :: items' =>
      if String.eqb fieldname "_image_data" && negb (_load_image self)
      then set_fields self items'
      else if negb (String.eqb fieldname "")
      then let? self := _set_field self fieldname value in set_fields self items'
      else set_fields self items'
  end.

(** [_MP4._traverse_atoms]: the loop, entered with the header that was
    just read.  [stop_pos] is [None] or the end of the enclosing atom;
    [curr_path] only feeds the debug output and is left out.  One unit of
    fuel is used for every header that is looked at. *)
Fixpoint traverse_loop (fuel : nat) (self : TinyTag) (fh : BinaryIO)
         (path : list (bytes * node)) (stop_pos : option Z) (atom_header : bytes)
  : result (TinyTag * BinaryIO) :=
  match fuel with
  | O => OutOfFuel
  | S fuel' =>
      if negb (length atom_header =? 8)%nat then Ok (self, fh)
      else
        let atom_size := be_uint (take 4 atom_header) - 8 in
        let atom_type := drop 4 atom_header in
        if atom_size <=? 0 then                       (* empty atom, jump to next one *)
          let '(atom_header, fh) := read 8 fh in
          traverse_loop fuel' self fh path stop_pos atom_header
        else
          let? fh := if bytes_in atom_type VERSIONED_ATOMS   (* jump atom version for now *)
                     then seek_cur 4 fh else Ok fh in
          let? fh := if bytes_in atom_type FLAGGED_ATOMS     (* jump atom flags for now *)
                     then seek_cur 4 fh else Ok fh in
          let? (self, fh) :=
            match path_get path atom_type with
            | Some (Tree sub_path) =>
                (* if the path leaf is a dict, traverse deeper into the tree *)
                let atom_end_pos := tell fh + atom_size in
                let '(atom_header, fh) := read 8 fh in
                traverse_loop fuel' self fh sub_path (Some atom_end_pos) atom_header
            | Some (Leaf parse) =>
                (* if the path-leaf is a callable, call it on the atom data *)
                let '(d, fh) := read atom_size fh in
                let? items := parse d in
                let? self := set_fields self items in
                Ok (self, fh)
            | None =>
                (* if no action was specified using dict or callable, jump over atom *)
                let? fh := seek_cur atom_size fh in
                Ok (self, fh)
            end in
          (* check if we have reached the end of this branch *)
          let at_end := match stop_pos with
                        | Some p => negb (p =? 0) && (p <=? tell fh)
                        | None => false
                        end in
          if at_end then Ok (self, fh)                (* return to parent *)
          else
            let '(atom_header, fh) := read 8 fh in    (* read next atom *)
            traverse_loop fuel' self fh path stop_pos atom_header
  end.

(** every parser at the leaves of a tree returns or raises *)
Fixpoint leaves_complete (n : node) : Prop :=
  match n with
  | Tree children =>
      (fix all (l : list (bytes * node)) : Prop :=
         match l with
         | [] => True
         | (_, child) :: l' => leaves_complete child /\ all l'
         end) children
  | Leaf parse => forall d : bytes, parse d <> OutOfFuel
  end.

Definition path_complete (path : list (bytes * node)) : Prop :=
  leaves_complete (Tree path).

Definition _traverse_atoms (self : TinyTag) (fh : BinaryIO) (path : list (bytes * node))
  : result (TinyTag * BinaryIO) :=
  let fuel := S (length (io_data fh)) in
  let '(atom_header, fh) := read 8 fh in
  traverse_loop fuel self fh path None atom_header.

(** [_MP4._determine_duration] *)
Definition _determine_duration (self : TinyTag) (fh : BinaryIO)
  : result (TinyTag * BinaryIO) :=
  _traverse_atoms self fh AUDIO_DATA_TREE.

(** [_MP4._parse_tag] *)
Definition _parse_tag {R : PyRuntime} (self : TinyTag) (fh : BinaryIO)
  : result (TinyTag * BinaryIO) :=
  _traverse_atoms self fh META_DATA_TREE.

End MP4.

(** ** [_Flac] *)

Module Flac.

Definition METADATA_STREAMINFO : Z := 0.
Definition METADATA_PADDING : Z := 1.
Definition METADATA_APPLICATION : Z := 2.
Definition METADATA_SEEKTABLE : Z := 3.
Definition METADATA_VORBIS_COMMENT : Z := 4.
Definition METADATA_CUESHEET : Z := 5.
Definition METADATA_PICTURE : Z := 6.

(** the four values the STREAMINFO branch takes from the block; the
    block [b] is unpacked as ['HH3s3s8B16s'], so [header_values[4 + i]] is
    the byte at offset [10 + i] *)
Definition hv (b : bytes) (i : nat) : Z := byte_val (nth (6 + i) b x00).

Definition streaminfo_samplerate (b : bytes) : Z :=
  Z.shiftr (_bytes_to_int [hv b 4; hv b 5; hv b 6]) 4.
Definition streaminfo_channels (b : bytes) : Z :=
  Z.land (Z.shiftr (hv b 6) 1) 7 + 1.
Definition streaminfo_bitdepth (b : bytes) : Z :=
  Z.shiftl (Z.land (hv b 6) 1) 4 + Z.shiftr (Z.land (hv b 7) 240) 4 + 1.
Definition streaminfo_total_samples (b : bytes) : Z :=
  _bytes_to_int [Z.land (hv b 7) 15; hv b 8; hv b 9; hv b 10; hv b 11].

(** Modelled from the spec: the packed fields of a STREAMINFO block.
    The eight bytes at the offsets 10 to 17 are one big-endian word:
    20 bits of sample rate, 3 bits of channel count minus one, 5 bits of
    bit depth minus one and 36 bits of total sample count. *)
Definition packed_word (b : bytes) : Z := be_uint (slice 10 18 b).
Definition bit_field (w low width : Z) : Z := (w / 2 ^ low) mod 2 ^ width.
Definition spec_samplerate (b : bytes) : Z := bit_field (packed_word b) 44 20.
Definition spec_channels (b : bytes) : Z := bit_field (packed_word b) 41 3 + 1.
Definition spec_bitdepth (b : bytes) : Z := bit_field (packed_word b) 36 5 + 1.
Definition spec_total_samples (b : bytes) : Z := bit_field (packed_word b) 0 36.

(** the body of the STREAMINFO branch once the block has 34 bytes or
    more *)
Definition streaminfo (self : TinyTag) (stream_info_header : bytes) : result TinyTag :=
  (* struct.unpack('HH3s3s8B16s', stream_info_header) *)
  if negb (length stream_info_header =? 34)%nat then Raise StructError
  else
    let samplerate := streaminfo_samplerate stream_info_header in
    let self := set_attr self "samplerate" (VInt samplerate) in
    let self := set_attr self "channels" (VInt (streaminfo_channels stream_info_header)) in
    let self := set_attr self "bitdepth" (VInt (streaminfo_bitdepth stream_info_header)) in
    let total_samples := streaminfo_total_samples stream_info_header in
    let? duration := int_truediv "samplerate" total_samples samplerate in
    let self := set_attr self "duration" (VFloat duration) in
    if PrimFloat.ltb 0 duration then
      Ok (set_attr self "bitrate"
            (VFloat (py_float (filesize self) / duration * py_float 8 / py_float 1000)%float))
    else Ok self.

Section Tags.
Context {R : PyRuntime}.

(** how a round of the block loop ends: [break], or on to the next
    header *)
Inductive round : Type :=
| Break (self : TinyTag) (fh : BinaryIO)
| Next (self : TinyTag) (fh : BinaryIO).

(** the body of [while len(header_data) == 4], up to [if is_last_block] *)
Definition block (self : TinyTag) (fh : BinaryIO) (header_data : bytes) : result round :=
  let meta_header := byte_val <$> header_data in
  let block_type := Z.land (nth 0 meta_header 0) 127 in
  let is_last_block := Z.land (nth 0 meta_header 0) 128 in
  let size := _bytes_to_int (slice 1 4 meta_header) in
  let? r :=
    if (block_type =? METADATA_STREAMINFO) && _parse_duration self then
      let '(stream_info_header, fh) := read size fh in
      if (length stream_info_header <? 34)%nat then Ok (Break self fh)  (* invalid streaminfo *)
      else let? self := streaminfo self stream_info_header in Ok (Next self fh)
    else if (block_type =? METADATA_VORBIS_COMMENT) && _parse_tags self then
      let? (oggtag, fh) := Ogg._parse_vorbis_comment TinyTag_init fh true in
      let? self := _update self oggtag in
      Ok (Next self fh)
    else if (block_type =? METADATA_PICTURE) && _load_image self then
      let? (image, fh) := FlacPicture._parse_image fh in
      Ok (Next (set_attr self "_image_data" (VBytes image)) fh)
    else if 127 <=? block_type then Ok (Break self fh)     (* invalid block type *)
    else
      let? fh := seek_cur size fh in                       (* seek over this block *)
      Ok (Next self fh) in
  match r with
  | Break self fh => Ok (Break self fh)
  | Next self fh =>
      if negb (is_last_block =? 0) then Ok (Break self fh) else Ok (Next self fh)
  end.

Fixpoint blocks_loop (fuel : nat) (self : TinyTag) (fh : BinaryIO) (header_data : bytes)
  : result (TinyTag * BinaryIO) :=
  match fuel with
  | O => OutOfFuel
  | S fuel' =>
      if negb (length header_data =? 4)%nat then Ok (self, fh)
      else
        let? r := block self fh header_data in
        match r with
        | Break self fh => Ok (self, fh)
        | Next self fh =>
            let '(header_data, fh) := read 4 fh in
            blocks_loop fuel' self fh header_data
        end
  end.

(** the new [_ID3] object of [_parse_tag], with the two flags copied *)
Definition new_id3 (self : TinyTag) : TinyTag :=
  with_flags TinyTag_init (_parse_tags self) (_parse_duration TinyTag_init)
               (_load_image self).

(** the start of [_parse_tag]: the optional ID3v2 tag and the marker;
    returns the [_ID3] object, if any *)
Definition leading_id3 (self : TinyTag) (fh : BinaryIO)
  : result (option TinyTag * BinaryIO) :=
  let '(header, fh) := read 4 fh in
  let? (id3, header, fh) :=
    if bytes_eqb (take 3 header) (bytes_of_string "ID3") then   (* parse ID3 header if it exists *)
      let? fh := seek_cur (-4) fh in
      let? (id3, fh) := ID3._parse_id3v2 (new_id3 self) fh in
      let '(header, fh) := read 4 fh in                         (* after ID3 should be fLaC *)
      Ok (Some id3, header, fh)
    else Ok (None, header, fh) in
  if negb (bytes_eqb (take 4 header) (bytes_of_string "fLaC"))
  then Raise (TinyTagException "Invalid FLAC file")
  else Ok (id3, fh).

(** the end of [_parse_tag], after the block loop *)
Definition finish (self : TinyTag) (id3 : option TinyTag) : result TinyTag :=
  let? self :=
    match id3 with
    | Some id3 => _update self id3               (* apply ID3 tags after vorbis *)
    | None => Ok self
    end in
  Ok (with_tags_parsed self true).

(** [_Flac._parse_tag] *)
Definition _parse_tag (self : TinyTag) (fh : BinaryIO) : result (TinyTag * BinaryIO) :=
  let? (id3, fh) := leading_id3 self fh in
  let fuel := S (length (io_data fh)) in
  let '(header_data, fh) := read 4 fh in
  let? (self, fh) := blocks_loop fuel self fh header_data in
  let? self := finish self id3 in
  Ok (self, fh).

(** [_Flac._determine_duration] *)
Definition _determine_duration (self : TinyTag) (fh : BinaryIO)
  : result (TinyTag * BinaryIO) :=
  if negb (_tags_parsed self) then _parse_tag self fh else Ok (self, fh).

End Tags.

End Flac.

(** ** [_Wave] *)

Module Wave.

Definition riff_mapping : list (string * string) :=
  [ ("INAM", "title"); ("TITL", "title"); ("IPRD", "album"); ("IART", "artist");
    ("IBPM", "extra.bpm"); ("ICMT", "comment"); ("IMUS", "extra.composer");
    ("ICOP", "extra.copyright"); ("ICRD", "year"); ("IGNR", "genre");
    ("ILNG", "extra.language"); ("ISRC", "extra.isrc"); ("IPUB", "extra.publisher");
    ("IPRT", "track"); ("ITRK", "track"); ("TRCK", "track"); ("PRT1", "track");
    ("PRT2", "track_number"); ("IBSU", "extra.url"); ("YEAR", "year") ].

(** [riff_mapping.get(field)]; the keys are ASCII *)
Definition riff_get (field : bytes) : option string :=
  ID3.assoc_get riff_mapping (string_of_list_byte field).

(** [x / y] on two numbers *)
Definition py_truediv (what : string) (x y : pyval) : result float :=
  match x, y with
  | VInt a, VInt b => int_truediv what a b
  | VInt a, VFloat g => float_truediv what (py_float a) g
  | VFloat f, VInt b => float_truediv what f (py_float b)
  | VFloat f, VFloat g => float_truediv what f g
  | _, _ => Raise TypeError
  end.

(** [subchunksize / self.channels / self.samplerate / (self.bitdepth / 8)] *)
Definition data_duration (subchunksize : Z) (channels samplerate bitdepth : pyval)
  : result float :=
  let? a := py_truediv "channels" (VInt subchunksize) channels in
  let? b := py_truediv "samplerate" (VFloat a) samplerate in
  let? c := py_truediv "8" bitdepth (VInt 8) in
  py_truediv "bitdepth" (VFloat b) (VFloat c).

Definition is_none (v : pyval) : bool := match v with VNone => true | _ => false end.


(** the [fmt ] branch *)
Definition fmt_chunk (self : TinyTag) (fh : BinaryIO) (subchunksize : Z)
  : result (TinyTag * BinaryIO) :=
  let '(b, fh) := read 8 fh in
  (* _, channels, samplerate = struct.unpack('HHI', ...) *)
  if negb (length b =? 8)%nat then Raise StructError
  else
    let channels := le_uint (slice 2 4 b) in
    let samplerate := le_uint (slice 4 8 b) in
    let '(b, fh) := read 8 fh in
    (* _, _, bitdepth = struct.unpack('<IHH', ...) *)
    if negb (length b =? 8)%nat then Raise StructError
    else
      let bitdepth := le_uint (slice 6 8 b) in
      (* Certain codecs (e.g. GSM 6.10) give us a bit depth of zero.
         Avoid division by zero when calculating duration. *)
      let bitdepth := if bitdepth =? 0 then 1 else bitdepth in
      let self := set_attr self "bitrate"
                    (VFloat (int_quotient (samplerate * channels * bitdepth) 1000)) in
      let self := set_attr self "channels" (VInt channels) in
      let self := set_attr self "samplerate" (VInt samplerate) in
      let self := set_attr self "bitdepth" (VInt bitdepth) in
      let remaining_size := subchunksize - 16 in
      let? fh := if 0 <? remaining_size
                 then seek_cur remaining_size fh       (* skip remaining data in chunk *)
                 else Ok fh in
      Ok (self, fh).

(** the [data] branch *)
Definition data_chunk (self : TinyTag) (fh : BinaryIO) (subchunksize : Z)
  : result (TinyTag * BinaryIO) :=
  let? self :=
    if negb (is_none (attr self "channels")) && negb (is_none (attr self "samplerate"))
       && negb (is_none (attr self "bitdepth"))
    then let? d := data_duration subchunksize (attr self "channels")
                                 (attr self "samplerate") (attr self "bitdepth") in
         Ok (set_attr self "duration" (VFloat d))
    else Ok self in
  let? fh := seek_cur subchunksize fh in
  Ok (self, fh).

Section Tags.
Context {R : PyRuntime}.

(** [data.split(b'\x00', 1)[0]]  (strip zero-byte) *)
Fixpoint before_nul (data : bytes) : bytes :=
  match data with
  | [] => []
  | x :: data' => if is_nul x then [] else x :: before_nul data'
  end.

(** the loop over the sub-chunks of a [LIST]/[INFO] chunk *)
Fixpoint info_loop (fuel : nat) (self : TinyTag) (sub_fh : BinaryIO) (field : bytes)
  : result TinyTag :=
  match fuel with
  | O => OutOfFuel
  | S fuel' =>
      if negb (length field =? 4)%nat then Ok self
      else
        let '(b, sub_fh) := read 4 sub_fh in
        let? data_length := unpack_le 4 b in
        let data_length := data_length + data_length mod 2 in   (* padded to an even size *)
        let '(raw, sub_fh) := read data_length sub_fh in
        let data := before_nul raw in
        let? self :=
          match riff_get field with
          | Some fieldname =>
              let? value := py_decode "utf-8" "strict" data in
              if String.eqb fieldname "track" then
                match py_int value with
                | Some n => _set_field self fieldname (VInt n)
                | None => Ok self                    (* ValueError *)
                end
              else if negb (String.eqb value "")
              then _set_field self fieldname (VStr value)
              else Ok self
          | None => Ok self
          end in
        let '(field, sub_fh) := read 4 sub_fh in
        info_loop fuel' self sub_fh field
  end.

(** the [LIST] branch *)
Definition list_chunk (self : TinyTag) (fh : BinaryIO) (subchunksize : Z)
  : result (TinyTag * BinaryIO) :=
  let '(is_info, fh) := read 4 fh in                 (* check INFO header *)
  if negb (bytes_eqb is_info (bytes_of_string "INFO")) then
    let? fh := seek_cur (subchunksize - 4) fh in     (* jump over non-INFO sections *)
    Ok (self, fh)
  else
    let? (d, fh) := read_count (subchunksize - 4) fh in
    let sub_fh := BytesIO d in
    let '(field, sub_fh) := read 4 sub_fh in
    let? self := info_loop (S (length d)) self sub_fh field in
    Ok (self, fh).

(** the [id3 ] branch: [id3 = _ID3(); id3._load(tags=True,
    duration=False, image=self._load_image); self._update(id3)] *)
Definition id3_chunk (self : TinyTag) (fh : BinaryIO) : result (TinyTag * BinaryIO) :=
  let id3 := with_flags TinyTag_init true false (_load_image self) in
  let? (id3, fh) := ID3._parse_tag id3 fh in
  let? self := _update self id3 in
  Ok (self, fh).

(** the body of [while len(chunk_header) == 8] *)
Definition chunk (self : TinyTag) (fh : BinaryIO) (chunk_header : bytes)
  : result (TinyTag * BinaryIO) :=
  let subchunkid := take 4 chunk_header in
  let subchunksize := le_uint (drop 4 chunk_header) in
  let subchunksize := subchunksize + subchunksize mod 2 in   (* padded to an even number of bytes *)
  if bytes_eqb subchunkid (bytes_of_string "fmt ") then fmt_chunk self fh subchunksize
  else if bytes_eqb subchunkid (bytes_of_string "data") then data_chunk self fh subchunksize
  else if bytes_eqb subchunkid (bytes_of_string "LIST") && _parse_tags self
  then list_chunk self fh subchunksize
  else if (bytes_eqb subchunkid (bytes_of_string "id3 ")
           || bytes_eqb subchunkid (bytes_of_string "ID3 ")) && _parse_tags self
  then id3_chunk self fh
  else
    let? fh := seek_cur subchunksize fh in           (* some other chunk, just skip the data *)
    Ok (self, fh).

Fixpoint chunks_loop (fuel : nat) (self : TinyTag) (fh : BinaryIO) (chunk_header : bytes)
  : result (TinyTag * BinaryIO) :=
  match fuel with
  | O => OutOfFuel
  | S fuel' =>
      if negb (length chunk_header =? 8)%nat then Ok (self, fh)
      else
        let? (self, fh) := chunk self fh chunk_header in
        let '(chunk_header, fh) := read 8 fh in
        chunks_loop fuel' self fh chunk_header
  end.



(** [_Wave._parse_tag] *)
Definition _parse_tag (self : TinyTag) (fh : BinaryIO) : result (TinyTag * BinaryIO) :=
  let fuel := S (length (io_data fh)) in
  let '(b, fh) := read 12 fh in
  (* riff, _size, fformat = struct.unpack('4sI4s', ...) *)
  if negb (length b =? 12)%nat then Raise StructError
  else if negb (bytes_eqb (take 4 b) (bytes_of_string "RIFF"))
          || negb (bytes_eqb (drop 8 b) (bytes_of_string "WAVE"))
  then Raise (TinyTagException "Invalid WAV file")
  else
    let self := set_attr self "bitdepth" (VInt 16) in   (* assume 16bit depth (CD quality) *)
    let '(chunk_header, fh) := read 8 fh in
    let? (self, fh) := chunks_loop fuel self fh chunk_header in
    Ok (with_tags_parsed self true, fh).

(** [_Wave._determine_duration] *)
Definition _determine_duration (self : TinyTag) (fh : BinaryIO)
  : result (TinyTag * BinaryIO) :=
  if negb (_tags_parsed self) then _parse_tag self fh else Ok (self, fh).

End Tags.

End Wave.

(** ** The entry point: [TinyTag.get] *)

Module Facade.

(** the parser classes, subclasses of [TinyTag] *)
Inductive parser_class : Type := _ID3 | _Ogg | _Wave | _Flac | _Wma | _MP4 | _Aiff.

(** The methods [_parse_tag] and [_determine_duration] of the parser
    classes.  [get] and [_load] only call them, so they are taken as a
    method table; the statements about [get] hold for every table. *)
Class Decoders : Type := {
  parse_tag_of : parser_class -> TinyTag -> BinaryIO -> result (TinyTag * BinaryIO);
  determine_duration_of : parser_class -> TinyTag -> BinaryIO -> result (TinyTag * BinaryIO)
}.


(** a file name: a [str] or [bytes] *)
Inductive path : Type :=
| PStr (s : string)
| PBytes (b : bytes).

Definition path_truthy (p : path) : bool :=
  match p with
  | PStr s => negb (String.eqb s "")
  | PBytes b => match b with [] => false | _ => true end
  end.

(** [s.encode('ascii')] *)
Definition encode_ascii (s : string) : result bytes :=
  let b := bytes_of_string s in
  if forallb (fun x => byte_val x <? 128) b then Ok b else Raise UnicodeEncodeError.

(** [b.endswith(ext)] *)
Definition ends_with (b ext : bytes) : bool := starts_with (rev ext) (rev b).

Definition _file_extension_mapping : list (list string * parser_class) :=
  [ ([".mp1"; ".mp2"; ".mp3"], _ID3);
    ([".oga"; ".ogg"; ".opus"; ".spx"], _Ogg);
    ([".wav"], _Wave);
    ([".flac"], _Flac);
    ([".wma"], _Wma);
    ([".m4b"; ".m4a"; ".m4r"; ".m4v"; ".mp4"; ".aax"; ".aaxc"], _MP4);
    ([".aiff"; ".aifc"; ".aif"; ".afc"], _Aiff) ].

(** the [for ext, tagclass in ...items()] loop *)
Fixpoint first_extension (filename_bytes : bytes)
         (mapping : list (list string * parser_class)) : option parser_class :=
  match mapping with
  | [] => None
  | (exts, tagclass) :: mapping' =>
      if existsb (fun e => ends_with filename_bytes (bytes_of_string e)) exts
      then Some tagclass
      else first_extension filename_bytes mapping'
  end.

(** [TinyTag._get_parser_for_filename] *)
Definition _get_parser_for_filename {R : PyRuntime} (filename : path)
  : result (option parser_class) :=
  let? filename_bytes :=
    match filename with
    | PStr s => encode_ascii (py_lower s)
    | PBytes b => Ok (MP4.bytes_lower b)
    end in
  Ok (first_extension filename_bytes _file_extension_mapping).

(** a magic-byte pattern: [Some x] is the literal byte [x], [None] is
    the [.] of the regular expression (any byte but a line feed) *)
Definition pattern := list (option byte).

Definition lit (s : string) : pattern := Some <$> bytes_of_string s.
Definition hex (l : list Z) : pattern := (fun z => Some (byte_of_Z z)) <$> l.
Definition dots (n : nat) : pattern := repeat None n.

(** [re.match(magic, header)] for these patterns *)
Fixpoint re_match (magic : pattern) (header : bytes) : bool :=
  match magic, header with
  | [], _ => true
  | _ :: _, [] => false
  | Some x :: magic', y :: header' => Byte.eqb x y && re_match magic' header'
  | None :: magic', y :: header' => negb (byte_val y =? 10) && re_match magic' header'
  end.

Definition _magic_bytes_mapping : list (pattern * nat * parser_class) :=
  (* the pattern, the length of its source text, the class *)
  [ (lit "ID3", 4%nat, _ID3);
    (hex [255; 251], 3%nat, _ID3);
    ((lit "OggS" ++ dots 25 ++ lit "FLAC")%list, 34%nat, _Ogg);
    ((lit "OggS" ++ dots 24 ++ lit "Opus")%list, 33%nat, _Ogg);
    ((lit "OggS" ++ dots 24 ++ lit "Speex")%list, 34%nat, _Ogg);
    ((lit "OggS" ++ dots 25 ++ lit "vorbis")%list, 36%nat, _Ogg);
    ((lit "RIFF" ++ dots 4 ++ lit "WAVE")%list, 13%nat, _Wave);
    (lit "fLaC", 5%nat, _Flac);
    (hex [48; 38; 178; 117; 142; 102; 207; 17; 166; 217; 0; 170; 0; 98; 206; 108],
     17%nat, _Wma);
    ((dots 4 ++ lit "ftypM4A")%list, 11%nat, _MP4);
    ((dots 4 ++ lit "ftypaax")%list, 11%nat, _MP4);
    ((dots 4 ++ lit "ftypaaxc")%list, 12%nat, _MP4);
    (hex [255; 241], 2%nat, _MP4);
    ((lit "FORM" ++ dots 4 ++ lit "AIFF")%list, 13%nat, _Aiff);
    ((lit "FORM" ++ dots 4 ++ lit "AIFC")%list, 13%nat, _Aiff) ].

Fixpoint first_magic (header : bytes) (mapping : list (pattern * nat * parser_class))
  : option parser_class :=
  match mapping with
  | [] => None
  | (magic, _, parser) :: mapping' =>
      if re_match magic header then Some parser else first_magic header mapping'
  end.

(** [TinyTag._get_parser_for_file_handle] *)
Definition _get_parser_for_file_handle (fh : BinaryIO)
  : result (option parser_class * BinaryIO) :=
  let n := fold_right Nat.max 0%nat ((fun e => snd (fst e)) <$> _magic_bytes_mapping) in
  let '(header, fh) := read (Z.of_nat n) fh in
  let? fh := seek_set 0 fh in
  Ok (first_magic header _magic_bytes_mapping, fh).

(** [TinyTag._get_parser_class]; [cls] is [None] when [get] is invoked
    on [TinyTag] itself *)
Definition _get_parser_class {R : PyRuntime} (cls : option parser_class)
           (filename : option path) (filehandle : BinaryIO)
  : result (parser_class * BinaryIO) :=
  match cls with
  | Some c => Ok (c, filehandle)       (* use the class on which `get` was invoked *)
  | None =>
      let? by_name :=
        match filename with
        | Some f => if path_truthy f then _get_parser_for_filename f else Ok None
        | None => Ok None
        end in
      match by_name with
      | Some c => Ok (c, filehandle)
      | None =>
          (* try determining the file type by magic byte header *)
          let? (by_magic, filehandle) := _get_parser_for_file_handle filehandle in
          match by_magic with
          | Some c => Ok (c, filehandle)
          | None => Raise (TinyTagException "No tag reader found to support filetype")
          end
      end
  end.

(** [TinyTag._load]; the file handle set by [get] is never missing *)
Definition _load {D : Decoders} (cls : parser_class) (self : TinyTag) (fh : BinaryIO)
           (tags duration image : bool) : result (TinyTag * BinaryIO) :=
  let self := with_flags self tags duration image in
  let? (self, fh) := if tags then parse_tag_of cls self fh else Ok (self, fh) in
  if duration then
    let? fh := if tags then seek_set 0 fh else Ok fh in   (* rewind file if the tags were already parsed *)
    determine_duration_of cls self fh
  else Ok (self, fh).

(** [try: ... except Exception as exc: raise TinyTagException(...) from exc] *)
Definition wrap_failure {A} (r : result A) : result A :=
  match r with
  | Raise e => Raise (FailedToParse e)
  | _ => r
  end.

(** the new object [parser_class()] with the attributes [get] assigns *)
Definition new_tag (filesize : Z) (ignore_errors : bool) (encoding : option string)
  : TinyTag :=
  mkTag (attrs TinyTag_init) (extra TinyTag_init) filesize encoding
        (_parse_tags TinyTag_init) (_parse_duration TinyTag_init)
        (_load_image TinyTag_init) (_tags_parsed TinyTag_init) ignore_errors
        (_bytepos_after_id3v2 TinyTag_init) (_max_samplenum TinyTag_init).

(** the byte source [get] works on: the [file_obj] argument, or else the
    file opened under [filename] *)
Definition source_of (open_file : path -> result BinaryIO) (filename : option path)
           (file_obj : option BinaryIO) : result BinaryIO :=
  match file_obj, filename with
  | Some f, _ => Ok f
  | None, Some name =>
      if path_truthy name then open_file name
      else Raise (TinyTagException "Either filename or file_obj argument is required")
  | None, None =>
      Raise (TinyTagException "Either filename or file_obj argument is required")
  end.

(** [TinyTag.get].  [open_file] is [open(filename, 'rb')]; closing the
    file does not change the result and is left out. *)
Definition get {R : PyRuntime} {D : Decoders} (open_file : path -> result BinaryIO)
           (cls : option parser_class) (filename : option path)
           (tags duration image ignore_errors : bool) (encoding : option string)
           (file_obj : option BinaryIO) : result TinyTag :=
  let? file_obj := source_of open_file filename file_obj in
  let? file_obj := seek_end 0 file_obj in
  let filesize := tell file_obj in
  let? file_obj := seek_set 0 file_obj in
  let? (parser_class, file_obj) := _get_parser_class cls filename file_obj in
  let tag := new_tag filesize ignore_errors encoding in
  if 0 <? filesize then
    let? (tag, _) := wrap_failure (_load parser_class tag file_obj tags duration image) in
    Ok tag
  else Ok tag.

End Facade.

(** ** Sample inputs *)

Module Samples.

Definition bz (l : list Z) : bytes := byte_of_Z <$> l.

(** four bytes, most significant first ([struct.pack('>I', z)]) *)
Definition be32 (z : Z) : list Z :=
  [ Z.land (Z.shiftr z 24) 255; Z.land (Z.shiftr z 16) 255;
    Z.land (Z.shiftr z 8) 255; Z.land z 255 ].

(** four bytes, least significant first ([struct.pack('<I', z)]) *)
Definition le32 (z : Z) : list Z := rev (be32 z).

Definition le16 (z : Z) : list Z := [ Z.land z 255; Z.land (Z.shiftr z 8) 255 ].

Definition ascii_codes (s : string) : list Z := byte_val <$> bytes_of_string s.

(** An MP3 stream without ID3v2 tag: eleven bytes that are no frame
    header, then one MPEG-1 layer III frame header ([FF FB 90 00]:
    128 kbit/s, 44100 Hz), 32 bytes of side information and a Xing
    header with the flags 3 (frames, bytes), 100 frames and 144000
    bytes. *)
Definition xing_mp3 : bytes :=
  bz ([0; 0; 0; 0; 0; 0; 0; 0; 0; 0; 17]
      ++ [255; 251; 144; 0] ++ repeat 0 32
      ++ ascii_codes "Xing" ++ be32 3 ++ be32 100 ++ be32 144000)%list.

(** an Ogg page: the 27-byte header (version 0, the flags, the granule
    position, serial 1, the sequence number, no checksum), the segment
    table and the segments *)
Definition ogg_page (flags granule seq : Z) (segments : list bytes) : bytes :=
  (bz (ascii_codes "OggS" ++ [0; flags] ++ le32 granule ++ le32 0
       ++ le32 1 ++ le32 seq ++ le32 0
       ++ [Z.of_nat (length segments)]
       ++ ((fun s => Z.of_nat (length s)) <$> segments))
   ++ concat segments)%list.

Definition fill (n : nat) (c : Z) : bytes := repeat (byte_of_Z c) n.

(** one page whose segment table is [255, 10, 20]: a packet of 265 bytes
    followed by a packet of 20 bytes *)
Definition two_packets_segments : list bytes := [fill 255 97; fill 10 98; fill 20 99].
Definition two_packets_page : bytes := ogg_page 2 0 0 two_packets_segments.

(** a packet of 265 bytes whose first 255 bytes are the last segment of
    the first page and whose last 10 bytes open the second page *)
Definition spanning_pages : bytes :=
  (ogg_page 2 0 0 [fill 100 97; fill 255 98] ++ ogg_page 1 0 1 [fill 10 99])%list.

(** an MP4 atom: the size (header included), the type, the payload *)
Definition mp4_atom (type : string) (payload : list Z) : list Z :=
  (be32 (8 + Z.of_nat (length payload)) ++ ascii_codes type ++ payload)%list.

(** a version 0 [mvhd] payload: version, flags, two time stamps, the
    time scale and the duration *)
Definition mvhd_payload (time_scale duration : Z) : list Z :=
  ([0; 0; 0; 0] ++ be32 0 ++ be32 0 ++ be32 time_scale ++ be32 duration)%list.

(** an atom of size 8 (no payload), then [moov] with a movie header of
    5000 units at 1000 units per second *)
Definition empty_atom_then_moov : bytes :=
  bz (mp4_atom "free" [] ++ mp4_atom "moov" (mp4_atom "mvhd" (mvhd_payload 1000 5000)))%list.

(** [moov] with track 3 of 12 in [udta/meta/ilst/trkn/data], and a movie
    header whose time scale is 0 *)
Definition tagged_mp4_zero_time_scale : bytes :=
  bz (mp4_atom "moov"
        (mp4_atom "udta"
           (mp4_atom "meta"
              ([0; 0; 0; 0] ++
               mp4_atom "ilst"
                 (mp4_atom "trkn"
                    (mp4_atom "data"
                       (be32 0 ++ be32 0 ++ [0; 0; 0; 3; 0; 12])))))
         ++ mp4_atom "mvhd" (mvhd_payload 0 5000)))%list.

Definition ascii_only (b : bytes) : bool := forallb (fun x => byte_val x <? 128) b.

Definition digit_value (c : ascii) : option Z :=
  let n := Z.of_nat (nat_of_ascii c) in
  if (48 <=? n) && (n <=? 57) then Some (n - 48) else None.

Fixpoint digits_value (acc : Z) (s : string) : option Z :=
  match s with
  | EmptyString => Some acc
  | String c s' =>
      match digit_value c with
      | Some v => digits_value (acc * 10 + v) s'
      | None => None
      end
  end.

Definition lower_ascii (c : ascii) : ascii :=
  let n := nat_of_ascii c in
  if (65 <=? n)%nat && (n <=? 90)%nat then ascii_of_nat (n + 32) else c.

Fixpoint map_string (f : ascii -> ascii) (s : string) : string :=
  match s with
  | EmptyString => EmptyString
  | String c s' => String (f c) (map_string f s')
  end.

(** A run-time for the sample runs: it decodes ASCII text given as UTF-8
    or Latin-1, converts plain digit strings and lower-cases ASCII
    letters, and refuses everything else.  The statements that hold for
    every run-time do not depend on it. *)
#[export] Instance ascii_runtime : PyRuntime := {
  py_decode encoding errors b :=
    if ascii_only b
       && (String.eqb encoding "utf-8" || String.eqb encoding "UTF-8"
           || String.eqb encoding "latin1" || String.eqb encoding "ISO-8859-1")
    then Ok (string_of_list_byte b) else Raise UnicodeDecodeError;
  py_int s := match s with EmptyString => None | _ => digits_value 0 s end;
  py_lower := map_string lower_ascii;
  py_isdigit s := match s with
                  | EmptyString => false
                  | _ => match digits_value 0 s with Some _ => true | None => false end
                  end;
  py_lstrip_bom s := s;
  py_b64decode _ := Raise ValueError
}.

(** the parsers embedded above as a method table; the classes that are
    not embedded are left abstract, as in the base class *)
#[export] Instance embedded_decoders : Facade.Decoders := {
  parse_tag_of cls :=
    match cls with
    | Facade._ID3 => ID3._parse_tag
    | Facade._Wave => Wave._parse_tag
    | Facade._Flac => Flac._parse_tag
    | Facade._MP4 => MP4._parse_tag
    | _ => fun _ _ => Raise NotImplementedError
    end;
  determine_duration_of cls :=
    match cls with
    | Facade._ID3 => ID3._determine_duration
    | Facade._Wave => Wave._determine_duration
    | Facade._Flac => Flac._determine_duration
    | Facade._MP4 => MP4._determine_duration
    | _ => fun _ _ => Raise NotImplementedError
    end
}.

(** no file system: only file objects are passed *)
Definition no_files (_ : Facade.path) : result BinaryIO := Raise OSError.

(** a STREAMINFO payload: block and frame sizes left at 0, then sample
    rate 44100, 2 channels, 16 bits per sample and 44100 samples in
    total packed into eight bytes, then the MD5 signature *)
Definition streaminfo_44100 : list Z :=
  (repeat 0 10 ++ [10; 196; 66; 240; 0; 0; 172; 68] ++ repeat 0 16)%list.

(** a FLAC stream with this STREAMINFO block as its last block *)
Definition flac_one_second : bytes :=
  bz (ascii_codes "fLaC" ++ [128; 0; 0; 34] ++ streaminfo_44100)%list.

(** the same stream with one more byte in the block *)
Definition flac_long_streaminfo : bytes :=
  bz (ascii_codes "fLaC" ++ [128; 0; 0; 35] ++ streaminfo_44100 ++ [0])%list.

(** an ID3v2.3 text frame: the id, the size, two flag bytes, the
    encoding byte 0 (Latin-1) and the text *)
Definition id3_text_frame (id text : string) : list Z :=
  (ascii_codes id ++ be32 (1 + Z.of_nat (String.length text)) ++ [0; 0]
   ++ [0] ++ ascii_codes text)%list.

(** an ID3v2.3 tag made of the frames [frames] and ten bytes of padding
    (fewer than 128 bytes in all) *)
Definition id3v2_tag (frames : list Z) : list Z :=
  (ascii_codes "ID3" ++ [3; 0; 0] ++ be32 (Z.of_nat (length frames) + 10)
   ++ frames ++ repeat 0 10)%list.

(** a Vorbis comment: the length and the text *)
Definition vorbis_comment (text : string) : list Z :=
  (le32 (Z.of_nat (String.length text)) ++ ascii_codes text)%list.

(** a FLAC stream that starts with an ID3v2 tag (title [I], track 5);
    its only metadata block is a Vorbis comment block (empty vendor
    string, title [V], track 3) *)
Definition flac_with_id3 : bytes :=
  let comments :=
    (le32 0 ++ le32 2 ++ vorbis_comment "title=V" ++ vorbis_comment "tracknumber=3")%list in
  bz (id3v2_tag (id3_text_frame "TIT2" "I" ++ id3_text_frame "TRCK" "5")
      ++ ascii_codes "fLaC"
      ++ [132; 0; 0; Z.of_nat (length comments)] ++ comments)%list.

(** a WAV stream whose [fmt ] chunk declares GSM 6.10 (format 49), one
    channel, 8000 Hz and a bit depth of 0, followed by the header of a
    [data] chunk of 1000 bytes *)
Definition wav_zero_bitdepth : bytes :=
  bz (ascii_codes "RIFF" ++ le32 1036 ++ ascii_codes "WAVE"
      ++ ascii_codes "fmt " ++ le32 16
      ++ le16 49 ++ le16 1 ++ le32 8000 ++ le32 1625 ++ le16 65 ++ le16 0
      ++ ascii_codes "data" ++ le32 1000)%list.

(** the data of a [----] atom whose only sub-atom has an unknown type
    and a size field of zero *)
Definition stuck_custom_field : bytes :=
  bz ([0; 0; 0; 0] ++ ascii_codes "xxxx")%list.

(** a FLAC stream whose STREAMINFO block is 34 zero bytes: the sample
    rate is 0 *)
Definition flac_zero_samplerate : bytes :=
  bz (ascii_codes "fLaC" ++ [128; 0; 0; 34] ++ repeat 0 34)%list.

(** the [str] name [café.mp3]: its fourth character is U+00E9 *)
Definition non_ascii_name : string :=
  String.append "caf" (String (ascii_of_nat 233) ".mp3").

(** the last 98 bytes of a stream that ends one byte into the comment of
    an ID3v1 tag: [TAG], 94 zero bytes and the byte 1 *)
Definition id3v1_cut_short : bytes :=
  (bytes_of_string "TAG" ++ bz (repeat 0 94 ++ [1]))%list.

End Samples.

(** * More of the module

    More of the base class, the WMA parser and more sample streams, for
    the last part of the file. *)

(** ** Notions for the statements about the accumulator *)

(** The attributes of a tag object that are fields of their own in
    [TinyTag], outside the instance dictionary [attrs].  No parser writes
    a tag field under one of these names; the statements about
    [_set_field] are about the other names. *)
Definition private_attributes : list string :=
  [ "extra"; "filesize"; "_filehandler"; "_filename"; "_default_encoding";
    "_parse_tags"; "_parse_duration"; "_load_image"; "_tags_parsed";
    "_ignore_errors"; "_bytepos_after_id3v2"; "_max_samplenum" ].

(** everything of a tag object but its two dictionaries *)
Definition settings (t : TinyTag)
  : Z * option string * bool * bool * bool * bool * bool * Z * Z :=
  (filesize t, _default_encoding t, _parse_tags t, _parse_duration t, _load_image t,
   _tags_parsed t, _ignore_errors t, _bytepos_after_id3v2 t, _max_samplenum t).

(** ** [TinyTag.is_supported] *)

Definition SUPPORTED_FILE_EXTENSIONS : list string :=
  [ ".mp1"; ".mp2"; ".mp3";
    ".oga"; ".ogg"; ".opus"; ".spx";
    ".wav"; ".flac"; ".wma";
    ".m4b"; ".m4a"; ".m4r"; ".m4v"; ".mp4"; ".aax"; ".aaxc";
    ".aiff"; ".aifc"; ".aif"; ".afc" ].

(** [cls._get_parser_for_filename(filename) is not None] *)
Definition is_supported {R : PyRuntime} (filename : Facade.path) : result bool :=
  let? parser := Facade._get_parser_for_filename filename in
  Ok (match parser with Some _ => true | None => false end).

(** the lower-cased name ends with one of the extensions of the list *)
Definition has_supported_extension (lowered : bytes) : bool :=
  existsb (fun e => Facade.ends_with lowered (bytes_of_string e)) SUPPORTED_FILE_EXTENSIONS.

(** the audio properties of the object: they are found by
    [_determine_duration], no tag is stored in them *)
Definition audio_fields : list string :=
  [ "duration"; "bitrate"; "samplerate"; "channels"; "bitdepth" ].

(** the object a round of the FLAC block loop ends with *)
Definition round_self {R : PyRuntime} (r : Flac.round) : TinyTag :=
  match r with Flac.Break s _ | Flac.Next s _ => s end.

(** ** [_Wma] *)

(** [TinyTag._bytes_to_int_le] *)
Definition _bytes_to_int_le (b : bytes) : Z :=
  let n := length b in
  if (n =? 1)%nat || (n =? 2)%nat || (n =? 4)%nat || (n =? 8)%nat
  then le_uint b       (* struct.unpack of '<B', '<H', '<I' or '<Q' *)
  else 0.

Module Wma.

(** the GUID every ASF stream starts with ([_parse_tag] has it inline) *)
Definition ASF_HEADER_OBJECT : bytes :=
  byte_of_Z <$> [48; 38; 178; 117; 142; 102; 207; 17; 166; 217; 0; 170; 0; 98; 206; 108].
Definition ASF_CONTENT_DESCRIPTION_OBJECT : bytes :=
  byte_of_Z <$> [51; 38; 178; 117; 142; 102; 207; 17; 166; 217; 0; 170; 0; 98; 206; 108].
Definition ASF_EXTENDED_CONTENT_DESCRIPTION_OBJECT : bytes :=
  byte_of_Z <$> [64; 164; 208; 210; 7; 227; 210; 17; 151; 240; 0; 160; 201; 94; 168; 80].
Definition STREAM_BITRATE_PROPERTIES_OBJECT : bytes :=
  byte_of_Z <$> [206; 117; 248; 123; 141; 70; 209; 17; 141; 130; 0; 96; 151; 201; 162; 178].
Definition ASF_FILE_PROPERTY_OBJECT : bytes :=
  byte_of_Z <$> [161; 220; 171; 140; 71; 169; 207; 17; 142; 228; 0; 192; 12; 32; 83; 101].
Definition ASF_STREAM_PROPERTIES_OBJECT : bytes :=
  byte_of_Z <$> [145; 7; 220; 183; 183; 169; 207; 17; 142; 230; 0; 192; 12; 32; 83; 101].
Definition STREAM_TYPE_ASF_AUDIO_MEDIA : bytes :=
  byte_of_Z <$> [64; 158; 105; 248; 77; 91; 207; 17; 168; 253; 0; 128; 95; 92; 68; 43].

(** the [mapping] of the extended content description *)
Definition mapping : list (string * string) :=
  [ ("WM/TrackNumber", "track"); ("WM/PartOfSet", "disc"); ("WM/Year", "year");
    ("WM/AlbumArtist", "albumartist"); ("WM/Genre", "genre");
    ("WM/AlbumTitle", "album"); ("WM/Composer", "extra.composer");
    ("WM/Publisher", "extra.publisher"); ("WM/BeatsPerMinute", "extra.bpm");
    ("WM/InitialKey", "extra.initial_key"); ("WM/Lyrics", "extra.lyrics");
    ("WM/Language", "extra.language"); ("WM/AuthorURL", "extra.url") ].

Section Tags.
Context {R : PyRuntime}.

(** [_Wma._decode_string] *)
Definition _decode_string (bytestring : bytes) : result string :=
  let? s := py_decode "utf-16" "strict" bytestring in
  Ok (_unpad s).

(** [_Wma._decode_ext_desc]: decode ASF_EXTENDED_CONTENT_DESCRIPTION_OBJECT
    values *)
Definition _decode_ext_desc (value_type : Z) (value : bytes) : result (option pyval) :=
  if value_type =? 0 then                    (* Unicode string *)
    let? s := _decode_string value in Ok (Some (VStr s))
  else if value_type =? 1 then               (* BYTE array *)
    Ok (Some (VBytes value))
  else if (1 <? value_type) && (value_type <? 6) then   (* DWORD / QWORD / WORD *)
    Ok (Some (VInt (_bytes_to_int_le value)))
  else Ok None.

(** the [for i_field_name, length in data_blocks.items()] loop *)
Fixpoint data_blocks_loop (self : TinyTag) (fh : BinaryIO) (data_blocks : list (string * Z))
  : result (TinyTag * BinaryIO) :=
  match data_blocks with
  | [] => Ok (self, fh)
  | (i_field_name, length) :: data_blocks' =>
      let '(bytestring, fh) := read length fh in
      if negb (String.prefix "_" i_field_name) then
        let? s := _decode_string bytestring in
        let? self := _set_field self i_field_name (VStr s) in
        data_blocks_loop self fh data_blocks'
      else data_blocks_loop self fh data_blocks'
  end.

(** the branch of the content description object *)
Definition content_description (self : TinyTag) (fh : BinaryIO)
  : result (TinyTag * BinaryIO) :=
  let '(b, fh) := read 2 fh in let title_length := _bytes_to_int_le b in
  let '(b, fh) := read 2 fh in let author_length := _bytes_to_int_le b in
  let '(b, fh) := read 2 fh in let copyright_length := _bytes_to_int_le b in
  let '(b, fh) := read 2 fh in let description_length := _bytes_to_int_le b in
  let '(b, fh) := read 2 fh in let rating_length := _bytes_to_int_le b in
  data_blocks_loop self fh
    [ ("title", title_length); ("artist", author_length);
      ("_copyright", copyright_length); ("comment", description_length);
      ("_rating", rating_length) ].

(** one round of the [for _ in range(descriptor_count)] loop *)
Definition descriptor (self : TinyTag) (fh : BinaryIO) : result (TinyTag * BinaryIO) :=
  let '(b, fh) := read 2 fh in let name_len := _bytes_to_int_le b in
  let '(b, fh) := read name_len fh in
  let? name := _decode_string b in
  let '(b, fh) := read 2 fh in let value_type := _bytes_to_int_le b in
  let '(b, fh) := read 2 fh in let value_len := _bytes_to_int_le b in
  if value_type =? 1 then
    let? fh := seek_cur value_len fh in      (* skip byte values *)
    Ok (self, fh)
  else
    let field_name :=
      match ID3.assoc_get mapping name with  (* try to get normalized field name *)
      | Some f => f
      | None =>                              (* custom field *)
          let name := if String.prefix "WM/" name then str_drop 3 name else name in
          String.append "extra." (py_lower name)
      end in
    let '(b, fh) := read value_len fh in
    let? field_value := _decode_ext_desc value_type b in
    match field_value with
    | None => Ok (self, fh)
    | Some v =>
        if ID3.str_in field_name ["track"; "disc"] then
          match v with
          | VStr s =>
              match py_int s with
              | Some n => let? self := _set_field self field_name (VInt n) in Ok (self, fh)
              | None => Ok (self, fh)        (* ValueError *)
              end
          | _ =>                             (* int() of an int *)
              let? self := _set_field self field_name v in Ok (self, fh)
          end
        else let? self := _set_field self field_name v in Ok (self, fh)
    end.

Fixpoint descriptors_loop (count : nat) (self : TinyTag) (fh : BinaryIO)
  : result (TinyTag * BinaryIO) :=
  match count with
  | O => Ok (self, fh)
  | S count' =>
      let? (self, fh) := descriptor self fh in
      descriptors_loop count' self fh
  end.

(** the branch of the extended content description object *)
Definition extended_content_description (self : TinyTag) (fh : BinaryIO)
  : result (TinyTag * BinaryIO) :=
  let '(b, fh) := read 2 fh in
  let descriptor_count := _bytes_to_int_le b in
  descriptors_loop (Z.to_nat descriptor_count) self fh.

(** [max(x, 0.0)] *)
Definition max_zero (x : float) : float := if PrimFloat.ltb x 0 then 0%float else x.

(** the branch of the file property object *)
Definition file_properties (self : TinyTag) (fh : BinaryIO) : result (TinyTag * BinaryIO) :=
  let? fh := seek_cur 40 fh in
  let '(b, fh) := read 8 fh in
  let play_duration := int_quotient (_bytes_to_int_le b) 10000000 in
  let? fh := seek_cur 8 fh in
  let '(b, fh) := read 8 fh in
  let preroll := int_quotient (_bytes_to_int_le b) 1000 in
  let? fh := seek_cur 16 fh in
  (* According to the specification, we need to subtract the preroll from
     play_duration to get the actual duration of the file *)
  Ok (set_attr self "duration" (VFloat (max_zero (PrimFloat.sub play_duration preroll))), fh).

(** the branch of the stream properties object *)
Definition stream_properties (self : TinyTag) (fh : BinaryIO)
  : result (TinyTag * BinaryIO) :=
  let '(stream_type, fh) := read 16 fh in
  let? fh := seek_cur 24 fh in               (* skip irrelevant fields *)
  let '(b, fh) := read 4 fh in let type_specific_data_length := _bytes_to_int_le b in
  let '(b, fh) := read 4 fh in let error_correction_data_length := _bytes_to_int_le b in
  let? fh := seek_cur 6 fh in                (* skip irrelevant fields *)
  let? (already_read, self, fh) :=
    if bytes_eqb stream_type STREAM_TYPE_ASF_AUDIO_MEDIA then
      let '(b, fh) := read 2 fh in let codec_id_format_tag := _bytes_to_int_le b in
      let '(b, fh) := read 2 fh in let _channels := _bytes_to_int_le b in
      let '(b, fh) := read 4 fh in
      let self := set_attr self "samplerate" (VInt (_bytes_to_int_le b)) in
      let '(b, fh) := read 4 fh in let avg_bytes_per_second := _bytes_to_int_le b in
      let self := set_attr self "bitrate"
                           (VFloat (int_quotient (avg_bytes_per_second * 8) 1000)) in
      let? fh := seek_cur 2 fh in            (* skip irrelevant field *)
      let '(b, fh) := read 2 fh in let bits_per_sample := _bytes_to_int_le b in
      let self := if codec_id_format_tag =? 355    (* lossless *)
                  then set_attr self "bitdepth" (VInt bits_per_sample) else self in
      Ok (16, self, fh)
    else Ok (0, self, fh) in
  let? fh := seek_cur (type_specific_data_length - already_read) fh in
  let? fh := seek_cur error_correction_data_length fh in
  Ok (self, fh).

(** the [while True] loop of [_parse_tag].  What a round does depends on
    the place in the stream only, and a round that goes on has read an
    object size: a run that ends takes no more rounds than the stream
    has bytes, plus the one that breaks. *)
Fixpoint objects_loop (fuel : nat) (self : TinyTag) (fh : BinaryIO)
  : result (TinyTag * BinaryIO) :=
  match fuel with
  | O => OutOfFuel
  | S fuel' =>
      let '(object_id, fh) := read 16 fh in
      let '(b, fh) := read 8 fh in
      let object_size := _bytes_to_int_le b in
      if (object_size =? 0) || (filesize self <? object_size)
      then Ok (self, fh)                     (* invalid object, stop parsing. *)
      else
        let? (self, fh) :=
          if bytes_eqb object_id ASF_CONTENT_DESCRIPTION_OBJECT && _parse_tags self
          then content_description self fh
          else if bytes_eqb object_id ASF_EXTENDED_CONTENT_DESCRIPTION_OBJECT
                  && _parse_tags self
          then extended_content_description self fh
          else if bytes_eqb object_id ASF_FILE_PROPERTY_OBJECT
          then file_properties self fh
          else if bytes_eqb object_id ASF_STREAM_PROPERTIES_OBJECT
          then stream_properties self fh
          else
            let? fh := seek_cur (object_size - 24) fh in   (* read over onknown object ids *)
            Ok (self, fh) in
        objects_loop fuel' self fh
  end.

(** [_Wma._parse_tag] *)
Definition _parse_tag (self : TinyTag) (fh : BinaryIO) : result (TinyTag * BinaryIO) :=
  let '(header, fh) := read 30 fh in
  if negb (bytes_eqb (take 16 header) ASF_HEADER_OBJECT)     (* 128 bit GUID *)
     || negb (bytes_eqb (last_n 1 header) [x02])
  then Raise (TinyTagException "Invalid WMA file")
  else
    let? (self, fh) := objects_loop (S (S (length (io_data fh)))) self fh in
    Ok (with_tags_parsed self true, fh).

(** [_Wma._determine_duration] *)
Definition _determine_duration (self : TinyTag) (fh : BinaryIO)
  : result (TinyTag * BinaryIO) :=
  if negb (_tags_parsed self) then _parse_tag self fh else Ok (self, fh).

End Tags.

End Wma.

(** ** More sample streams *)

Module MoreSamples.

(** an ID3v2.3 [APIC] frame: Latin-1, the MIME type [image/png], picture
    type 3, an empty description and four bytes of image data *)
Definition apic_frame : list Z :=
  let content :=
    ([0] ++ Samples.ascii_codes "image/png" ++ [0] ++ [3] ++ [0] ++ [137; 80; 78; 71])%list in
  (Samples.ascii_codes "APIC" ++ Samples.be32 (Z.of_nat (length content)) ++ [0; 0]
   ++ content)%list.

(** an ID3v2.3 tag with the title [I] and a picture *)
Definition id3_with_picture : bytes :=
  Samples.bz (Samples.id3v2_tag (Samples.id3_text_frame "TIT2" "I" ++ apic_frame)).

(** a Vorbis comment block (empty vendor string) with a title and a
    picture comment *)
Definition comments_with_picture : bytes :=
  Samples.bz (Samples.le32 0 ++ Samples.le32 2 ++ Samples.vorbis_comment "title=V"
              ++ Samples.vorbis_comment "metadata_block_picture=AAAA")%list.

(** [moov/udta/meta/ilst] with the album [A] and a cover of three bytes
    (data type 13, JPEG) *)
Definition mp4_with_cover : bytes :=
  Samples.bz
    (Samples.mp4_atom "moov"
       (Samples.mp4_atom "udta"
          (Samples.mp4_atom "meta"
             ([0; 0; 0; 0] ++
              Samples.mp4_atom "ilst"
                (Samples.mp4_atom "aART"
                   (Samples.mp4_atom "data" (Samples.be32 1 ++ Samples.be32 0 ++ [65]))
                 ++ Samples.mp4_atom "covr"
                      (Samples.mp4_atom "data"
                         (Samples.be32 13 ++ Samples.be32 0 ++ [255; 216; 255])))))))%list.

(** a FLAC picture block: picture type 3, the MIME type [image/png], an
    empty description, four numbers (width, height, depth, colours) and
    four bytes of image data *)
Definition flac_picture : list Z :=
  (Samples.be32 3 ++ Samples.be32 9 ++ Samples.ascii_codes "image/png" ++ Samples.be32 0
   ++ Samples.be32 1 ++ Samples.be32 1 ++ Samples.be32 24 ++ Samples.be32 0
   ++ Samples.be32 4 ++ [137; 80; 78; 71])%list.

(** a FLAC stream whose only metadata block is this picture *)
Definition flac_with_picture : bytes :=
  Samples.bz (Samples.ascii_codes "fLaC"
              ++ [134; 0; 0; Z.of_nat (length flac_picture)] ++ flac_picture)%list.

(** a WMA stream: the header object (its GUID, fourteen bytes of which
    the last is 2) and one stream properties object of 96 bytes for an
    audio stream: codec 353, 2 channels, 44100 Hz, 16000 bytes per
    second, 16 bits per sample *)
Definition wma_audio_stream : bytes :=
  (Wma.ASF_HEADER_OBJECT ++ Samples.bz (repeat 0 13 ++ [2])
   ++ Wma.ASF_STREAM_PROPERTIES_OBJECT ++ Samples.bz (Samples.le32 96 ++ Samples.le32 0)
   ++ Wma.STREAM_TYPE_ASF_AUDIO_MEDIA
   ++ Samples.bz (repeat 0 24 ++ Samples.le32 18 ++ Samples.le32 0 ++ repeat 0 6
                  ++ Samples.le16 353 ++ Samples.le16 2 ++ Samples.le32 44100
                  ++ Samples.le32 16000 ++ [0; 0] ++ Samples.le16 16 ++ [0; 0]))%list.

End MoreSamples.
(** * Theorems *)

Lemma shiftr_land_ones_digit (n k : Z) :
  0 <= k -> Z.land (Z.shiftr n k) 127 = (n / 2 ^ k) mod 128.
Proof.
  intros Hk. rewrite Z.shiftr_div_pow2 by lia.
  change 127 with (Z.ones 7). rewrite Z.land_ones by lia. reflexivity.
Qed.

(** C5: decoding the four synchsafe bytes of a 28-bit value with seven
    bits per byte gives the value back. *)
Theorem calc_size_synchsafe_roundtrip (n : Z) :
  0 <= n < 2 ^ 28 ->
  ID3._calc_size (ID3.synchsafe_encode n) 7 = n.
Proof.
  intros Hn.
  unfold ID3._calc_size, ID3.synchsafe_encode.
  cbn [fold_left].
  change 127 with (Z.ones 7). rewrite !Z.land_ones by lia.
  rewrite !Z.shiftr_div_pow2, !Z.shiftl_mul_pow2 by lia.
  change (2 ^ 7) with 128. change (2 ^ 14) with 16384.
  change (2 ^ 21) with 2097152. change (2 ^ 28) with 268435456 in Hn.
  Z.div_mod_to_equations. lia.
Qed.

Lemma calc_size_synchsafe_roundtrip_witness :
  ID3._calc_size (ID3.synchsafe_encode 257) 7 = 257.
Proof. apply calc_size_synchsafe_roundtrip. cbn. lia. Defined.

(** ** The tag accumulator *)

Lemma truthy_VStr (s : string) : truthy (VStr s) = true <-> s <> "".
Proof.
  cbn. destruct (String.eqb_spec s "") as [->|Hne]; cbn; split; congruence.
Qed.

Lemma lookup_field_set_field_extra (t : TinyTag) (name : string) (v : pyval) :
  String.prefix "extra." name = true ->
  lookup_field (with_extra t (<[str_drop 6 name := v]> (extra t))) name = v.
Proof.
  intros Hp. unfold lookup_field. rewrite Hp. cbn.
  by rewrite lookup_insert_eq.
Qed.

Lemma lookup_field_set_field_attr (t : TinyTag) (name : string) (v : pyval) :
  String.prefix "extra." name = false ->
  lookup_field (with_attrs t (<[name := v]> (attrs t))) name = v.
Proof.
  intros Hp. unfold lookup_field, attr. rewrite Hp. cbn.
  by rewrite lookup_insert_eq.
Qed.

(** a write that is not a string replaces whatever the field holds *)
Lemma set_field_not_str (self : TinyTag) (name : string) (v : pyval) :
  is_str v = false ->
  exists self', _set_field self name v = Ok self' /\ lookup_field self' name = v.
Proof.
  intros Hv. unfold _set_field. rewrite Hv. cbn [andb].
  destruct v; try discriminate Hv; cbn [rbind];
    (destruct (String.prefix "extra." name) eqn:Hp; eexists; split;
     [reflexivity | by (apply lookup_field_set_field_extra || apply lookup_field_set_field_attr)
     | reflexivity | by (apply lookup_field_set_field_extra || apply lookup_field_set_field_attr) ]).
Qed.

(** a non-empty string written over a different non-empty string is appended *)
Lemma set_field_concat (self : TinyTag) (name A B : string) :
  A <> "" -> B <> "" -> A <> B ->
  lookup_field self name = VStr A ->
  exists self', _set_field self name (VStr B) = Ok self' /\
                lookup_field self' name = VStr (String.append A (String.append NUL B)).
Proof.
  intros HA HB HAB Hold. unfold _set_field.
  apply truthy_VStr in HB as HBt. rewrite HBt. cbn [is_str negb andb].
  unfold lookup_field, attr in Hold.
  destruct (String.prefix "extra." name) eqn:Hp; rewrite Hold;
    apply truthy_VStr in HA as ->;
    (destruct (String.eqb_spec A B) as [?|_]; [contradiction|]); cbn [rbind];
    eexists; (split; [reflexivity|]).
  - by apply lookup_field_set_field_extra.
  - by apply lookup_field_set_field_attr.
Qed.

(** C1, as the code has it: an empty string is never written; a non-empty
    string written over a different non-empty string is appended after a
    NUL; a value that is not a string (an integer, a float, bytes, zero
    and empty included) always replaces the stored one.  The two sample
    runs of the specification are the last two parts. *)
Theorem set_field_merge_rule :
  (forall self name, _set_field self name (VStr "") = Ok self) /\
  (forall self name A B,
      A <> "" -> B <> "" -> A <> B ->
      lookup_field self name = VStr A ->
      exists self', _set_field self name (VStr B) = Ok self' /\
                    lookup_field self' name = VStr (String.append A (String.append NUL B))) /\
  (forall self name v,
      is_str v = false ->
      exists self', _set_field self name v = Ok self' /\ lookup_field self' name = v) /\
  (exists t1 t2,
      _set_field TinyTag_init "title" (VStr "A") = Ok t1 /\
      _set_field t1 "title" (VStr "B") = Ok t2 /\
      attr t2 "title" = VStr (String.append "A" (String.append NUL "B"))) /\
  (exists t1,
      _set_field TinyTag_init "title" (VStr "A") = Ok t1 /\
      _set_field t1 "title" (VStr "") = Ok t1 /\
      attr t1 "title" = VStr "A").
Proof.
  split; [|split; [|split; [|split]]].
  - reflexivity.
  - apply set_field_concat.
  - apply set_field_not_str.
  - do 2 eexists. split; [reflexivity|]. split; [reflexivity|].
    vm_compute. reflexivity.
  - eexists. split; [reflexivity|]. split; [reflexivity|].
    vm_compute. reflexivity.
Qed.

Lemma set_field_merge_rule_witness :
  exists self',
    _set_field (set_attr TinyTag_init "artist" (VStr "X")) "artist" (VStr "Y") = Ok self' /\
    lookup_field self' "artist" = VStr (String.append "X" (String.append NUL "Y")).
Proof.
  apply (proj1 (proj2 set_field_merge_rule)).
  - discriminate.
  - discriminate.
  - discriminate.
  - vm_compute. reflexivity.
Defined.

(** C1, as stated, fails: a field that holds 5 is overwritten by a later
    write of the integer 0 (two [TRCK] frames, or two [tracknumber]
    comments, the second one [0]). *)
Lemma set_field_zero_overwrites :
  ~ (forall self name v self',
        _set_field self name v = Ok self' ->
        lookup_field self' name <> lookup_field self name ->
        truthy v = true).
Proof.
  intros H.
  specialize (H (set_attr TinyTag_init "track" (VInt 5)) "track" (VInt 0) _ eq_refl).
  assert (Hf : truthy (VInt 0) = true) by (apply H; vm_compute; discriminate).
  discriminate Hf.
Qed.

(** ** The byte stream *)

Lemma ztake_take {A} (n : Z) (l : list A) : ztake n l = take (Z.to_nat n) l.
Proof.
  unfold ztake. destruct (Z.le_ge_cases n (Z.of_nat (length l))) as [Hle|Hge].
  - by rewrite Z.min_l.
  - rewrite Z.min_r, Nat2Z.id by lia. rewrite !take_ge; [done|lia|lia].
Qed.

Lemma zdrop_drop {A} (n : Z) (l : list A) : zdrop n l = drop (Z.to_nat n) l.
Proof.
  unfold zdrop. destruct (Z.le_ge_cases n (Z.of_nat (length l))) as [Hle|Hge].
  - by rewrite Z.min_l.
  - rewrite Z.min_r, Nat2Z.id by lia. rewrite !drop_ge; [done|lia|lia].
Qed.

Lemma io_rest_at (fh : BinaryIO) (n : Z) :
  0 <= io_pos fh -> 0 <= n ->
  io_rest (io_at fh (io_pos fh + n)) = drop (Z.to_nat n) (io_rest fh).
Proof.
  intros Hp Hn. unfold io_rest, io_at. cbn. rewrite !zdrop_drop.
  rewrite Z2Nat.inj_add by lia. by rewrite drop_drop.
Qed.

Lemma read_prefix (fh : BinaryIO) (x y : bytes) :
  0 <= io_pos fh ->
  io_rest fh = (x ++ y)%list ->
  read (Z.of_nat (length x)) fh = (x, io_at fh (io_pos fh + Z.of_nat (length x))).
Proof.
  intros Hp Hr. unfold read.
  destruct (Z.ltb_spec (Z.of_nat (length x)) 0) as [?|_]; [lia|].
  rewrite ztake_take, Hr, Nat2Z.id, take_app_length. reflexivity.
Qed.

Lemma io_rest_after (fh : BinaryIO) (x y : bytes) :
  0 <= io_pos fh ->
  io_rest fh = (x ++ y)%list ->
  io_rest (io_at fh (io_pos fh + Z.of_nat (length x))) = y.
Proof.
  intros Hp Hr. rewrite io_rest_at by lia.
  by rewrite Hr, Nat2Z.id, drop_app_length.
Qed.

Lemma seek_cur_forward (fh : BinaryIO) (n : Z) :
  0 <= io_pos fh + n -> seek_cur n fh = Ok (io_at fh (io_pos fh + n)).
Proof.
  intros H. unfold seek_cur, seek_to.
  destruct (Z.ltb_spec (io_pos fh + n) 0); [lia | reflexivity].
Qed.

Lemma read_all_rest (fh : BinaryIO) :
  read_all fh = (io_rest fh, io_at fh (io_pos fh + Z.of_nat (length (io_rest fh)))).
Proof. reflexivity. Qed.

Lemma read_count_ok (n : Z) (fh fh' : BinaryIO) (b : bytes) :
  read_count n fh = Ok (b, fh') -> read n fh = (b, fh').
Proof. unfold read_count. destruct (_ && _); [discriminate|]. congruence. Qed.

Lemma read_count_completes (n : Z) (fh : BinaryIO) : read_count n fh <> OutOfFuel.
Proof. unfold read_count. by destruct (_ && _). Qed.

(** ** Bytes as numbers *)

Lemma byte_val_range (x : byte) : 0 <= byte_val x < 256.
Proof.
  unfold byte_val. pose proof (Byte.to_N_bounded x) as Hb.
  split; [apply N2Z.is_nonneg|]. lia.
Qed.

Lemma byte_vals_nonneg (b : bytes) : Forall (fun x => 0 <= x) (byte_val <$> b).
Proof.
  apply Forall_fmap, Forall_forall. intros x _. cbn. pose proof (byte_val_range x). lia.
Qed.

Lemma bytes_to_int_nonneg (l : list Z) :
  Forall (fun x => 0 <= x) l -> 0 <= _bytes_to_int l.
Proof.
  unfold _bytes_to_int.
  assert (H : forall l a, 0 <= a -> Forall (fun x => 0 <= x) l ->
              0 <= fold_left (fun accu elem => Z.shiftl accu 8 + elem) l a).
  { clear l. induction l as [|x l IH]; intros a Ha Hl; [done|].
    apply Forall_cons in Hl as [Hx Hl]. cbn. apply IH; [|done].
    pose proof (Z.shiftl_nonneg a 8). lia. }
  by apply H.
Qed.

Lemma be_uint_four_bytes (b : bytes) : length b = 4%nat -> 0 <= be_uint b < 2 ^ 32.
Proof.
  destruct b as [|x [|y [|z [|w [|? ?]]]]]; try discriminate. intros _.
  unfold be_uint. cbn.
  pose proof (byte_val_range x). pose proof (byte_val_range y).
  pose proof (byte_val_range z). pose proof (byte_val_range w). lia.
Qed.

(** ** The quotient of two integers

    [a / b] on two positive integers below 2^53 is never [0.0]: the
    quotient of the mantissas has 53 or 54 digits, so rounding it gives
    a normal number. *)

Lemma digits2_bounds (p : positive) :
  2 ^ (Zpos (digits2_pos p) - 1) <= Zpos p < 2 ^ Zpos (digits2_pos p).
Proof.
  induction p as [p IH|p IH|]; cbn [digits2_pos]; [| |cbn; lia].
  - rewrite Pos2Z.inj_succ.
    replace (Z.succ (Zpos (digits2_pos p)) - 1) with (Z.succ (Zpos (digits2_pos p) - 1)) by lia.
    rewrite !Z.pow_succ_r by lia. lia.
  - rewrite Pos2Z.inj_succ.
    replace (Z.succ (Zpos (digits2_pos p)) - 1) with (Z.succ (Zpos (digits2_pos p) - 1)) by lia.
    rewrite !Z.pow_succ_r by lia. lia.
Qed.

Lemma Zdigits2_bounds (z : Z) :
  0 < z -> 2 ^ (Zdigits2 z - 1) <= z < 2 ^ Zdigits2 z.
Proof. destruct z as [|p|p]; try lia. intros _. apply digits2_bounds. Qed.

(** the number of digits of a positive integer, from its size *)
Lemma Zdigits2_eq (z d : Z) :
  0 < d -> 2 ^ (d - 1) <= z < 2 ^ d -> Zdigits2 z = d.
Proof.
  intros Hd [Hlo Hhi].
  assert (Hz : 0 < z) by (pose proof (Z.pow_pos_nonneg 2 (d - 1)); lia).
  destruct (Zdigits2_bounds z Hz) as [Hlo' Hhi'].
  assert (0 < Zdigits2 z) by (destruct z; cbn; lia).
  destruct (Z.lt_trichotomy (Zdigits2 z) d) as [Hlt|[->|Hgt]]; [|reflexivity|].
  - assert (2 ^ Zdigits2 z <= 2 ^ (d - 1)) by (apply Z.pow_le_mono_r; lia). lia.
  - assert (2 ^ d <= 2 ^ (Zdigits2 z - 1)) by (apply Z.pow_le_mono_r; lia). lia.
Qed.


Lemma shr_1_digits (mrs : shr_record) :
  0 <= shr_m mrs ->
  0 <= shr_m (shr_1 mrs) /\
  Zdigits2 (shr_m (shr_1 mrs)) = Z.max 0 (Zdigits2 (shr_m mrs) - 1).
Proof.
  destruct mrs as [m r s]. cbn [shr_m]. intros Hm.
  destruct m as [|[p|p|]|p]; cbn [shr_1 shr_m Zdigits2 digits2_pos]; try lia.
Qed.

(** bringing a mantissa of 53 or 54 digits to 53 digits *)
Lemma shr_fexp_normal (m e : Z) (l : location) :
  0 < m -> 53 <= Zdigits2 m <= 54 -> -1074 <= e ->
  exists mrs e2,
    shr_fexp prec emax m e l = (mrs, e2) /\
    Zdigits2 (shr_m mrs) = 53 /\ 0 <= shr_m mrs /\ e <= e2 /\
    (Zdigits2 m = 53 -> shr_m mrs = m).
Proof.
  intros Hm Hd He. unfold shr_fexp.
  assert (Hrec : shr_m (shr_record_of_loc m l) = m) by (by destruct l as [|[]]).
  assert (Hn : fexp prec emax (Zdigits2 m + e) - e = Zdigits2 m - 53).
  { unfold fexp, SpecFloat.emin, prec, emax. lia. }
  rewrite Hn.
  assert (Hc : Zdigits2 m = 53 \/ Zdigits2 m = 54) by lia.
  destruct Hc as [Hc|Hc]; rewrite Hc.
  - change (53 - 53) with 0. cbn [shr].
    do 2 eexists. split; [reflexivity|]. rewrite Hrec. repeat split; lia.
  - change (54 - 53) with 1. cbn [shr SpecFloat.iter_pos]. change (IntDef.Z.add e 1) with (e + 1).
    do 2 eexists. split; [reflexivity|].
    destruct (shr_1_digits (shr_record_of_loc m l)) as [H0 H1]; [rewrite Hrec; lia|].
    rewrite Hrec, Hc in H1. repeat split; lia.
Qed.

Lemma round_nearest_even_cases (m : Z) (l : location) :
  round_nearest_even m l = m \/ round_nearest_even m l = m + 1.
Proof. destruct l as [|[]]; cbn [round_nearest_even]; try tauto. destruct (Z.even m); tauto. Qed.

(** a quotient that is rounded to 53 digits is a normal number or an
    infinity, never a zero *)
Lemma binary_round_aux_normal (q e : Z) (l : location) :
  2 ^ 52 <= q < 2 ^ 54 -> -1074 <= e ->
  let r := binary_round_aux prec emax false q e l in
  SpecFloat.valid_binary prec emax r = true /\ SFeqb r (S754_zero false) = false.
Proof.
  intros Hq He. cbv zeta. unfold binary_round_aux.
  assert (Hdq : 53 <= Zdigits2 q <= 54).
  { destruct (Z.lt_ge_cases q (2 ^ 53)).
    - rewrite (Zdigits2_eq q 53); lia.
    - rewrite (Zdigits2_eq q 54); lia. }
  destruct (shr_fexp_normal q e l) as (mrs1 & e1 & -> & D1 & P1 & E1 & _); [lia..|].
  set (m2 := round_nearest_even (shr_m mrs1) (loc_of_shr_record mrs1)).
  assert (P1' : 0 < shr_m mrs1) by (destruct (shr_m mrs1); cbn in D1; lia).
  pose proof (Zdigits2_bounds _ P1') as B1. rewrite D1 in B1.
  assert (B2 : 2 ^ 52 <= m2 <= 2 ^ 53).
  { destruct (round_nearest_even_cases (shr_m mrs1) (loc_of_shr_record mrs1)) as [H|H];
      fold m2 in H; change (53 - 1) with 52 in B1; lia. }
  assert (Hd2 : 53 <= Zdigits2 m2 <= 54).
  { destruct (Z.lt_ge_cases m2 (2 ^ 53)).
    - rewrite (Zdigits2_eq m2 53); lia.
    - rewrite (Zdigits2_eq m2 54); lia. }
  destruct (shr_fexp_normal m2 e1 loc_Exact) as (mrs2 & e2 & -> & D2 & P2 & E2 & _); [lia..|].
  destruct (shr_m mrs2) as [|p|p] eqn:Hm; cbn in D2; try lia.
  destruct (e2 <=? emax - prec) eqn:Hle; [|split; reflexivity].
  split; [|reflexivity].
  cbn [SpecFloat.valid_binary]. unfold bounded, canonical_mantissa.
  rewrite Hle, andb_true_r. apply Z.eqb_eq.
  injection D2 as ->. unfold fexp, SpecFloat.emin, prec, emax. lia.
Qed.

Lemma int_quotient_not_zero (a b : Z) :
  0 < a < 2 ^ 53 -> 0 < b < 2 ^ 53 ->
  PrimFloat.eqb (int_quotient a b) 0 = false.
Proof.
  intros Ha Hb. unfold int_quotient.
  destruct a as [|a|a]; try lia. destruct b as [|b|b]; try lia.
  cbn [int_spec SFdiv xorb].
  unfold SFdiv_core_binary.
  pose proof (Zdigits2_bounds (Zpos a) ltac:(lia)) as Da.
  pose proof (Zdigits2_bounds (Zpos b) ltac:(lia)) as Db.
  set (d1 := Zdigits2 (Zpos a)) in *. set (d2 := Zdigits2 (Zpos b)) in *.
  assert (H1 : 1 <= d1 <= 53).
  { split; [subst d1; cbn; lia|].
    destruct (Z.le_gt_cases d1 53) as [|Hgt]; [done|].
    assert (2 ^ 53 <= 2 ^ (d1 - 1)) by (apply Z.pow_le_mono_r; lia). lia. }
  assert (H2 : 1 <= d2 <= 53).
  { split; [subst d2; cbn; lia|].
    destruct (Z.le_gt_cases d2 53) as [|Hgt]; [done|].
    assert (2 ^ 53 <= 2 ^ (d2 - 1)) by (apply Z.pow_le_mono_r; lia). lia. }
  assert (He : Z.min (fexp prec emax (d1 + 0 - (d2 + 0))) (0 - 0) = d1 - d2 - 53).
  { unfold fexp, SpecFloat.emin, prec, emax. lia. }
  rewrite He.
  replace (0 - 0 - (d1 - d2 - 53)) with (53 + d2 - d1) by lia.
  destruct (53 + d2 - d1) as [|s|s] eqn:Hs; try lia.
  rewrite Z.shiftl_mul_pow2 by lia. rewrite <- Hs.
  destruct (Z.div_eucl (Zpos a * 2 ^ (53 + d2 - d1)) (Zpos b)) as [q r] eqn:Hdiv.
  assert (Hq : q = Zpos a * 2 ^ (53 + d2 - d1) / Zpos b)
    by (unfold Z.div; by rewrite Hdiv).
  assert (Hpow : 2 ^ (53 + d2 - d1) * 2 ^ (d1 - 1) = 2 ^ 52 * 2 ^ d2).
  { rewrite <- !Z.pow_add_r by lia. f_equal. lia. }
  assert (Hpow' : 2 ^ (53 + d2 - d1) * 2 ^ d1 = 2 ^ 54 * 2 ^ (d2 - 1)).
  { rewrite <- !Z.pow_add_r by lia. f_equal. lia. }
  assert (Hs0 : 0 < 2 ^ (53 + d2 - d1)) by (apply Z.pow_pos_nonneg; lia).
  assert (Bq : 2 ^ 52 <= q < 2 ^ 54).
  { subst q. split.
    - apply Z.div_le_lower_bound; [lia|]. nia.
    - apply Z.div_lt_upper_bound; [lia|]. nia. }
  destruct (binary_round_aux_normal q (d1 - d2 - 53) (new_location (Zpos b) r) Bq ltac:(lia))
    as [Hv Hz].
  rewrite FloatAxioms.eqb_spec, FloatAxioms.Prim2SF_SF2Prim by exact Hv. exact Hz.
Qed.


(** ** MP3: the Xing header *)

Lemma land_3_cases (z : Z) :
  Z.land z 3 = 0 \/ Z.land z 3 = 1 \/ Z.land z 3 = 2 \/ Z.land z 3 = 3.
Proof.
  assert (Z.land z 3 = z mod 2 ^ 2) as ->
    by (change 3 with (Z.ones 2); apply Z.land_ones; lia).
  pose proof (Z.mod_pos_bound z (2 ^ 2) ltac:(lia)). lia.
Qed.

Lemma land_15_bounds (z : Z) : 0 <= Z.land z 15 <= 15.
Proof.
  assert (Z.land z 15 = z mod 2 ^ 4) as ->
    by (change 15 with (Z.ones 4); apply Z.land_ones; lia).
  pose proof (Z.mod_pos_bound z (2 ^ 4) ltac:(lia)). lia.
Qed.

(** the table look-ups of a frame that passed the validity test succeed *)
Lemma valid_frame_tables (b : bytes) :
  ID3.invalid_frame b = false ->
  exists channels by_layer by_id frame_bitrate row samplerate,
    ID3.index ID3.channels_per_channel_mode (ID3.channel_mode_of b) = Ok channels /\
    ID3.index ID3.bitrate_by_version_by_layer (ID3.mpeg_id_of b) = Ok (Some by_layer) /\
    ID3.index by_layer (ID3.layer_id_of b) = Ok (Some by_id) /\
    ID3.index by_id (ID3.br_id_of b) = Ok frame_bitrate /\
    ID3.index ID3.samplerates (ID3.mpeg_id_of b) = Ok row /\
    ID3.index row (ID3.sr_id_of b) = Ok samplerate /\
    0 < samplerate /\ 0 < frame_bitrate.
Proof.
  unfold ID3.invalid_frame. intros H.
  repeat (apply orb_false_iff in H as [H ?]).
  assert (Hch : exists c, ID3.index ID3.channels_per_channel_mode (ID3.channel_mode_of b) = Ok c).
  { unfold ID3.channel_mode_of.
    destruct (land_3_cases (byte_val (nth 3 b x00) ≫ 6)) as [-> | [-> | [-> | ->]]];
      eexists; reflexivity. }
  destruct Hch as [c Hc]. exists c.
  unfold ID3.mpeg_id_of, ID3.layer_id_of, ID3.sr_id_of, ID3.br_id_of in *.
  pose proof (land_15_bounds (byte_val (nth 2 b x00) ≫ 4)) as Hbr.
  set (br := Z.land (byte_val (nth 2 b x00) ≫ 4) 15) in *.
  assert (Hbr' : br = 1 \/ br = 2 \/ br = 3 \/ br = 4 \/ br = 5 \/ br = 6 \/ br = 7 \/
                 br = 8 \/ br = 9 \/ br = 10 \/ br = 11 \/ br = 12 \/ br = 13 \/ br = 14) by lia.
  clearbody br.
  destruct (land_3_cases (byte_val (nth 1 b x00) ≫ 3)) as [Hm | [Hm | [Hm | Hm]]];
    rewrite Hm in *; try discriminate;
    destruct (land_3_cases (byte_val (nth 1 b x00) ≫ 1)) as [Hl | [Hl | [Hl | Hl]]];
    rewrite Hl in *; try discriminate;
    destruct (land_3_cases (byte_val (nth 2 b x00) ≫ 2)) as [Hs | [Hs | [Hs | Hs]]];
    rewrite Hs in *; try discriminate;
    repeat (destruct Hbr' as [-> | Hbr']); try subst br;
    (do 5 eexists; (split; [exact Hc|]);
     (split; [reflexivity|]); (split; [reflexivity|]);
     (split; [reflexivity|]); (split; [reflexivity|]); (split; [reflexivity|]);
     split; reflexivity).
Qed.

Lemma read_exactly (fh : BinaryIO) (n : Z) (x y : bytes) :
  0 <= io_pos fh ->
  io_rest fh = (x ++ y)%list ->
  Z.of_nat (length x) = n ->
  read n fh = (x, io_at fh (io_pos fh + n)) /\
  io_rest (io_at fh (io_pos fh + n)) = y /\
  0 <= io_pos (io_at fh (io_pos fh + n)).
Proof.
  intros Hp Hr <-. split; [by apply read_prefix with y|].
  split; [by apply io_rest_after|cbn; lia].
Qed.

Lemma parse_xing_header_fields (walker : BinaryIO) (marker4 flags4 frames4 bytes4 tail : bytes) :
  0 <= io_pos walker ->
  io_rest walker = (marker4 ++ flags4 ++ frames4 ++ bytes4 ++ tail)%list ->
  length marker4 = 4%nat -> length flags4 = 4%nat ->
  length frames4 = 4%nat -> length bytes4 = 4%nat ->
  Z.land (to_signed 32 (be_uint flags4)) 1 <> 0 ->
  Z.land (to_signed 32 (be_uint flags4)) 2 <> 0 ->
  exists walker',
    ID3._parse_xing_header walker =
    Ok (to_signed 32 (be_uint frames4), to_signed 32 (be_uint bytes4), walker').
Proof.
  intros Hpos Hrest Lm Lf Lx Lb H1 H2. unfold ID3._parse_xing_header.
  rewrite seek_cur_forward by lia. cbn [rbind].
  destruct (read_exactly walker 4 marker4 _ Hpos Hrest) as (_ & R1 & P1); [by rewrite Lm|].
  set (w1 := io_at walker (io_pos walker + 4)) in *.
  destruct (read_exactly w1 4 flags4 _ P1 R1) as (E1 & R2 & P2); [by rewrite Lf|].
  rewrite E1. set (w2 := io_at w1 (io_pos w1 + 4)) in *.
  unfold unpack_be_signed, unpack_be. rewrite Lf. cbn [Nat.eqb rbind].
  change (8 * Z.of_nat 4) with 32.
  destruct (Z.eqb_spec (Z.land (to_signed 32 (be_uint flags4)) 1) 0) as [?|_]; [contradiction|].
  destruct (Z.eqb_spec (Z.land (to_signed 32 (be_uint flags4)) 2) 0) as [?|_]; [contradiction|].
  cbn [negb].
  destruct (read_exactly w2 4 frames4 _ P2 R2) as (E2 & R3 & P3); [by rewrite Lx|].
  rewrite E2. set (w3 := io_at w2 (io_pos w2 + 4)) in *.
  rewrite Lx. cbn [Nat.eqb rbind].
  destruct (read_exactly w3 4 bytes4 _ P3 R3) as (E3 & R4 & P4); [by rewrite Lb|].
  rewrite E3. set (w4 := io_at w3 (io_pos w3 + 4)) in *.
  rewrite Lb. cbn [Nat.eqb rbind].
  destruct (negb (Z.land (to_signed 32 (be_uint flags4)) 4 =? 0));
    [rewrite seek_cur_forward by lia|]; cbn [rbind];
    (destruct (negb (Z.land (to_signed 32 (be_uint flags4)) 8 =? 0));
     [rewrite seek_cur_forward by (cbn; lia)|]; cbn [rbind]; eexists; reflexivity).
Qed.

Lemma peek_restores (w : BinaryIO) :
  0 <= io_pos w ->
  seek_cur (- Z.of_nat (length (io_rest w)))
           (io_at w (io_pos w + Z.of_nat (length (io_rest w)))) = Ok w.
Proof.
  intros Hp. rewrite seek_cur_forward by (cbn; lia). cbn.
  destruct w as [d p m]. unfold io_at. cbn. f_equal. f_equal. lia.
Qed.

Lemma index_In {A} (l : list A) (i : Z) (a : A) : ID3.index l i = Ok a -> In a l.
Proof.
  unfold ID3.index. destruct (l !! Z.to_nat i) as [x|] eqn:E; [|discriminate].
  intros [= <-]. apply list_elem_of_In. by eapply list_elem_of_lookup_2.
Qed.

(** the sample rates of the table *)
Lemma samplerate_range (mpeg_id sr_id : Z) (row : list Z) (samplerate : Z) :
  ID3.index ID3.samplerates mpeg_id = Ok row ->
  ID3.index row sr_id = Ok samplerate ->
  8000 <= samplerate <= 48000.
Proof.
  intros Hrow Hsr. apply index_In in Hrow. apply index_In in Hsr.
  cbn in Hrow. destruct Hrow as [<-|[<-|[<-|[<-|[]]]]]; cbn in Hsr; lia.
Qed.

Lemma xing_samples_per_frame_cases (mpeg_id : Z) :
  (mpeg_id = 3 -> ID3.xing_samples_per_frame mpeg_id = 1152) /\
  (mpeg_id = 0 \/ mpeg_id = 2 -> ID3.xing_samples_per_frame mpeg_id = 576).
Proof. split; [intros -> | intros [-> | ->]]; reflexivity. Qed.

Lemma xing_step (file_offset : Z) (st : ID3.scan)
      (pre flags4 frames4 bytes4 tail : bytes) :
  let b := io_rest (ID3.s_walker st) in
  let xframes := to_signed 32 (be_uint frames4) in
  let byte_count := to_signed 32 (be_uint bytes4) in
  let flags := to_signed 32 (be_uint flags4) in
  0 <= io_pos (ID3.s_walker st) ->
  ID3.s_frames st = 0 ->
  b = (pre ++ ID3.Xing ++ flags4 ++ frames4 ++ bytes4 ++ tail)%list ->
  bytes_find ID3.Xing b 0 = Some (length pre) ->
  length flags4 = 4%nat -> length frames4 = 4%nat -> length bytes4 = 4%nat ->
  ID3.invalid_frame b = false ->
  Z.land flags 1 <> 0 -> Z.land flags 2 <> 0 ->
  0 < xframes -> 0 < byte_count ->
  exists channels row samplerate,
    ID3.index ID3.channels_per_channel_mode (ID3.channel_mode_of b) = Ok channels /\
    ID3.index ID3.samplerates (ID3.mpeg_id_of b) = Ok row /\
    ID3.index row (ID3.sr_id_of b) = Ok samplerate /\
    let duration :=
      int_quotient (xframes * ID3.xing_samples_per_frame (ID3.mpeg_id_of b)) samplerate in
    PrimFloat.eqb duration 0 = false /\
    ID3.scan_step file_offset st =
    Ok (inl (ID3.Returned
               (set_attr
                  (set_attr
                     (set_attr
                        (set_attr (ID3.s_self st) "channels" (VInt channels))
                        "samplerate" (VInt samplerate))
                     "duration" (VFloat duration))
                  "bitrate"
                  (VFloat (py_float (byte_count * 8) / duration / py_float 1000)%float))
               (ID3.s_fh st))).
Proof.
  intros b xframes byte_count flags Hpos Hfr Hb Hfind Lf Lx Lb Hvalid F1 F2 Hx Hc.
  destruct (valid_frame_tables b Hvalid)
    as (channels & by_layer & by_id & frame_bitrate & row & samplerate
        & Tc & Tl & Ti & Tb & Tr & Ts & Hsr & _).
  exists channels, row, samplerate. do 3 (split; [assumption|]).
  intros duration.
  assert (Hnz : PrimFloat.eqb duration 0 = false).
  { pose proof (samplerate_range _ _ _ _ Tr Ts) as Hrate.
    pose proof (be_uint_four_bytes frames4 Lx) as Hf.
    assert (Hlt : xframes < 2 ^ 31).
    { subst xframes. unfold to_signed in *.
      destruct (Z.ltb_spec (be_uint frames4) (2 ^ (32 - 1))); [assumption|lia]. }
    apply int_quotient_not_zero; [|lia].
    unfold ID3.xing_samples_per_frame, ID3.samples_per_frame.
    destruct (_ <=? 2); lia. }
  split; [exact Hnz|].
  unfold ID3.scan_step.
  rewrite read_all_rest. cbv beta iota zeta.
  rewrite (peek_restores _ Hpos). cbn [rbind]. fold b.
  assert (Hlen : (length b <? 4)%nat = false).
  { apply Nat.ltb_ge. rewrite Hb, !length_app, Lf, Lx, Lb. cbn. lia. }
  rewrite Hlen, Hvalid, Tc. cbn [rbind]. rewrite Tl. cbn [rbind ID3.not_none].
  rewrite Ti. cbn [rbind ID3.not_none]. rewrite Tb, Tr. cbn [rbind]. rewrite Ts. cbn [rbind].
  rewrite Hfr. cbn [Z.eqb andb ID3._USE_XING_HEADER].
  fold ID3.Xing. rewrite Hfind.
  rewrite seek_cur_forward by lia. cbn [rbind].
  destruct (read_exactly (ID3.s_walker st) (Z.of_nat (length pre)) pre _ Hpos Hb eq_refl)
    as (_ & R & P).
  destruct (parse_xing_header_fields _ ID3.Xing flags4 frames4 bytes4 tail P R eq_refl Lf Lx Lb F1 F2)
    as [w' ->].
  cbn [rbind]. fold xframes byte_count.
  destruct (Z.ltb_spec 0 xframes); [|lia].
  destruct (Z.ltb_spec 0 byte_count); [|lia].
  cbn [andb]. unfold int_truediv.
  destruct (Z.eqb_spec samplerate 0); [lia|]. cbn [rbind]. fold duration.
  unfold float_truediv. rewrite Hnz. reflexivity.
Qed.

(** C2: when the buffer peeked at the first valid frame (no frame counted
    yet) holds a Xing marker whose flags announce the frame count and the
    byte count, and both counts are positive, the scan stores
    [duration = xframes * samples_per_frame / samplerate], with 576
    samples per frame for MPEG 2 and 2.5 and 1152 for MPEG 1, then
    [bitrate = byte_count * 8 / duration / 1000], and returns at once,
    whatever follows in the stream.  The duration is not [0.0] (at least
    one frame of 576 samples, at 48000 Hz at most), so the division by it
    does not raise.  The second part is the sample of the specification:
    100 frames, 144000 bytes, 44100 Hz. *)
Theorem xing_fast_path :
  (forall (fuel : nat) (file_offset : Z) (st : ID3.scan)
          (pre flags4 frames4 bytes4 tail : bytes),
      let b := io_rest (ID3.s_walker st) in
      let xframes := to_signed 32 (be_uint frames4) in
      let byte_count := to_signed 32 (be_uint bytes4) in
      let flags := to_signed 32 (be_uint flags4) in
      0 <= io_pos (ID3.s_walker st) ->
      ID3.s_frames st = 0 ->
      b = (pre ++ ID3.Xing ++ flags4 ++ frames4 ++ bytes4 ++ tail)%list ->
      bytes_find ID3.Xing b 0 = Some (length pre) ->
      length flags4 = 4%nat -> length frames4 = 4%nat -> length bytes4 = 4%nat ->
      ID3.invalid_frame b = false ->
      Z.land flags 1 <> 0 -> Z.land flags 2 <> 0 ->
      0 < xframes -> 0 < byte_count ->
      exists channels row samplerate,
        ID3.index ID3.channels_per_channel_mode (ID3.channel_mode_of b) = Ok channels /\
        ID3.index ID3.samplerates (ID3.mpeg_id_of b) = Ok row /\
        ID3.index row (ID3.sr_id_of b) = Ok samplerate /\
        (ID3.mpeg_id_of b = 3 ->
         ID3.xing_samples_per_frame (ID3.mpeg_id_of b) = 1152) /\
        (ID3.mpeg_id_of b = 0 \/ ID3.mpeg_id_of b = 2 ->
         ID3.xing_samples_per_frame (ID3.mpeg_id_of b) = 576) /\
        let duration :=
          int_quotient (xframes * ID3.xing_samples_per_frame (ID3.mpeg_id_of b))
                       samplerate in
        PrimFloat.eqb duration 0 = false /\
        ID3.scan_loop (S fuel) file_offset st =
        Ok (ID3.Returned
              (set_attr
                 (set_attr
                    (set_attr
                       (set_attr (ID3.s_self st) "channels" (VInt channels))
                       "samplerate" (VInt samplerate))
                    "duration" (VFloat duration))
                 "bitrate"
                 (VFloat (py_float (byte_count * 8) / duration / py_float 1000)%float))
              (ID3.s_fh st))) /\
  (exists self fh,
      ID3._determine_duration TinyTag_init (file_on_disk Samples.xing_mp3) = Ok (self, fh) /\
      attr self "samplerate" = VInt 44100 /\
      attr self "duration" = VFloat (int_quotient (100 * 1152) 44100) /\
      attr self "bitrate" =
        VFloat (py_float (144000 * 8) / int_quotient (100 * 1152) 44100 / py_float 1000)%float).
Proof.
  split.
  - intros fuel file_offset st pre flags4 frames4 bytes4 tail b xframes byte_count flags
           Hpos Hfr Hb Hfind Lf Lx Lb Hvalid F1 F2 Hx Hc.
    destruct (xing_step file_offset st pre flags4 frames4 bytes4 tail
                        Hpos Hfr Hb Hfind Lf Lx Lb Hvalid F1 F2 Hx Hc)
      as (channels & row & samplerate & Tc & Tr & Ts & Hnz & Hstep).
    exists channels, row, samplerate. do 3 (split; [assumption|]).
    split; [apply xing_samples_per_frame_cases|].
    split; [apply xing_samples_per_frame_cases|].
    intros duration. split; [exact Hnz|].
    cbn [ID3.scan_loop]. rewrite Hstep. reflexivity.
  - do 2 eexists. split; [vm_compute; reflexivity|].
    split; [vm_compute; reflexivity|].
    split; vm_compute; reflexivity.
Qed.

Lemma xing_fast_path_witness :
  exists self fh,
    ID3.scan_loop 1 0 (ID3.mkScan TinyTag_init (file_on_disk Samples.xing_mp3)
                                  (mkIO Samples.xing_mp3 11 true) 0 0 0 [] 0)
    = Ok (ID3.Returned self fh) /\
    attr self "duration" = VFloat (int_quotient (100 * 576 * 2) 44100) /\
    attr self "bitrate" =
      VFloat (py_float (144000 * 8) / int_quotient (100 * 576 * 2) 44100 / py_float 1000)%float.
Proof.
  destruct (proj1 xing_fast_path 0%nat 0
              (ID3.mkScan TinyTag_init (file_on_disk Samples.xing_mp3)
                          (mkIO Samples.xing_mp3 11 true) 0 0 0 [] 0)
              (Samples.bz ([255; 251; 144; 0] ++ repeat 0 32)%list)
              (Samples.bz (Samples.be32 3))
              (Samples.bz (Samples.be32 100))
              (Samples.bz (Samples.be32 144000))
              [])
    as (channels & row & samplerate & Tc & Tr & Ts & _ & _ & _ & Hrun);
    try (vm_compute; reflexivity); try (vm_compute; congruence).
  vm_compute in Tc, Tr. injection Tc as <-. injection Tr as <-.
  vm_compute in Ts. injection Ts as <-.
  do 2 eexists. split; [exact Hrun|]. split; vm_compute; reflexivity.
Defined.

(** ** Ogg: packets *)

(** C4: the lacing rule of the specification is not what the reader
    does.  On one page with the segment table [255, 10, 20] (a packet of
    265 bytes, then a packet of 20 bytes) the reader yields a single
    packet of 285 bytes: a segment shorter than 255 bytes ends the packet
    only when the running total of the page is itself below 255.  The
    packet that spans two pages, the sample of the specification, is put
    together as stated. *)
Theorem ogg_lacing_merges_packets :
  Ogg.spec_packets [] Samples.two_packets_segments
  = [ (Samples.fill 255 97 ++ Samples.fill 10 98)%list; Samples.fill 20 99 ] /\
  fst (Ogg._parse_pages TinyTag_init (file_on_disk Samples.two_packets_page))
  = [ (Samples.fill 255 97 ++ Samples.fill 10 98 ++ Samples.fill 20 99)%list ] /\
  fst (Ogg._parse_pages TinyTag_init (file_on_disk Samples.spanning_pages))
  = [ Samples.fill 100 97; (Samples.fill 255 98 ++ Samples.fill 10 99)%list ].
Proof.
  split; [vm_compute; reflexivity|]. split; vm_compute; reflexivity.
Qed.

(** ** MP4: atoms *)

(** C7, as the code has it: every atom is read through an 8-byte header,
    a 4-byte big-endian size that counts the header and a 4-byte type;
    an atom whose size minus the header is not positive is jumped over:
    the next eight bytes are read as the header of the next atom and the
    scan of the branch goes on. *)
Theorem traverse_skips_empty_atom
        (fuel : nat) (self : TinyTag) (fh : BinaryIO)
        (path : list (bytes * MP4.node)) (stop_pos : option Z) (atom_header : bytes) :
  length atom_header = 8%nat ->
  be_uint (take 4 atom_header) - 8 <= 0 ->
  MP4.traverse_loop (S fuel) self fh path stop_pos atom_header
  = MP4.traverse_loop fuel self (snd (read 8 fh)) path stop_pos (fst (read 8 fh)).
Proof.
  intros Hlen Hsize. cbn [MP4.traverse_loop].
  rewrite Hlen. cbn [Nat.eqb negb].
  destruct (Z.leb_spec (be_uint (take 4 atom_header) - 8) 0) as [_|?]; [|lia].
  destruct (read 8 fh). reflexivity.
Qed.

Lemma traverse_skips_empty_atom_witness :
  MP4.traverse_loop 3 TinyTag_init (mkIO Samples.empty_atom_then_moov 8 false)
                    MP4.AUDIO_DATA_TREE None
                    (take 8 Samples.empty_atom_then_moov)
  = MP4.traverse_loop 2 TinyTag_init (mkIO Samples.empty_atom_then_moov 16 false)
                      MP4.AUDIO_DATA_TREE None
                      (take 8 (drop 8 Samples.empty_atom_then_moov)).
Proof.
  apply (traverse_skips_empty_atom 2 TinyTag_init
           (mkIO Samples.empty_atom_then_moov 8 false)).
  - reflexivity.
  - vm_compute. discriminate.
Defined.

(** C7, as stated, fails: an atom of size 8 does not end the scan of its
    branch.  In a stream that starts with such an atom the [moov] atom
    after it is still walked, and its movie header sets the duration. *)
Lemma empty_atom_does_not_end_branch :
  ~ (forall (fuel : nat) (self : TinyTag) (fh : BinaryIO)
            (path : list (bytes * MP4.node)) (stop_pos : option Z) (atom_header : bytes),
        length atom_header = 8%nat ->
        be_uint (take 4 atom_header) - 8 <= 0 ->
        exists fh', MP4.traverse_loop (S fuel) self fh path stop_pos atom_header
                    = Ok (self, fh')).
Proof.
  intros H.
  destruct (H 5%nat TinyTag_init (mkIO Samples.empty_atom_then_moov 8 false)
              MP4.AUDIO_DATA_TREE None
              (take 8 Samples.empty_atom_then_moov) eq_refl)
    as [fh' Hrun].
  - vm_compute. discriminate.
  - apply (f_equal (fun r => match r with
                                | Ok (t, _) => attr t "duration"
                                | _ => VNone
                                end)) in Hrun.
    vm_compute in Hrun. discriminate Hrun.
Qed.

(** ** The entry point *)

Section Get.
Context {R : PyRuntime} {D : Facade.Decoders}.
Variable open_file : Facade.path -> result BinaryIO.

Lemma get_unfold (cls : option Facade.parser_class) (filename : option Facade.path)
      (tags duration image ignore_errors : bool) (encoding : option string)
      (file_obj : option BinaryIO) (source : BinaryIO) :
  Facade.source_of open_file filename file_obj = Ok source ->
  Facade.get open_file cls filename tags duration image ignore_errors encoding file_obj
  = (let? (parser_class, fh) := Facade._get_parser_class cls filename (io_at source 0) in
     let tag := Facade.new_tag (io_len source) ignore_errors encoding in
     if 0 <? io_len source then
       let? (tag, _) :=
         Facade.wrap_failure (Facade._load parser_class tag fh tags duration image) in
       Ok tag
     else Ok tag).
Proof.
  intros Hsrc. unfold Facade.get. rewrite Hsrc. cbn [rbind].
  unfold seek_end, seek_to. rewrite Z.add_0_r.
  destruct (Z.ltb_spec (io_len source) 0) as [Hneg|_].
  - unfold io_len in Hneg. lia.
  - reflexivity.
Qed.

(** the magic bytes are looked for in the first 36 bytes of the source *)
Lemma get_parser_for_file_handle_start (source : BinaryIO) :
  Facade._get_parser_for_file_handle (io_at source 0)
  = Ok (Facade.first_magic (take 36 (io_data source)) Facade._magic_bytes_mapping,
        io_at source 0).
Proof.
  unfold Facade._get_parser_for_file_handle.
  change (Z.of_nat (fold_right Nat.max 0%nat
            ((fun e => snd (fst e)) <$> Facade._magic_bytes_mapping))) with 36.
  unfold read. change (36 <? 0) with false. cbv iota.
  unfold io_rest. cbn [io_at io_pos io_data].
  rewrite zdrop_drop, ztake_take. change (Z.to_nat 0) with 0%nat. change (Z.to_nat 36) with 36%nat.
  rewrite drop_0. reflexivity.
Qed.

(** a [str] name that is not ASCII once lower-cased *)
Lemma get_parser_for_filename_non_ascii (s : string) :
  forallb (fun x => byte_val x <? 128) (bytes_of_string (py_lower s)) = false ->
  Facade._get_parser_for_filename (Facade.PStr s) = Raise UnicodeEncodeError.
Proof. intros H. unfold Facade._get_parser_for_filename, Facade.encode_ascii. by rewrite H. Qed.

Lemma path_truthy_str (s : string) : s <> "" -> Facade.path_truthy (Facade.PStr s) = true.
Proof. intros H. cbn. by destruct (String.eqb_spec s ""). Qed.

(** C10, as the code has it: on a source of size 0 whose name resolves
    to a parser class by its extension (for a [str] name the lower-cased
    name has to be ASCII for that), [TinyTag.get] returns the fresh
    object: no parser method is called (the result is the same for every
    method table), no exception is raised, every attribute is [None],
    [extra] is empty and [filesize] is 0.  A [str] name that is not ASCII
    once lower-cased makes [get] raise [UnicodeEncodeError] instead,
    whatever its extension. *)
Theorem get_empty_source
        (name : Facade.path) (file_obj : option BinaryIO) (source : BinaryIO)
        (tags duration image ignore_errors : bool) (encoding : option string) :
  Facade.source_of open_file (Some name) file_obj = Ok source ->
  io_len source = 0 ->
  Facade.path_truthy name = true ->
  let run := Facade.get open_file None (Some name) tags duration image ignore_errors
                        encoding file_obj in
  (forall cls,
      Facade._get_parser_for_filename name = Ok (Some cls) ->
      exists tag,
        run = Ok tag /\
        tag = Facade.new_tag 0 ignore_errors encoding /\
        (forall field, attr tag field = VNone) /\
        extra tag = ∅ /\
        filesize tag = 0) /\
  (forall s,
      name = Facade.PStr s ->
      forallb (fun x => byte_val x <? 128) (bytes_of_string (py_lower s)) = false ->
      run = Raise UnicodeEncodeError).
Proof.
  intros Hsrc Hlen Hname run. subst run.
  rewrite (get_unfold _ _ _ _ _ _ _ _ source Hsrc).
  unfold Facade._get_parser_class. rewrite Hname. split.
  - intros cls Hcls. rewrite Hcls. cbn [rbind]. rewrite Hlen.
    eexists. split; [reflexivity|]. split; [reflexivity|].
    split; [|split; reflexivity].
    intros field. unfold attr, Facade.new_tag. cbn [attrs].
    destruct (attrs TinyTag_init !! field) as [v|] eqn:Hl; [|reflexivity].
    cbn. unfold TinyTag_init in Hl. cbn [attrs] in Hl.
    apply elem_of_list_to_map_2 in Hl.
    apply list_elem_of_fmap in Hl as (k & Heq & _). by injection Heq as _ ->.
  - intros s -> Hascii. by rewrite (get_parser_for_filename_non_ascii s Hascii).
Qed.

(** C8, as the code has it: when no class is given, the name resolves
    to none and none of the magic patterns matches the first 36 bytes,
    [get] raises [TinyTagException('No tag reader found to support
    filetype')], on an empty source as well; a [str] name that is not
    ASCII once lower-cased raises [UnicodeEncodeError], which is not
    wrapped, and so does every exception raised while the class is
    looked for; an exception raised by the tag pass or by the duration
    pass reaches the caller as one [TinyTagException] built from it,
    with the exception as its cause.  In all these cases no object is
    returned, also when the tag pass had completed and only the duration
    pass failed. *)
Theorem get_failure_is_wrapped
        (cls : option Facade.parser_class) (filename : option Facade.path)
        (image ignore_errors : bool) (encoding : option string)
        (file_obj : option BinaryIO) (source : BinaryIO) :
  Facade.source_of open_file filename file_obj = Ok source ->
  let run := Facade.get open_file cls filename true true image ignore_errors
                        encoding file_obj in
  let fresh := with_flags (Facade.new_tag (io_len source) ignore_errors encoding)
                                 true true image in
  (cls = None ->
   (forall name, filename = Some name -> Facade.path_truthy name = true ->
                 Facade._get_parser_for_filename name = Ok None) ->
   Facade.first_magic (take 36 (io_data source)) Facade._magic_bytes_mapping = None ->
   run = Raise (TinyTagException "No tag reader found to support filetype")) /\
  (cls = None ->
   forall s, filename = Some (Facade.PStr s) -> s <> "" ->
             forallb (fun x => byte_val x <? 128) (bytes_of_string (py_lower s)) = false ->
             run = Raise UnicodeEncodeError) /\
  (forall e, Facade._get_parser_class cls filename (io_at source 0) = Raise e ->
             run = Raise e) /\
  (0 < io_len source ->
   forall parser_class fh e,
      Facade._get_parser_class cls filename (io_at source 0) = Ok (parser_class, fh) ->
      Facade.parse_tag_of parser_class fresh fh = Raise e ->
      run = Raise (FailedToParse e)) /\
  (0 < io_len source ->
   forall parser_class fh tagged fh' e,
      Facade._get_parser_class cls filename (io_at source 0) = Ok (parser_class, fh) ->
      Facade.parse_tag_of parser_class fresh fh = Ok (tagged, fh') ->
      Facade.determine_duration_of parser_class tagged (io_at fh' 0) = Raise e ->
      run = Raise (FailedToParse e)).
Proof.
  intros Hsrc run fresh. subst run.
  rewrite (get_unfold _ _ _ _ _ _ _ _ source Hsrc).
  split; [|split; [|split; [|split]]].
  - intros -> Hname Hmagic. unfold Facade._get_parser_class.
    assert (Hby : match filename with
                  | Some f => if Facade.path_truthy f
                              then Facade._get_parser_for_filename f else Ok None
                  | None => Ok None
                  end = Ok None).
    { destruct filename as [f|]; [|reflexivity].
      destruct (Facade.path_truthy f) eqn:Ht; [|reflexivity]. by apply Hname. }
    rewrite Hby. cbn [rbind].
    rewrite get_parser_for_file_handle_start, Hmagic. reflexivity.
  - intros -> s -> Hs Hascii. unfold Facade._get_parser_class.
    rewrite (path_truthy_str s Hs), (get_parser_for_filename_non_ascii s Hascii).
    reflexivity.
  - intros e ->. reflexivity.
  - intros Hlen parser_class fh e -> Htag. cbn [rbind].
    destruct (Z.ltb_spec 0 (io_len source)) as [_|?]; [|lia].
    unfold Facade._load. fold fresh. rewrite Htag. reflexivity.
  - intros Hlen parser_class fh tagged fh' e -> Htag Hdur. cbn [rbind].
    destruct (Z.ltb_spec 0 (io_len source)) as [_|?]; [|lia].
    unfold Facade._load. fold fresh. rewrite Htag. cbn [rbind].
    unfold seek_set. cbn [Z.ltb Z.compare rbind]. rewrite Hdur. reflexivity.
Qed.

End Get.

Lemma get_empty_source_witness :
  (exists tag,
    Facade.get (R := Samples.ascii_runtime) (D := Samples.embedded_decoders)
               Samples.no_files None (Some (Facade.PStr "song.MP3")) true true false false
               None (Some (file_on_disk []))
    = Ok tag /\
    tag = Facade.new_tag 0 false None /\
    (forall field, attr tag field = VNone) /\
    extra tag = ∅ /\
    filesize tag = 0) /\
  Facade.get (R := Samples.ascii_runtime) (D := Samples.embedded_decoders)
             Samples.no_files None (Some (Facade.PStr Samples.non_ascii_name)) true true false false
             None (Some (file_on_disk []))
  = Raise UnicodeEncodeError.
Proof.
  split.
  - apply (proj1 (get_empty_source (R := Samples.ascii_runtime) (D := Samples.embedded_decoders)
             Samples.no_files (Facade.PStr "song.MP3")
             (Some (file_on_disk [])) (file_on_disk []) true true false false None
             eq_refl eq_refl eq_refl) Facade._ID3).
    reflexivity.
  - apply (proj2 (get_empty_source (R := Samples.ascii_runtime) (D := Samples.embedded_decoders)
             Samples.no_files (Facade.PStr Samples.non_ascii_name)
             (Some (file_on_disk [])) (file_on_disk []) true true false false None
             eq_refl eq_refl eq_refl) Samples.non_ascii_name eq_refl).
    reflexivity.
Defined.

(** C10, as stated, fails: the empty source named [café.mp3] has a
    supported extension, and [get] raises [UnicodeEncodeError]. *)
Lemma get_empty_source_non_ascii_name :
  ~ (forall (R : PyRuntime) (D : Facade.Decoders)
            (open_file : Facade.path -> result BinaryIO)
            (s : string) (file_obj : option BinaryIO) (source : BinaryIO)
            (tags duration image ignore_errors : bool) (encoding : option string),
        Facade.source_of open_file (Some (Facade.PStr s)) file_obj = Ok source ->
        io_len source = 0 ->
        has_supported_extension (bytes_of_string (py_lower s)) = true ->
        exists tag,
          Facade.get open_file None (Some (Facade.PStr s)) tags duration image
                     ignore_errors encoding file_obj = Ok tag).
Proof.
  intros Hclaim.
  destruct (Hclaim Samples.ascii_runtime Samples.embedded_decoders Samples.no_files
              Samples.non_ascii_name (Some (file_on_disk [])) (file_on_disk [])
              true true false false None eq_refl eq_refl eq_refl)
    as [tag Hget].
  vm_compute in Hget. discriminate Hget.
Qed.

Lemma get_failure_is_wrapped_witness :
  Facade.get (R := Samples.ascii_runtime) (D := Samples.embedded_decoders)
             Samples.no_files None (Some (Facade.PStr "notes.txt")) true true false false None
             (Some (file_on_disk []))
  = Raise (TinyTagException "No tag reader found to support filetype") /\
  Facade.get (R := Samples.ascii_runtime) (D := Samples.embedded_decoders)
             Samples.no_files None (Some (Facade.PStr "x.m4a")) true true false false None
             (Some (file_on_disk Samples.tagged_mp4_zero_time_scale))
  = Raise (FailedToParse (ZeroDivisionError "time_scale")).
Proof.
  split.
  - destruct (get_failure_is_wrapped (R := Samples.ascii_runtime)
                (D := Samples.embedded_decoders)
                Samples.no_files None (Some (Facade.PStr "notes.txt"))
                false false None (Some (file_on_disk [])) (file_on_disk []) eq_refl)
      as (Hnone & _).
    apply Hnone; [reflexivity| |reflexivity].
    intros name [= <-] _. reflexivity.
  - destruct (get_failure_is_wrapped (R := Samples.ascii_runtime)
                (D := Samples.embedded_decoders)
                Samples.no_files None (Some (Facade.PStr "x.m4a"))
                false false None
                (Some (file_on_disk Samples.tagged_mp4_zero_time_scale))
                (file_on_disk Samples.tagged_mp4_zero_time_scale) eq_refl)
      as (_ & _ & _ & _ & Hduration).
    eapply (Hduration ltac:(vm_compute; reflexivity) Facade._MP4).
    + vm_compute. reflexivity.
    + vm_compute. reflexivity.
    + vm_compute. reflexivity.
Defined.

(** C8, as stated, fails in its second half: when the tag pass has
    completed (track 3 of 12 is stored) and the duration pass then
    raises, [get] raises as well and returns no object. *)
Lemma duration_failure_discards_tags :
  ~ (forall (R : PyRuntime) (D : Facade.Decoders)
            (open_file : Facade.path -> result BinaryIO)
            (cls : option Facade.parser_class) (filename : option Facade.path)
            (image ignore_errors : bool) (encoding : option string)
            (file_obj : option BinaryIO) (source : BinaryIO)
            (parser_class : Facade.parser_class) (fh : BinaryIO)
            (tagged : TinyTag) (fh' : BinaryIO) (e : exn),
        Facade.source_of open_file filename file_obj = Ok source ->
        0 < io_len source ->
        Facade._get_parser_class cls filename (io_at source 0) = Ok (parser_class, fh) ->
        Facade.parse_tag_of parser_class
          (with_flags (Facade.new_tag (io_len source) ignore_errors encoding) true true image)
          fh = Ok (tagged, fh') ->
        Facade.determine_duration_of parser_class tagged (io_at fh' 0) = Raise e ->
        exists tag,
          Facade.get open_file cls filename true true image ignore_errors encoding file_obj
          = Ok tag /\
          attrs tag = attrs tagged /\ extra tag = extra tagged).
Proof.
  intros Hclaim.
  edestruct (Hclaim Samples.ascii_runtime Samples.embedded_decoders Samples.no_files
               None (Some (Facade.PStr "x.m4a")) false false None
               (Some (file_on_disk Samples.tagged_mp4_zero_time_scale))
               (file_on_disk Samples.tagged_mp4_zero_time_scale)
               Facade._MP4)
    as (tag & Hget & _).
  - reflexivity.
  - vm_compute. reflexivity.
  - vm_compute. reflexivity.
  - vm_compute. reflexivity.
  - vm_compute. reflexivity.
  - vm_compute in Hget. discriminate Hget.
Qed.

(** ** FLAC: STREAMINFO *)

Lemma land_240_byte (x : byte) : Z.land (byte_val x) 240 = 16 * (byte_val x / 16).
Proof. destruct x; reflexivity. Qed.

Lemma land_mask (x k : Z) : 0 <= k -> Z.land x (2 ^ k - 1) = x mod 2 ^ k.
Proof.
  intros Hk. rewrite <- Z.land_ones by lia. f_equal.
  rewrite Z.ones_equiv. lia.
Qed.

Lemma streaminfo_fields (b : bytes) :
  length b = 34%nat ->
  Flac.streaminfo_samplerate b = Flac.spec_samplerate b /\
  Flac.streaminfo_channels b = Flac.spec_channels b /\
  Flac.streaminfo_bitdepth b = Flac.spec_bitdepth b /\
  Flac.streaminfo_total_samples b = Flac.spec_total_samples b.
Proof.
  intros Hlen.
  do 34 (destruct b as [|? b]; [discriminate Hlen|]).
  destruct b; [|discriminate Hlen]. clear Hlen.
  unfold Flac.streaminfo_samplerate, Flac.streaminfo_channels, Flac.streaminfo_bitdepth,
    Flac.streaminfo_total_samples, Flac.spec_samplerate, Flac.spec_channels,
    Flac.spec_bitdepth, Flac.spec_total_samples, Flac.bit_field, Flac.packed_word,
    Flac.hv, _bytes_to_int, be_uint, slice.
  cbn [nth Nat.add Nat.sub take drop fold_left firstn skipn].
  match goal with |- context [Z.land (byte_val ?x) 240] => rewrite (land_240_byte x) end.
  change 7 with (2 ^ 3 - 1). change 15 with (2 ^ 4 - 1).
  match goal with
  | |- context [Z.land ?x 1] => change (Z.land x 1) with (Z.land x (2 ^ 1 - 1))
  end.
  rewrite !land_mask by lia.
  rewrite !Z.shiftr_div_pow2, !Z.shiftl_mul_pow2 by lia.
  repeat match goal with
         | |- context [byte_val ?x] =>
             let H := fresh "B" in
             pose proof (byte_val_range x) as H; generalize dependent (byte_val x); intros
         end.
  change (2 ^ 0) with 1. change (2 ^ 1) with 2. change (2 ^ 3) with 8. change (2 ^ 4) with 16.
  change (2 ^ 5) with 32. change (2 ^ 8) with 256. change (2 ^ 20) with 1048576.
  change (2 ^ 36) with 68719476736. change (2 ^ 41) with 2199023255552.
  change (2 ^ 44) with 17592186044416.
  repeat split; Z.div_mod_to_equations; lia.
Qed.

Lemma attr_set_attr_eq (t : TinyTag) (k : string) (v : pyval) :
  attr (set_attr t k v) k = v.
Proof. unfold attr, set_attr. cbn. by rewrite lookup_insert_eq. Qed.

Lemma attr_set_attr_ne (t : TinyTag) (k k' : string) (v : pyval) :
  k <> k' -> attr (set_attr t k v) k' = attr t k'.
Proof. intros Hne. unfold attr, set_attr. cbn. by rewrite lookup_insert_ne. Qed.

(** C3, as the code has it: when the duration is asked for, a
    STREAMINFO block of exactly 34 bytes whose sample-rate field is not
    zero is decoded into the 20-bit sample rate, the 3-bit channel count
    plus one, the 5-bit bit depth plus one and the 36-bit total sample
    count; [duration] is the quotient of the total by the sample rate,
    and [bitrate] is set to [filesize / duration * 8 / 1000] when the
    duration is positive.  When the duration is not asked for, the block
    is skipped and the object is left as it is.  The last part is the
    sample of the specification: 44100 Hz, 2 channels, 16 bits, 44100
    samples give a duration of one second. *)
Theorem flac_streaminfo :
  (forall (R : PyRuntime) (self : TinyTag) (fh : BinaryIO)
          (header_data payload rest : bytes),
      length header_data = 4%nat ->
      Z.land (nth 0 (byte_val <$> header_data) 0) 127 = Flac.METADATA_STREAMINFO ->
      _bytes_to_int (slice 1 4 (byte_val <$> header_data)) = 34 ->
      _parse_duration self = true ->
      0 <= io_pos fh ->
      io_rest fh = (payload ++ rest)%list ->
      length payload = 34%nat ->
      Flac.spec_samplerate payload <> 0 ->
      let duration :=
        int_quotient (Flac.spec_total_samples payload) (Flac.spec_samplerate payload) in
      let fh' := io_at fh (io_pos fh + 34) in
      exists self',
        (Flac.block self fh header_data = Ok (Flac.Next self' fh') \/
         Flac.block self fh header_data = Ok (Flac.Break self' fh')) /\
        attr self' "samplerate" = VInt (Flac.spec_samplerate payload) /\
        attr self' "channels" = VInt (Flac.spec_channels payload) /\
        attr self' "bitdepth" = VInt (Flac.spec_bitdepth payload) /\
        attr self' "duration" = VFloat duration /\
        attr self' "bitrate" =
          if PrimFloat.ltb 0 duration
          then VFloat (py_float (filesize self) / duration * py_float 8 / py_float 1000)%float
          else attr self "bitrate") /\
  (forall (R : PyRuntime) (self : TinyTag) (fh : BinaryIO) (header_data : bytes),
      Z.land (nth 0 (byte_val <$> header_data) 0) 127 = Flac.METADATA_STREAMINFO ->
      _parse_duration self = false ->
      0 <= io_pos fh ->
      let size := _bytes_to_int (slice 1 4 (byte_val <$> header_data)) in
      let fh' := io_at fh (io_pos fh + size) in
      Flac.block self fh header_data = Ok (Flac.Next self fh') \/
      Flac.block self fh header_data = Ok (Flac.Break self fh')) /\
  (exists self fh,
      Flac._parse_tag (R := Samples.ascii_runtime) TinyTag_init
                      (file_on_disk Samples.flac_one_second) = Ok (self, fh) /\
      attr self "samplerate" = VInt 44100 /\
      attr self "channels" = VInt 2 /\
      attr self "bitdepth" = VInt 16 /\
      attr self "duration" = VFloat 1).
Proof.
  split; [|split].
  - intros R self fh header_data payload rest Hlen Htype Hsize Hdur Hpos Hrest Hpl Hsr
           duration fh'.
    destruct (streaminfo_fields payload Hpl) as (Esr & Ech & Ebd & Ets).
    destruct (read_exactly fh 34 payload rest Hpos Hrest) as (Hread & _ & _);
      [by rewrite Hpl|].
    unfold Flac.block. rewrite Htype, Hsize, Hdur, Hread.
    cbn [Z.eqb Flac.METADATA_STREAMINFO andb rbind].
    rewrite Hpl. cbn [Nat.ltb Nat.leb].
    unfold Flac.streaminfo. rewrite Hpl. cbn [Nat.eqb negb].
    rewrite Esr, Ets, Ech, Ebd. unfold int_truediv.
    destruct (Z.eqb_spec (Flac.spec_samplerate payload) 0) as [?|_]; [contradiction|].
    cbn [rbind]. fold duration. cbn [filesize set_attr with_attrs].
    destruct (PrimFloat.ltb 0 duration) eqn:Hpositive; cbn [rbind];
      eexists;
      (split;
       [destruct (negb (Z.land (nth 0 (byte_val <$> header_data) 0) 128 =? 0));
        [right|left]; reflexivity|]).
    + rewrite attr_set_attr_ne, attr_set_attr_ne, attr_set_attr_ne, attr_set_attr_ne by done.
      rewrite attr_set_attr_eq. split; [reflexivity|].
      rewrite attr_set_attr_ne, attr_set_attr_ne, attr_set_attr_ne by done.
      rewrite attr_set_attr_eq. split; [reflexivity|].
      rewrite attr_set_attr_ne, attr_set_attr_ne by done.
      rewrite attr_set_attr_eq. split; [reflexivity|].
      rewrite attr_set_attr_ne by done.
      rewrite attr_set_attr_eq. split; [reflexivity|].
      apply attr_set_attr_eq.
    + rewrite attr_set_attr_ne, attr_set_attr_ne, attr_set_attr_ne by done.
      rewrite attr_set_attr_eq. split; [reflexivity|].
      rewrite attr_set_attr_ne, attr_set_attr_ne by done.
      rewrite attr_set_attr_eq. split; [reflexivity|].
      rewrite attr_set_attr_ne by done.
      rewrite attr_set_attr_eq. split; [reflexivity|].
      rewrite attr_set_attr_eq. split; [reflexivity|].
      by rewrite !attr_set_attr_ne by done.
  - intros R self fh header_data Htype Hdur Hpos size fh'.
    assert (Hsize : 0 <= size).
    { subst size. apply bytes_to_int_nonneg. unfold slice.
      apply Forall_take, Forall_drop, byte_vals_nonneg. }
    unfold Flac.block. rewrite Htype, Hdur.
    cbn [Z.eqb Flac.METADATA_STREAMINFO Flac.METADATA_VORBIS_COMMENT Flac.METADATA_PICTURE
         andb rbind].
    change (127 <=? 0) with false. cbv iota. fold size.
    rewrite seek_cur_forward by lia. cbn [rbind]. fold fh'.
    destruct (negb _); [right|left]; reflexivity.
  - do 2 eexists. split; [vm_compute; reflexivity|].
    repeat split; vm_compute; reflexivity.
Qed.

Lemma flac_streaminfo_witness :
  (exists self',
    Flac.block (R := Samples.ascii_runtime) TinyTag_init
               (mkIO Samples.flac_one_second 8 false) (Samples.bz [128; 0; 0; 34])
    = Ok (Flac.Break self' (mkIO Samples.flac_one_second 42 false)) /\
    attr self' "duration" = VFloat 1) /\
  (Flac.block (R := Samples.ascii_runtime) (with_flags TinyTag_init true false false)
              (mkIO Samples.flac_one_second 8 false) (Samples.bz [128; 0; 0; 34])
   = Ok (Flac.Next (with_flags TinyTag_init true false false)
                   (mkIO Samples.flac_one_second 42 false)) \/
   Flac.block (R := Samples.ascii_runtime) (with_flags TinyTag_init true false false)
              (mkIO Samples.flac_one_second 8 false) (Samples.bz [128; 0; 0; 34])
   = Ok (Flac.Break (with_flags TinyTag_init true false false)
                    (mkIO Samples.flac_one_second 42 false))).
Proof.
  split.
  - destruct (proj1 flac_streaminfo Samples.ascii_runtime TinyTag_init
                (mkIO Samples.flac_one_second 8 false) (Samples.bz [128; 0; 0; 34])
                (Samples.bz Samples.streaminfo_44100) [])
      as (self' & Hrun & _ & _ & _ & Hd & _);
      try (vm_compute; reflexivity); try (vm_compute; congruence).
    exists self'. split.
    + destruct Hrun as [Hrun|Hrun]; [|exact Hrun].
      exfalso. vm_compute in Hrun. discriminate Hrun.
    + rewrite Hd. vm_compute. reflexivity.
  - apply (proj1 (proj2 flac_streaminfo) Samples.ascii_runtime
             (with_flags TinyTag_init true false false)
             (mkIO Samples.flac_one_second 8 false) (Samples.bz [128; 0; 0; 34]));
      [reflexivity|reflexivity|cbn; lia].
Defined.

(** C3, as stated, fails in three ways: a STREAMINFO block of 35 bytes
    is not decoded, unpacking it raises [struct.error]; a block of 34
    bytes whose sample rate is zero raises [ZeroDivisionError]; and when
    the duration is not asked for, a block of 34 bytes is skipped and no
    sample rate is stored. *)
Lemma flac_streaminfo_as_stated_fails :
  ~ (forall (R : PyRuntime) (self : TinyTag) (fh : BinaryIO)
            (header_data payload rest : bytes),
        length header_data = 4%nat ->
        Z.land (nth 0 (byte_val <$> header_data) 0) 127 = Flac.METADATA_STREAMINFO ->
        _bytes_to_int (slice 1 4 (byte_val <$> header_data)) = Z.of_nat (length payload) ->
        _parse_duration self = true ->
        0 <= io_pos fh ->
        io_rest fh = (payload ++ rest)%list ->
        (34 <= length payload)%nat ->
        Flac.spec_samplerate payload <> 0 ->
        exists r, Flac.block self fh header_data = Ok r) /\
  ~ (forall (R : PyRuntime) (self : TinyTag) (fh : BinaryIO)
            (header_data payload rest : bytes),
        length header_data = 4%nat ->
        Z.land (nth 0 (byte_val <$> header_data) 0) 127 = Flac.METADATA_STREAMINFO ->
        _bytes_to_int (slice 1 4 (byte_val <$> header_data)) = Z.of_nat (length payload) ->
        _parse_duration self = true ->
        0 <= io_pos fh ->
        io_rest fh = (payload ++ rest)%list ->
        length payload = 34%nat ->
        exists r, Flac.block self fh header_data = Ok r) /\
  ~ (forall (R : PyRuntime) (self : TinyTag) (fh : BinaryIO)
            (header_data payload rest : bytes),
        length header_data = 4%nat ->
        Z.land (nth 0 (byte_val <$> header_data) 0) 127 = Flac.METADATA_STREAMINFO ->
        _bytes_to_int (slice 1 4 (byte_val <$> header_data)) = Z.of_nat (length payload) ->
        0 <= io_pos fh ->
        io_rest fh = (payload ++ rest)%list ->
        length payload = 34%nat ->
        Flac.spec_samplerate payload <> 0 ->
        exists self' fh',
          (Flac.block self fh header_data = Ok (Flac.Next self' fh') \/
           Flac.block self fh header_data = Ok (Flac.Break self' fh')) /\
          attr self' "samplerate" = VInt (Flac.spec_samplerate payload)).
Proof.
  split; [|split]; intros Hclaim.
  - destruct (Hclaim Samples.ascii_runtime TinyTag_init
                (mkIO Samples.flac_long_streaminfo 8 false) (Samples.bz [128; 0; 0; 35])
                (Samples.bz (Samples.streaminfo_44100 ++ [0])%list) [])
      as [r Hr];
      try (vm_compute; reflexivity); try (vm_compute; congruence).
    + cbn. lia.
    + vm_compute in Hr. discriminate Hr.
  - destruct (Hclaim Samples.ascii_runtime TinyTag_init
                (mkIO Samples.flac_zero_samplerate 8 false) (Samples.bz [128; 0; 0; 34])
                (Samples.bz (repeat 0 34)) [])
      as [r Hr];
      try (vm_compute; reflexivity); try (vm_compute; congruence).
    vm_compute in Hr. discriminate Hr.
  - destruct (Hclaim Samples.ascii_runtime (with_flags TinyTag_init true false false)
                (mkIO Samples.flac_one_second 8 false) (Samples.bz [128; 0; 0; 34])
                (Samples.bz Samples.streaminfo_44100) [])
      as (self' & fh' & Hrun & Hsr);
      try (vm_compute; reflexivity); try (vm_compute; congruence).
    destruct Hrun as [Hrun|Hrun]; vm_compute in Hrun; [discriminate Hrun|].
    injection Hrun as <- _. vm_compute in Hsr. discriminate Hsr.
Qed.

(** ** Merging one tag object into another *)

Lemma set_field_other_attr (self self' : TinyTag) (name k : string) (v : pyval) :
  _set_field self name v = Ok self' ->
  name <> k ->
  attr self' k = attr self k.
Proof.
  unfold _set_field. intros Hset Hne.
  destruct (is_str v && negb (truthy v)); [by injection Hset as <-|].
  destruct (String.prefix "extra." name);
    match type of Hset with
    | rbind ?r _ = _ => destruct r as [value| |]; try discriminate Hset
    end; cbn [rbind] in Hset; injection Hset as <-.
  - reflexivity.
  - unfold attr. cbn. by rewrite lookup_insert_ne.
Qed.

Lemma prefix_extra (key : string) :
  String.prefix "extra." (String.append "extra." key) = true.
Proof. cbn. by destruct key. Qed.

Lemma set_field_extra_attrs (self self' : TinyTag) (key : string) (v : pyval) :
  _set_field self (String.append "extra." key) v = Ok self' ->
  attrs self' = attrs self.
Proof.
  unfold _set_field. intros Hset.
  destruct (is_str v && negb (truthy v)); [by injection Hset as <-|].
  cbv zeta in Hset. rewrite prefix_extra in Hset.
  match type of Hset with
  | rbind ?r _ = _ => destruct r as [value| |]; try discriminate Hset
  end.
  cbn [rbind] in Hset. by injection Hset as <-.
Qed.

Lemma set_field_same_attr (self self' : TinyTag) (k : string) (v : pyval) :
  String.prefix "extra." k = false ->
  _set_field self k v = Ok self' ->
  attr self' k = merge_field (attr self k) v.
Proof.
  unfold _set_field. intros Hk Hset. rewrite Hk in Hset. fold (attr self k) in Hset.
  destruct v as [|n|z|f|b]; cbn [is_str andb truthy] in Hset; cbn [merge_field].
  - cbn [rbind] in Hset. injection Hset as <-. unfold attr. cbn. by rewrite lookup_insert_eq.
  - destruct (String.eqb n ""); cbn [negb] in Hset; [by injection Hset as <-|].
    destruct (attr self k) as [|o|z|f|b] eqn:Hold; cbn [truthy] in Hset.
    + cbn [rbind] in Hset. injection Hset as <-. unfold attr. cbn. by rewrite lookup_insert_eq.
    + destruct (String.eqb o ""); cbn [negb orb] in *.
      * cbn [rbind] in Hset. injection Hset as <-. unfold attr. cbn.
        by rewrite lookup_insert_eq.
      * destruct (String.eqb o n); cbn [rbind] in Hset; injection Hset as <-;
          unfold attr; cbn; by rewrite lookup_insert_eq.
    + destruct (negb (z =? 0)); [discriminate Hset|].
      cbn [rbind] in Hset. injection Hset as <-. unfold attr. cbn. by rewrite lookup_insert_eq.
    + destruct (negb (PrimFloat.eqb f 0)); [discriminate Hset|].
      cbn [rbind] in Hset. injection Hset as <-. unfold attr. cbn. by rewrite lookup_insert_eq.
    + destruct b; [|discriminate Hset].
      cbn [rbind] in Hset. injection Hset as <-. unfold attr. cbn. by rewrite lookup_insert_eq.
  - cbn [rbind] in Hset. injection Hset as <-. unfold attr. cbn. by rewrite lookup_insert_eq.
  - cbn [rbind] in Hset. injection Hset as <-. unfold attr. cbn. by rewrite lookup_insert_eq.
  - cbn [rbind] in Hset. injection Hset as <-. unfold attr. cbn. by rewrite lookup_insert_eq.
Qed.

Lemma fold_update_key_raise (other : TinyTag) (keys : list string) (e : exn) :
  fold_left (update_key other) keys (Raise e) = Raise e.
Proof. induction keys as [|k keys IH]; [reflexivity|exact IH]. Qed.

Lemma fold_update_key_out_of_fuel (other : TinyTag) (keys : list string) :
  fold_left (update_key other) keys OutOfFuel = OutOfFuel.
Proof. induction keys as [|k keys IH]; [reflexivity|exact IH]. Qed.

Lemma fold_update_key_other (other : TinyTag) (keys : list string) (k : string) :
  forall self self',
    ~ In k keys ->
    fold_left (update_key other) keys (Ok self) = Ok self' ->
    attr self' k = attr self k.
Proof.
  induction keys as [|k0 keys IH]; intros self self' Hnot Hfold.
  - by injection Hfold as <-.
  - cbn [fold_left] in Hfold. unfold update_key at 2 in Hfold. cbn [rbind] in Hfold.
    assert (Hne : k0 <> k) by (intros ->; apply Hnot; by left).
    assert (Hrest : ~ In k keys) by (intros Hin; apply Hnot; by right).
    destruct (truthy (attr other k0)).
    + destruct (_set_field self k0 (attr other k0)) as [s1|e|] eqn:Hset.
      * rewrite (IH s1 self' Hrest Hfold).
        by apply (set_field_other_attr self s1 k0 k (attr other k0)).
      * by rewrite fold_update_key_raise in Hfold.
      * by rewrite fold_update_key_out_of_fuel in Hfold.
    + by apply IH.
Qed.

Lemma fold_update_key_attr (other : TinyTag) (keys : list string) (k : string) :
  forall self self',
    NoDup keys ->
    In k keys ->
    String.prefix "extra." k = false ->
    fold_left (update_key other) keys (Ok self) = Ok self' ->
    attr self' k = if truthy (attr other k)
                   then merge_field (attr self k) (attr other k)
                   else attr self k.
Proof.
  induction keys as [|k0 keys IH]; intros self self' Hnd Hin Hk Hfold; [destruct Hin|].
  apply NoDup_cons in Hnd as [Hk0 Hnd].
  cbn [fold_left] in Hfold. unfold update_key at 2 in Hfold. cbn [rbind] in Hfold.
  destruct (decide (k0 = k)) as [->|Hne].
  - assert (Hnot : ~ In k keys) by (by rewrite <- list_elem_of_In).
    destruct (truthy (attr other k)).
    + destruct (_set_field self k (attr other k)) as [s1|e|] eqn:Hset.
      * rewrite (fold_update_key_other other keys k s1 self' Hnot Hfold).
        by apply set_field_same_attr.
      * by rewrite fold_update_key_raise in Hfold.
      * by rewrite fold_update_key_out_of_fuel in Hfold.
    + by apply (fold_update_key_other other keys k).
  - destruct Hin as [?|Hin]; [contradiction|].
    destruct (truthy (attr other k0)).
    + destruct (_set_field self k0 (attr other k0)) as [s1|e|] eqn:Hset.
      * rewrite (IH s1 self' Hnd Hin Hk Hfold).
        by rewrite (set_field_other_attr self s1 k0 k _ Hset Hne).
      * by rewrite fold_update_key_raise in Hfold.
      * by rewrite fold_update_key_out_of_fuel in Hfold.
    + by apply IH.
Qed.

(** the entries of [other.extra] only reach [self.extra] *)
Lemma update_extras_attrs (base : result TinyTag) (m : gmap string pyval) (self' : TinyTag) :
  map_fold update_extra base m = Ok self' ->
  exists self0, base = Ok self0 /\ attrs self' = attrs self0.
Proof.
  revert self'.
  apply (map_fold_weak_ind
           (fun r (_ : gmap string pyval) =>
              forall self', r = Ok self' ->
                            exists self0, base = Ok self0 /\ attrs self' = attrs self0)).
  - intros self' ->. by exists self'.
  - intros key value m' r _ IH self' Hstep.
    unfold update_extra in Hstep.
    destruct r as [s1|e|]; try discriminate Hstep. cbn [rbind] in Hstep.
    destruct (IH s1 eq_refl) as (self0 & Hbase & Hattrs).
    exists self0. split; [exact Hbase|].
    by rewrite (set_field_extra_attrs s1 self' key value Hstep).
Qed.

Lemma update_keys_NoDup : NoDup update_keys.
Proof.
  apply (bool_decide_unpack _). vm_compute. exact I.
Qed.

Lemma update_keys_not_extra (k : string) :
  In k update_keys -> String.prefix "extra." k = false.
Proof.
  unfold update_keys. cbn [In].
  intros Hin. repeat (destruct Hin as [<-|Hin]; [reflexivity|]). destruct Hin.
Qed.

(** the value of a field after [self._update(other)] *)
Lemma update_attr (self other self' : TinyTag) (k : string) :
  In k update_keys ->
  _update self other = Ok self' ->
  attr self' k = if truthy (attr other k)
                 then merge_field (attr self k) (attr other k)
                 else attr self k.
Proof.
  intros Hin Hupd. unfold _update in Hupd.
  destruct (update_extras_attrs _ _ _ Hupd) as (self0 & Hbase & Hattrs).
  unfold attr at 1. rewrite Hattrs. fold (attr self0 k).
  apply (fold_update_key_attr other update_keys k self self0);
    [apply update_keys_NoDup | exact Hin | by apply update_keys_not_extra | exact Hbase].
Qed.

(** a field that [_update] does not list is left alone *)
Lemma update_other_attr (self other self' : TinyTag) (k : string) :
  ~ In k update_keys ->
  _update self other = Ok self' ->
  attr self' k = attr self k.
Proof.
  intros Hnot Hupd. unfold _update in Hupd.
  destruct (update_extras_attrs _ _ _ Hupd) as (self0 & Hbase & Hattrs).
  unfold attr at 1. rewrite Hattrs. fold (attr self0 k).
  by apply (fold_update_key_other other update_keys k self self0).
Qed.

(** ** FLAC: the leading ID3v2 tag *)

(** C6, as the code has it: the ID3v2 tag found before the [fLaC] marker
    is merged into the result by one [_update] after the loop over the
    metadata blocks, hence after every Vorbis comment block.  The merge
    is the one of the accumulator, field by field: a field the ID3v2 tag
    leaves empty keeps the Vorbis value; a text the ID3v2 tag supplies is
    appended to a different Vorbis text after a NUL (the Vorbis text comes
    first); and a number the ID3v2 tag supplies replaces the Vorbis
    number.  The last part is a stream whose Vorbis comments say title
    [V], track 3 and whose ID3v2 tag says title [I], track 5. *)
Theorem flac_id3_merged_after_vorbis :
  (forall (R : PyRuntime) (self : TinyTag) (fh : BinaryIO) (self' : TinyTag) (fh' : BinaryIO),
      Flac._parse_tag self fh = Ok (self', fh') ->
      exists id3 fh1 after_blocks,
        Flac.leading_id3 self fh = Ok (id3, fh1) /\
        Flac.blocks_loop (S (length (io_data fh1))) self (snd (read 4 fh1)) (fst (read 4 fh1))
        = Ok (after_blocks, fh') /\
        Flac.finish after_blocks id3 = Ok self') /\
  (forall (after_blocks id3 self' : TinyTag) (k : string),
      Flac.finish after_blocks (Some id3) = Ok self' ->
      In k update_keys ->
      (truthy (attr id3 k) = false -> attr self' k = attr after_blocks k) /\
      (forall V I, attr after_blocks k = VStr V -> attr id3 k = VStr I ->
                   V <> "" -> I <> "" -> V <> I ->
                   attr self' k = VStr (String.append V (String.append NUL I))) /\
      (forall n, attr id3 k = VInt n -> n <> 0 -> attr self' k = VInt n)) /\
  (exists self fh,
      Flac._parse_tag (R := Samples.ascii_runtime) TinyTag_init
                      (file_on_disk Samples.flac_with_id3) = Ok (self, fh) /\
      attr self "title" = VStr (String.append "V" (String.append NUL "I")) /\
      attr self "track" = VInt 5).
Proof.
  split; [|split].
  - intros R self fh self' fh' Hrun. unfold Flac._parse_tag in Hrun.
    destruct (Flac.leading_id3 self fh) as [[id3 fh1]| |]; try discriminate Hrun.
    cbn [rbind] in Hrun. destruct (read 4 fh1) as [header_data fh2] eqn:Hread.
    destruct (Flac.blocks_loop _ self fh2 header_data) as [[after_blocks fh3]| |] eqn:Hloop;
      try discriminate Hrun.
    cbn [rbind] in Hrun.
    destruct (Flac.finish after_blocks id3) as [s| |] eqn:Hfin; try discriminate Hrun.
    cbn [rbind] in Hrun. injection Hrun as <- <-.
    exists id3, fh1, after_blocks. rewrite Hread. cbn [fst snd].
    split; [reflexivity|]. split; [exact Hloop|exact Hfin].
  - intros after_blocks id3 self' k Hfin Hin. unfold Flac.finish in Hfin.
    destruct (_update after_blocks id3) as [u| |] eqn:Hupd; try discriminate Hfin.
    cbn [rbind] in Hfin. injection Hfin as <-.
    change (attr (with_tags_parsed u true) k) with (attr u k).
    pose proof (update_attr after_blocks id3 u k Hin Hupd) as Hk.
    split; [|split].
    + intros Hfalse. by rewrite Hfalse in Hk.
    + intros V I HV HI HVne HIne Hdiff. rewrite HI, HV in Hk.
      apply truthy_VStr in HIne as Ht. rewrite Ht in Hk. cbn [merge_field] in Hk.
      destruct (String.eqb_spec I "") as [?|_]; [contradiction|].
      destruct (String.eqb_spec V "") as [?|_]; [contradiction|].
      destruct (String.eqb_spec V I) as [?|_]; [contradiction|].
      exact Hk.
    + intros n Hn Hnz. rewrite Hn in Hk. cbn [truthy merge_field] in Hk.
      destruct (Z.eqb_spec n 0) as [?|_]; [contradiction|]. exact Hk.
  - do 2 eexists. split; [vm_compute; reflexivity|].
    split; vm_compute; reflexivity.
Qed.

Lemma flac_id3_merged_after_vorbis_witness :
  exists self',
    Flac.finish (set_attr TinyTag_init "track" (VInt 3))
                (Some (set_attr TinyTag_init "track" (VInt 5))) = Ok self' /\
    attr self' "track" = VInt 5.
Proof.
  eassert (Hfin : Flac.finish (set_attr TinyTag_init "track" (VInt 3))
                              (Some (set_attr TinyTag_init "track" (VInt 5))) = Ok _)
    by (vm_compute; reflexivity).
  eexists. split; [exact Hfin|].
  assert (Hin : In "track" update_keys) by (cbn; tauto).
  destruct (proj1 (proj2 flac_id3_merged_after_vorbis) _ _ _ "track" Hfin Hin)
    as (_ & _ & Hint).
  apply Hint; [vm_compute; reflexivity|discriminate].
Defined.

(** C6, as stated, fails: where the Vorbis comments and the ID3v2 tag
    both supply a field, the Vorbis value is not what the result holds.
    In the sample stream the title becomes the two titles joined by a
    NUL. *)
Lemma flac_vorbis_value_not_kept :
  ~ (forall (R : PyRuntime) (self : TinyTag) (fh : BinaryIO)
            (id3 : TinyTag) (fh1 : BinaryIO) (after_blocks : TinyTag)
            (self' : TinyTag) (fh' : BinaryIO) (k : string),
        Flac.leading_id3 self fh = Ok (Some id3, fh1) ->
        Flac.blocks_loop (S (length (io_data fh1))) self (snd (read 4 fh1)) (fst (read 4 fh1))
        = Ok (after_blocks, fh') ->
        Flac._parse_tag self fh = Ok (self', fh') ->
        In k update_keys ->
        truthy (attr after_blocks k) = true ->
        truthy (attr id3 k) = true ->
        attr self' k = attr after_blocks k).
Proof.
  intros Hclaim.
  eassert (Hkept : attr _ "title" = attr _ "title").
  { eapply (Hclaim Samples.ascii_runtime TinyTag_init
              (file_on_disk Samples.flac_with_id3)).
    - vm_compute. reflexivity.
    - vm_compute. reflexivity.
    - vm_compute. reflexivity.
    - cbn. tauto.
    - vm_compute. reflexivity.
    - vm_compute. reflexivity. }
  vm_compute in Hkept. discriminate Hkept.
Qed.

(** ** WAV: the bit depth *)




(** *** The fields the tag parsers write

    None of the parsers that run inside a WAV file writes the attribute
    [bitdepth] through [_set_field]: the field names come from fixed
    tables or start with [extra.]. *)

Tactic Notation "bind_ok" hyp(H) "as" simple_intropattern(p) "eqn" ident(E) :=
  match type of H with
  | rbind ?r _ = Ok _ =>
      destruct r as [p| |] eqn:E; try discriminate H; cbn [rbind] in H
  end.

Lemma assoc_get_In (l : list (string * string)) (k v : string) :
  ID3.assoc_get l k = Some v -> In v (snd <$> l).
Proof.
  induction l as [|[k' v'] l IH]; [discriminate|].
  cbn [ID3.assoc_get]. destruct (String.eqb k' k).
  - intros [= ->]. by left.
  - intros Hl. right. by apply IH.
Qed.




Section KeepsBitdepth.
Context {R : PyRuntime}.










End KeepsBitdepth.

(** *** The chunk loop *)


Lemma read_length (n : Z) (fh : BinaryIO) :
  0 <= n -> Z.of_nat (length (fst (read n fh))) <= n.
Proof.
  intros Hn. unfold read. destruct (Z.ltb_spec n 0); [lia|]. cbn [fst].
  rewrite ztake_take, length_take. lia.
Qed.





Section WaveRounds.
Context {R : PyRuntime}.







End WaveRounds.



Section WaveFmt.
Context {R : PyRuntime}.




End WaveFmt.



(** * Every parser returns or raises

    The loops of the parsers are written with a fuel argument.  This
    part shows that the fuel the entry points supply is enough: each
    round that goes on has consumed bytes of the stream. *)

(** ** Moving in the stream *)

Lemma seek_cur_moves (n : Z) (w w' : BinaryIO) :
  seek_cur n w = Ok w' ->
  io_data w' = io_data w /\ io_pos w' = Z.max 0 (io_pos w + n).
Proof.
  unfold seek_cur, seek_to.
  destruct (Z.ltb_spec (io_pos w + n) 0); [destruct (io_in_memory w); [|discriminate]|];
    intros [= <-]; cbn; split; [done|lia|done|lia].
Qed.

Lemma seek_set_moves (n : Z) (w w' : BinaryIO) :
  seek_set n w = Ok w' -> io_data w' = io_data w /\ io_pos w' = n /\ 0 <= n.
Proof.
  unfold seek_set. destruct (Z.ltb_spec n 0); [discriminate|].
  intros [= <-]. cbn. done.
Qed.

Lemma read_moves (n : Z) (w w' : BinaryIO) (b : bytes) :
  read n w = (b, w') ->
  io_data w' = io_data w /\ io_pos w' = io_pos w + Z.of_nat (length b).
Proof. unfold read. by intros [= <- <-]. Qed.

Lemma io_rest_length (w : BinaryIO) :
  0 <= io_pos w ->
  Z.of_nat (length (io_rest w)) = Z.max 0 (io_len w - io_pos w).
Proof.
  intros Hp. unfold io_rest, io_len. rewrite zdrop_drop, length_drop. lia.
Qed.

Lemma read_room (n : Z) (w w' : BinaryIO) (b : bytes) :
  0 <= io_pos w ->
  read n w = (b, w') ->
  io_pos w + Z.of_nat (length b) <= Z.max (io_pos w) (io_len w).
Proof.
  intros Hp E.
  assert (Hb : (length b <= length (io_rest w))%nat).
  { revert E. unfold read. intros [= <- _]. destruct (n <? 0); [done|].
    rewrite ztake_take, length_take. lia. }
  pose proof (io_rest_length w Hp). lia.
Qed.

(** a read that returns [k] bytes has consumed them *)
Lemma read_consumed (n : Z) (w w' : BinaryIO) (b : bytes) (k : nat) :
  0 <= io_pos w ->
  read n w = (b, w') ->
  length b = k ->
  ahead_by (Z.of_nat k) w w' /\ (k <> 0%nat -> io_pos w + Z.of_nat k <= io_len w).
Proof.
  intros Hp E L. destruct (read_moves _ _ _ _ E) as [D P].
  pose proof (read_room _ _ _ _ Hp E). unfold ahead_by. subst k.
  split; [split; [done|lia]|lia].
Qed.

Lemma read_ahead (n : Z) (w w' : BinaryIO) (b : bytes) :
  0 <= io_pos w -> read n w = (b, w') -> ahead_by 0 w w'.
Proof.
  intros Hp E. destruct (read_moves _ _ _ _ E) as [D P]. unfold ahead_by. split; [done|lia].
Qed.

Lemma seek_cur_ahead (n : Z) (w w' : BinaryIO) :
  0 <= io_pos w -> 0 <= n -> seek_cur n w = Ok w' -> ahead_by n w w'.
Proof.
  intros Hp Hn E. destruct (seek_cur_moves _ _ _ E) as [D P]. unfold ahead_by.
  split; [done|lia].
Qed.

Lemma ahead_by_refl (a : BinaryIO) : 0 <= io_pos a -> ahead_by 0 a a.
Proof. unfold ahead_by. intros Hp. split; [done|lia]. Qed.

Lemma ahead_by_trans (n m : Z) (a b c : BinaryIO) :
  ahead_by n a b -> ahead_by m b c -> ahead_by (n + m) a c.
Proof. unfold ahead_by. intros (D1 & P1 & Q1) (D2 & P2 & Q2). split; [congruence|lia]. Qed.

Lemma ahead_by_weaken (n m : Z) (a b : BinaryIO) :
  m <= n -> ahead_by n a b -> ahead_by m a b.
Proof. unfold ahead_by. intros Hm (D & P & Q). split; [done|lia]. Qed.

Lemma ahead_by_pos (n : Z) (a b : BinaryIO) :
  0 <= n -> ahead_by n a b -> 0 <= io_pos b.
Proof. unfold ahead_by. lia. Qed.

Lemma ahead_by_remaining (n : Z) (a b : BinaryIO) :
  0 <= n ->
  ahead_by n a b ->
  io_pos a + n <= io_len a ->
  (remaining b + Z.to_nat n <= remaining a)%nat.
Proof.
  unfold ahead_by, remaining. intros Hn (D & P & Q) Hroom.
  pose proof (io_rest_length a P). pose proof (io_rest_length b ltac:(lia)) as Hb.
  unfold io_len in *. rewrite D in Hb. lia.
Qed.

Lemma ahead_remaining (a b : BinaryIO) :
  ahead_by 0 a b -> (remaining b <= remaining a)%nat.
Proof.
  unfold ahead_by, remaining. intros (D & P & Q).
  pose proof (io_rest_length a P). pose proof (io_rest_length b ltac:(lia)) as Hb.
  unfold io_len in *. rewrite D in Hb. lia.
Qed.

Lemma remaining_le_data (fh : BinaryIO) : (remaining fh <= length (io_data fh))%nat.
Proof. unfold remaining, io_rest. rewrite zdrop_drop, length_drop. lia. Qed.

Lemma unpack_be_length (n : nat) (b : bytes) (z : Z) :
  unpack_be n b = Ok z -> length b = n /\ 0 <= z.
Proof.
  unfold unpack_be. destruct (Nat.eqb_spec (length b) n); [|discriminate].
  intros [= <-]. split; [done|]. unfold be_uint.
  assert (H : forall l a, 0 <= a -> 0 <= fold_left (fun accu x => accu * 256 + byte_val x) l a).
  { induction l as [|x l IH]; intros a Ha; [done|]. cbn. apply IH.
    pose proof (byte_val_range x). lia. }
  by apply H.
Qed.

Lemma be_uint_nonneg (b : bytes) : 0 <= be_uint b.
Proof.
  unfold be_uint.
  assert (H : forall l a, 0 <= a -> 0 <= fold_left (fun accu x => accu * 256 + byte_val x) l a).
  { induction l as [|x l IH]; intros a Ha; [done|]. cbn. apply IH.
    pose proof (byte_val_range x). lia. }
  by apply H.
Qed.

Lemma le_uint_nonneg (b : bytes) : 0 <= le_uint b.
Proof. apply be_uint_nonneg. Qed.

Lemma unpack_le_length (n : nat) (b : bytes) (z : Z) :
  unpack_le n b = Ok z -> length b = n /\ 0 <= z.
Proof.
  unfold unpack_le. destruct (Nat.eqb_spec (length b) n); [|discriminate].
  intros [= <-]. split; [done|apply le_uint_nonneg].
Qed.

Lemma unpack_be_signed_length (n : nat) (b : bytes) (z : Z) :
  unpack_be_signed n b = Ok z -> length b = n.
Proof.
  unfold unpack_be_signed, unpack_be.
  destruct (Nat.eqb_spec (length b) n); [done|discriminate].
Qed.

(** ** Returning or raising *)

Lemma rbind_completes {A B} (r : result A) (k : A -> result B) :
  r <> OutOfFuel -> (forall a, r = Ok a -> k a <> OutOfFuel) ->
  rbind r k <> OutOfFuel.
Proof. destruct r; cbn; [eauto|discriminate|congruence]. Qed.

Lemma seek_to_completes (fh : BinaryIO) (p : Z) : seek_to fh p <> OutOfFuel.
Proof. unfold seek_to. by repeat case_match. Qed.
Lemma seek_cur_completes (n : Z) (fh : BinaryIO) : seek_cur n fh <> OutOfFuel.
Proof. apply seek_to_completes. Qed.
Lemma seek_end_completes (n : Z) (fh : BinaryIO) : seek_end n fh <> OutOfFuel.
Proof. apply seek_to_completes. Qed.
Lemma seek_set_completes (n : Z) (fh : BinaryIO) : seek_set n fh <> OutOfFuel.
Proof. unfold seek_set. by repeat case_match. Qed.
Lemma int_truediv_completes (what : string) (a b : Z) : int_truediv what a b <> OutOfFuel.
Proof. unfold int_truediv. by case_match. Qed.
Lemma float_truediv_completes (what : string) (x y : float) :
  float_truediv what x y <> OutOfFuel.
Proof. unfold float_truediv. by case_match. Qed.
Lemma unpack_be_completes (n : nat) (b : bytes) : unpack_be n b <> OutOfFuel.
Proof. unfold unpack_be. by case_match. Qed.
Lemma unpack_le_completes (n : nat) (b : bytes) : unpack_le n b <> OutOfFuel.
Proof. unfold unpack_le. by case_match. Qed.
Lemma unpack_be_signed_completes (n : nat) (b : bytes) :
  unpack_be_signed n b <> OutOfFuel.
Proof. unfold unpack_be_signed, unpack_be. by case_match. Qed.
Lemma unpack_le_signed_completes (n : nat) (b : bytes) :
  unpack_le_signed n b <> OutOfFuel.
Proof. unfold unpack_le_signed, unpack_le. by case_match. Qed.
Lemma index_completes {A} (l : list A) (i : Z) : ID3.index l i <> OutOfFuel.
Proof. unfold ID3.index. by case_match. Qed.
Lemma not_none_completes {A} (o : option A) : ID3.not_none o <> OutOfFuel.
Proof. by destruct o. Qed.
Lemma Ok_completes {A} (a : A) : Ok a <> OutOfFuel.
Proof. discriminate. Qed.
Lemma Raise_completes {A} (e : exn) : @Raise A e <> OutOfFuel.
Proof. discriminate. Qed.

Lemma set_field_completes (self : TinyTag) (fieldname : string) (value : pyval) :
  _set_field self fieldname value <> OutOfFuel.
Proof.
  unfold _set_field. destruct (_ && _); [discriminate|]. cbv zeta.
  apply rbind_completes; [|discriminate].
  destruct value; try discriminate. by repeat case_match.
Qed.

Lemma update_completes (self other : TinyTag) : _update self other <> OutOfFuel.
Proof.
  unfold _update.
  assert (Hkeys : forall keys r, r <> OutOfFuel ->
                                 fold_left (update_key other) keys r <> OutOfFuel).
  { induction keys as [|k keys IH]; intros r Hr; [done|]. cbn [fold_left]. apply IH.
    unfold update_key. apply rbind_completes; [done|]. intros s _.
    destruct (truthy _); [apply set_field_completes|discriminate]. }
  apply (map_fold_weak_ind (fun r (_ : gmap string pyval) => r <> OutOfFuel)).
  - by apply Hkeys.
  - intros key value m r _ Hr. unfold update_extra.
    apply rbind_completes; [done|]. intros s _. apply set_field_completes.
Qed.

Create HintDb completes.
#[local] Hint Resolve seek_to_completes seek_cur_completes seek_end_completes
  seek_set_completes int_truediv_completes float_truediv_completes
  unpack_be_completes unpack_le_completes unpack_be_signed_completes
  unpack_le_signed_completes index_completes not_none_completes
  Ok_completes Raise_completes set_field_completes update_completes : completes.

(** the scrutinee a nest of [match]es hangs on *)
Ltac destruct_head x :=
  lazymatch x with
  | match ?y with _ => _ end => destruct_head y
  | _ => destruct x
  end.

(** splits a sequence of binds and branches into its steps *)
Ltac completes :=
  cbv zeta;
  repeat first
    [ solve [auto with completes]
    | apply rbind_completes; [|intros ? _]
    | match goal with
      | |- match ?x with _ => _ end <> OutOfFuel => destruct_head x; cbv beta iota
      end ].

(** ** MP3: the frame scan *)

Lemma parse_xing_header_moves (w w' : BinaryIO) (frames byte_count : Z) :
  0 <= io_pos w ->
  ID3._parse_xing_header w = Ok (frames, byte_count, w') ->
  io_data w' = io_data w /\ io_pos w + 8 <= io_pos w'.
Proof.
  intros Hp. unfold ID3._parse_xing_header.
  destruct (seek_cur 4 w) as [w1| |] eqn:E1; [|discriminate..]. cbn [rbind].
  destruct (seek_cur_moves _ _ _ E1) as [D1 P1].
  destruct (read 4 w1) as [b2 w2] eqn:E2.
  destruct (read_moves _ _ _ _ E2) as [D2 P2].
  destruct (unpack_be_signed 4 b2) as [flags| |] eqn:E3; [|discriminate..]. cbn [rbind].
  apply unpack_be_signed_length in E3.
  assert (Hm : forall (c : bool) (wa : BinaryIO) (v : Z) (wb : BinaryIO),
             (if c then let '(b, fh) := read 4 wa in
                        let? v := unpack_be_signed 4 b in Ok (v, fh)
              else Ok (0, wa)) = Ok (v, wb) ->
             io_data wb = io_data wa /\ io_pos wa <= io_pos wb).
  { intros c wa v wb. destruct c.
    - destruct (read 4 wa) as [b fh] eqn:Er.
      destruct (read_moves _ _ _ _ Er) as [Hd Hq].
      destruct (unpack_be_signed 4 b); [|discriminate..]. cbn. intros [= _ <-]. split; [done|lia].
    - intros [= _ <-]. split; [done|lia]. }
  assert (Hs : forall (c : bool) (k : Z) (wa wb : BinaryIO),
             0 <= k -> 0 <= io_pos wa ->
             (if c then seek_cur k wa else Ok wa) = Ok wb ->
             io_data wb = io_data wa /\ io_pos wa <= io_pos wb).
  { intros c k wa wb Hk Hq. destruct c.
    - intros E. destruct (seek_cur_moves _ _ _ E) as [Hd Hq']. split; [done|lia].
    - intros [= <-]. split; [done|lia]. }
  match goal with |- rbind ?r _ = _ -> _ => destruct r as [[f3 w3]| |] eqn:E4 end;
    [|discriminate..]. cbn [rbind].
  destruct (Hm _ _ _ _ E4) as [D3 P3].
  match goal with |- rbind ?r _ = _ -> _ => destruct r as [[f4 w4]| |] eqn:E5 end;
    [|discriminate..]. cbn [rbind].
  destruct (Hm _ _ _ _ E5) as [D4 P4].
  match goal with |- rbind ?r _ = _ -> _ => destruct r as [w5| |] eqn:E6 end;
    [|discriminate..]. cbn [rbind].
  destruct (Hs _ 100 w4 _ ltac:(lia) ltac:(lia) E6) as [D5 P5].
  match goal with |- rbind ?r _ = _ -> _ => destruct r as [w6| |] eqn:E7 end;
    [|discriminate..]. cbn [rbind].
  destruct (Hs _ 4 w5 _ ltac:(lia) ltac:(lia) E7) as [D6 P6].
  intros [= _ _ <-]. split; [congruence|lia].
Qed.

(** a round of the scan that goes on had four bytes to look at and has
    moved the walker forward *)
Lemma scan_step_advances (file_offset : Z) (st st' : ID3.scan) :
  0 <= io_pos (ID3.s_walker st) ->
  ID3.scan_step file_offset st = Ok (inr st') ->
  io_data (ID3.s_walker st') = io_data (ID3.s_walker st) /\
  io_pos (ID3.s_walker st) < io_pos (ID3.s_walker st') /\
  io_pos (ID3.s_walker st) + 4 <= io_len (ID3.s_walker st).
Proof.
  intros Hp. unfold ID3.scan_step. rewrite read_all_rest.
  cbv beta iota zeta. rewrite (peek_restores _ Hp). cbn [rbind].
  pose proof (io_rest_length _ Hp) as Hlen.
  set (b := io_rest (ID3.s_walker st)) in *.
  set (w := ID3.s_walker st) in *.
  destruct (Nat.ltb_spec (length b) 4) as [Hshort|Hlong].
  { destruct (negb _); [destruct (int_truediv _ _ _)|]; cbn; discriminate. }
  assert (Hroom : io_pos w + 4 <= io_len w) by lia.
  destruct (ID3.invalid_frame b).
  { match goal with
    | |- rbind (seek_cur ?k _) _ = _ -> _ =>
        assert (Hk : 1 <= k) by lia;
        destruct (seek_cur k w) as [w1| |] eqn:E1; [|discriminate..]
    end.
    cbn [rbind]. intros [= <-]. cbn [ID3.s_walker].
    destruct (seek_cur_moves _ _ _ E1) as [D1 P1]. split; [done|lia]. }
  destruct (ID3.index ID3.channels_per_channel_mode _) as [channels| |];
    [|discriminate..]. cbn [rbind].
  match goal with |- rbind ?r _ = _ -> _ => destruct r as [by_layer| |] end;
    [|discriminate..]. cbn [rbind].
  match goal with |- rbind ?r _ = _ -> _ => destruct r as [by_id| |] end;
    [|discriminate..]. cbn [rbind].
  match goal with |- rbind ?r _ = _ -> _ => destruct r as [frame_bitrate| |] end;
    [|discriminate..]. cbn [rbind].
  match goal with |- rbind ?r _ = _ -> _ => destruct r as [samplerate| |] end;
    [|discriminate..]. cbn [rbind].
  match goal with |- match ?x with Some _ => _ | None => _ end = _ -> _ =>
    destruct x as [xing_header_offset|] end.
  - destruct (seek_cur _ w) as [w1| |] eqn:E1; [|discriminate..]. cbn [rbind].
    destruct (seek_cur_moves _ _ _ E1) as [D1 P1].
    destruct (ID3._parse_xing_header w1) as [[[xframes byte_count] w2]| |] eqn:E2;
      [|discriminate..]. cbn [rbind].
    destruct (parse_xing_header_moves w1 w2 _ _ ltac:(lia) E2) as [D2 P2].
    destruct (_ && _).
    + destruct (int_truediv _ _ _); [|discriminate..]. cbn [rbind].
      destruct (float_truediv _ _ _); discriminate.
    + intros [= <-]. cbn [ID3.s_walker]. split; [congruence|lia].
  - destruct (seek_cur 4 w) as [w1| |] eqn:E1; [|discriminate..]. cbn [rbind].
    destruct (seek_cur_moves _ _ _ E1) as [D1 P1].
    destruct (_ || _).
    + destruct (seek_end _ _); [|discriminate..]. cbn [rbind].
      destruct (int_truediv _ _ _); [|discriminate..]. cbn [rbind].
      destruct (float_truediv _ _ _); [|discriminate..]. cbn [rbind].
      destruct (float_truediv _ _ _); [|discriminate..]. cbn [rbind].
      destruct (int_truediv _ _ _); discriminate.
    + match goal with |- rbind (if ?c then _ else _) _ = _ -> _ =>
        destruct c eqn:Ec end.
      * match goal with |- rbind (seek_cur ?k _) _ = _ -> _ =>
          destruct (seek_cur k w1) as [w2| |] eqn:E2; [|discriminate..] end.
        cbn [rbind]. intros [= <-]. cbn [ID3.s_walker].
        destruct (seek_cur_moves _ _ _ E2) as [D2 P2].
        apply Z.ltb_lt in Ec. split; [congruence|lia].
      * cbn [rbind]. intros [= <-]. cbn [ID3.s_walker]. split; [done|lia].
Qed.

Lemma parse_xing_header_completes (fh : BinaryIO) :
  ID3._parse_xing_header fh <> OutOfFuel.
Proof. unfold ID3._parse_xing_header. completes. Qed.

Lemma parse_id3v2_header_completes (self : TinyTag) (fh : BinaryIO) :
  ID3._parse_id3v2_header self fh <> OutOfFuel.
Proof. unfold ID3._parse_id3v2_header. completes. Qed.

#[local] Hint Resolve parse_xing_header_completes parse_id3v2_header_completes : completes.

Lemma scan_step_completes (file_offset : Z) (st : ID3.scan) :
  ID3.scan_step file_offset st <> OutOfFuel.
Proof. unfold ID3.scan_step. completes. Qed.

Lemma scan_loop_ends (fuel : nat) :
  forall (file_offset : Z) (st : ID3.scan),
    0 <= io_pos (ID3.s_walker st) ->
    (1 <= fuel)%nat ->
    io_len (ID3.s_walker st) - io_pos (ID3.s_walker st) < Z.of_nat fuel ->
    ID3.scan_loop fuel file_offset st <> OutOfFuel.
Proof.
  induction fuel as [|fuel IH]; intros file_offset st Hp Hf Hm; [lia|].
  cbn [ID3.scan_loop].
  apply rbind_completes; [apply scan_step_completes|].
  intros [out|st'] E; [discriminate|].
  destruct (scan_step_advances _ _ _ Hp E) as (D & P & Hroom).
  apply IH; [lia|lia|]. unfold io_len in *. rewrite D. lia.
Qed.

(** The scan of an MP3 stream always comes to an end: every round that
    goes on has moved the walker forward, and a walker with fewer than
    four bytes left stops the loop. *)
Theorem mp3_determine_duration_completes (self : TinyTag) (fh : BinaryIO) :
  ID3._determine_duration self fh <> OutOfFuel.
Proof.
  unfold ID3._determine_duration.
  apply rbind_completes; [completes|]. intros [self1 fh1] _.
  apply rbind_completes; [completes|]. intros fh2 _.
  cbv zeta. destruct (read_all fh2) as [rest fh3].
  apply rbind_completes.
  - apply scan_loop_ends; cbn; unfold io_len; cbn; lia.
  - intros [s f|s f frames] _; completes.
    unfold ID3.int_div_attr. completes.
Qed.

(** ** Ogg: the page loop ends *)

Lemma read_consumes (n : Z) (fh fh' : BinaryIO) (b : bytes) :
  0 <= io_pos fh ->
  read n fh = (b, fh') ->
  0 <= io_pos fh' /\
  (length (io_rest fh') + length b = length (io_rest fh))%nat.
Proof.
  intros Hp E. destruct (read_moves _ _ _ _ E) as [D P].
  split; [lia|].
  assert (Hb : (length b <= length (io_rest fh))%nat).
  { revert E. unfold read. intros [= <- _]. destruct (n <? 0); [done|].
    rewrite ztake_take, length_take. lia. }
  pose proof (io_rest_length fh Hp) as L1.
  pose proof (io_rest_length fh' ltac:(lia)) as L2.
  unfold io_len in *. rewrite D in L2. lia.
Qed.

Lemma segment_step_consumes (st : Ogg.lacing) (segsize : Z) :
  0 <= io_pos (Ogg.l_fh st) ->
  0 <= io_pos (Ogg.l_fh (Ogg.segment_step st segsize)) /\
  (length (io_rest (Ogg.l_fh (Ogg.segment_step st segsize)))
   <= length (io_rest (Ogg.l_fh st)))%nat.
Proof.
  intros Hp. unfold Ogg.segment_step. cbv zeta.
  destruct (_ <? 255); [|cbn; lia].
  destruct (read _ _) as [d fh] eqn:E. cbn.
  destruct (read_consumes _ _ _ _ Hp E). lia.
Qed.

Lemma segments_consume (segsizes : list Z) :
  forall st : Ogg.lacing,
    0 <= io_pos (Ogg.l_fh st) ->
    0 <= io_pos (Ogg.l_fh (fold_left Ogg.segment_step segsizes st)) /\
    (length (io_rest (Ogg.l_fh (fold_left Ogg.segment_step segsizes st)))
     <= length (io_rest (Ogg.l_fh st)))%nat.
Proof.
  induction segsizes as [|s l IH]; intros st Hp; [cbn; lia|].
  cbn [fold_left]. destruct (segment_step_consumes st s Hp) as [Hp1 Hl1].
  destruct (IH _ Hp1). lia.
Qed.

Lemma page_end_consumes (st : Ogg.lacing) :
  0 <= io_pos (Ogg.l_fh st) ->
  0 <= io_pos (Ogg.l_fh (Ogg.page_end st)) /\
  (length (io_rest (Ogg.l_fh (Ogg.page_end st))) <= length (io_rest (Ogg.l_fh st)))%nat.
Proof.
  intros Hp. unfold Ogg.page_end.
  destruct (_ =? 0); [lia|].
  destruct (read _ _) as [d fh] eqn:E.
  destruct (read_consumes _ _ _ _ Hp E).
  destruct (_ =? 0); cbn; lia.
Qed.

Lemma pages_loop_ends (fuel : nat) :
  forall (self : TinyTag) (fh : BinaryIO) (previous_page header_data : bytes)
         (yielded : list bytes),
    0 <= io_pos fh ->
    (1 <= fuel)%nat ->
    (length header_data = 27%nat -> (length (io_rest fh) + 27 < fuel)%nat) ->
    (Ogg.pages_loop fuel self fh previous_page header_data yielded).2 <> OutOfFuel.
Proof.
  induction fuel as [|fuel IH]; intros self fh previous_page header_data yielded Hp Hf Hm;
    [lia|].
  cbn [Ogg.pages_loop]. cbv zeta.
  destruct (Nat.eqb_spec (length header_data) 27) as [L|_]; cbn [negb]; [|discriminate].
  specialize (Hm L).
  destruct (_ || _); [discriminate|].
  destruct (read _ fh) as [table fh1] eqn:E1.
  destruct (read_consumes _ _ _ _ Hp E1) as [Hp1 Hl1].
  destruct (negb _); [discriminate|].
  match goal with
  | |- context [Ogg.page_end ?s] =>
      destruct (segments_consume (byte_val <$> table)
                                 (Ogg.mkLacing 0 previous_page fh1 yielded) Hp1)
        as [Hp2 Hl2];
      destruct (page_end_consumes s Hp2) as [Hp3 Hl3];
      set (st := Ogg.page_end s) in *
  end.
  cbn [Ogg.l_fh] in Hl2.
  destruct (read 27 (Ogg.l_fh st)) as [header_data' fh4] eqn:E4.
  destruct (read_consumes _ _ _ _ Hp3 E4) as [Hp4 Hl4].
  apply IH; [done|lia|lia].
Qed.

(** X16: reading the pages of an Ogg stream always comes to an end: every
    round starts from a page header of 27 bytes that has been consumed,
    so [_parse_pages] returns or raises on every stream. *)
Theorem ogg_parse_pages_completes (self : TinyTag) (fh : BinaryIO) :
  0 <= io_pos fh -> (Ogg._parse_pages self fh).2 <> OutOfFuel.
Proof.
  intros Hp. unfold Ogg._parse_pages.
  destruct (read 27 fh) as [header_data fh'] eqn:E.
  destruct (read_consumes _ _ _ _ Hp E) as [Hp' Hl].
  apply pages_loop_ends; [done|lia|lia].
Qed.

Lemma ogg_parse_pages_completes_sample :
  (Ogg._parse_pages TinyTag_init (BytesIO Samples.two_packets_page)).2 <> OutOfFuel.
Proof. apply ogg_parse_pages_completes. cbn. lia. Defined.

(** ** MP4: the atoms *)

Lemma set_fields_completes (items : MP4.fields) :
  forall self : TinyTag, MP4.set_fields self items <> OutOfFuel.
Proof.
  induction items as [|[fieldname value] items IH]; intros self; [discriminate|].
  cbn [MP4.set_fields]. destruct (_ && _); [apply IH|].
  destruct (negb _); [|apply IH].
  apply rbind_completes; [apply set_field_completes|]. intros s _. apply IH.
Qed.

Lemma path_get_complete (path : list (bytes * MP4.node)) (atom_type : bytes) (n : MP4.node) :
  MP4.path_complete path -> MP4.path_get path atom_type = Some n -> MP4.leaves_complete n.
Proof.
  unfold MP4.path_complete. induction path as [|[k c] path IH]; [discriminate|].
  cbn. intros [Hc Hrest]. destruct (bytes_eqb k atom_type).
  - by intros [= <-].
  - by apply IH.
Qed.

(** the two optional jumps over the version and the flags of an atom *)
Lemma skip_version_and_flags (fh fh' : BinaryIO) (versioned flagged : bool) :
  0 <= io_pos fh ->
  (let? fh := if versioned then seek_cur 4 fh else Ok fh in
   if flagged then seek_cur 4 fh else Ok fh) = Ok fh' ->
  ahead_by 0 fh fh'.
Proof.
  intros Hp Hrun. bind_ok Hrun as fh1 eqn E1.
  assert (A1 : ahead_by 0 fh fh1).
  { destruct versioned; [|injection E1 as <-; by apply ahead_by_refl].
    exact (ahead_by_weaken 4 0 _ _ ltac:(lia) (seek_cur_ahead 4 _ _ Hp ltac:(lia) E1)). }
  pose proof (ahead_by_pos 0 _ _ ltac:(lia) A1) as P1.
  destruct flagged; [|by injection Hrun as <-].
  pose proof (ahead_by_weaken 4 0 _ _ ltac:(lia) (seek_cur_ahead 4 _ _ P1 ltac:(lia) Hrun)).
  exact (ahead_by_trans 0 0 _ _ _ A1 H).
Qed.

(** the traversal leaves the stream further on *)
Lemma traverse_loop_moves (fuel : nat) :
  forall (self self' : TinyTag) (fh fh' : BinaryIO) (path : list (bytes * MP4.node))
         (stop_pos : option Z) (atom_header : bytes),
    0 <= io_pos fh ->
    MP4.traverse_loop fuel self fh path stop_pos atom_header = Ok (self', fh') ->
    ahead_by 0 fh fh'.
Proof.
  induction fuel as [|fuel IH]; intros self self' fh fh' path stop_pos atom_header Hp Hrun;
    [discriminate|].
  cbn [MP4.traverse_loop] in Hrun.
  destruct (negb _); [injection Hrun as _ <-; by apply ahead_by_refl|].
  cbv zeta in Hrun.
  destruct (Z.leb_spec (be_uint (take 4 atom_header) - 8) 0) as [_|Hsize].
  { destruct (read 8 fh) as [h fh1] eqn:Er.
    pose proof (read_ahead _ _ _ _ Hp Er) as A1.
    exact (ahead_by_trans 0 0 _ _ _ A1
             (IH _ _ _ _ _ _ _ (ahead_by_pos 0 _ _ ltac:(lia) A1) Hrun)). }
  bind_ok Hrun as fh1 eqn E1. bind_ok Hrun as fh2 eqn E2.
  assert (A2 : ahead_by 0 fh fh2).
  { apply (skip_version_and_flags fh fh2 (MP4.bytes_in (drop 4 atom_header) MP4.VERSIONED_ATOMS)
             (MP4.bytes_in (drop 4 atom_header) MP4.FLAGGED_ATOMS) Hp).
    rewrite E1. exact E2. }
  pose proof (ahead_by_pos 0 _ _ ltac:(lia) A2) as P2.
  bind_ok Hrun as [s3 fh3] eqn E3.
  assert (A3 : ahead_by 0 fh2 fh3).
  { destruct (MP4.path_get path _) as [[sub_path|parse]|].
    - destruct (read 8 fh2) as [h fhr] eqn:Er.
      pose proof (read_ahead _ _ _ _ P2 Er) as Ar.
      exact (ahead_by_trans 0 0 _ _ _ Ar
               (IH _ _ _ _ _ _ _ (ahead_by_pos 0 _ _ ltac:(lia) Ar) E3)).
    - destruct (read _ fh2) as [d fhr] eqn:Er.
      pose proof (read_ahead _ _ _ _ P2 Er) as Ar.
      bind_ok E3 as items eqn Ei. bind_ok E3 as s eqn Es. by injection E3 as _ <-.
    - bind_ok E3 as fhs eqn Es. injection E3 as _ <-.
      exact (ahead_by_weaken (be_uint (take 4 atom_header) - 8) 0 _ _ ltac:(lia)
               (seek_cur_ahead (be_uint (take 4 atom_header) - 8) _ _ P2 ltac:(lia) Es)). }
  pose proof (ahead_by_trans 0 0 _ _ _ A2 A3) as A.
  destruct (match stop_pos with Some _ => _ | None => _ end);
    [by injection Hrun as _ <-|].
  destruct (read 8 fh3) as [h fh4] eqn:Er.
  pose proof (read_ahead _ _ _ _ (ahead_by_pos 0 _ _ ltac:(lia) A) Er) as A4.
  pose proof (ahead_by_trans 0 0 _ _ _ A A4) as A'.
  exact (ahead_by_trans 0 0 _ _ _ A'
           (IH _ _ _ _ _ _ _ (ahead_by_pos 0 _ _ ltac:(lia) A') Hrun)).
Qed.

(** a header of eight bytes that has been read leaves that much less *)
Lemma next_header_fuel (fh fh' : BinaryIO) (h : bytes) (fuel bound : nat) :
  0 <= io_pos fh ->
  read 8 fh = (h, fh') ->
  (remaining fh <= bound)%nat ->
  (bound + 7 < fuel)%nat ->
  0 <= io_pos fh' /\ (1 <= fuel)%nat /\
  (length h = 8%nat -> (remaining fh' + 8 < fuel)%nat).
Proof.
  intros Hp Er Hb Hf.
  split; [exact (ahead_by_pos 0 _ _ ltac:(lia) (read_ahead _ _ _ _ Hp Er))|].
  split; [lia|]. intros L.
  destruct (read_consumed _ _ _ _ _ Hp Er L) as [A8 Hroom].
  pose proof (ahead_by_remaining 8 _ _ ltac:(lia) A8 (Hroom ltac:(lia))). lia.
Qed.

Lemma traverse_loop_ends (fuel : nat) :
  forall (self : TinyTag) (fh : BinaryIO) (path : list (bytes * MP4.node))
         (stop_pos : option Z) (atom_header : bytes),
    MP4.path_complete path ->
    0 <= io_pos fh ->
    (1 <= fuel)%nat ->
    (length atom_header = 8%nat -> (remaining fh + 8 < fuel)%nat) ->
    MP4.traverse_loop fuel self fh path stop_pos atom_header <> OutOfFuel.
Proof.
  induction fuel as [|fuel IH]; intros self fh path stop_pos atom_header Hpath Hp Hf Hm;
    [lia|].
  cbn [MP4.traverse_loop].
  destruct (Nat.eqb_spec (length atom_header) 8) as [L|_]; cbn [negb]; [|discriminate].
  specialize (Hm L). cbv zeta.
  destruct (Z.leb_spec (be_uint (take 4 atom_header) - 8) 0) as [_|Hsize].
  { destruct (read 8 fh) as [h fh1] eqn:Er.
    destruct (next_header_fuel _ _ _ fuel (remaining fh) Hp Er ltac:(lia) ltac:(lia))
      as (P1 & F1 & M1).
    by apply IH. }
  apply rbind_completes; [completes|]. intros fh1 E1.
  apply rbind_completes; [completes|]. intros fh2 E2.
  assert (A2 : ahead_by 0 fh fh2).
  { apply (skip_version_and_flags fh fh2 (MP4.bytes_in (drop 4 atom_header) MP4.VERSIONED_ATOMS)
             (MP4.bytes_in (drop 4 atom_header) MP4.FLAGGED_ATOMS) Hp).
    rewrite E1. exact E2. }
  pose proof (ahead_by_pos 0 _ _ ltac:(lia) A2) as P2.
  pose proof (ahead_remaining _ _ A2) as R2.
  apply rbind_completes.
  - destruct (MP4.path_get path _) as [[sub_path|parse]|] eqn:Hget.
    + destruct (read 8 fh2) as [h fhr] eqn:Er.
      destruct (next_header_fuel _ _ _ fuel (remaining fh) P2 Er ltac:(lia) ltac:(lia))
        as (P1 & F1 & M1).
      apply IH; [exact (path_get_complete _ _ _ Hpath Hget)|done..].
    + destruct (read _ fh2) as [d fhr].
      apply rbind_completes; [exact (path_get_complete _ _ _ Hpath Hget d)|].
      intros items _. apply rbind_completes; [apply set_fields_completes|discriminate].
    + completes.
  - intros [s3 fh3] E3.
    assert (A3 : ahead_by 0 fh2 fh3).
    { destruct (MP4.path_get path _) as [[sub_path|parse]|].
      - destruct (read 8 fh2) as [h fhr] eqn:Er.
        pose proof (read_ahead _ _ _ _ P2 Er) as Ar.
        exact (ahead_by_trans 0 0 _ _ _ Ar
                 (traverse_loop_moves _ _ _ _ _ _ _ _
                    (ahead_by_pos 0 _ _ ltac:(lia) Ar) E3)).
      - destruct (read _ fh2) as [d fhr] eqn:Er.
        pose proof (read_ahead _ _ _ _ P2 Er) as Ar.
        bind_ok E3 as items eqn Ei. bind_ok E3 as s eqn Es. by injection E3 as _ <-.
      - bind_ok E3 as fhs eqn Es. injection E3 as _ <-.
        exact (ahead_by_weaken (be_uint (take 4 atom_header) - 8) 0 _ _ ltac:(lia)
               (seek_cur_ahead (be_uint (take 4 atom_header) - 8) _ _ P2 ltac:(lia) Es)). }
    pose proof (ahead_remaining _ _ A3) as R3.
    destruct (match stop_pos with Some _ => _ | None => _ end); [discriminate|].
    destruct (read 8 fh3) as [h fh4] eqn:Er.
    destruct (next_header_fuel _ _ _ fuel (remaining fh)
                (ahead_by_pos 0 _ _ ltac:(lia) A3) Er ltac:(lia) ltac:(lia))
      as (P1 & F1 & M1).
    by apply IH.
Qed.

Lemma traverse_atoms_completes (self : TinyTag) (fh : BinaryIO)
      (path : list (bytes * MP4.node)) :
  MP4.path_complete path -> 0 <= io_pos fh ->
  MP4._traverse_atoms self fh path <> OutOfFuel.
Proof.
  intros Hpath Hp. unfold MP4._traverse_atoms. cbv zeta.
  destruct (read 8 fh) as [atom_header fh1] eqn:Er.
  pose proof (remaining_le_data fh).
  apply traverse_loop_ends; [done|..].
  - exact (ahead_by_pos 0 _ _ ltac:(lia) (read_ahead _ _ _ _ Hp Er)).
  - lia.
  - intros L. destruct (read_consumed _ _ _ _ _ Hp Er L) as [A8 Hroom].
    pose proof (ahead_by_remaining 8 _ _ ltac:(lia) A8 (Hroom ltac:(lia))). lia.
Qed.

Lemma audio_data_tree_complete : MP4.path_complete MP4.AUDIO_DATA_TREE.
Proof.
  unfold MP4.path_complete, MP4.AUDIO_DATA_TREE. cbn.
  repeat split; intros d.
  - unfold MP4._parse_mvhd. completes.
  - unfold MP4._parse_audio_sample_entry_mp4a. completes.
  - unfold MP4._parse_audio_sample_entry_alac. completes.
Qed.

(** X26: looking for the duration of an MP4 stream always comes to an end:
    every atom header that is looked at has been consumed, on every
    level of the tree, and the parsers at the leaves return or raise, so
    [_determine_duration] returns or raises on every stream. *)
Theorem mp4_determine_duration_completes (self : TinyTag) (fh : BinaryIO) :
  0 <= io_pos fh -> MP4._determine_duration self fh <> OutOfFuel.
Proof.
  intros Hp. apply traverse_atoms_completes; [apply audio_data_tree_complete|done].
Qed.

(** The one loop of the module that may go round for ever is the one of
    [_parse_custom_field]: a sub-atom of unknown type with a size field
    of zero makes it seek back to the header it has just read.  No
    amount of fuel ends the loop on such data. *)
Lemma custom_field_loop_stuck {R : PyRuntime} (fuel : nat) :
  MP4.custom_field_loop fuel (io_at (BytesIO Samples.stuck_custom_field) 8)
                        Samples.stuck_custom_field None [] = OutOfFuel.
Proof.
  induction fuel as [|fuel IH]; [reflexivity|].
  cbn [MP4.custom_field_loop].
  change (length Samples.stuck_custom_field =? 8)%nat with true. cbn [negb]. cbv zeta.
  change (bytes_eqb (drop 4 Samples.stuck_custom_field) (bytes_of_string "name")) with false.
  change (bytes_eqb (drop 4 Samples.stuck_custom_field) (bytes_of_string "data")) with false.
  cbv iota.
  change (seek_cur (be_uint (take 4 Samples.stuck_custom_field) - 8)
                   (io_at (BytesIO Samples.stuck_custom_field) 8))
    with (Ok (BytesIO Samples.stuck_custom_field)).
  cbn [rbind].
  change (read 8 (BytesIO Samples.stuck_custom_field))
    with (Samples.stuck_custom_field, io_at (BytesIO Samples.stuck_custom_field) 8).
  exact IH.
Qed.

(** ** The parsers that decode text *)

Section Completes.
Context {R : PyRuntime}.
Hypothesis HR : runtime_completes R.

Lemma py_decode_completes (encoding errors : string) (b : bytes) :
  py_decode encoding errors b <> OutOfFuel.
Proof. apply HR. Qed.

Lemma py_b64decode_completes (s : string) : py_b64decode s <> OutOfFuel.
Proof. apply HR. Qed.

#[local] Hint Resolve py_decode_completes py_b64decode_completes : completes.

(** *** ID3v2 frames *)

Lemma decode_string_completes (self : TinyTag) (bytestr : bytes) (language : bool) :
  ID3._decode_string self bytestr language <> OutOfFuel.
Proof.
  unfold ID3._decode_string. cbv zeta.
  destruct (if bytes_eqb _ _ then _ else _) as [b e]. completes.
Qed.

Lemma parse_custom_field_completes (self : TinyTag) (content : string) :
  ID3.__parse_custom_field self content <> OutOfFuel.
Proof. unfold ID3.__parse_custom_field. completes. Qed.

#[local] Hint Resolve decode_string_completes parse_custom_field_completes : completes.

Lemma set_frame_field_completes (self : TinyTag) (fieldname value : string) :
  ID3.set_frame_field self fieldname value <> OutOfFuel.
Proof. unfold ID3.set_frame_field. completes. Qed.

Lemma index_nul_from_1_completes (content : bytes) :
  ID3.index_nul_from_1 content <> OutOfFuel.
Proof. unfold ID3.index_nul_from_1. completes. Qed.

#[local] Hint Resolve set_frame_field_completes index_nul_from_1_completes : completes.

Lemma parse_frame_completes (self : TinyTag) (fh : BinaryIO) (id3version : Z) :
  ID3._parse_frame self fh id3version <> OutOfFuel.
Proof. unfold ID3._parse_frame. completes. Qed.

Lemma set_field_filesize (self self' : TinyTag) (fieldname : string) (value : pyval) :
  _set_field self fieldname value = Ok self' -> filesize self' = filesize self.
Proof.
  unfold _set_field. destruct (_ && _); [by intros [= <-]|]. cbv zeta.
  intros Hrun. bind_ok Hrun as v eqn E. injection Hrun as <-.
  by destruct (String.prefix _ _).
Qed.

Lemma parse_custom_field_filesize (self self' : TinyTag) (content : string) (b : bool) :
  ID3.__parse_custom_field self content = Ok (b, self') -> filesize self' = filesize self.
Proof.
  unfold ID3.__parse_custom_field.
  destruct (str_partition _ content) as [[name sep] value].
  destruct (_ && _); intros Hrun; [|by injection Hrun as _ <-].
  bind_ok Hrun as s eqn E. injection Hrun as _ <-. by eapply set_field_filesize.
Qed.

Lemma set_frame_field_filesize (self self' : TinyTag) (fieldname value : string) :
  ID3.set_frame_field self fieldname value = Ok self' -> filesize self' = filesize self.
Proof.
  unfold ID3.set_frame_field.
  destruct (String.eqb fieldname "comment").
  { intros Hrun. bind_ok Hrun as [custom s1] eqn E.
    rewrite <- (parse_custom_field_filesize self s1 value custom E).
    destruct custom; [by injection Hrun as <-|]. by eapply set_field_filesize. }
  destruct (ID3.str_in fieldname ["track"; "disc"]).
  { destruct (if str_contains "/" value then _ else _) as [v total].
    destruct total as [t|].
    - destruct (py_int t) as [n|]; [|by intros [= <-]].
      intros Hrun. bind_ok Hrun as s1 eqn E.
      rewrite <- (set_field_filesize self s1 _ _ E).
      destruct (py_int v); [|by injection Hrun as <-]. by eapply set_field_filesize.
    - cbn [rbind]. destruct (py_int v); [|by intros [= <-]]. by apply set_field_filesize. }
  destruct (String.eqb fieldname "genre").
  { match goal with
    | |- match ?g with _ => _ end = _ -> _ => destruct g as [genre_id|]
    end; [|by intros [= <-]].
    by apply set_field_filesize. }
  by apply set_field_filesize.
Qed.

(** a frame that is parsed keeps the file size of the object and leaves
    the stream further on; a frame size that is not zero has been read
    from a full frame header, of six bytes or more *)
Lemma parse_frame_moves (self self' : TinyTag) (fh fh' : BinaryIO) (version size : Z) :
  0 <= io_pos fh ->
  ID3._parse_frame self fh version = Ok (size, self', fh') ->
  filesize self' = filesize self /\
  ahead_by 0 fh fh' /\
  (size <> 0 -> ahead_by 6 fh fh' /\ io_pos fh + 6 <= io_len fh).
Proof.
  intros Hp. unfold ID3._parse_frame. cbv zeta.
  destruct (read _ fh) as [frame_header_data fh1] eqn:E1.
  pose proof (read_ahead _ _ _ _ Hp E1) as A1.
  destruct (Z.eqb_spec (Z.of_nat (length frame_header_data)) (if version =? 2 then 6 else 10))
    as [L|_]; cbn [negb]; [|by intros [= <- <- <-]].
  destruct (read_consumed _ _ _ _ _ Hp E1 eq_refl) as [A1' Hroom].
  assert (Hsix : 6 <= Z.of_nat (length frame_header_data)) by (destruct (version =? 2); lia).
  intros Hrun. bind_ok Hrun as frame_id eqn Eid.
  destruct (0 <? _); [|by injection Hrun as <- <- <-].
  destruct (read _ fh1) as [content fh2] eqn:E2.
  pose proof (read_ahead _ _ _ _ (ahead_by_pos 0 _ _ ltac:(lia) A1) E2) as A2.
  assert (Hmoves : ahead_by 0 fh fh2 /\ (ahead_by 6 fh fh2 /\ io_pos fh + 6 <= io_len fh)).
  { split; [exact (ahead_by_trans 0 0 _ _ _ A1 A2)|]. split; [|lia].
    apply (ahead_by_weaken (Z.of_nat (length frame_header_data) + 0)); [lia|].
    exact (ahead_by_trans _ 0 _ _ _ A1' A2). }
  assert (Hdone : forall s, filesize s = filesize self ->
            filesize s = filesize self /\ ahead_by 0 fh fh2 /\
            (size <> 0 -> ahead_by 6 fh fh2 /\ io_pos fh + 6 <= io_len fh)) by tauto.
  destruct (ID3.assoc_get ID3.FRAME_ID_TO_FIELD frame_id) as [fieldname|].
  - destruct (negb (_parse_tags self)); [injection Hrun as _ <- <-; by apply Hdone|].
    bind_ok Hrun as value eqn Ev. bind_ok Hrun as s1 eqn Es. injection Hrun as _ <- <-.
    apply Hdone. by eapply set_frame_field_filesize.
  - destruct (ID3.str_in frame_id ID3.CUSTOM_FRAME_IDS).
    { destruct (_parse_tags self); [|injection Hrun as _ <- <-; by apply Hdone].
      bind_ok Hrun as value eqn Ev. bind_ok Hrun as [custom s1] eqn Es.
      injection Hrun as _ <- <-. apply Hdone. by eapply parse_custom_field_filesize. }
    destruct (ID3.str_in frame_id ID3.IMAGE_FRAME_IDS).
    { destruct (_load_image self); [|injection Hrun as _ <- <-; by apply Hdone].
      bind_ok Hrun as start eqn Es. injection Hrun as _ <- <-. by apply Hdone. }
    destruct (negb (ID3.str_in frame_id ID3.DISALLOWED_FRAME_IDS));
      [|injection Hrun as _ <- <-; by apply Hdone].
    destruct (_parse_tags self); [|injection Hrun as _ <- <-; by apply Hdone].
    bind_ok Hrun as value eqn Ev. bind_ok Hrun as s1 eqn Es. injection Hrun as _ <- <-.
    apply Hdone. by eapply set_field_filesize.
Qed.

Lemma frames_loop_ends (fuel : nat) :
  forall (self : TinyTag) (fh : BinaryIO) (major size parsed_size : Z),
    0 <= io_pos fh ->
    (remaining fh < fuel)%nat ->
    ID3.frames_loop fuel self fh major size parsed_size <> OutOfFuel.
Proof.
  induction fuel as [|fuel IH]; intros self fh major size parsed_size Hp Hm; [lia|].
  cbn [ID3.frames_loop]. destruct (parsed_size <? size); [|discriminate].
  apply rbind_completes; [apply parse_frame_completes|].
  intros [[frame_size s1] fh1] E.
  destruct (parse_frame_moves _ _ _ _ _ _ Hp E) as (_ & A & Hsix).
  destruct (Z.eqb_spec frame_size 0) as [|Hnz]; [discriminate|].
  destruct (Hsix Hnz) as [A6 Hroom].
  apply IH; [exact (ahead_by_pos 0 _ _ ltac:(lia) A)|].
  pose proof (ahead_by_remaining 6 _ _ ltac:(lia) A6 Hroom). lia.
Qed.

Lemma frames_loop_filesize (fuel : nat) :
  forall (self self' : TinyTag) (fh fh' : BinaryIO) (major size parsed_size : Z),
    0 <= io_pos fh ->
    ID3.frames_loop fuel self fh major size parsed_size = Ok (self', fh') ->
    filesize self' = filesize self /\ io_data fh' = io_data fh.
Proof.
  induction fuel as [|fuel IH]; intros self self' fh fh' major size parsed_size Hp Hrun;
    [discriminate|].
  cbn [ID3.frames_loop] in Hrun.
  destruct (parsed_size <? size); [|by injection Hrun as <- <-].
  bind_ok Hrun as [[frame_size s1] fh1] eqn E.
  destruct (parse_frame_moves _ _ _ _ _ _ Hp E) as (F & A & _).
  destruct (frame_size =? 0); [injection Hrun as <- <-; split; [done|apply A]|].
  destruct (IH _ _ _ _ _ _ _ (ahead_by_pos 0 _ _ ltac:(lia) A) Hrun) as [F' D'].
  split; [congruence|]. rewrite D'. apply A.
Qed.

Lemma calc_size_nonneg (l : list Z) (bits : Z) :
  0 <= bits -> Forall (fun x => 0 <= x) l -> 0 <= ID3._calc_size l bits.
Proof.
  intros Hb. unfold ID3._calc_size.
  assert (H : forall l a, 0 <= a -> Forall (fun x => 0 <= x) l ->
              0 <= fold_left (fun accu elem => Z.shiftl accu bits + elem) l a).
  { clear l. induction l as [|x l IH]; intros a Ha Hl; [done|].
    apply Forall_cons in Hl as [Hx Hl]. cbn. apply IH; [|done].
    pose proof (Z.shiftl_nonneg a bits). lia. }
  by apply H.
Qed.

(** the header of an ID3v2 tag takes ten bytes, and the size it gives is
    not negative *)
Lemma parse_id3v2_header_moves (self self' : TinyTag) (fh fh' : BinaryIO)
      (size major : Z) (extended : bool) :
  0 <= io_pos fh ->
  ID3._parse_id3v2_header self fh = Ok (size, extended, major, self', fh') ->
  filesize self' = filesize self /\ 0 <= size /\
  ahead_by 10 fh fh' /\ io_pos fh' = io_pos fh + 10.
Proof.
  intros Hp. unfold ID3._parse_id3v2_header.
  destruct (read 10 fh) as [b fh1] eqn:E1.
  destruct (Nat.eqb_spec (length b) 10) as [L|_]; cbn [negb]; [|discriminate].
  destruct (read_consumed _ _ _ _ _ Hp E1 L) as [A _].
  destruct (read_moves _ _ _ _ E1) as [_ P].
  destruct (bytes_eqb _ _); intros [= <- _ _ <- <-].
  - split; [done|]. split; [|split; [exact A|lia]].
    apply calc_size_nonneg; [lia|]. unfold slice.
    apply Forall_take, Forall_drop, byte_vals_nonneg.
  - split; [done|]. split; [lia|]. split; [exact A|lia].
Qed.

Lemma parse_id3v2_moves (self self' : TinyTag) (fh fh' : BinaryIO) :
  0 <= io_pos fh ->
  ID3._parse_id3v2 self fh = Ok (self', fh') ->
  filesize self' = filesize self /\ ahead_by 10 fh fh'.
Proof.
  intros Hp. unfold ID3._parse_id3v2. intros Hrun.
  bind_ok Hrun as [[[[size extended] major] s0] fh0] eqn Eh.
  destruct (parse_id3v2_header_moves _ _ _ _ _ _ _ Hp Eh) as (F0 & Hsize & A0 & P0).
  destruct (negb (size =? 0)); [|by injection Hrun as <- <-].
  cbv zeta in Hrun. bind_ok Hrun as fh1 eqn Eext.
  assert (Hfh1 : io_data fh1 = io_data fh0 /\ 0 <= io_pos fh1).
  { destruct extended; [|injection Eext as <-; split; [done|unfold ahead_by in A0; lia]].
    destruct (read 6 fh0) as [b fhx] eqn:Er.
    destruct (read_moves _ _ _ _ Er) as [Dx Px].
    destruct (negb _); [discriminate|].
    destruct (seek_cur_moves _ _ _ Eext) as [D1 P1]. split; [congruence|lia]. }
  destruct Hfh1 as [D1 P1].
  bind_ok Hrun as [s1 fh2] eqn Eloop.
  destruct (frames_loop_filesize _ _ _ _ _ _ _ _ P1 Eloop) as [F1 D2].
  bind_ok Hrun as fh3 eqn Eseek. injection Hrun as <- <-.
  destruct (seek_set_moves _ _ _ Eseek) as (D3 & P3 & _).
  split; [congruence|]. unfold ahead_by in *. unfold tell in P3.
  split; [intuition congruence|lia].
Qed.

Lemma parse_id3v2_completes (self : TinyTag) (fh : BinaryIO) :
  0 <= io_pos fh -> ID3._parse_id3v2 self fh <> OutOfFuel.
Proof.
  intros Hp. unfold ID3._parse_id3v2.
  apply rbind_completes; [completes|].
  intros [[[[size extended] major] s0] fh0] Eh.
  destruct (parse_id3v2_header_moves _ _ _ _ _ _ _ Hp Eh) as (_ & _ & A0 & _).
  destruct (negb (size =? 0)); [|discriminate]. cbv zeta.
  apply rbind_completes; [completes|]. intros fh1 Eext.
  assert (P1 : 0 <= io_pos fh1).
  { destruct extended; [|injection Eext as <-; unfold ahead_by in A0; lia].
    destruct (read 6 fh0) as [b fhx] eqn:Er.
    destruct (negb _); [discriminate|].
    destruct (seek_cur_moves _ _ _ Eext) as [D1 P1]. lia. }
  apply rbind_completes; [|intros [s1 fh2] _; completes].
  apply frames_loop_ends; [done|].
  unfold remaining, io_rest. rewrite zdrop_drop, length_drop. lia.
Qed.

(** *** The ID3v1 tag *)

Lemma asciidecode_completes (self : TinyTag) (x : bytes) :
  ID3.asciidecode self x <> OutOfFuel.
Proof. unfold ID3.asciidecode. completes. Qed.

#[local] Hint Resolve asciidecode_completes : completes.

Lemma set_if_unset_completes (self : TinyTag) (name : string) (b : bytes) :
  ID3.set_if_unset self name b <> OutOfFuel.
Proof. unfold ID3.set_if_unset. completes. Qed.

#[local] Hint Resolve set_if_unset_completes : completes.

Lemma parse_id3v1_completes (self : TinyTag) (fh : BinaryIO) :
  ID3._parse_id3v1 self fh <> OutOfFuel.
Proof. unfold ID3._parse_id3v1. completes. Qed.

Lemma id3_parse_tag_completes (self : TinyTag) (fh : BinaryIO) :
  0 <= io_pos fh -> ID3._parse_tag self fh <> OutOfFuel.
Proof.
  intros Hp. unfold ID3._parse_tag.
  apply rbind_completes; [by apply parse_id3v2_completes|].
  intros [s1 fh1] _. destruct (128 <? filesize s1); [|discriminate].
  apply rbind_completes; [completes|]. intros fh2 _. apply parse_id3v1_completes.
Qed.



(** *** Vorbis comments and pictures *)

Lemma set_comment_field_completes (self : TinyTag) (fieldname value : string) :
  Ogg.set_comment_field self fieldname value <> OutOfFuel.
Proof. unfold Ogg.set_comment_field. completes. Qed.

Lemma parse_image_completes (fh : BinaryIO) : FlacPicture._parse_image fh <> OutOfFuel.
Proof. unfold FlacPicture._parse_image. completes. Qed.

#[local] Hint Resolve set_comment_field_completes parse_image_completes : completes.

Lemma parse_image_moves (fh fh' : BinaryIO) (image : bytes) :
  0 <= io_pos fh ->
  FlacPicture._parse_image fh = Ok (image, fh') -> ahead_by 0 fh fh'.
Proof.
  intros Hp. unfold FlacPicture._parse_image.
  destruct (read 8 fh) as [b1 fh1] eqn:E1.
  pose proof (read_ahead _ _ _ _ Hp E1) as A1.
  destruct (negb _); [discriminate|]. cbv zeta.
  destruct (read _ fh1) as [b2 fh2] eqn:E2.
  pose proof (read_ahead _ _ _ _ (ahead_by_pos 0 _ _ ltac:(lia) A1) E2) as A2.
  destruct (read 4 fh2) as [b3 fh3] eqn:E3.
  pose proof (read_ahead _ _ _ _ (ahead_by_pos 0 _ _ ltac:(lia) A2) E3) as A3.
  intros Hrun. bind_ok Hrun as description_len eqn Ed.
  destruct (read _ fh3) as [b4 fh4] eqn:E4.
  pose proof (read_ahead _ _ _ _ (ahead_by_pos 0 _ _ ltac:(lia) A3) E4) as A4.
  destruct (read 20 fh4) as [b5 fh5] eqn:E5.
  pose proof (read_ahead _ _ _ _ (ahead_by_pos 0 _ _ ltac:(lia) A4) E5) as A5.
  destruct (negb _); [discriminate|]. cbv zeta in Hrun.
  destruct (read _ fh5) as [b6 fh6] eqn:E6.
  pose proof (read_ahead _ _ _ _ (ahead_by_pos 0 _ _ ltac:(lia) A5) E6) as A6.
  injection Hrun as _ <-.
  unfold ahead_by in *. split; [intuition congruence|lia].
Qed.

Lemma comment_element_completes (self : TinyTag) (fh : BinaryIO) :
  Ogg.comment_element self fh <> OutOfFuel.
Proof.
  unfold Ogg.comment_element.
  destruct (read 4 fh) as [b fh1].
  apply rbind_completes; [completes|]. intros len _.
  destruct (read len fh1) as [raw fh2].
  destruct (py_decode "UTF-8" "strict" raw) as [keyvalpair|e|] eqn:E;
    [|destruct e; discriminate|by apply py_decode_completes in E].
  completes.
Qed.

(** an element of the comment list starts with four bytes of length *)
Lemma comment_element_moves (self self' : TinyTag) (fh fh' : BinaryIO) :
  0 <= io_pos fh ->
  Ogg.comment_element self fh = Ok (self', fh') ->
  ahead_by 4 fh fh' /\ io_pos fh + 4 <= io_len fh.
Proof.
  intros Hp. unfold Ogg.comment_element.
  destruct (read 4 fh) as [b fh1] eqn:E1.
  intros Hrun. bind_ok Hrun as len eqn El.
  apply unpack_le_length in El as [L _].
  destruct (read_consumed _ _ _ _ _ Hp E1 L) as [A1 Hroom].
  destruct (read len fh1) as [raw fh2] eqn:E2.
  pose proof (read_ahead _ _ _ _ (ahead_by_pos 4 _ _ ltac:(lia) A1) E2) as A2.
  pose proof (ahead_by_trans _ _ _ _ _ A1 A2) as A.
  assert (Hfh : fh' = fh2).
  { destruct (py_decode "UTF-8" "strict" raw) as [keyvalpair|e|];
      [|destruct e; congruence|discriminate].
    destruct (str_contains "=" keyvalpair); [|congruence].
    destruct (str_partition "=" keyvalpair) as [[key sep] value]. cbv zeta in Hrun.
    destruct (_ && _).
    - bind_ok Hrun as decoded eqn Ed. bind_ok Hrun as [image fhi] eqn Ei. congruence.
    - bind_ok Hrun as s eqn Es. congruence. }
  subst fh'. split; [exact A|apply Hroom; lia].
Qed.

Lemma comments_loop_ends (fuel : nat) :
  forall (elements : Z) (self : TinyTag) (fh : BinaryIO),
    0 <= io_pos fh ->
    (remaining fh < fuel)%nat ->
    Ogg.comments_loop fuel elements self fh <> OutOfFuel.
Proof.
  induction fuel as [|fuel IH]; intros elements self fh Hp Hm; [lia|].
  cbn [Ogg.comments_loop]. destruct (0 <? elements); [|discriminate].
  apply rbind_completes; [apply comment_element_completes|].
  intros [s1 fh1] E.
  destruct (comment_element_moves _ _ _ _ Hp E) as [A Hroom].
  apply IH; [exact (ahead_by_pos 4 _ _ ltac:(lia) A)|].
  pose proof (ahead_by_remaining 4 _ _ ltac:(lia) A Hroom). lia.
Qed.

Lemma comments_loop_moves (fuel : nat) :
  forall (elements : Z) (self self' : TinyTag) (fh fh' : BinaryIO),
    0 <= io_pos fh ->
    Ogg.comments_loop fuel elements self fh = Ok (self', fh') ->
    ahead_by 0 fh fh'.
Proof.
  induction fuel as [|fuel IH]; intros elements self self' fh fh' Hp Hrun; [discriminate|].
  cbn [Ogg.comments_loop] in Hrun.
  destruct (0 <? elements); [|injection Hrun as _ <-; by apply ahead_by_refl].
  bind_ok Hrun as [s1 fh1] eqn E.
  destruct (comment_element_moves _ _ _ _ Hp E) as [A _].
  pose proof (IH _ _ _ _ _ (ahead_by_pos 4 _ _ ltac:(lia) A) Hrun) as A'.
  exact (ahead_by_weaken (4 + 0) 0 _ _ ltac:(lia) (ahead_by_trans _ _ _ _ _ A A')).
Qed.

(** the start of [_parse_vorbis_comment], up to the loop *)
Lemma vorbis_comment_start (fh fh1 fh2 : BinaryIO) (b : bytes) (contains_vendor : bool) :
  0 <= io_pos fh ->
  (if contains_vendor then
     let '(b, fh) := read 4 fh in
     let? vendor_length := unpack_le 4 b in seek_cur vendor_length fh
   else Ok fh) = Ok fh1 ->
  read 4 fh1 = (b, fh2) ->
  ahead_by 0 fh fh2.
Proof.
  intros Hp Hv E2.
  assert (A1 : ahead_by 0 fh fh1).
  { destruct contains_vendor; [|injection Hv as <-; by apply ahead_by_refl].
    destruct (read 4 fh) as [b0 fh0] eqn:E0.
    pose proof (read_ahead _ _ _ _ Hp E0) as A0.
    bind_ok Hv as vendor_length eqn El. apply unpack_le_length in El as [_ Hl].
    pose proof (seek_cur_ahead _ _ _ (ahead_by_pos 0 _ _ ltac:(lia) A0) Hl Hv) as A.
    exact (ahead_by_weaken (0 + vendor_length) 0 _ _ ltac:(lia) (ahead_by_trans _ _ _ _ _ A0 A)). }
  pose proof (read_ahead _ _ _ _ (ahead_by_pos 0 _ _ ltac:(lia) A1) E2) as A2.
  exact (ahead_by_trans 0 0 _ _ _ A1 A2).
Qed.

Lemma parse_vorbis_comment_completes (self : TinyTag) (fh : BinaryIO) (contains_vendor : bool) :
  0 <= io_pos fh -> Ogg._parse_vorbis_comment self fh contains_vendor <> OutOfFuel.
Proof.
  intros Hp. unfold Ogg._parse_vorbis_comment.
  apply rbind_completes; [completes|]. intros fh1 Hv.
  destruct (read 4 fh1) as [b fh2] eqn:E2.
  pose proof (vorbis_comment_start _ _ _ _ _ Hp Hv E2) as A.
  apply rbind_completes; [completes|]. intros elements _.
  apply comments_loop_ends; [exact (ahead_by_pos 0 _ _ ltac:(lia) A)|].
  pose proof (remaining_le_data fh2). lia.
Qed.

Lemma parse_vorbis_comment_moves (self self' : TinyTag) (fh fh' : BinaryIO)
      (contains_vendor : bool) :
  0 <= io_pos fh ->
  Ogg._parse_vorbis_comment self fh contains_vendor = Ok (self', fh') ->
  ahead_by 0 fh fh'.
Proof.
  intros Hp. unfold Ogg._parse_vorbis_comment. intros Hrun.
  bind_ok Hrun as fh1 eqn Hv.
  destruct (read 4 fh1) as [b fh2] eqn:E2.
  pose proof (vorbis_comment_start _ _ _ _ _ Hp Hv E2) as A.
  bind_ok Hrun as elements eqn Ee.
  pose proof (comments_loop_moves _ _ _ _ _ _ (ahead_by_pos 0 _ _ ltac:(lia) A) Hrun) as A'.
  exact (ahead_by_trans 0 0 _ _ _ A A').
Qed.

(** *** FLAC: the metadata blocks *)

Lemma streaminfo_completes (self : TinyTag) (b : bytes) : Flac.streaminfo self b <> OutOfFuel.
Proof. unfold Flac.streaminfo. completes. Qed.

#[local] Hint Resolve streaminfo_completes : completes.

Lemma block_completes (self : TinyTag) (fh : BinaryIO) (header_data : bytes) :
  0 <= io_pos fh -> Flac.block self fh header_data <> OutOfFuel.
Proof.
  intros Hp. unfold Flac.block. cbv zeta.
  apply rbind_completes; [|intros [s f|s f] _; completes].
  destruct (_ && _); [completes|].
  destruct (_ && _).
  { apply rbind_completes; [by apply parse_vorbis_comment_completes|].
    intros [oggtag fh1] _. completes. }
  completes.
Qed.

(** a block leaves the stream further on *)
Lemma block_moves (self : TinyTag) (fh : BinaryIO) (header_data : bytes) (r : Flac.round) :
  0 <= io_pos fh ->
  Flac.block self fh header_data = Ok r ->
  ahead_by 0 fh match r with Flac.Break _ fh' | Flac.Next _ fh' => fh' end.
Proof.
  intros Hp. unfold Flac.block. cbv zeta. intros Hrun.
  bind_ok Hrun as r0 eqn E0.
  assert (A : ahead_by 0 fh match r0 with Flac.Break _ fh' | Flac.Next _ fh' => fh' end).
  { destruct (_ && _).
    { destruct (read _ fh) as [b fh1] eqn:E1.
      pose proof (read_ahead _ _ _ _ Hp E1) as A1.
      destruct (_ <? _)%nat; [by injection E0 as <-|].
      bind_ok E0 as s eqn Es. by injection E0 as <-. }
    destruct (_ && _).
    { bind_ok E0 as [oggtag fh1] eqn Ev.
      pose proof (parse_vorbis_comment_moves _ _ _ _ _ Hp Ev) as A1.
      bind_ok E0 as s eqn Es. by injection E0 as <-. }
    destruct (_ && _).
    { bind_ok E0 as [image fh1] eqn Ei.
      pose proof (parse_image_moves _ _ _ Hp Ei) as A1. by injection E0 as <-. }
    destruct (127 <=? _); [injection E0 as <-; by apply ahead_by_refl|].
    bind_ok E0 as fh1 eqn Es. injection E0 as <-.
    assert (Hsize : 0 <= _bytes_to_int (slice 1 4 (byte_val <$> header_data))).
    { apply bytes_to_int_nonneg. unfold slice.
      apply Forall_take, Forall_drop, byte_vals_nonneg. }
    exact (ahead_by_weaken _ 0 _ _ Hsize (seek_cur_ahead _ _ _ Hp Hsize Es)). }
  destruct r0 as [s f|s f]; [by injection Hrun as <-|].
  destruct (negb _); by injection Hrun as <-.
Qed.

Lemma blocks_loop_ends (fuel : nat) :
  forall (self : TinyTag) (fh : BinaryIO) (header_data : bytes),
    0 <= io_pos fh ->
    (1 <= fuel)%nat ->
    (length header_data = 4%nat -> (remaining fh + 4 < fuel)%nat) ->
    Flac.blocks_loop fuel self fh header_data <> OutOfFuel.
Proof.
  induction fuel as [|fuel IH]; intros self fh header_data Hp Hf Hm; [lia|].
  cbn [Flac.blocks_loop].
  destruct (Nat.eqb_spec (length header_data) 4) as [L|_]; cbn [negb]; [|discriminate].
  specialize (Hm L).
  apply rbind_completes; [by apply block_completes|].
  intros r E. pose proof (block_moves _ _ _ _ Hp E) as A.
  destruct r as [s f|s f]; [discriminate|].
  destruct (read 4 f) as [header_data' fh'] eqn:Er.
  pose proof (ahead_remaining _ _ A) as Hrem.
  pose proof (ahead_by_pos 0 _ _ ltac:(lia) A) as Hpf.
  apply IH; [exact (ahead_by_pos 0 _ _ ltac:(lia) (read_ahead _ _ _ _ Hpf Er))|lia|].
  intros L'. destruct (read_consumed _ _ _ _ _ Hpf Er L') as [A4 Hroom].
  pose proof (ahead_by_remaining 4 _ _ ltac:(lia) A4 (Hroom ltac:(lia))). lia.
Qed.

Lemma leading_id3_completes (self : TinyTag) (fh : BinaryIO) :
  0 <= io_pos fh -> Flac.leading_id3 self fh <> OutOfFuel.
Proof.
  intros Hp. unfold Flac.leading_id3.
  destruct (read 4 fh) as [header fh1] eqn:E1.
  apply rbind_completes; [|intros [[id3 h] f] _; completes].
  destruct (bytes_eqb _ _); [|discriminate].
  apply rbind_completes; [completes|]. intros fh2 Es.
  destruct (seek_cur_moves _ _ _ Es) as [_ P2].
  apply rbind_completes; [apply parse_id3v2_completes; lia|].
  intros [id3 fh3] _. completes.
Qed.

Lemma leading_id3_moves (self : TinyTag) (fh fh' : BinaryIO) (id3 : option TinyTag) :
  0 <= io_pos fh -> Flac.leading_id3 self fh = Ok (id3, fh') -> 0 <= io_pos fh'.
Proof.
  intros Hp. unfold Flac.leading_id3.
  destruct (read 4 fh) as [header fh1] eqn:E1.
  pose proof (read_ahead _ _ _ _ Hp E1) as A1.
  intros Hrun. bind_ok Hrun as [[i h] f] eqn E.
  assert (Hf : 0 <= io_pos f).
  { destruct (bytes_eqb _ _); [|injection E as _ _ <-; exact (ahead_by_pos 0 _ _ ltac:(lia) A1)].
    bind_ok E as fh2 eqn Es. destruct (seek_cur_moves _ _ _ Es) as [_ P2].
    bind_ok E as [id fh3] eqn Ep.
    destruct (parse_id3v2_moves _ _ fh2 _ ltac:(lia) Ep) as [_ A3].
    destruct (read 4 fh3) as [h4 fh4] eqn:E4. injection E as _ _ <-.
    exact (ahead_by_pos 0 _ _ ltac:(lia)
             (read_ahead _ _ _ _ (ahead_by_pos 10 _ _ ltac:(lia) A3) E4)). }
  destruct (negb _); [discriminate|]. by injection Hrun as _ <-.
Qed.

Lemma finish_completes (self : TinyTag) (id3 : option TinyTag) :
  Flac.finish self id3 <> OutOfFuel.
Proof. unfold Flac.finish. completes. Qed.

#[local] Hint Resolve finish_completes : completes.

(** X19: parsing the tags of a FLAC stream always comes to an end: the
    leading ID3v2 tag, the metadata blocks and the Vorbis comments all
    consume the stream, so [_parse_tag] returns or raises on every
    stream (a run-time whose codecs return or raise is all that is
    asked for). *)
Theorem flac_parse_tag_completes (self : TinyTag) (fh : BinaryIO) :
  0 <= io_pos fh -> Flac._parse_tag self fh <> OutOfFuel.
Proof.
  intros Hp. unfold Flac._parse_tag.
  apply rbind_completes; [by apply leading_id3_completes|].
  intros [id3 fh1] E. pose proof (leading_id3_moves _ _ _ _ Hp E) as P1. cbv zeta.
  destruct (read 4 fh1) as [header_data fh2] eqn:Er.
  apply rbind_completes; [|intros [s f] _; completes].
  apply blocks_loop_ends;
    [exact (ahead_by_pos 0 _ _ ltac:(lia) (read_ahead _ _ _ _ P1 Er))|lia|].
  intros L. destruct (read_consumed _ _ _ _ _ P1 Er L) as [A4 Hroom].
  pose proof (ahead_by_remaining 4 _ _ ltac:(lia) A4 (Hroom ltac:(lia))).
  pose proof (remaining_le_data fh1). lia.
Qed.

(** *** WAV: the chunks *)

Lemma py_truediv_completes (what : string) (x y : pyval) :
  Wave.py_truediv what x y <> OutOfFuel.
Proof. unfold Wave.py_truediv. completes. Qed.

#[local] Hint Resolve py_truediv_completes : completes.

Lemma data_duration_completes (subchunksize : Z) (channels samplerate bitdepth : pyval) :
  Wave.data_duration subchunksize channels samplerate bitdepth <> OutOfFuel.
Proof. unfold Wave.data_duration. completes. Qed.

#[local] Hint Resolve data_duration_completes : completes.

Lemma fmt_chunk_completes (self : TinyTag) (fh : BinaryIO) (subchunksize : Z) :
  Wave.fmt_chunk self fh subchunksize <> OutOfFuel.
Proof. unfold Wave.fmt_chunk. completes. Qed.

Lemma data_chunk_completes (self : TinyTag) (fh : BinaryIO) (subchunksize : Z) :
  Wave.data_chunk self fh subchunksize <> OutOfFuel.
Proof. unfold Wave.data_chunk. completes. Qed.

Lemma fmt_chunk_moves (self self' : TinyTag) (fh fh' : BinaryIO) (subchunksize : Z) :
  0 <= io_pos fh ->
  Wave.fmt_chunk self fh subchunksize = Ok (self', fh') -> ahead_by 0 fh fh'.
Proof.
  intros Hp. unfold Wave.fmt_chunk.
  destruct (read 8 fh) as [b1 fh1] eqn:E1.
  pose proof (read_ahead _ _ _ _ Hp E1) as A1.
  destruct (negb _); [discriminate|]. cbv zeta.
  destruct (read 8 fh1) as [b2 fh2] eqn:E2.
  pose proof (read_ahead _ _ _ _ (ahead_by_pos 0 _ _ ltac:(lia) A1) E2) as A2.
  pose proof (ahead_by_trans 0 0 _ _ _ A1 A2) as A.
  destruct (negb _); [discriminate|].
  intros Hrun. bind_ok Hrun as fh3 eqn Es. injection Hrun as _ <-.
  destruct (Z.ltb_spec 0 (subchunksize - 16)) as [Hr|_]; [|by injection Es as <-].
  pose proof (seek_cur_ahead (subchunksize - 16) _ _ (ahead_by_pos 0 _ _ ltac:(lia) A)
                              ltac:(lia) Es) as A3.
  exact (ahead_by_weaken (0 + (subchunksize - 16)) 0 _ _ ltac:(lia)
           (ahead_by_trans _ _ _ _ _ A A3)).
Qed.

Lemma data_chunk_moves (self self' : TinyTag) (fh fh' : BinaryIO) (subchunksize : Z) :
  0 <= io_pos fh -> 0 <= subchunksize ->
  Wave.data_chunk self fh subchunksize = Ok (self', fh') -> ahead_by 0 fh fh'.
Proof.
  intros Hp Hs. unfold Wave.data_chunk. intros Hrun.
  bind_ok Hrun as s eqn E. bind_ok Hrun as fh1 eqn Es. injection Hrun as _ <-.
  exact (ahead_by_weaken _ 0 _ _ Hs (seek_cur_ahead _ _ _ Hp Hs Es)).
Qed.

Lemma info_loop_ends (fuel : nat) :
  forall (self : TinyTag) (sub_fh : BinaryIO) (field : bytes),
    0 <= io_pos sub_fh ->
    (1 <= fuel)%nat ->
    (length field = 4%nat -> (remaining sub_fh + 4 < fuel)%nat) ->
    Wave.info_loop fuel self sub_fh field <> OutOfFuel.
Proof.
  induction fuel as [|fuel IH]; intros self sub_fh field Hp Hf Hm; [lia|].
  cbn [Wave.info_loop].
  destruct (Nat.eqb_spec (length field) 4) as [L|_]; cbn [negb]; [|discriminate].
  specialize (Hm L).
  destruct (read 4 sub_fh) as [b fh1] eqn:E1.
  pose proof (read_ahead _ _ _ _ Hp E1) as A1.
  apply rbind_completes; [completes|]. intros data_length _. cbv zeta.
  destruct (read _ fh1) as [raw fh2] eqn:E2.
  pose proof (read_ahead _ _ _ _ (ahead_by_pos 0 _ _ ltac:(lia) A1) E2) as A2.
  pose proof (ahead_by_trans 0 0 _ _ _ A1 A2) as A.
  apply rbind_completes; [completes|]. intros s _.
  destruct (read 4 fh2) as [field' fh3] eqn:E3.
  pose proof (ahead_by_pos 0 _ _ ltac:(lia) A) as P2.
  pose proof (ahead_remaining _ _ A) as Hrem.
  apply IH; [exact (ahead_by_pos 0 _ _ ltac:(lia) (read_ahead _ _ _ _ P2 E3))|lia|].
  intros L'. destruct (read_consumed _ _ _ _ _ P2 E3 L') as [A4 Hroom].
  pose proof (ahead_by_remaining 4 _ _ ltac:(lia) A4 (Hroom ltac:(lia))). lia.
Qed.

Lemma list_chunk_completes (self : TinyTag) (fh : BinaryIO) (subchunksize : Z) :
  Wave.list_chunk self fh subchunksize <> OutOfFuel.
Proof.
  unfold Wave.list_chunk.
  destruct (read 4 fh) as [is_info fh1]. destruct (negb _); [completes|].
  apply rbind_completes; [apply read_count_completes|]. intros [d fh2] _. cbv zeta.
  destruct (read 4 (BytesIO d)) as [field sub_fh] eqn:E.
  apply rbind_completes; [|discriminate].
  assert (Hp : 0 <= io_pos (BytesIO d)) by (cbn; lia).
  apply info_loop_ends;
    [exact (ahead_by_pos 0 _ _ ltac:(lia) (read_ahead _ _ _ _ Hp E))|lia|].
  intros L. destruct (read_consumed _ _ _ _ _ Hp E L) as [A4 Hroom].
  pose proof (ahead_by_remaining 4 _ _ ltac:(lia) A4 (Hroom ltac:(lia))).
  pose proof (remaining_le_data (BytesIO d)). cbn [io_data BytesIO] in *. lia.
Qed.

(** a read that returns fewer bytes than were asked for ends at the end
    of the stream, or beyond *)
Lemma read_short (n : Z) (w w' : BinaryIO) (b : bytes) :
  0 <= io_pos w ->
  read n w = (b, w') ->
  Z.of_nat (length b) < n ->
  io_len w <= io_pos w'.
Proof.
  intros Hp E Hshort. destruct (read_moves _ _ _ _ E) as [_ P].
  pose proof (io_rest_length w Hp) as Hrest.
  revert E. unfold read. destruct (Z.ltb_spec n 0); [lia|].
  intros [= E _]. rewrite <- E, ztake_take, length_take in Hshort.
  rewrite <- E, ztake_take, length_take in P. lia.
Qed.

(** the [LIST] chunk is the one that may step back: by fewer than four
    bytes, from the end of the stream *)
Lemma list_chunk_moves (self self' : TinyTag) (fh fh' : BinaryIO) (subchunksize : Z) :
  0 <= io_pos fh -> 0 <= subchunksize ->
  Wave.list_chunk self fh subchunksize = Ok (self', fh') ->
  io_data fh' = io_data fh /\ 0 <= io_pos fh' /\
  (io_pos fh <= io_pos fh' \/ io_len fh - 4 <= io_pos fh').
Proof.
  intros Hp Hs. unfold Wave.list_chunk.
  destruct (read 4 fh) as [is_info fh1] eqn:E1.
  destruct (read_moves _ _ _ _ E1) as [D1 P1].
  destruct (negb _); intros Hrun.
  - bind_ok Hrun as fh2 eqn Es. injection Hrun as _ <-.
    destruct (seek_cur_moves _ _ _ Es) as [D2 P2].
    split; [congruence|]. split; [lia|].
    destruct (Z.lt_ge_cases (Z.of_nat (length is_info)) 4) as [Hshort|Hfull]; [|lia].
    pose proof (read_short _ _ _ _ Hp E1 Hshort). lia.
  - bind_ok Hrun as [d fh2] eqn Ec.
    pose proof (read_count_ok _ _ _ _ Ec) as E2.
    destruct (read_moves _ _ _ _ E2) as [D2 P2]. cbv zeta in Hrun.
    destruct (read 4 (BytesIO d)) as [field sub_fh].
    bind_ok Hrun as s eqn E. injection Hrun as _ <-.
    split; [congruence|lia].
Qed.

Lemma id3_chunk_completes (self : TinyTag) (fh : BinaryIO) :
  0 <= io_pos fh -> Wave.id3_chunk self fh <> OutOfFuel.
Proof.
  intros Hp. unfold Wave.id3_chunk. cbv zeta.
  apply rbind_completes; [by apply id3_parse_tag_completes|].
  intros [id3 fh1] _. completes.
Qed.

(** the [_ID3] object of the [id3 ] chunk has no file size, so only the
    ID3v2 tag is read *)
Lemma id3_chunk_moves (self self' : TinyTag) (fh fh' : BinaryIO) :
  0 <= io_pos fh ->
  Wave.id3_chunk self fh = Ok (self', fh') -> ahead_by 0 fh fh'.
Proof.
  intros Hp. unfold Wave.id3_chunk, ID3._parse_tag. cbv zeta. intros Hrun.
  bind_ok Hrun as [id3 fh1] eqn E. bind_ok Hrun as s eqn Eu. injection Hrun as _ <-.
  bind_ok E as [s1 fh2] eqn Ep.
  destruct (parse_id3v2_moves _ _ _ _ Hp Ep) as [F A].
  change (filesize (with_flags TinyTag_init true false (_load_image self))) with 0 in F.
  rewrite F in E. cbn in E. injection E as _ <-.
  exact (ahead_by_weaken 10 0 _ _ ltac:(lia) A).
Qed.

Lemma chunk_completes (self : TinyTag) (fh : BinaryIO) (chunk_header : bytes) :
  0 <= io_pos fh -> Wave.chunk self fh chunk_header <> OutOfFuel.
Proof.
  intros Hp. unfold Wave.chunk. cbv zeta.
  destruct (bytes_eqb _ _); [apply fmt_chunk_completes|].
  destruct (bytes_eqb _ _); [apply data_chunk_completes|].
  destruct (_ && _); [apply list_chunk_completes|].
  destruct (_ && _); [by apply id3_chunk_completes|].
  completes.
Qed.

Lemma chunk_moves (self self' : TinyTag) (fh fh' : BinaryIO) (chunk_header : bytes) :
  0 <= io_pos fh ->
  Wave.chunk self fh chunk_header = Ok (self', fh') ->
  io_data fh' = io_data fh /\ 0 <= io_pos fh' /\
  (io_pos fh <= io_pos fh' \/ io_len fh - 4 <= io_pos fh').
Proof.
  intros Hp. unfold Wave.chunk. cbv zeta.
  set (size := le_uint (drop 4 chunk_header)).
  assert (Hsize : 0 <= size + size mod 2).
  { pose proof (le_uint_nonneg (drop 4 chunk_header)).
    pose proof (Z.mod_pos_bound size 2). lia. }
  assert (Hahead : forall fh', ahead_by 0 fh fh' ->
            io_data fh' = io_data fh /\ 0 <= io_pos fh' /\
            (io_pos fh <= io_pos fh' \/ io_len fh - 4 <= io_pos fh')).
  { unfold ahead_by. intros f (D & P & Q). split; [done|lia]. }
  destruct (bytes_eqb _ _); [intros E; by apply Hahead, (fmt_chunk_moves _ _ _ _ _ Hp E)|].
  destruct (bytes_eqb _ _);
    [intros E; by apply Hahead, (data_chunk_moves _ _ _ _ _ Hp Hsize E)|].
  destruct (_ && _); [by apply list_chunk_moves|].
  destruct (_ && _); [intros E; by apply Hahead, (id3_chunk_moves _ _ _ _ Hp E)|].
  intros Hrun. bind_ok Hrun as fh1 eqn Es. injection Hrun as _ <-.
  apply Hahead. exact (ahead_by_weaken _ 0 _ _ Hsize (seek_cur_ahead _ _ _ Hp Hsize Es)).
Qed.

Lemma chunks_loop_ends (fuel : nat) :
  forall (self : TinyTag) (fh : BinaryIO) (chunk_header : bytes),
    0 <= io_pos fh ->
    (1 <= fuel)%nat ->
    (length chunk_header = 8%nat -> (remaining fh + 8 < fuel)%nat) ->
    Wave.chunks_loop fuel self fh chunk_header <> OutOfFuel.
Proof.
  induction fuel as [|fuel IH]; intros self fh chunk_header Hp Hf Hm; [lia|].
  cbn [Wave.chunks_loop].
  destruct (Nat.eqb_spec (length chunk_header) 8) as [L|_]; cbn [negb]; [|discriminate].
  specialize (Hm L).
  apply rbind_completes; [by apply chunk_completes|].
  intros [s1 fh1] E. destruct (chunk_moves _ _ _ _ _ Hp E) as (D1 & P1 & Hmove).
  destruct (read 8 fh1) as [chunk_header' fh2] eqn:Er.
  apply IH; [exact (ahead_by_pos 0 _ _ ltac:(lia) (read_ahead _ _ _ _ P1 Er))|lia|].
  intros L'. destruct (read_consumed _ _ _ _ _ P1 Er L') as [A8 Hroom].
  pose proof (ahead_by_remaining 8 _ _ ltac:(lia) A8 (Hroom ltac:(lia))) as H8.
  specialize (Hroom ltac:(lia)).
  unfold remaining in *.
  pose proof (io_rest_length fh Hp). pose proof (io_rest_length fh1 P1).
  unfold io_len in *. rewrite D1 in *. lia.
Qed.

(** X22: parsing the chunks of a WAV stream always comes to an end: every
    chunk, every sub-chunk of a [LIST] chunk and an embedded ID3 tag
    consume the stream, so [_parse_tag] returns or raises on every
    stream (a run-time whose codecs return or raise is all that is
    asked for). *)
Theorem wav_parse_tag_completes (self : TinyTag) (fh : BinaryIO) :
  0 <= io_pos fh -> Wave._parse_tag self fh <> OutOfFuel.
Proof.
  intros Hp. unfold Wave._parse_tag. cbv zeta.
  destruct (read 12 fh) as [b fh1] eqn:E1.
  pose proof (read_ahead _ _ _ _ Hp E1) as A1.
  destruct (negb _); [discriminate|]. destruct (_ || _); [discriminate|].
  destruct (read 8 fh1) as [chunk_header fh2] eqn:E2.
  pose proof (ahead_by_pos 0 _ _ ltac:(lia) A1) as P1.
  apply rbind_completes; [|intros [s f] _; discriminate].
  apply chunks_loop_ends;
    [exact (ahead_by_pos 0 _ _ ltac:(lia) (read_ahead _ _ _ _ P1 E2))|lia|].
  intros L. destruct (read_consumed _ _ _ _ _ P1 E2 L) as [A8 Hroom].
  pose proof (ahead_by_remaining 8 _ _ ltac:(lia) A8 (Hroom ltac:(lia))).
  pose proof (ahead_remaining _ _ A1). pose proof (remaining_le_data fh). lia.
Qed.

End Completes.

(** the run-time of the sample runs is one that returns or raises *)
Lemma ascii_runtime_completes : runtime_completes Samples.ascii_runtime.
Proof.
  split.
  - intros encoding errors b. cbn. by destruct (_ && _).
  - intros s. cbn. discriminate.
Qed.

Lemma flac_parse_tag_completes_sample :
  Flac._parse_tag (R := Samples.ascii_runtime) TinyTag_init
                  (file_on_disk Samples.flac_with_id3) <> OutOfFuel.
Proof.
  apply flac_parse_tag_completes; [apply ascii_runtime_completes|cbn; lia].
Defined.

Lemma wav_parse_tag_completes_sample :
  Wave._parse_tag (R := Samples.ascii_runtime) TinyTag_init
                  (file_on_disk Samples.wav_zero_bitdepth) <> OutOfFuel.
Proof.
  apply wav_parse_tag_completes; [apply ascii_runtime_completes|cbn; lia].
Defined.

Lemma mp4_determine_duration_completes_sample :
  MP4._determine_duration TinyTag_init (file_on_disk Samples.tagged_mp4_zero_time_scale)
  <> OutOfFuel.
Proof. apply mp4_determine_duration_completes. cbn. lia. Defined.

(** * Further properties

    What the code does beyond the statements above: the accumulator,
    the choice of the parser, the ID3 tags, what the tag parsers leave
    alone, the leaves of the MP4 tree, the segments of an Ogg page, the
    pictures of FLAC, and WMA. *)

(** ** The accumulator: [_set_field] and [_update] *)

Lemma set_field_settings (self self' : TinyTag) (name : string) (v : pyval) :
  _set_field self name v = Ok self' -> settings self' = settings self.
Proof.
  unfold _set_field. destruct (_ && _); [by intros [= <-]|]. cbv zeta.
  intros Hrun. bind_ok Hrun as x eqn E. injection Hrun as <-.
  by destruct (String.prefix _ _).
Qed.

(** X1: the only failure of [_set_field] is the [TypeError] of
    [old_value + '\x00' + value]: it is raised exactly when a string that
    is not empty is written over a value that is truthy and not a string
    (a number, or bytes); every other write succeeds. *)
Theorem set_field_fails_only_on_mixed_types (self : TinyTag) (name : string) (value : pyval) :
  ~ In name private_attributes ->
  let old := lookup_field self name in
  let clash := exists s, value = VStr s /\ s <> "" /\
                         truthy old = true /\ is_str old = false in
  (clash -> _set_field self name value = Raise TypeError) /\
  (~ clash -> exists self', _set_field self name value = Ok self').
Proof.
  intros _ old clash. subst clash old. unfold _set_field, lookup_field, attr.
  split.
  - intros (s & -> & Hs & Ht & Hstr). apply truthy_VStr in Hs as Hts.
    rewrite Hts. cbn [is_str negb andb]. cbv zeta.
    destruct (String.prefix "extra." name); rewrite Ht;
      match goal with
      | H : is_str ?o = false |- context [match ?o with _ => _ end] =>
          destruct o; try discriminate H; reflexivity
      end.
  - intros Hno. destruct (is_str value && negb (truthy value)) eqn:Hempty; [by eexists|].
    cbv zeta.
    destruct value as [|s|z|f|b]; cbn [rbind]; try (by eexists).
    cbn [is_str andb] in Hempty. apply negb_false_iff in Hempty.
    apply truthy_VStr in Hempty as Hs.
    destruct (String.prefix "extra." name);
      match goal with
      | |- context [truthy ?o] =>
          destruct (truthy o) eqn:Ht; [|by eexists];
          destruct o as [|old'| | |] eqn:Ho;
          try (exfalso; apply Hno; exists s; rewrite ?Ho; by repeat split);
          destruct (String.eqb old' s); by eexists
      end.
Qed.

Lemma set_field_fails_only_on_mixed_types_witness :
  _set_field (set_attr TinyTag_init "track" (VInt 5)) "track" (VStr "7") = Raise TypeError.
Proof.
  apply (set_field_fails_only_on_mixed_types (set_attr TinyTag_init "track" (VInt 5))
                                             "track" (VStr "7")).
  - cbn. intuition discriminate.
  - exists "7". repeat split; [discriminate|vm_compute; reflexivity..].
Defined.

(** X2: a write through [_set_field] touches one slot only.  A name that
    starts with [extra.] leaves the instance dictionary alone and changes
    no other key of [extra]; any other name leaves [extra] alone and
    changes no other attribute; the file size and the flags of the
    object stay as they are. *)
Theorem set_field_touches_one_slot (self self' : TinyTag) (name : string) (value : pyval) :
  ~ In name private_attributes ->
  _set_field self name value = Ok self' ->
  settings self' = settings self /\
  (String.prefix "extra." name = true ->
   attrs self' = attrs self /\
   forall k, k <> str_drop 6 name -> extra self' !! k = extra self !! k) /\
  (String.prefix "extra." name = false ->
   extra self' = extra self /\
   forall k, k <> name -> attrs self' !! k = attrs self !! k).
Proof.
  intros _ Hrun. split; [by eapply set_field_settings|].
  revert Hrun. unfold _set_field.
  destruct (_ && _); [intros [= <-]; by repeat split|]. cbv zeta.
  intros Hrun. bind_ok Hrun as x eqn E. injection Hrun as <-.
  destruct (String.prefix "extra." name); split; try discriminate; intros _;
    (split; [reflexivity|]); intros k Hk; cbn; by rewrite lookup_insert_ne.
Qed.

Lemma set_field_touches_one_slot_witness :
  exists self',
    _set_field (set_attr TinyTag_init "album" (VStr "B")) "extra.isrc" (VStr "X") = Ok self' /\
    attrs self' = attrs (set_attr TinyTag_init "album" (VStr "B")).
Proof.
  eassert (Hrun : _set_field (set_attr TinyTag_init "album" (VStr "B")) "extra.isrc" (VStr "X")
                  = Ok _) by (vm_compute; reflexivity).
  eexists. split; [exact Hrun|].
  assert (Hname : ~ In "extra.isrc" private_attributes) by (cbn; intuition discriminate).
  destruct (set_field_touches_one_slot _ _ _ _ Hname Hrun) as (_ & Hextra & _).
  by apply Hextra.
Defined.

(** X3: writing the value a field already holds changes nothing: after a
    first write into a slot that was empty, or of a value that is not a
    string, a second write of the same value returns the same object.
    (After a concatenation it does not: the string is appended again.) *)
Theorem set_field_twice (self s1 : TinyTag) (name : string) (value : pyval) :
  ~ In name private_attributes ->
  truthy (lookup_field self name) = false \/ is_str value = false ->
  _set_field self name value = Ok s1 ->
  _set_field s1 name value = Ok s1.
Proof.
  intros _ Hcase. unfold _set_field. unfold lookup_field, attr in Hcase.
  set (key := str_drop 6 name) in *.
  destruct (is_str value && negb (truthy value)) eqn:Hempty; [by intros [= <-]|].
  cbv zeta. intros Hrun. bind_ok Hrun as x eqn E. injection Hrun as <-.
  assert (Hx : x = value).
  { destruct value as [|s|z|f|b]; try (by injection E as <-).
    destruct Hcase as [Hold|Hstr]; [|discriminate Hstr].
    destruct (String.prefix "extra." name); rewrite Hold in E; by injection E as <-. }
  subst x. clear E Hcase.
  assert (Hagain : forall old : pyval,
             old = value ->
             match value with
             | VStr new =>
                 if truthy old
                 then match old with
                      | VStr o => if String.eqb o new then Ok value
                                  else Ok (VStr (String.append o (String.append NUL new)))
                      | _ => Raise TypeError
                      end
                 else Ok value
             | _ => Ok value
             end = Ok value).
  { intros old ->. destruct value as [|s|z|f|b]; try reflexivity.
    rewrite String.eqb_refl. by destruct (truthy (VStr s)). }
  destruct (String.prefix "extra." name).
  - cbn [extra with_extra]. rewrite lookup_insert_eq.
    rewrite (Hagain (default VNone (Some value)) eq_refl). cbn [rbind]. unfold with_extra.
    cbn [attrs extra filesize _default_encoding _parse_tags _parse_duration _load_image
         _tags_parsed _ignore_errors _bytepos_after_id3v2 _max_samplenum].
    by rewrite insert_insert_eq.
  - cbn [attrs with_attrs]. rewrite lookup_insert_eq.
    rewrite (Hagain (default VNone (Some value)) eq_refl). cbn [rbind]. unfold with_attrs.
    cbn [attrs extra filesize _default_encoding _parse_tags _parse_duration _load_image
         _tags_parsed _ignore_errors _bytepos_after_id3v2 _max_samplenum].
    by rewrite insert_insert_eq.
Qed.

Lemma set_field_twice_witness :
  exists s1,
    _set_field TinyTag_init "title" (VStr "A") = Ok s1 /\
    _set_field s1 "title" (VStr "A") = Ok s1.
Proof.
  eassert (Hrun : _set_field TinyTag_init "title" (VStr "A") = Ok _)
    by (vm_compute; reflexivity).
  eexists. split; [exact Hrun|].
  apply (set_field_twice TinyTag_init _ "title" (VStr "A")); [|by left|exact Hrun].
  cbn. intuition discriminate.
Defined.

Lemma fold_update_key_settings (other : TinyTag) (keys : list string) :
  forall self self',
    fold_left (update_key other) keys (Ok self) = Ok self' ->
    settings self' = settings self /\
    (Forall (fun k => String.prefix "extra." k = false) keys -> extra self' = extra self).
Proof.
  induction keys as [|k keys IH]; intros self self' Hfold; [by injection Hfold as <-|].
  cbn [fold_left] in Hfold. unfold update_key at 2 in Hfold. cbn [rbind] in Hfold.
  destruct (truthy (attr other k)).
  - destruct (_set_field self k (attr other k)) as [s1|e|] eqn:Hset.
    + destruct (IH _ _ Hfold) as [Hs He].
      rewrite Hs, (set_field_settings _ _ _ _ Hset). split; [done|].
      intros Hall. apply Forall_cons in Hall as [Hk Hall]. rewrite (He Hall).
      revert Hset. unfold _set_field. destruct (_ && _); [by intros [= <-]|].
      cbv zeta. rewrite Hk. intros Hrun. bind_ok Hrun as x eqn E. by injection Hrun as <-.
    + by rewrite fold_update_key_raise in Hfold.
    + by rewrite fold_update_key_out_of_fuel in Hfold.
  - destruct (IH _ _ Hfold) as [Hs He]. split; [done|].
    intros Hall. apply Forall_cons in Hall as [_ Hall]. by apply He.
Qed.

Lemma update_extras_settings (base : result TinyTag) (m : gmap string pyval) (self' : TinyTag) :
  map_fold update_extra base m = Ok self' ->
  exists self0, base = Ok self0 /\ settings self' = settings self0.
Proof.
  revert self'.
  apply (map_fold_weak_ind
           (fun r (_ : gmap string pyval) =>
              forall self', r = Ok self' ->
                            exists self0, base = Ok self0 /\ settings self' = settings self0)).
  - intros self' ->. by exists self'.
  - intros key value m' r _ IH self' Hstep.
    unfold update_extra in Hstep.
    destruct r as [s1|e|]; try discriminate Hstep. cbn [rbind] in Hstep.
    destruct (IH s1 eq_refl) as (self0 & Hbase & Hs).
    exists self0. split; [exact Hbase|].
    by rewrite (set_field_settings _ _ _ _ Hstep).
Qed.

Lemma update_settings (self other self' : TinyTag) :
  _update self other = Ok self' -> settings self' = settings self.
Proof.
  unfold _update. intros Hupd.
  destruct (update_extras_settings _ _ _ Hupd) as (self0 & Hbase & Hs).
  rewrite Hs. by apply (fold_update_key_settings other update_keys self self0).
Qed.

(** X4: [_update] never replaces a value by one that is unset, zero or
    empty, and it reaches nothing but the fields it lists and [extra]:
    a listed field whose value in [other] is falsy keeps its value, an
    attribute that is not listed keeps its value, and the file size and
    the flags of [self] stay as they are. *)
Theorem update_keeps_what_other_lacks (self other self' : TinyTag) :
  _update self other = Ok self' ->
  (forall k, In k update_keys -> truthy (attr other k) = false ->
             attr self' k = attr self k) /\
  (forall k, ~ In k update_keys -> attr self' k = attr self k) /\
  settings self' = settings self.
Proof.
  intros Hupd. split; [|split].
  - intros k Hin Hfalse. rewrite (update_attr _ _ _ _ Hin Hupd). by rewrite Hfalse.
  - intros k Hnot. by apply (update_other_attr self other).
  - by eapply update_settings.
Qed.

Lemma update_keeps_what_other_lacks_witness :
  exists self',
    _update (set_attr TinyTag_init "track" (VInt 3)) (set_attr TinyTag_init "track" (VInt 0))
    = Ok self' /\
    attr self' "track" = VInt 3.
Proof.
  eassert (Hupd : _update (set_attr TinyTag_init "track" (VInt 3))
                          (set_attr TinyTag_init "track" (VInt 0)) = Ok _)
    by (vm_compute; reflexivity).
  eexists. split; [exact Hupd|].
  destruct (update_keeps_what_other_lacks _ _ _ Hupd) as (Hkeep & _ & _).
  rewrite (Hkeep "track"); [vm_compute; reflexivity|cbn; tauto|vm_compute; reflexivity].
Defined.

(** what one write under [extra.<key>] does to the [extra] dictionary *)
Lemma set_field_extra_slot (self self' : TinyTag) (key : string) (v : pyval) :
  _set_field self (String.append "extra." key) v = Ok self' ->
  default VNone (extra self' !! key) = merge_field (default VNone (extra self !! key)) v /\
  forall k, k <> key -> extra self' !! k = extra self !! k.
Proof.
  unfold _set_field. cbv zeta. rewrite prefix_extra.
  change (str_drop 6 (String.append "extra." key)) with key.
  destruct v as [|n|z|f|b]; cbn [is_str andb truthy merge_field rbind].
  1,3,4,5: intros [= <-]; cbn; rewrite lookup_insert_eq; split;
           [reflexivity|intros k Hk; by rewrite lookup_insert_ne].
  destruct (String.eqb n ""); cbn [negb]; [by intros [= <-]|].
  destruct (default VNone (extra self !! key)) as [|o|z|f|b] eqn:Hold;
    cbn [truthy].
  - cbn [rbind]. intros [= <-]. cbn. rewrite lookup_insert_eq.
    split; [reflexivity|intros k Hk; by rewrite lookup_insert_ne].
  - destruct (String.eqb o "") eqn:Ho; cbn [negb orb].
    + cbn [rbind]. intros [= <-]. cbn. rewrite lookup_insert_eq.
      split; [reflexivity|intros k Hk; by rewrite lookup_insert_ne].
    + destruct (String.eqb o n); cbn [rbind]; intros [= <-]; cbn;
        rewrite lookup_insert_eq;
        (split; [reflexivity|intros k Hk; by rewrite lookup_insert_ne]).
  - destruct (negb (z =? 0)); [discriminate|].
    cbn [rbind]. intros [= <-]. cbn. rewrite lookup_insert_eq.
    split; [reflexivity|intros k Hk; by rewrite lookup_insert_ne].
  - destruct (negb (PrimFloat.eqb f 0)); [discriminate|].
    cbn [rbind]. intros [= <-]. cbn. rewrite lookup_insert_eq.
    split; [reflexivity|intros k Hk; by rewrite lookup_insert_ne].
  - destruct b; [|discriminate].
    cbn [rbind]. intros [= <-]. cbn. rewrite lookup_insert_eq.
    split; [reflexivity|intros k Hk; by rewrite lookup_insert_ne].
Qed.

Lemma update_extras_merge (self0 : TinyTag) (m : gmap string pyval) (self' : TinyTag) :
  map_fold update_extra (Ok self0) m = Ok self' ->
  forall key,
    default VNone (extra self' !! key)
    = match m !! key with
      | Some value => merge_field (default VNone (extra self0 !! key)) value
      | None => default VNone (extra self0 !! key)
      end.
Proof.
  revert self'.
  apply (map_fold_weak_ind
           (fun r (m : gmap string pyval) =>
              forall self', r = Ok self' ->
                forall key,
                  default VNone (extra self' !! key)
                  = match m !! key with
                    | Some value => merge_field (default VNone (extra self0 !! key)) value
                    | None => default VNone (extra self0 !! key)
                    end)).
  - intros self' [= <-] key. by rewrite lookup_empty.
  - intros k value m' r Hfresh IH self' Hstep key.
    unfold update_extra in Hstep.
    destruct r as [s1|e|]; try discriminate Hstep. cbn [rbind] in Hstep.
    destruct (set_field_extra_slot _ _ _ _ Hstep) as [Hslot Hrest].
    specialize (IH s1 eq_refl).
    destruct (decide (key = k)) as [->|Hne].
    + rewrite lookup_insert_eq, Hslot, (IH k), Hfresh. reflexivity.
    + rewrite lookup_insert_ne by done. rewrite (Hrest key Hne). apply IH.
Qed.

(** X5: [_update] merges the entries of [other.extra] into [self.extra]
    key by key, by the rule of [_set_field]: a key of [other.extra]
    holds the merge of the two values afterwards, in whatever order the
    dictionary is walked, and every other key of [self.extra] keeps its
    value. *)
Theorem update_merges_extra (self other self' : TinyTag) (key : string) :
  _update self other = Ok self' ->
  default VNone (extra self' !! key)
  = match extra other !! key with
    | Some value => merge_field (default VNone (extra self !! key)) value
    | None => default VNone (extra self !! key)
    end.
Proof.
  intros Hupd. unfold _update in Hupd.
  destruct (update_extras_settings _ _ _ Hupd) as (self0 & Hbase & _).
  rewrite Hbase in Hupd.
  rewrite (update_extras_merge _ _ _ Hupd key).
  destruct (fold_update_key_settings other update_keys self self0 Hbase) as [_ Hextra].
  rewrite Hextra; [reflexivity|].
  apply Forall_forall. intros k Hin. apply update_keys_not_extra.
  by apply list_elem_of_In.
Qed.

Lemma update_merges_extra_witness :
  exists self',
    _update (with_extra TinyTag_init {[ "composer" := VStr "A" ]})
            (with_extra TinyTag_init {[ "composer" := VStr "B" ]}) = Ok self' /\
    default VNone (extra self' !! "composer")
    = VStr (String.append "A" (String.append NUL "B")).
Proof.
  eassert (Hupd : _update (with_extra TinyTag_init {[ "composer" := VStr "A" ]})
                          (with_extra TinyTag_init {[ "composer" := VStr "B" ]}) = Ok _)
    by (vm_compute; reflexivity).
  eexists. split; [exact Hupd|].
  rewrite (update_merges_extra _ _ _ "composer" Hupd). vm_compute. reflexivity.
Defined.

(** ** Choosing the parser *)

Lemma first_extension_found (lowered : bytes)
      (mapping : list (list string * Facade.parser_class)) :
  match Facade.first_extension lowered mapping with Some _ => true | None => false end
  = existsb (fun e => Facade.ends_with lowered (bytes_of_string e)) (concat (fst <$> mapping)).
Proof.
  induction mapping as [|[exts c] mapping IH]; [reflexivity|].
  cbn [Facade.first_extension fmap list_fmap concat fst].
  rewrite existsb_app. destruct (existsb _ exts); [reflexivity|exact IH].
Qed.

Lemma starts_with_app (a b : bytes) : starts_with a (a ++ b)%list = true.
Proof.
  induction a as [|x a IH]; [by destruct b|].
  cbn. rewrite IH. by destruct x.
Qed.

Lemma ends_with_app (a e : bytes) : Facade.ends_with (a ++ e)%list e = true.
Proof. unfold Facade.ends_with. rewrite rev_app_distr. apply starts_with_app. Qed.

(** X6: [is_supported] is the public list of extensions, whatever the
    case of the letters: a [bytes] name is supported exactly when its
    lower-cased form ends with an entry of [SUPPORTED_FILE_EXTENSIONS]
    (the list and the table of parsers agree); so is a [str] name,
    unless its lower-cased form has a character outside ASCII, which
    raises [UnicodeEncodeError]; and a name made of any stem and a listed
    extension is supported. *)
Theorem is_supported_is_the_extension_list :
  (forall (R : PyRuntime) (name : bytes),
      is_supported (Facade.PBytes name)
      = Ok (has_supported_extension (MP4.bytes_lower name))) /\
  (forall (R : PyRuntime) (name : string),
      is_supported (Facade.PStr name)
      = if forallb (fun x => byte_val x <? 128) (bytes_of_string (py_lower name))
        then Ok (has_supported_extension (bytes_of_string (py_lower name)))
        else Raise UnicodeEncodeError) /\
  (forall (R : PyRuntime) (stem : bytes) (ext : string),
      In ext SUPPORTED_FILE_EXTENSIONS ->
      is_supported (Facade.PBytes (stem ++ bytes_of_string ext)%list) = Ok true).
Proof.
  assert (Hbytes : forall (R : PyRuntime) (name : bytes),
             is_supported (Facade.PBytes name)
             = Ok (has_supported_extension (MP4.bytes_lower name))).
  { intros R name. unfold is_supported, Facade._get_parser_for_filename. cbn [rbind].
    by rewrite first_extension_found. }
  split; [exact Hbytes|]. split.
  - intros R name. unfold is_supported, Facade._get_parser_for_filename, Facade.encode_ascii.
    destruct (forallb _ _); [|reflexivity]. cbn [rbind].
    by rewrite first_extension_found.
  - intros R stem ext Hin. rewrite Hbytes. f_equal.
    unfold has_supported_extension. apply existsb_exists. exists ext. split; [exact Hin|].
    unfold MP4.bytes_lower. rewrite fmap_app.
    assert (Hlow : MP4.bytes_lower (bytes_of_string ext) = bytes_of_string ext).
    { unfold SUPPORTED_FILE_EXTENSIONS in Hin. cbn [In] in Hin.
      repeat (destruct Hin as [<-|Hin]; [vm_compute; reflexivity|]). destruct Hin. }
    unfold MP4.bytes_lower in Hlow. rewrite Hlow. apply ends_with_app.
Qed.

Lemma is_supported_is_the_extension_list_witness :
  is_supported (R := Samples.ascii_runtime)
               (Facade.PBytes (bytes_of_string "Song" ++ bytes_of_string ".flac")%list) = Ok true.
Proof.
  apply (proj2 (proj2 is_supported_is_the_extension_list)). cbn. tauto.
Defined.

(** X8: the magic bytes of a WAV stream are [RIFF], four bytes of size
    and [WAVE], but the four bytes are matched by the [.] of a regular
    expression, which no line feed matches: a stream that starts with
    such a header is taken for a WAV stream by its first bytes exactly
    when none of the four size bytes is [0x0A].  The stream is rewound
    either way. *)
Theorem wav_magic_needs_no_line_feed (fh : BinaryIO) (a b c d : byte) (rest : bytes) :
  0 <= io_pos fh ->
  io_rest fh = (bytes_of_string "RIFF" ++ [a; b; c; d] ++ bytes_of_string "WAVE" ++ rest)%list ->
  Facade._get_parser_for_file_handle fh
  = Ok (if existsb (fun x => byte_val x =? 10) [a; b; c; d]
        then None else Some Facade._Wave,
        io_at fh 0).
Proof.
  intros Hp Hrest. unfold Facade._get_parser_for_file_handle. cbv zeta.
  unfold read.
  match goal with |- context [Z.of_nat ?n <? 0] => destruct (Z.ltb_spec (Z.of_nat n) 0); [lia|] end.
  rewrite ztake_take, Nat2Z.id, Hrest.
  change (fold_right Nat.max 0%nat ((fun e => snd (fst e)) <$> Facade._magic_bytes_mapping))
    with 36%nat.
  cbn [bytes_of_string list_byte_of_string app take length].
  unfold seek_set. cbn [Z.ltb Z.compare rbind].
  f_equal. f_equal.
  cbn [Facade.first_magic Facade._magic_bytes_mapping Facade.re_match Facade.lit Facade.hex
       Facade.dots repeat fmap list_fmap app bytes_of_string list_byte_of_string
       byte_of_Z Z.to_N Byte.of_N Pos.to_nat existsb].
  cbn.
  destruct (byte_val a =? 10), (byte_val b =? 10), (byte_val c =? 10), (byte_val d =? 10);
    cbn; rewrite ?andb_false_r; reflexivity.
Qed.

Lemma wav_magic_needs_no_line_feed_witness :
  Facade._get_parser_for_file_handle
    (BytesIO (bytes_of_string "RIFF" ++ [x0a; x00; x00; x00] ++ bytes_of_string "WAVE" ++ [])%list)
  = Ok (None,
        io_at (BytesIO (bytes_of_string "RIFF" ++ [x0a; x00; x00; x00]
                        ++ bytes_of_string "WAVE" ++ [])%list) 0).
Proof.
  apply (wav_magic_needs_no_line_feed _ x0a x00 x00 x00 []); [cbn; lia|reflexivity].
Defined.

(** X7: the name decides before the content.  When [get] is called on
    [TinyTag] itself with a file name that ends with an extension of the
    table, the parser class is the one of the extension; the stream is
    not looked at (it is handed on as it was), so a file with the wrong
    extension goes to the wrong parser. *)
Theorem parser_follows_extension (R : PyRuntime) (fh : BinaryIO) (stem : bytes)
        (exts : list string) (tagclass : Facade.parser_class) (ext : string) :
  In (exts, tagclass) Facade._file_extension_mapping ->
  In ext exts ->
  Facade._get_parser_class None (Some (Facade.PBytes (stem ++ bytes_of_string ext)%list)) fh
  = Ok (tagclass, fh).
Proof.
  intros Hmap Hext. unfold Facade._get_parser_class.
  assert (Htruthy : Facade.path_truthy (Facade.PBytes (stem ++ bytes_of_string ext)%list)
                    = true).
  { cbn. destruct stem; [|reflexivity].
    unfold Facade._file_extension_mapping in Hmap. cbn [In] in Hmap.
    repeat (destruct Hmap as [[= <- <-]|Hmap];
            [cbn [In] in Hext;
             repeat (destruct Hext as [<-|Hext]; [reflexivity|]); destruct Hext|]).
    destruct Hmap. }
  rewrite Htruthy. unfold Facade._get_parser_for_filename. cbn [rbind].
  unfold MP4.bytes_lower. rewrite fmap_app. fold (MP4.bytes_lower stem).
  set (low := MP4.bytes_lower stem). clearbody low.
  unfold Facade._file_extension_mapping in Hmap. cbn [In] in Hmap.
  repeat (destruct Hmap as [[= <- <-]|Hmap];
          [cbn [In] in Hext;
           repeat (destruct Hext as [<-|Hext];
                   [unfold Facade._file_extension_mapping, Facade.first_extension,
                      Facade.ends_with;
                    rewrite rev_app_distr; reflexivity|]);
           destruct Hext|]).
  destruct Hmap.
Qed.

Lemma parser_follows_extension_witness :
  Facade._get_parser_class (R := Samples.ascii_runtime) None
    (Some (Facade.PBytes (bytes_of_string "song" ++ bytes_of_string ".mp3")%list))
    (file_on_disk Samples.flac_one_second)
  = Ok (Facade._ID3, file_on_disk Samples.flac_one_second).
Proof.
  apply (parser_follows_extension Samples.ascii_runtime _ (bytes_of_string "song")
                                  [".mp1"; ".mp2"; ".mp3"] Facade._ID3 ".mp3");
    cbn; tauto.
Defined.

(** ** ID3 *)

Section Id3Settings.
Context {R : PyRuntime}.

Lemma parse_custom_field_settings (self self' : TinyTag) (content : string) (b : bool) :
  ID3.__parse_custom_field self content = Ok (b, self') -> settings self' = settings self.
Proof.
  unfold ID3.__parse_custom_field.
  destruct (str_partition _ content) as [[name sep] value].
  destruct (_ && _); intros Hrun; [|by injection Hrun as _ <-].
  bind_ok Hrun as s eqn E. injection Hrun as _ <-. by eapply set_field_settings.
Qed.

Lemma set_frame_field_settings (self self' : TinyTag) (fieldname value : string) :
  ID3.set_frame_field self fieldname value = Ok self' -> settings self' = settings self.
Proof.
  unfold ID3.set_frame_field.
  destruct (String.eqb fieldname "comment").
  { intros Hrun. bind_ok Hrun as [custom s1] eqn E.
    rewrite <- (parse_custom_field_settings self s1 value custom E).
    destruct custom; [by injection Hrun as <-|]. by eapply set_field_settings. }
  destruct (ID3.str_in fieldname ["track"; "disc"]).
  { destruct (if str_contains "/" value then _ else _) as [v total].
    destruct total as [t|].
    - destruct (py_int t) as [n|]; [|by intros [= <-]].
      intros Hrun. bind_ok Hrun as s1 eqn E.
      rewrite <- (set_field_settings self s1 _ _ E).
      destruct (py_int v); [|by injection Hrun as <-]. by eapply set_field_settings.
    - cbn [rbind]. destruct (py_int v); [|by intros [= <-]]. by apply set_field_settings. }
  destruct (String.eqb fieldname "genre").
  { match goal with
    | |- match ?g with _ => _ end = _ -> _ => destruct g as [genre_id|]
    end; [|by intros [= <-]].
    by apply set_field_settings. }
  by apply set_field_settings.
Qed.

Lemma parse_frame_settings (self self' : TinyTag) (fh fh' : BinaryIO) (version size : Z) :
  ID3._parse_frame self fh version = Ok (size, self', fh') ->
  settings self' = settings self.
Proof.
  unfold ID3._parse_frame. cbv zeta.
  destruct (read _ fh) as [frame_header_data fh1].
  destruct (negb _); [by intros [= _ <- _]|].
  intros Hrun. bind_ok Hrun as frame_id eqn Eid.
  destruct (0 <? _); [|by injection Hrun as _ <- _].
  destruct (read _ fh1) as [content fh2].
  destruct (ID3.assoc_get ID3.FRAME_ID_TO_FIELD frame_id) as [fieldname|].
  - destruct (negb (_parse_tags self)); [by injection Hrun as _ <- _|].
    bind_ok Hrun as value eqn Ev. bind_ok Hrun as s1 eqn Es. injection Hrun as _ <- _.
    by eapply set_frame_field_settings.
  - destruct (ID3.str_in frame_id ID3.CUSTOM_FRAME_IDS).
    { destruct (_parse_tags self); [|by injection Hrun as _ <- _].
      bind_ok Hrun as value eqn Ev. bind_ok Hrun as [custom s1] eqn Es.
      injection Hrun as _ <- _. by eapply parse_custom_field_settings. }
    destruct (ID3.str_in frame_id ID3.IMAGE_FRAME_IDS).
    { destruct (_load_image self); [|by injection Hrun as _ <- _].
      bind_ok Hrun as start eqn Es. by injection Hrun as _ <- _. }
    destruct (negb (ID3.str_in frame_id ID3.DISALLOWED_FRAME_IDS));
      [|by injection Hrun as _ <- _].
    destruct (_parse_tags self); [|by injection Hrun as _ <- _].
    bind_ok Hrun as value eqn Ev. bind_ok Hrun as s1 eqn Es. injection Hrun as _ <- _.
    by eapply set_field_settings.
Qed.

Lemma frames_loop_settings (fuel : nat) :
  forall (self self' : TinyTag) (fh fh' : BinaryIO) (major size parsed_size : Z),
    ID3.frames_loop fuel self fh major size parsed_size = Ok (self', fh') ->
    settings self' = settings self.
Proof.
  induction fuel as [|fuel IH]; intros self self' fh fh' major size parsed_size Hrun;
    [discriminate|].
  cbn [ID3.frames_loop] in Hrun.
  destruct (parsed_size <? size); [|by injection Hrun as <- _].
  bind_ok Hrun as [[frame_size s1] fh1] eqn E.
  rewrite <- (parse_frame_settings _ _ _ _ _ _ E).
  destruct (frame_size =? 0); [by injection Hrun as <- _|].
  by eapply IH.
Qed.

End Id3Settings.

(** X9: where [_parse_id3v2] leaves off.  With [size] the synchsafe size
    of the header (0 when the stream does not start with [ID3]), a call
    that returns has left the stream [10 + size] bytes after the place it
    started from, however many frames it read and wherever they ended,
    has changed no byte, and has stored [size] (not [10 + size]) as
    [_bytepos_after_id3v2], the place the duration scan starts from.  A
    stream with fewer than ten bytes left raises [struct.error]. *)
Theorem parse_id3v2_leaves_at_end_of_tag (R : PyRuntime) (self : TinyTag) (fh : BinaryIO) :
  0 <= io_pos fh ->
  let header := take 10 (io_rest fh) in
  let size := if bytes_eqb (take 3 header) (bytes_of_string "ID3")
              then ID3._calc_size (slice 6 10 (byte_val <$> header)) 7 else 0 in
  ((length (io_rest fh) < 10)%nat -> ID3._parse_id3v2 self fh = Raise StructError) /\
  (forall self' fh',
      ID3._parse_id3v2 self fh = Ok (self', fh') ->
      io_data fh' = io_data fh /\
      io_pos fh' = io_pos fh + 10 + size /\
      _bytepos_after_id3v2 self' = size).
Proof.
  intros Hp header size.
  assert (Hread : read 10 fh = (header, io_at fh (io_pos fh + Z.of_nat (length header)))).
  { unfold read. cbn [Z.ltb Z.compare]. by rewrite ztake_take. }
  split.
  - intros Hshort. unfold ID3._parse_id3v2, ID3._parse_id3v2_header. rewrite Hread.
    assert (L : (length header =? 10)%nat = false).
    { apply Nat.eqb_neq. subst header. rewrite length_take. lia. }
    by rewrite L.
  - intros self' fh'. unfold ID3._parse_id3v2, ID3._parse_id3v2_header. rewrite Hread.
    destruct (Nat.eqb_spec (length header) 10) as [L|_]; cbn [negb]; [|discriminate].
    rewrite L.
    assert (Hsize : 0 <= size).
    { subst size. destruct (bytes_eqb _ _); [|lia].
      apply calc_size_nonneg; [lia|]. unfold slice.
      apply Forall_take, Forall_drop, byte_vals_nonneg. }
    set (fh0 := io_at fh (io_pos fh + Z.of_nat 10)).
    assert (P0 : io_pos fh0 = io_pos fh + 10) by (cbn; lia).
    assert (D0 : io_data fh0 = io_data fh) by reflexivity.
    clearbody fh0.
    subst size.
    destruct (bytes_eqb (take 3 header) (bytes_of_string "ID3")); cbn [rbind].
    + set (size := ID3._calc_size (slice 6 10 (byte_val <$> header)) 7) in *.
      clearbody size.
      destruct (Z.eqb_spec size 0) as [Hz|Hnz]; cbn [negb].
      { intros [= <- <-]. split; [done|]. split; [lia|done]. }
      cbv zeta. intros Hrun. bind_ok Hrun as fh1 eqn Eext.
      assert (H1 : io_data fh1 = io_data fh /\ 0 <= io_pos fh1).
      { destruct (0 <? _).
        - destruct (read 6 fh0) as [b fhx] eqn:Er.
          destruct (read_moves _ _ _ _ Er) as [Dx Px].
          destruct (negb _); [discriminate|].
          destruct (seek_cur_moves _ _ _ Eext) as [D1 P1].
          split; [by rewrite D1, Dx|lia].
        - injection Eext as <-. split; [done|lia]. }
      destruct H1 as [D1 P1].
      bind_ok Hrun as [s1 fh2] eqn Eloop.
      bind_ok Hrun as fh3 eqn Eseek. injection Hrun as <- <-.
      destruct (seek_set_moves _ _ _ Eseek) as (D3 & P3 & _).
      pose proof (frames_loop_settings _ _ _ _ _ _ _ _ Eloop) as Hs.
      destruct (frames_loop_filesize _ _ _ _ _ _ _ _ P1 Eloop) as [_ D2].
      split; [by rewrite D3, D2, D1|].
      split; [rewrite P3; unfold tell; lia|].
      injection Hs as _ _ _ _ _ _ _ Hb _. exact Hb.
    + cbn [Z.eqb negb]. intros [= <- <-]. split; [done|]. split; [lia|done].
Qed.

Lemma parse_id3v2_leaves_at_end_of_tag_witness :
  exists self' fh',
    ID3._parse_id3v2 (R := Samples.ascii_runtime) TinyTag_init
                     (file_on_disk Samples.flac_with_id3) = Ok (self', fh') /\
    io_pos fh' = 44 /\ _bytepos_after_id3v2 self' = 34.
Proof.
  eassert (Hrun : ID3._parse_id3v2 (R := Samples.ascii_runtime) TinyTag_init
                                   (file_on_disk Samples.flac_with_id3) = Ok (_, _))
    by (vm_compute; reflexivity).
  do 2 eexists. split; [exact Hrun|].
  assert (Hp : 0 <= io_pos (file_on_disk Samples.flac_with_id3)) by (cbn; lia).
  destruct (proj2 (parse_id3v2_leaves_at_end_of_tag
                     Samples.ascii_runtime TinyTag_init
                     (file_on_disk Samples.flac_with_id3) Hp) _ _ Hrun)
    as (_ & Hpos & Hbyte).
  split; [rewrite Hpos|rewrite Hbyte]; vm_compute; reflexivity.
Defined.

Section Id3v1.
Context {R : PyRuntime}.

Lemma set_if_unset_other (self self' : TinyTag) (name : string) (b : bytes) (k : string) :
  ID3.set_if_unset self name b = Ok self' ->
  name <> k \/ truthy (attr self k) = true ->
  attr self' k = attr self k.
Proof.
  unfold ID3.set_if_unset. intros Hrun Hk.
  destruct (truthy (attr self name)) eqn:Ht; cbn [negb] in Hrun; [by injection Hrun as <-|].
  bind_ok Hrun as s eqn E.
  eapply set_field_other_attr; [exact Hrun|].
  destruct Hk as [Hne|Hset]; [exact Hne|]. intros ->. congruence.
Qed.

End Id3v1.

(** X10: an ID3v1 tag never replaces what is there.  [_parse_id3v1]
    leaves every attribute that holds a truthy value as it is (a title
    read from the ID3v2 tag is kept, the ID3v1 title is not appended),
    leaves a track number that is set as it is (also when it is 0), and
    writes no attribute but the seven of the tag; a block that does not
    start with [TAG] changes nothing at all. *)
Theorem id3v1_fills_gaps_only (R : PyRuntime) (self self' : TinyTag) (fh fh' : BinaryIO) :
  ID3._parse_id3v1 self fh = Ok (self', fh') ->
  (forall k, truthy (attr self k) = true \/
             ~ In k ["title"; "artist"; "album"; "year"; "track"; "comment"; "genre"] ->
             attr self' k = attr self k) /\
  (attr self "track" <> VNone -> attr self' "track" = attr self "track") /\
  (bytes_eqb (fst (read 3 fh)) (bytes_of_string "TAG") = false -> self' = self).
Proof.
  unfold ID3._parse_id3v1.
  destruct (read 3 fh) as [magic fh0]. cbn [fst].
  destruct (bytes_eqb magic (bytes_of_string "TAG")); cbn [negb];
    [|intros [= <- _]; by repeat split].
  destruct (read _ fh0) as [fields fh1]. cbv zeta.
  intros Hrun.
  bind_ok Hrun as t1 eqn E1. bind_ok Hrun as t2 eqn E2.
  bind_ok Hrun as t3 eqn E3. bind_ok Hrun as t4 eqn E4.
  bind_ok Hrun as [t5 comment] eqn E5.
  bind_ok Hrun as t6 eqn E6. bind_ok Hrun as t7 eqn E7. injection Hrun as <- _.
  assert (Hkeep : forall k,
             (truthy (attr self k) = true \/
              ~ In k ["title"; "artist"; "album"; "year"; "comment"; "genre"]) ->
             (k = "track" -> attr self k <> VNone) ->
             attr t7 k = attr self k).
  { intros k Hk Htrack.
    assert (Hstep : forall (s s' : TinyTag) (name : string) (b : bytes),
               In name ["title"; "artist"; "album"; "year"; "comment"; "genre"] ->
               attr s k = attr self k ->
               ID3.set_if_unset s name b = Ok s' -> attr s' k = attr self k).
    { intros s s' name b Hin Hs Hset. rewrite <- Hs.
      apply (set_if_unset_other s s' name b k Hset).
      destruct Hk as [Ht|Hnot]; [right; by rewrite Hs|left; intros ->; by apply Hnot]. }
    assert (H1 : attr t1 k = attr self k) by (apply (Hstep self t1 "title" _ ltac:(cbn; tauto) eq_refl E1)).
    assert (H2 : attr t2 k = attr self k) by (apply (Hstep t1 t2 "artist" _ ltac:(cbn; tauto) H1 E2)).
    assert (H3 : attr t3 k = attr self k) by (apply (Hstep t2 t3 "album" _ ltac:(cbn; tauto) H2 E3)).
    assert (H4 : attr t4 k = attr self k) by (apply (Hstep t3 t4 "year" _ ltac:(cbn; tauto) H3 E4)).
    assert (H5 : attr t5 k = attr self k).
    { rewrite <- H4.
      destruct (bytes_ltb _ _ && bytes_ltb _ _); [|by injection E5 as <- _].
      bind_ok E5 as t eqn Et. injection E5 as <- _.
      destruct (attr t4 "track") eqn:Htr; try (by injection Et as <-).
      eapply set_field_other_attr; [exact Et|].
      intros <-. apply (Htrack eq_refl). by rewrite <- H4. }
    assert (H6 : attr t6 k = attr self k) by (apply (Hstep t5 t6 "comment" _ ltac:(cbn; tauto) H5 E6)).
    rewrite <- H6.
    destruct (truthy (attr t6 "genre")) eqn:Hg; cbn [negb] in E7; [by injection E7 as <-|].
    destruct (slice 124 125 fields) as [|g [|? ?]]; try discriminate E7.
    destruct (_ <? _); [|by injection E7 as <-].
    eapply set_field_other_attr; [exact E7|].
    intros <-. destruct Hk as [Ht|Hnot]; [|apply Hnot; cbn; tauto].
    rewrite <- H6 in Ht. congruence. }
  split; [|split; [|discriminate]].
  - intros k Hk. apply Hkeep.
    + destruct Hk as [Ht|Hnot]; [by left|right]. intros Hin. apply Hnot.
      cbn in Hin |- *. tauto.
    + intros -> Hnone. destruct Hk as [Ht|Hnot].
      * rewrite Hnone in Ht. discriminate Ht.
      * apply Hnot. cbn. tauto.
  - intros Htrack. apply Hkeep; [|by intros _].
    right. cbn. intros Hin. repeat (destruct Hin as [Hin|Hin]; [discriminate Hin|]). done.
Qed.

Lemma id3v1_fills_gaps_only_witness :
  exists self' fh',
    ID3._parse_id3v1 (R := Samples.ascii_runtime)
                     (set_attr TinyTag_init "title" (VStr "From v2"))
                     (BytesIO (bytes_of_string "TAG" ++ bytes_of_string "From v1"
                               ++ repeat x00 118)%list) = Ok (self', fh') /\
    attr self' "title" = VStr "From v2".
Proof.
  eassert (Hrun : ID3._parse_id3v1 (R := Samples.ascii_runtime)
                     (set_attr TinyTag_init "title" (VStr "From v2"))
                     (BytesIO (bytes_of_string "TAG" ++ bytes_of_string "From v1"
                               ++ repeat x00 118)%list) = Ok (_, _))
    by (vm_compute; reflexivity).
  do 2 eexists. split; [exact Hrun|].
  destruct (id3v1_fills_gaps_only _ _ _ _ _ Hrun) as (Hkeep & _ & _).
  rewrite (Hkeep "title"); [vm_compute; reflexivity|left; vm_compute; reflexivity].
Defined.

(** when the stream ends one byte into the comment and that byte is 1,
    the comparison of [comment[-2:]] holds: the byte is stored as the
    track number and the comment is left empty (the genre is set here,
    so that [ord] is not applied to the missing genre byte) *)
Lemma parse_id3v1_one_byte_comment :
  exists self' fh',
    ID3._parse_id3v1 (R := Samples.ascii_runtime)
                     (set_attr TinyTag_init "genre" (VStr "Rock"))
                     (BytesIO Samples.id3v1_cut_short) = Ok (self', fh') /\
    attr self' "track" = VInt 1 /\
    attr self' "comment" = VNone.
Proof.
  do 2 eexists. split; [vm_compute; reflexivity|].
  split; vm_compute; reflexivity.
Qed.

(** ** [_index_utf16] *)

Lemma starts_with_eq (a b : bytes) :
  length a = length b -> starts_with a b = true -> a = b.
Proof.
  revert b. induction a as [|x a IH]; intros [|y b] L H; try discriminate; [reflexivity|].
  cbn in H. apply andb_true_iff in H as [Hxy Hab].
  apply Byte.byte_dec_bl in Hxy. subst y. f_equal. apply IH; [by injection L|exact Hab].
Qed.

Lemma starts_with_refl (a : bytes) : starts_with a a = true.
Proof.
  induction a as [|x a IH]; [reflexivity|]. cbn. rewrite IH.
  by rewrite (Byte.byte_dec_lb (eq_refl x)).
Qed.

Lemma bytes_eqb_eq (a b : bytes) : bytes_eqb a b = true <-> a = b.
Proof.
  unfold bytes_eqb. split.
  - intros H. apply andb_true_iff in H as [L H]. apply Nat.eqb_eq in L.
    by apply starts_with_eq.
  - intros ->. rewrite Nat.eqb_refl. apply starts_with_refl.
Qed.

Lemma index_utf16_from_spec (fuel : nat) :
  forall (s search : bytes) (j : nat),
    search <> [] ->
    (length s < fuel + j * length search)%nat ->
    let n := length search in
    let r := ID3.index_utf16_from fuel s search (j * n) in
    (r = -1 /\
     forall j', (j <= j')%nat -> (j' * n < length s)%nat ->
                take n (drop (j' * n) s) <> search) \/
    (exists j', (j <= j')%nat /\ r = Z.of_nat (j' * n) /\ (j' * n < length s)%nat /\
                take n (drop (j' * n) s) = search /\
                forall i, (j <= i < j')%nat -> take n (drop (i * n) s) <> search).
Proof.
  induction fuel as [|fuel IH]; intros s search j Hne Hfuel n r.
  { left. split; [reflexivity|]. intros j' Hj Hlt. assert (n <> 0)%nat.
    { subst n. by destruct search. }
    nia. }
  assert (Hn : (n <> 0)%nat) by (subst n; by destruct search).
  subst r. cbn [ID3.index_utf16_from]. fold n.
  destruct (Nat.leb_spec (length s) (j * n)) as [Hend|Hin].
  { left. split; [reflexivity|]. intros j' Hj Hlt. nia. }
  destruct (bytes_eqb (take n (drop (j * n) s)) search) eqn:Heq.
  - right. exists j. apply bytes_eqb_eq in Heq.
    repeat split; [lia|exact Hin|exact Heq|]. intros i Hi. lia.
  - assert (Hneq : take n (drop (j * n) s) <> search).
    { intros H. apply bytes_eqb_eq in H. congruence. }
    replace (j * n + n)%nat with (S j * n)%nat by lia.
    destruct (IH s search (S j) Hne ltac:(fold n; nia)) as [[Hr Hall]|(j' & Hj & Hr & Hlt & Hm & Hfirst)].
    + left. split; [exact Hr|]. intros j' Hj Hlt.
      destruct (decide (j' = j)) as [->|]; [exact Hneq|]. apply Hall; [lia|exact Hlt].
    + right. exists j'. repeat split; [lia|exact Hr|exact Hlt|exact Hm|].
      intros i Hi. destruct (decide (i = j)) as [->|]; [exact Hneq|]. apply Hfirst. lia.
Qed.

(** X11: [_index_utf16] looks for [search] at the multiples of its
    length only.  For a [search] that is not empty the result is either
    the first offset [j * len(search)] inside [s] at which [s] continues
    with [search], or -1 when there is no such offset; an occurrence at
    any other offset is not seen. *)
Theorem index_utf16_finds_first_aligned (s search : bytes) :
  search <> [] ->
  let n := length search in
  let r := ID3._index_utf16 s search in
  (r = -1 /\
   forall j, (j * n < length s)%nat -> take n (drop (j * n) s) <> search) \/
  (exists j, r = Z.of_nat (j * n) /\ (j * n < length s)%nat /\
             take n (drop (j * n) s) = search /\
             forall i, (i < j)%nat -> take n (drop (i * n) s) <> search).
Proof.
  intros Hne n r. subst r. unfold ID3._index_utf16.
  destruct (index_utf16_from_spec (S (length s)) s search 0 Hne ltac:(lia))
    as [[Hr Hall]|(j & _ & Hr & Hlt & Hm & Hfirst)].
  - left. split; [exact Hr|]. intros j Hlt. apply Hall; [lia|exact Hlt].
  - right. exists j. repeat split; [exact Hr|exact Hlt|exact Hm|].
    intros i Hi. apply Hfirst. lia.
Qed.

Lemma index_utf16_finds_first_aligned_witness :
  ID3._index_utf16 [x41; x00; x00; x00; x42; x00] [x00; x00] = 2.
Proof.
  destruct (index_utf16_finds_first_aligned [x41; x00; x00; x00; x42; x00] [x00; x00])
    as [[Hr _]|(j & Hr & _)]; [discriminate|..]; vm_compute; reflexivity.
Defined.

(** ** The ID3 tags come to an end *)

(** X12: reading the ID3 tags always comes to an end, whatever the
    stream holds (a run-time whose codecs return or raise is all that is
    asked for).  A frame whose size is not zero has been read from a
    full frame header: the stream is at least six bytes further on than
    before the frame, so the frame loop of [_parse_id3v2] takes no more
    rounds than the stream has bytes, and [_parse_tag] returns or
    raises. *)
Theorem id3_tags_end (R : PyRuntime) :
  runtime_completes R ->
  (forall (self self' : TinyTag) (fh fh' : BinaryIO) (version size : Z),
      0 <= io_pos fh ->
      ID3._parse_frame self fh version = Ok (size, self', fh') ->
      size <> 0 ->
      io_data fh' = io_data fh /\
      io_pos fh + 6 <= io_pos fh' /\ io_pos fh + 6 <= io_len fh) /\
  (forall (self : TinyTag) (fh : BinaryIO),
      0 <= io_pos fh -> ID3._parse_tag self fh <> OutOfFuel).
Proof.
  intros HR. split.
  - intros self self' fh fh' version size Hp Hrun Hnz.
    destruct (parse_frame_moves _ _ _ _ _ _ Hp Hrun) as (_ & _ & Hsix).
    destruct (Hsix Hnz) as [(D & _ & P) Hroom]. by repeat split.
  - intros self fh Hp. by apply id3_parse_tag_completes.
Qed.

Lemma id3_tags_end_witness :
  ID3._parse_tag (R := Samples.ascii_runtime) TinyTag_init
                 (file_on_disk Samples.flac_with_id3) <> OutOfFuel.
Proof.
  apply (proj2 (id3_tags_end Samples.ascii_runtime ascii_runtime_completes)).
  cbn. lia.
Defined.

(** ** What the tag parsers leave alone *)

Lemma extra_name_not_audio (key k : string) :
  In k (audio_fields ++ ["_image_data"]) -> String.append "extra." key <> k.
Proof.
  intros Hk. cbn in Hk.
  repeat (destruct Hk as [<-|Hk]; [cbn; discriminate|]). destruct Hk.
Qed.

Lemma frame_field_not_audio (frame_id fieldname k : string) :
  ID3.assoc_get ID3.FRAME_ID_TO_FIELD frame_id = Some fieldname ->
  In k (audio_fields ++ ["_image_data"]) ->
  fieldname <> k /\ String.append fieldname "_total" <> k.
Proof.
  intros Hget Hk. apply assoc_get_In in Hget. cbn in Hget, Hk.
  repeat (destruct Hk as [<-|Hk]; [|]); [..|destruct Hk];
    repeat (destruct Hget as [<-|Hget]; [split; discriminate|]); destruct Hget.
Qed.

Section TagFields.
Context {R : PyRuntime}.

Lemma custom_field_kept (self self' : TinyTag) (content : string) (b : bool) (k : string) :
  In k (audio_fields ++ ["_image_data"]) ->
  ID3.__parse_custom_field self content = Ok (b, self') ->
  attr self' k = attr self k.
Proof.
  intros Hk. unfold ID3.__parse_custom_field.
  destruct (str_partition _ content) as [[name sep] value].
  destruct (negb (String.eqb name "") && sep); intros Hrun.
  - bind_ok Hrun as s1 eqn E. injection Hrun as _ <-.
    eapply set_field_other_attr; [exact E|by apply extra_name_not_audio].
  - by injection Hrun as _ <-.
Qed.

Lemma frame_field_kept (self self' : TinyTag) (fieldname value k : string) :
  fieldname <> k -> String.append fieldname "_total" <> k ->
  In k (audio_fields ++ ["_image_data"]) ->
  ID3.set_frame_field self fieldname value = Ok self' ->
  attr self' k = attr self k.
Proof.
  intros Hf Hft Hk. unfold ID3.set_frame_field.
  destruct (String.eqb fieldname "comment").
  { intros Hrun. bind_ok Hrun as [custom s1] eqn E.
    rewrite <- (custom_field_kept self s1 value custom k Hk E).
    destruct custom; [by injection Hrun as <-|]. by eapply set_field_other_attr. }
  destruct (ID3.str_in fieldname ["track"; "disc"]).
  { destruct (if str_contains "/" value then _ else _) as [v total].
    destruct total as [t|].
    - destruct (py_int t) as [n|]; [|by intros [= <-]].
      intros Hrun. bind_ok Hrun as s1 eqn E.
      rewrite <- (set_field_other_attr self s1 _ k _ E Hft).
      destruct (py_int v); [|by injection Hrun as <-].
      by eapply set_field_other_attr.
    - cbn [rbind]. destruct (py_int v); [|by intros [= <-]].
      intros Hrun. by eapply set_field_other_attr. }
  destruct (String.eqb fieldname "genre").
  { match goal with
    | |- match ?g with _ => _ end = _ -> _ => destruct g as [genre_id|]
    end; intros Hrun; [|by injection Hrun as <-].
    by eapply set_field_other_attr. }
  intros Hrun. by eapply set_field_other_attr.
Qed.

Lemma parse_frame_kept (self self' : TinyTag) (fh fh' : BinaryIO) (version size : Z)
      (k : string) :
  In k (audio_fields ++ ["_image_data"]) ->
  (k = "_image_data" -> _load_image self = false) ->
  ID3._parse_frame self fh version = Ok (size, self', fh') ->
  attr self' k = attr self k.
Proof.
  intros Hk Himg. unfold ID3._parse_frame.
  destruct (read _ fh) as [frame_header_data fh1].
  destruct (negb _); [by intros [= _ <- _]|].
  intros Hrun. bind_ok Hrun as frame_id eqn Eid.
  destruct (0 <? _); [|by injection Hrun as _ <- _].
  destruct (read _ fh1) as [content fh2].
  destruct (ID3.assoc_get ID3.FRAME_ID_TO_FIELD frame_id) as [fieldname|] eqn:Hfield.
  - destruct (frame_field_not_audio _ _ k Hfield Hk) as [Hf Hft].
    destruct (negb (_parse_tags self)); [by injection Hrun as _ <- _|].
    bind_ok Hrun as value eqn Ev. bind_ok Hrun as s1 eqn Es. injection Hrun as _ <- _.
    exact (frame_field_kept _ _ _ _ _ Hf Hft Hk Es).
  - destruct (ID3.str_in frame_id ID3.CUSTOM_FRAME_IDS).
    { destruct (_parse_tags self); [|by injection Hrun as _ <- _].
      bind_ok Hrun as value eqn Ev. bind_ok Hrun as [custom s1] eqn Es.
      injection Hrun as _ <- _. exact (custom_field_kept _ _ _ _ _ Hk Es). }
    destruct (ID3.str_in frame_id ID3.IMAGE_FRAME_IDS).
    { destruct (_load_image self) eqn:Hload; [|by injection Hrun as _ <- _].
      bind_ok Hrun as start eqn Es. injection Hrun as _ <- _.
      apply attr_set_attr_ne. intros <-. by specialize (Himg eq_refl). }
    destruct (negb (ID3.str_in frame_id ID3.DISALLOWED_FRAME_IDS));
      [|by injection Hrun as _ <- _].
    destruct (_parse_tags self); [|by injection Hrun as _ <- _].
    bind_ok Hrun as value eqn Ev. bind_ok Hrun as s1 eqn Es. injection Hrun as _ <- _.
    eapply set_field_other_attr; [exact Es|by apply extra_name_not_audio].
Qed.

Lemma settings_load_image (self self' : TinyTag) :
  settings self' = settings self -> _load_image self' = _load_image self.
Proof. unfold settings. by intros [= _ _ _ _ -> _ _ _ _]. Qed.

Lemma frames_loop_kept (fuel : nat) (k : string) :
  In k (audio_fields ++ ["_image_data"]) ->
  forall (self self' : TinyTag) (fh fh' : BinaryIO) (major size parsed_size : Z),
    (k = "_image_data" -> _load_image self = false) ->
    ID3.frames_loop fuel self fh major size parsed_size = Ok (self', fh') ->
    attr self' k = attr self k.
Proof.
  intros Hk.
  induction fuel as [|fuel IH]; intros self self' fh fh' major size parsed_size Himg Hrun;
    [discriminate|].
  cbn [ID3.frames_loop] in Hrun.
  destruct (parsed_size <? size); [|by injection Hrun as <- _].
  bind_ok Hrun as [[frame_size s1] fh1] eqn E.
  rewrite <- (parse_frame_kept self s1 fh fh1 major frame_size k Hk Himg E).
  destruct (frame_size =? 0); [by injection Hrun as <- _|].
  eapply IH; [|exact Hrun].
  intros ->. rewrite (settings_load_image _ _ (parse_frame_settings _ _ _ _ _ _ E)).
  by apply Himg.
Qed.

Lemma parse_id3v2_kept (self self' : TinyTag) (fh fh' : BinaryIO) (k : string) :
  In k (audio_fields ++ ["_image_data"]) ->
  (k = "_image_data" -> _load_image self = false) ->
  ID3._parse_id3v2 self fh = Ok (self', fh') ->
  attr self' k = attr self k /\ _load_image self' = _load_image self /\
  filesize self' = filesize self.
Proof.
  intros Hk Himg.
  unfold ID3._parse_id3v2, ID3._parse_id3v2_header.
  destruct (read 10 fh) as [b fh0].
  destruct (negb _); [discriminate|].
  destruct (if bytes_eqb _ _ then _ else _) as [[size extended] major].
  cbn [rbind]. destruct (negb (size =? 0)); [|by intros [= <- _]].
  intros Hrun. bind_ok Hrun as fh1 eqn Eext. bind_ok Hrun as [s1 fh2] eqn Eloop.
  bind_ok Hrun as fh3 eqn Eseek. injection Hrun as <- _.
  pose proof (frames_loop_settings _ _ _ _ _ _ _ _ Eloop) as Hs.
  split; [|split].
  - by rewrite (frames_loop_kept _ k Hk (with_bytepos_after_id3v2 self size)
                                 _ _ _ _ _ _ Himg Eloop).
  - by rewrite (settings_load_image _ _ Hs).
  - unfold settings in Hs. by injection Hs as ->.
Qed.

Lemma set_if_unset_kept (self self' : TinyTag) (name : string) (b : bytes) (k : string) :
  name <> k ->
  ID3.set_if_unset self name b = Ok self' ->
  attr self' k = attr self k.
Proof.
  intros Hne. unfold ID3.set_if_unset.
  destruct (negb _); [|by intros [= <-]].
  intros Hrun. bind_ok Hrun as s eqn E. by eapply set_field_other_attr.
Qed.

Lemma parse_id3v1_kept (self self' : TinyTag) (fh fh' : BinaryIO) (k : string) :
  ~ In k ["title"; "artist"; "album"; "year"; "track"; "comment"; "genre"] ->
  ID3._parse_id3v1 self fh = Ok (self', fh') ->
  attr self' k = attr self k.
Proof.
  intros Hk.
  assert (Hne : forall name,
             In name ["title"; "artist"; "album"; "year"; "track"; "comment"; "genre"] ->
             name <> k) by (intros name Hin ->; by apply Hk).
  unfold ID3._parse_id3v1.
  destruct (read 3 fh) as [magic fh0].
  destruct (negb _); [by intros [= <- _]|].
  destruct (read _ fh0) as [fields fh1].
  intros Hrun.
  bind_ok Hrun as t1 eqn E1.
  rewrite <- (set_if_unset_kept self t1 "title" _ k (Hne "title" ltac:(cbn; tauto)) E1).
  bind_ok Hrun as t2 eqn E2.
  rewrite <- (set_if_unset_kept t1 t2 "artist" _ k (Hne "artist" ltac:(cbn; tauto)) E2).
  bind_ok Hrun as t3 eqn E3.
  rewrite <- (set_if_unset_kept t2 t3 "album" _ k (Hne "album" ltac:(cbn; tauto)) E3).
  bind_ok Hrun as t4 eqn E4.
  rewrite <- (set_if_unset_kept t3 t4 "year" _ k (Hne "year" ltac:(cbn; tauto)) E4).
  bind_ok Hrun as [t5 comment] eqn E5.
  assert (H5 : attr t5 k = attr t4 k).
  { destruct (bytes_ltb _ _ && bytes_ltb _ _);
      [|by injection E5 as <- _].
    bind_ok E5 as t eqn Et. injection E5 as <- _.
    destruct (attr t4 "track"); try (by injection Et as <-).
    eapply set_field_other_attr; [exact Et|apply Hne; cbn; tauto]. }
  rewrite <- H5.
  bind_ok Hrun as t6 eqn E6.
  rewrite <- (set_if_unset_kept t5 t6 "comment" _ k (Hne "comment" ltac:(cbn; tauto)) E6).
  bind_ok Hrun as t7 eqn E7. injection Hrun as <- _.
  destruct (negb _); [|by injection E7 as <-].
  destruct (slice 124 125 fields) as [|g [|? ?]]; try discriminate E7.
  destruct (_ <? _); [|by injection E7 as <-].
  eapply set_field_other_attr; [exact E7|apply Hne; cbn; tauto].
Qed.

Lemma audio_not_id3v1 (k : string) :
  In k (audio_fields ++ ["_image_data"]) ->
  ~ In k ["title"; "artist"; "album"; "year"; "track"; "comment"; "genre"].
Proof.
  intros Hk Hin. cbn in Hk, Hin.
  repeat (destruct Hk as [<-|Hk];
          [repeat (destruct Hin as [Hin|Hin]; [discriminate Hin|]); destruct Hin|]).
  destruct Hk.
Qed.

End TagFields.

(** X13: the ID3 tags are stored in the tag fields only.  Whatever the
    stream holds, [_parse_tag] of an MP3 file leaves the audio
    properties (duration, bit rate, sample rate, channels, bit depth) as
    they are, and it stores no image unless images were asked for: with
    [_load_image] unset, [_image_data] is what it was, also when the tag
    has [APIC] or [PIC] frames. *)
Theorem id3_tags_leave_audio_and_image (R : PyRuntime) (self self' : TinyTag)
        (fh fh' : BinaryIO) :
  ID3._parse_tag self fh = Ok (self', fh') ->
  (forall k, In k audio_fields -> attr self' k = attr self k) /\
  (_load_image self = false -> attr self' "_image_data" = attr self "_image_data").
Proof.
  intros Hrun.
  assert (Hall : forall k, In k (audio_fields ++ ["_image_data"]) ->
                           (k = "_image_data" -> _load_image self = false) ->
                           attr self' k = attr self k).
  { intros k Hk Himg. revert Hrun. unfold ID3._parse_tag. intros Hrun.
    bind_ok Hrun as [s1 fh1] eqn E.
    destruct (parse_id3v2_kept self s1 fh fh1 k Hk Himg E) as (Hattr & _ & _).
    rewrite <- Hattr.
    destruct (128 <? filesize s1); [|by injection Hrun as <- _].
    bind_ok Hrun as fh2 eqn Eseek.
    exact (parse_id3v1_kept _ _ _ _ k (audio_not_id3v1 k Hk) Hrun). }
  split.
  - intros k Hk. apply Hall; [apply in_or_app; by left|].
    intros ->. cbn in Hk. repeat (destruct Hk as [Hk|Hk]; [discriminate Hk|]). destruct Hk.
  - intros Himg. apply Hall; [apply in_or_app; right; by left|done].
Qed.

Lemma id3_tags_leave_audio_and_image_witness :
  exists self' fh',
    ID3._parse_tag (R := Samples.ascii_runtime) TinyTag_init
                   (file_on_disk MoreSamples.id3_with_picture) = Ok (self', fh') /\
    attr self' "title" = VStr "I" /\ attr self' "_image_data" = VNone.
Proof.
  eassert (Hrun : ID3._parse_tag (R := Samples.ascii_runtime) TinyTag_init
                                 (file_on_disk MoreSamples.id3_with_picture) = Ok (_, _))
    by (vm_compute; reflexivity).
  do 2 eexists. split; [exact Hrun|]. split; [vm_compute; reflexivity|].
  destruct (id3_tags_leave_audio_and_image _ _ _ _ _ Hrun) as [_ Himg].
  by rewrite (Himg eq_refl).
Defined.

Lemma comment_field_not_audio (key fieldname k : string) :
  ID3.assoc_get Ogg.comment_type_to_attr_mapping key = Some fieldname ->
  In k (audio_fields ++ ["_image_data"]) ->
  fieldname <> k /\ String.append fieldname "_total" <> k.
Proof.
  intros Hget Hk. apply assoc_get_In in Hget. cbn in Hget, Hk.
  repeat (destruct Hk as [<-|Hk]; [|]); [..|destruct Hk];
    repeat (destruct Hget as [<-|Hget]; [split; discriminate|]); destruct Hget.
Qed.

Lemma extra_total_not_audio (key k : string) :
  In k (audio_fields ++ ["_image_data"]) ->
  String.append (String.append "extra." key) "_total" <> k.
Proof.
  intros Hk. cbn in Hk.
  repeat (destruct Hk as [<-|Hk]; [cbn; discriminate|]). destruct Hk.
Qed.

Section CommentFields.
Context {R : PyRuntime}.

Lemma set_comment_field_kept (self self' : TinyTag) (fieldname value k : string) :
  fieldname <> k -> String.append fieldname "_total" <> k ->
  Ogg.set_comment_field self fieldname value = Ok self' ->
  attr self' k = attr self k /\ settings self' = settings self.
Proof.
  intros Hf Hft. unfold Ogg.set_comment_field.
  assert (Hset : forall s s' name v, name <> k -> _set_field s name v = Ok s' ->
                                     attr s' k = attr s k /\ settings s' = settings s).
  { intros s s' name v Hne E. split; [by eapply set_field_other_attr|].
    by eapply set_field_settings. }
  destruct (ID3.str_in fieldname ["track"; "disc"]).
  { destruct (if str_contains "/" value then _ else _) as [v total].
    destruct total as [t|].
    - destruct (py_int t) as [n|]; [|by intros [= <-]].
      intros Hrun. bind_ok Hrun as s1 eqn E.
      destruct (Hset _ _ _ _ Hft E) as [A1 S1]. rewrite <- A1, <- S1.
      destruct (py_int v); [|by injection Hrun as <-].
      exact (Hset _ _ _ _ Hf Hrun).
    - cbn [rbind]. destruct (py_int v); [|by intros [= <-]].
      intros Hrun. exact (Hset _ _ _ _ Hf Hrun). }
  destruct (ID3.str_in fieldname ["track_total"; "disc_total"]).
  { destruct (py_int value); [|by intros [= <-]].
    intros Hrun. exact (Hset _ _ _ _ Hf Hrun). }
  intros Hrun. exact (Hset _ _ _ _ Hf Hrun).
Qed.

Lemma comment_element_kept (self self' : TinyTag) (fh fh' : BinaryIO) (k : string) :
  In k (audio_fields ++ ["_image_data"]) ->
  (k = "_image_data" -> _load_image self = false) ->
  Ogg.comment_element self fh = Ok (self', fh') ->
  attr self' k = attr self k /\ settings self' = settings self.
Proof.
  intros Hk Himg. unfold Ogg.comment_element.
  destruct (read 4 fh) as [b fh1].
  intros Hrun. bind_ok Hrun as len eqn El.
  destruct (read len fh1) as [raw fh2].
  destruct (py_decode "UTF-8" "strict" raw) as [keyvalpair|e|]; [| |discriminate].
  2: { destruct e; try discriminate Hrun. by injection Hrun as <- _. }
  destruct (str_contains "=" keyvalpair); [|by injection Hrun as <- _].
  destruct (str_partition "=" keyvalpair) as [[key sep] value].
  destruct (String.eqb (py_lower key) "metadata_block_picture" && _load_image self) eqn:Hpic.
  - apply andb_true_iff in Hpic as [_ Hload].
    bind_ok Hrun as decoded eqn Ed. bind_ok Hrun as [image fhx] eqn Ei.
    injection Hrun as <- _. split; [|reflexivity].
    apply attr_set_attr_ne. intros <-. specialize (Himg eq_refl). congruence.
  - bind_ok Hrun as s1 eqn Es. injection Hrun as <- _.
    destruct (ID3.assoc_get Ogg.comment_type_to_attr_mapping (py_lower key))
      as [fieldname|] eqn:Hmap.
    + destruct (comment_field_not_audio _ _ k Hmap Hk) as [Hf Hft].
      exact (set_comment_field_kept _ _ _ _ k Hf Hft Es).
    + eapply set_comment_field_kept; [| |exact Es].
      * by apply extra_name_not_audio.
      * by apply extra_total_not_audio.
Qed.

Lemma comments_loop_kept (fuel : nat) (k : string) :
  In k (audio_fields ++ ["_image_data"]) ->
  forall (elements : Z) (self self' : TinyTag) (fh fh' : BinaryIO),
    (k = "_image_data" -> _load_image self = false) ->
    Ogg.comments_loop fuel elements self fh = Ok (self', fh') ->
    attr self' k = attr self k.
Proof.
  intros Hk.
  induction fuel as [|fuel IH]; intros elements self self' fh fh' Himg Hrun;
    [discriminate|].
  cbn [Ogg.comments_loop] in Hrun.
  destruct (0 <? elements); [|by injection Hrun as <- _].
  bind_ok Hrun as [s1 fh1] eqn E.
  destruct (comment_element_kept _ _ _ _ k Hk Himg E) as [A1 S1].
  rewrite <- A1. eapply IH; [|exact Hrun].
  intros ->. rewrite (settings_load_image _ _ S1). by apply Himg.
Qed.

Lemma parse_vorbis_comment_kept (self self' : TinyTag) (fh fh' : BinaryIO)
      (contains_vendor : bool) (k : string) :
  In k (audio_fields ++ ["_image_data"]) ->
  (k = "_image_data" -> _load_image self = false) ->
  Ogg._parse_vorbis_comment self fh contains_vendor = Ok (self', fh') ->
  attr self' k = attr self k.
Proof.
  intros Hk Himg. unfold Ogg._parse_vorbis_comment. intros Hrun.
  bind_ok Hrun as fh1 eqn Ev.
  destruct (read 4 fh1) as [b fh2].
  bind_ok Hrun as elements eqn Ee.
  by eapply comments_loop_kept.
Qed.

End CommentFields.

(** X18: Vorbis comments are stored in the tag fields only.  Whatever
    the comment block holds, [_parse_vorbis_comment] (the comments of
    Ogg and FLAC streams) leaves the audio properties as they are, and
    it stores no image unless images were asked for: with [_load_image]
    unset a [metadata_block_picture] comment is handled like any other
    comment and [_image_data] is what it was. *)
Theorem vorbis_comments_leave_audio_and_image (R : PyRuntime) (self self' : TinyTag)
        (fh fh' : BinaryIO) (contains_vendor : bool) :
  Ogg._parse_vorbis_comment self fh contains_vendor = Ok (self', fh') ->
  (forall k, In k audio_fields -> attr self' k = attr self k) /\
  (_load_image self = false -> attr self' "_image_data" = attr self "_image_data").
Proof.
  intros Hrun.
  assert (Hall : forall k, In k (audio_fields ++ ["_image_data"]) ->
                           (k = "_image_data" -> _load_image self = false) ->
                           attr self' k = attr self k).
  { intros k Hk Himg. by eapply parse_vorbis_comment_kept. }
  split.
  - intros k Hk. apply Hall; [apply in_or_app; by left|].
    intros ->. cbn in Hk. repeat (destruct Hk as [Hk|Hk]; [discriminate Hk|]). destruct Hk.
  - intros Himg. apply Hall; [apply in_or_app; right; by left|done].
Qed.

Lemma vorbis_comments_leave_audio_and_image_witness :
  exists self' fh',
    Ogg._parse_vorbis_comment (R := Samples.ascii_runtime) TinyTag_init
                              (BytesIO MoreSamples.comments_with_picture) true
    = Ok (self', fh') /\
    attr self' "title" = VStr "V" /\ attr self' "_image_data" = VNone.
Proof.
  eassert (Hrun : Ogg._parse_vorbis_comment (R := Samples.ascii_runtime) TinyTag_init
                    (BytesIO MoreSamples.comments_with_picture) true = Ok (_, _))
    by (vm_compute; reflexivity).
  do 2 eexists. split; [exact Hrun|]. split; [vm_compute; reflexivity|].
  destruct (vorbis_comments_leave_audio_and_image _ _ _ _ _ _ Hrun) as [_ Himg].
  by rewrite (Himg eq_refl).
Defined.

(** ** MP3: the duration *)

(** X14: an MP3 stream with no audio in it gives no duration and no
    error.  When fewer than four bytes follow the ID3v2 tag (the place
    [_bytepos_after_id3v2] names), [_determine_duration] reads them,
    finds no frame and returns the object as it was: no duration, no
    bitrate, no channels. *)
Theorem mp3_without_audio (self : TinyTag) (fh : BinaryIO) :
  let p := _bytepos_after_id3v2 self in
  0 <= p ->
  io_len fh < p + 4 ->
  truthy (attr self "samplerate") = false ->
  ID3._determine_duration self fh = Ok (self, snd (read_all (io_at fh p))).
Proof.
  intros p Hp Hshort Hrate. unfold ID3._determine_duration. fold p.
  destruct (Z.eqb_spec p (-1)) as [?|_]; [lia|]. cbn [rbind]. fold p.
  unfold seek_set. destruct (Z.ltb_spec p 0) as [?|_]; [lia|]. cbn [rbind].
  rewrite read_all_rest. cbn [snd].
  set (rest := io_rest (io_at fh p)).
  assert (Hlen : (length rest < 4)%nat).
  { subst rest. pose proof (io_rest_length (io_at fh p) ltac:(cbn; lia)) as H.
    change (io_len (io_at fh p)) with (io_len fh) in H.
    change (io_pos (io_at fh p)) with p in H. lia. }
  cbn [ID3.scan_loop]. unfold ID3.scan_step.
  cbn [ID3.s_self ID3.s_walker ID3.s_frames ID3.s_fh ID3.s_bitrate_accu].
  rewrite read_all_rest. cbv beta iota zeta.
  rewrite (peek_restores (BytesIO rest)) by (cbn; lia). cbn [rbind].
  assert (Hrest : io_rest (BytesIO rest) = rest).
  { unfold io_rest. cbn. by rewrite zdrop_drop. }
  rewrite Hrest.
  destruct (Nat.ltb_spec (length rest) 4) as [_|?]; [|lia].
  cbn [Z.eqb negb rbind]. by rewrite Hrate.
Qed.

Lemma mp3_without_audio_witness :
  ID3._determine_duration (with_bytepos_after_id3v2 TinyTag_init 0)
                          (file_on_disk [xff; xfb; x90])
  = Ok (with_bytepos_after_id3v2 TinyTag_init 0,
        snd (read_all (io_at (file_on_disk [xff; xfb; x90]) 0))).
Proof.
  apply (mp3_without_audio (with_bytepos_after_id3v2 TinyTag_init 0)
                           (file_on_disk [xff; xfb; x90]));
    [cbn; lia|unfold io_len; cbn; lia|vm_compute; reflexivity].
Defined.

(** X15: the scan for MP3 frames always comes to an end.  A round of
    the [while True] loop that goes on had at least four bytes to look
    at and leaves the walker further on than it found it (by a resync,
    a Xing header without counts, or a frame), so the loop takes no
    more rounds than the stream has bytes after the tag:
    [_determine_duration] returns or raises on every stream. *)
Theorem mp3_scan_ends :
  (forall (file_offset : Z) (st st' : ID3.scan),
      0 <= io_pos (ID3.s_walker st) ->
      ID3.scan_step file_offset st = Ok (inr st') ->
      io_data (ID3.s_walker st') = io_data (ID3.s_walker st) /\
      io_pos (ID3.s_walker st) < io_pos (ID3.s_walker st') /\
      io_pos (ID3.s_walker st) + 4 <= io_len (ID3.s_walker st)) /\
  (forall (self : TinyTag) (fh : BinaryIO),
      ID3._determine_duration self fh <> OutOfFuel).
Proof.
  split.
  - intros file_offset st st' Hp Hstep. by apply (scan_step_advances file_offset).
  - intros self fh. apply mp3_determine_duration_completes.
Qed.

Lemma mp3_scan_ends_witness :
  exists st',
    ID3.scan_step 0 (ID3.mkScan TinyTag_init (file_on_disk [x00; x00; x00; xff; xfb])
                                (BytesIO [x00; x00; x00; xff; xfb]) 0 0 0 [] 0)
    = Ok (inr st') /\
    0 < io_pos (ID3.s_walker st').
Proof.
  set (st := ID3.mkScan TinyTag_init (file_on_disk [x00; x00; x00; xff; xfb])
                        (BytesIO [x00; x00; x00; xff; xfb]) 0 0 0 [] 0).
  eassert (Hstep : ID3.scan_step 0 st = Ok (inr _)) by (vm_compute; reflexivity).
  eexists. split; [exact Hstep|].
  assert (Hp : 0 <= io_pos (ID3.s_walker st)) by (cbn; lia).
  destruct (proj1 mp3_scan_ends 0 st _ Hp Hstep) as (_ & Hmove & _).
  exact Hmove.
Defined.

(** ** MP4: the parsers at the leaves *)

(** X23: the [gnre] atom holds the ID3v1 genre number plus one.  For a
    data atom of ten bytes whose last two bytes are the number [n]:
    [1 <= n <= 189] gives the genre with the index [n - 1]; [n = 0]
    gives the index -1, which Python counts from the end of the list, so
    the genre is the last one of the list; a larger [n] gives no genre.
    An atom of any other length raises [struct.error]. *)
Theorem mp4_genre_number (data_atom : bytes) :
  let n := be_uint (drop 8 data_atom) in
  MP4._parse_id3v1_genre data_atom
  = if (length data_atom =? 10)%nat then
      if n =? 0 then Ok [("genre", VStr "Psybient")]
      else if n <=? 189
           then Ok [("genre", VStr (nth (Z.to_nat (n - 1)) ID3.ID3V1_GENRES ""))]
           else Ok []
    else Raise StructError.
Proof.
  intros n. unfold MP4._parse_id3v1_genre, unpack_be. fold n.
  rewrite length_drop.
  destruct (Nat.eqb_spec (length data_atom) 10) as [L|L].
  - rewrite L. cbn [Nat.sub Nat.eqb rbind]. cbv zeta.
    change (Z.of_nat (length ID3.ID3V1_GENRES)) with 189.
    destruct (Z.eqb_spec n 0) as [->|Hn0]; [reflexivity|].
    pose proof (be_uint_nonneg (drop 8 data_atom)) as Hpos. fold n in Hpos.
    destruct (Z.leb_spec n 189) as [Hle|Hgt].
    + destruct (Z.ltb_spec (n - 1) 189) as [_|?]; [|lia].
      destruct (Z.ltb_spec (n - 1) 0) as [?|_]; [lia|].
      destruct (ID3.ID3V1_GENRES !! Z.to_nat (n - 1)) as [g|] eqn:Hg.
      * by rewrite nth_lookup, Hg.
      * apply lookup_ge_None in Hg. change (length ID3.ID3V1_GENRES) with 189%nat in Hg. lia.
    + destruct (Z.ltb_spec (n - 1) 189) as [?|_]; [lia|reflexivity].
  - destruct (Nat.eqb_spec (length data_atom - 8) 2) as [?|_]; [lia|reflexivity].
Qed.

(** the reads and seeks of a parser on a stream whose first bytes are
    written out *)
Ltac run_stream :=
  unfold read, seek_cur, seek_to, io_rest, io_at, BytesIO, tell;
  repeat first
    [ rewrite ztake_take
    | rewrite zdrop_drop
    | rewrite take_0
    | rewrite drop_0
    | progress cbn -[be_uint le_uint int_quotient to_signed py_float]
    | progress cbv [Z.to_nat Z.of_nat Pos.to_nat Pos.iter_op Pos.of_succ_nat Pos.succ Nat.add
                     Z.add Z.sub Z.opp Z.mul Z.ltb Z.leb Z.compare Z.pos_sub Z.double
                     Z.succ_double Z.pred_double Pos.pred_double Pos.add Pos.add_carry
                     Pos.mul Pos.compare Pos.compare_cont] ].

(** X24: the duration of an MP4 stream is read from the movie header.
    For a version-0 [mvhd] atom (a zero byte, three bytes of flags, two
    times of four bytes, the time scale and the duration, four bytes
    each) [_parse_mvhd] gives [duration / time_scale]; a time scale of
    zero is not guarded against and raises [ZeroDivisionError]. *)
Theorem mvhd_duration (flags times time_scale duration rest : bytes) :
  length flags = 3%nat -> length times = 8%nat ->
  length time_scale = 4%nat -> length duration = 4%nat ->
  MP4._parse_mvhd ([x00] ++ flags ++ times ++ time_scale ++ duration ++ rest)%list
  = if be_uint time_scale =? 0
    then Raise (ZeroDivisionError "time_scale")
    else Ok [("duration", VFloat (int_quotient (be_uint duration) (be_uint time_scale)))].
Proof.
  intros Lf Lt Ls Ld.
  destruct flags as [|f1 [|f2 [|f3 [|? ?]]]]; try discriminate Lf.
  destruct times as [|t1 [|t2 [|t3 [|t4 [|t5 [|t6 [|t7 [|t8 [|? ?]]]]]]]]];
    try discriminate Lt.
  destruct time_scale as [|s1 [|s2 [|s3 [|s4 [|? ?]]]]]; try discriminate Ls.
  destruct duration as [|d1 [|d2 [|d3 [|d4 [|? ?]]]]]; try discriminate Ld.
  unfold MP4._parse_mvhd, unpack_be_signed, unpack_be.
  run_stream.
  change (to_signed 8 (be_uint [x00]) =? 0) with true. cbv iota.
  run_stream.
  unfold int_truediv.
  by destruct (be_uint [s1; s2; s3; s4] =? 0).
Qed.

Lemma mvhd_duration_witness :
  MP4._parse_mvhd ([x00] ++ [x00; x00; x00] ++ repeat x00 8 ++ [x00; x00; x00; x00]
                   ++ [x00; x00; x01; x00] ++ [])%list
  = Raise (ZeroDivisionError "time_scale").
Proof.
  apply (mvhd_duration [x00; x00; x00] (repeat x00 8) [x00; x00; x00; x00]
                       [x00; x00; x01; x00] []); reflexivity.
Defined.

(** X25: [_parse_custom_field] can run for ever.  When the first
    sub-atom of a custom field has a size field of zero and a type that
    is neither [name] nor [data], the loop seeks eight bytes back from
    the end of the header, to the header it has just read, and reads it
    again: no number of rounds ends the loop, whatever follows the
    header. *)
Theorem custom_field_zero_size_never_returns (R : PyRuntime) (type rest : bytes) :
  length type = 4%nat ->
  bytes_eqb type (bytes_of_string "name") = false ->
  bytes_eqb type (bytes_of_string "data") = false ->
  let data := ([x00; x00; x00; x00] ++ type ++ rest)%list in
  (forall fuel : nat,
      MP4.custom_field_loop fuel (snd (read 8 (BytesIO data))) (fst (read 8 (BytesIO data)))
                            None [] = OutOfFuel) /\
  MP4._parse_custom_field data = OutOfFuel.
Proof.
  intros L Hname Hdata data.
  destruct type as [|a [|b [|c [|d [|? ?]]]]]; try discriminate L.
  assert (Hread : read 8 (BytesIO data)
                  = ([x00; x00; x00; x00; a; b; c; d], io_at (BytesIO data) 8)).
  { unfold read, io_rest, BytesIO. cbn [Z.ltb Z.compare io_pos io_data].
    rewrite ztake_take, zdrop_drop. reflexivity. }
  assert (Hloop : forall fuel : nat,
             MP4.custom_field_loop fuel (io_at (BytesIO data) 8)
                                   [x00; x00; x00; x00; a; b; c; d] None [] = OutOfFuel).
  { induction fuel as [|fuel IH]; [reflexivity|].
    cbn [MP4.custom_field_loop length Nat.eqb negb]. cbv zeta.
    change (drop 4 [x00; x00; x00; x00; a; b; c; d]) with [a; b; c; d].
    rewrite Hname, Hdata.
    change (be_uint (take 4 [x00; x00; x00; x00; a; b; c; d]) - 8) with (-8).
    change (seek_cur (-8) (io_at (BytesIO data) 8)) with (Ok (BytesIO data)).
    cbn [rbind]. rewrite Hread. exact IH. }
  split.
  - intros fuel. rewrite Hread. apply Hloop.
  - unfold MP4._parse_custom_field. fold data. rewrite Hread. by rewrite Hloop.
Qed.

Lemma custom_field_zero_size_never_returns_witness :
  MP4._parse_custom_field (R := Samples.ascii_runtime)
                          ([x00; x00; x00; x00] ++ bytes_of_string "mean" ++ [])%list
  = OutOfFuel.
Proof.
  apply (proj2 (custom_field_zero_size_never_returns
                  Samples.ascii_runtime (bytes_of_string "mean") []
                  eq_refl eq_refl eq_refl)).
Defined.

(** ** MP4: the cover *)

Lemma set_fields_image (items : MP4.fields) :
  forall (self self' : TinyTag),
    _load_image self = false ->
    MP4.set_fields self items = Ok self' ->
    attr self' "_image_data" = attr self "_image_data" /\ _load_image self' = false.
Proof.
  induction items as [|[fieldname value] items IH]; intros self self' Hload Hrun.
  { injection Hrun as <-. by split. }
  cbn [MP4.set_fields] in Hrun. rewrite Hload in Hrun. cbn [negb] in Hrun.
  rewrite andb_true_r in Hrun.
  destruct (String.eqb_spec fieldname "_image_data") as [->|Hne]; [by apply IH|].
  destruct (negb (String.eqb fieldname "")); [|by apply IH].
  bind_ok Hrun as s1 eqn E.
  pose proof (settings_load_image _ _ (set_field_settings _ _ _ _ E)) as L1.
  rewrite <- (set_field_other_attr _ _ _ "_image_data" _ E Hne).
  apply IH; [congruence|exact Hrun].
Qed.

Lemma traverse_loop_image (fuel : nat) :
  forall (self self' : TinyTag) (fh fh' : BinaryIO) (path : list (bytes * MP4.node))
         (stop_pos : option Z) (atom_header : bytes),
    _load_image self = false ->
    MP4.traverse_loop fuel self fh path stop_pos atom_header = Ok (self', fh') ->
    attr self' "_image_data" = attr self "_image_data" /\ _load_image self' = false.
Proof.
  induction fuel as [|fuel IH];
    intros self self' fh fh' path stop_pos atom_header Hload Hrun; [discriminate|].
  cbn [MP4.traverse_loop] in Hrun.
  destruct (negb _); [injection Hrun as <- _; by split|]. cbv zeta in Hrun.
  destruct (_ <=? 0).
  { destruct (read 8 fh) as [h fh1]. by eapply IH. }
  bind_ok Hrun as fh1 eqn E1. bind_ok Hrun as fh2 eqn E2.
  bind_ok Hrun as [s1 fh3] eqn E3.
  assert (H1 : attr s1 "_image_data" = attr self "_image_data" /\ _load_image s1 = false).
  { destruct (MP4.path_get path _) as [[sub_path|parse]|].
    - destruct (read 8 fh2) as [h fhx]. by eapply IH.
    - destruct (read _ fh2) as [d fhx].
      bind_ok E3 as items eqn Ei. bind_ok E3 as s eqn Es. injection E3 as <- _.
      by eapply set_fields_image.
    - bind_ok E3 as fhx eqn Ex. injection E3 as <- _. by split. }
  destruct H1 as [A1 L1]. rewrite <- A1.
  destruct (match stop_pos with Some _ => _ | None => _ end);
    [injection Hrun as <- _; by split|].
  destruct (read 8 fh3) as [h fh4]. by eapply IH.
Qed.

(** X27: an MP4 cover is stored only when images were asked for.  With
    [_load_image] unset, walking the atoms of a stream, with the tree of
    the tags or with the tree of the audio properties, leaves
    [_image_data] as it was, whatever the stream holds (a [covr] atom
    is read and dropped). *)
Theorem mp4_cover_only_on_request (R : PyRuntime) (self self' : TinyTag)
        (fh fh' : BinaryIO) :
  _load_image self = false ->
  MP4._parse_tag self fh = Ok (self', fh') \/
  MP4._determine_duration self fh = Ok (self', fh') ->
  attr self' "_image_data" = attr self "_image_data".
Proof.
  intros Hload Hrun.
  assert (Hany : forall path, MP4._traverse_atoms self fh path = Ok (self', fh') ->
                              attr self' "_image_data" = attr self "_image_data").
  { intros path. unfold MP4._traverse_atoms. cbv zeta.
    destruct (read 8 fh) as [h fh1]. intros H.
    by destruct (traverse_loop_image _ _ _ _ _ _ _ _ Hload H). }
  destruct Hrun as [Hrun|Hrun]; exact (Hany _ Hrun).
Qed.

Lemma mp4_cover_only_on_request_witness :
  exists self' fh',
    MP4._parse_tag (R := Samples.ascii_runtime) TinyTag_init
                   (file_on_disk MoreSamples.mp4_with_cover) = Ok (self', fh') /\
    attr self' "albumartist" = VStr "A" /\ attr self' "_image_data" = VNone.
Proof.
  eassert (Hrun : MP4._parse_tag (R := Samples.ascii_runtime) TinyTag_init
                                 (file_on_disk MoreSamples.mp4_with_cover) = Ok (_, _))
    by (vm_compute; reflexivity).
  do 2 eexists. split; [exact Hrun|]. split; [vm_compute; reflexivity|].
  assert (Hload : _load_image TinyTag_init = false) by reflexivity.
  by rewrite (mp4_cover_only_on_request _ TinyTag_init _ _ _ Hload (or_introl Hrun)).
Defined.

(** ** Ogg: the segments of one page *)

Lemma segments_short (shorts : list bytes) :
  Forall (fun s => (length s < 255)%nat) shorts ->
  forall (fh : BinaryIO) (pending rest : bytes) (yielded : list bytes),
    0 <= io_pos fh ->
    io_rest fh = (concat shorts ++ rest)%list ->
    fold_left Ogg.segment_step ((fun s => Z.of_nat (length s)) <$> shorts)
              (Ogg.mkLacing 0 pending fh yielded)
    = Ogg.mkLacing 0 (match shorts with [] => pending | _ => [] end)
                   (io_at fh (io_pos fh + Z.of_nat (length (concat shorts))))
                   (yielded ++ match shorts with
                               | [] => []
                               | s :: ss => (pending ++ s) :: ss
                               end)%list.
Proof.
  induction shorts as [|s ss IH]; intros Hall fh pending rest yielded Hp Hrest.
  { cbn. rewrite Z.add_0_r, app_nil_r. by destruct fh. }
  apply Forall_cons in Hall as [Hs Hall].
  cbn [fmap list_fmap fold_left concat] in *.
  unfold Ogg.segment_step at 2. cbn [Ogg.l_total Ogg.l_fh Ogg.l_previous_page Ogg.l_yielded].
  rewrite Z.add_0_l.
  destruct (Z.ltb_spec (Z.of_nat (length s)) 255) as [_|?]; [|lia].
  rewrite <- app_assoc in Hrest.
  destruct (read_exactly fh _ s _ Hp Hrest eq_refl) as (Hread & Hrest' & Hp').
  rewrite Hread.
  rewrite (IH Hall _ [] rest _ Hp' Hrest').
  f_equal.
  - by destruct ss.
  - rewrite length_app. unfold io_at. cbn. f_equal. lia.
  - rewrite <- app_assoc. f_equal. cbn. by destruct ss.
Qed.

Lemma segments_long (longs : list bytes) :
  Forall (fun s => length s = 255%nat) longs ->
  forall (total : Z) (fh : BinaryIO) (pending : bytes) (yielded : list bytes),
    0 <= total ->
    fold_left Ogg.segment_step ((fun s => Z.of_nat (length s)) <$> longs)
              (Ogg.mkLacing total pending fh yielded)
    = Ogg.mkLacing (total + Z.of_nat (length (concat longs))) pending fh yielded.
Proof.
  induction longs as [|s ss IH]; intros Hall total fh pending yielded Ht.
  { cbn. by rewrite Z.add_0_r. }
  apply Forall_cons in Hall as [Hs Hall].
  cbn [fmap list_fmap fold_left concat].
  unfold Ogg.segment_step at 2. cbn [Ogg.l_total Ogg.l_fh Ogg.l_previous_page Ogg.l_yielded].
  rewrite Hs.
  destruct (Z.ltb_spec (total + Z.of_nat 255) 255) as [?|_]; [lia|].
  rewrite (IH Hall) by lia. f_equal. rewrite length_app, Hs. lia.
Qed.

Lemma concat_long_length (longs : list bytes) :
  Forall (fun s => length s = 255%nat) longs ->
  length (concat longs) = (255 * length longs)%nat.
Proof.
  induction 1 as [|s ss Hs _ IH]; [reflexivity|].
  cbn [concat length]. rewrite length_app, Hs, IH. lia.
Qed.

(** X17: where the page reader follows the lacing of Ogg.  On a page
    whose segment table is a run of segments shorter than 255 bytes,
    then a run of segments of 255 bytes, then at most one more segment,
    shorter and not empty, the loop over the segments yields every
    short segment of the first run as a packet of its own (the first
    one after the data carried over from the page before) and the long
    run with its closing segment as one packet; a long run that is not
    closed on the page is carried over to the next page.  The stream is
    left after the last segment. *)
Theorem ogg_page_lacing (fh : BinaryIO) (pending : bytes) (yielded shorts longs : list bytes)
        (tail rest : bytes) :
  0 <= io_pos fh ->
  io_rest fh = (concat shorts ++ concat longs ++ tail ++ rest)%list ->
  Forall (fun s => (length s < 255)%nat) shorts ->
  Forall (fun s => length s = 255%nat) longs ->
  (length tail < 255)%nat ->
  (longs = [] -> tail = []) ->
  let segments := (shorts ++ longs ++ match tail with [] => [] | _ => [tail] end)%list in
  let segsizes := (fun s => Z.of_nat (length s)) <$> segments in
  let st := Ogg.page_end (fold_left Ogg.segment_step segsizes
                                    (Ogg.mkLacing 0 pending fh yielded)) in
  let carried := match shorts with [] => pending | _ => [] end in
  Ogg.l_yielded st
  = (yielded ++ match shorts with [] => [] | s :: ss => (pending ++ s) :: ss end
             ++ match tail with [] => [] | _ => [carried ++ concat longs ++ tail] end)%list /\
  Ogg.l_previous_page st = match tail with [] => carried ++ concat longs | _ => [] end%list /\
  io_rest (Ogg.l_fh st) = rest.
Proof.
  intros Hp Hrest Hshorts Hlongs Htail Hclosed segments segsizes st carried.
  subst st segsizes segments.
  rewrite !fmap_app, !fold_left_app.
  rewrite (segments_short shorts Hshorts fh pending _ yielded Hp Hrest).
  fold carried.
  set (fh1 := io_at fh (io_pos fh + Z.of_nat (length (concat shorts)))).
  assert (P1 : 0 <= io_pos fh1) by (cbn; lia).
  assert (R1 : io_rest fh1 = (concat longs ++ tail ++ rest)%list)
    by (subst fh1; by apply io_rest_after).
  clearbody fh1.
  rewrite (segments_long longs Hlongs) by lia. rewrite Z.add_0_l.
  pose proof (concat_long_length longs Hlongs) as Llong.
  destruct tail as [|t0 tail'].
  - cbn [fmap list_fmap fold_left]. unfold Ogg.page_end.
    cbn [Ogg.l_total Ogg.l_fh Ogg.l_previous_page Ogg.l_yielded].
    rewrite !app_nil_r. cbn [app] in R1.
    destruct (Z.eqb_spec (Z.of_nat (length (concat longs))) 0) as [Hz|Hnz].
    + cbn [Ogg.l_yielded Ogg.l_previous_page Ogg.l_fh].
      assert (Hnil : concat longs = []) by (apply length_zero_iff_nil; lia).
      rewrite Hnil in R1 |- *. rewrite app_nil_r. by repeat split.
    + destruct (read_exactly fh1 _ (concat longs) rest P1 R1 eq_refl)
        as (Hread & Hrest' & _).
      rewrite Hread.
      assert (Hmod : Z.of_nat (length (concat longs)) mod 255 = 0).
      { rewrite Llong, Nat2Z.inj_mul. change (Z.of_nat 255) with 255.
        by rewrite Z.mul_comm, Z_mod_mult. }
      rewrite Hmod. cbn [Z.eqb Ogg.l_yielded Ogg.l_previous_page Ogg.l_fh].
      by repeat split.
  - assert (Hn : longs <> []) by (intros ->; by specialize (Hclosed eq_refl)).
    assert (Ln : (0 < length longs)%nat) by (destruct longs; [done|cbn; lia]).
    cbn [fmap list_fmap fold_left]. unfold Ogg.segment_step.
    cbn [Ogg.l_total Ogg.l_fh Ogg.l_previous_page Ogg.l_yielded].
    set (t := (t0 :: tail')) in *.
    destruct (Z.ltb_spec (Z.of_nat (length (concat longs)) + Z.of_nat (length t)) 255)
      as [?|_]; [lia|].
    unfold Ogg.page_end.
    cbn [Ogg.l_total Ogg.l_fh Ogg.l_previous_page Ogg.l_yielded].
    destruct (Z.eqb_spec (Z.of_nat (length (concat longs)) + Z.of_nat (length t)) 0)
      as [?|_]; [lia|].
    rewrite app_assoc in R1.
    destruct (read_exactly fh1 (Z.of_nat (length (concat longs)) + Z.of_nat (length t))
                           (concat longs ++ t)%list rest P1 R1)
      as (Hread & Hrest' & _); [rewrite length_app; lia|].
    rewrite Hread.
    assert (Hmod : (Z.of_nat (length (concat longs)) + Z.of_nat (length t)) mod 255
                   = Z.of_nat (length t)).
    { rewrite Llong, Nat2Z.inj_mul. change (Z.of_nat 255) with 255.
      rewrite Z.add_comm, Z.mul_comm, Z_mod_plus_full. apply Z.mod_small. lia. }
    rewrite Hmod.
    destruct (Z.eqb_spec (Z.of_nat (length t)) 0) as [Hz|_]; [subst t; cbn in Hz; lia|].
    cbn [Ogg.l_yielded Ogg.l_previous_page Ogg.l_fh].
    split; [|by split]. by rewrite <- !app_assoc.
Qed.

Lemma ogg_page_lacing_witness :
  Ogg.l_yielded
    (Ogg.page_end
       (fold_left Ogg.segment_step [10; 255; 5]
                  (Ogg.mkLacing 0 [] (BytesIO (Samples.fill 10 97 ++ Samples.fill 255 98
                                               ++ Samples.fill 5 99 ++ [])%list) [])))
  = [Samples.fill 10 97; (Samples.fill 255 98 ++ Samples.fill 5 99)%list].
Proof.
  destruct (ogg_page_lacing
              (BytesIO (Samples.fill 10 97 ++ Samples.fill 255 98
                        ++ Samples.fill 5 99 ++ [])%list)
              [] [] [Samples.fill 10 97] [Samples.fill 255 98] (Samples.fill 5 99) [])
    as (Hy & _ & _).
  - cbn. lia.
  - vm_compute. reflexivity.
  - repeat constructor.
  - repeat constructor.
  - cbn. lia.
  - discriminate.
  - etransitivity; [exact Hy|]. vm_compute. reflexivity.
Defined.

(** ** FLAC: pictures *)

Section FlacPictures.
Context {R : PyRuntime}.

Lemma image_in_update_keys : In "_image_data" update_keys.
Proof. unfold update_keys. cbn. tauto. Qed.

Lemma image_is_protected : In "_image_data" (audio_fields ++ ["_image_data"]).
Proof. cbn. tauto. Qed.

Lemma update_without_image (self other self' : TinyTag) :
  attr other "_image_data" = VNone ->
  _update self other = Ok self' ->
  attr self' "_image_data" = attr self "_image_data" /\
  _load_image self' = _load_image self.
Proof.
  intros Hnone Hupd. split.
  - rewrite (update_attr _ _ _ _ image_in_update_keys Hupd). by rewrite Hnone.
  - apply settings_load_image. by eapply update_settings.
Qed.

Lemma streaminfo_image (self self' : TinyTag) (b : bytes) :
  Flac.streaminfo self b = Ok self' ->
  attr self' "_image_data" = attr self "_image_data" /\
  _load_image self' = _load_image self.
Proof.
  unfold Flac.streaminfo. destruct (negb _); [discriminate|]. cbv zeta.
  intros Hrun. bind_ok Hrun as duration eqn Ed.
  destruct (PrimFloat.ltb 0 duration); injection Hrun as <-; split; try reflexivity;
    rewrite ?attr_set_attr_ne by discriminate; reflexivity.
Qed.

Lemma block_image (self : TinyTag) (fh : BinaryIO) (header_data : bytes) (r : Flac.round) :
  _load_image self = false \/
  Z.land (nth 0 (byte_val <$> header_data) 0) 127 = Flac.METADATA_VORBIS_COMMENT ->
  Flac.block self fh header_data = Ok r ->
  attr (round_self r) "_image_data" = attr self "_image_data" /\
  _load_image (round_self r) = _load_image self.
Proof.
  intros Hcase. unfold Flac.block. cbv zeta.
  set (block_type := Z.land (nth 0 (byte_val <$> header_data) 0) 127) in *.
  intros Hrun. bind_ok Hrun as r0 eqn E.
  assert (H0 : attr (round_self r0) "_image_data" = attr self "_image_data" /\
               _load_image (round_self r0) = _load_image self).
  { destruct (_ && _).
    { destruct (read _ fh) as [stream_info_header fh1].
      destruct (_ <? _)%nat; [injection E as <-; by split|].
      bind_ok E as s1 eqn Es. injection E as <-. by eapply streaminfo_image. }
    destruct (_ && _).
    { bind_ok E as [oggtag fh1] eqn Eo. bind_ok E as s1 eqn Eu. injection E as <-.
      eapply update_without_image; [|exact Eu].
      by rewrite (parse_vorbis_comment_kept TinyTag_init _ _ _ _ "_image_data"
                    image_is_protected (fun _ => eq_refl) Eo). }
    destruct ((block_type =? Flac.METADATA_PICTURE) && _load_image self) eqn:Hpic.
    { apply andb_true_iff in Hpic as [Htype Hload]. apply Z.eqb_eq in Htype.
      destruct Hcase as [Hoff|Hvorbis]; [congruence|].
      rewrite Htype in Hvorbis. discriminate Hvorbis. }
    destruct (127 <=? block_type); [injection E as <-; by split|].
    bind_ok E as fh1 eqn Es. injection E as <-. by split. }
  destruct r0 as [s f|s f]; [by injection Hrun as <-|].
  destruct (negb _); by injection Hrun as <-.
Qed.

Lemma blocks_loop_image (fuel : nat) :
  forall (self self' : TinyTag) (fh fh' : BinaryIO) (header_data : bytes),
    _load_image self = false ->
    Flac.blocks_loop fuel self fh header_data = Ok (self', fh') ->
    attr self' "_image_data" = attr self "_image_data".
Proof.
  induction fuel as [|fuel IH]; intros self self' fh fh' header_data Hload Hrun;
    [discriminate|].
  cbn [Flac.blocks_loop] in Hrun.
  destruct (negb _); [by injection Hrun as <- _|].
  bind_ok Hrun as r eqn E.
  destruct (block_image _ _ _ _ (or_introl Hload) E) as [A L].
  destruct r as [s f|s f]; cbn [round_self] in A, L.
  - by injection Hrun as <- _.
  - destruct (read 4 f) as [h f1]. rewrite <- A. eapply IH; [|exact Hrun]. congruence.
Qed.

Lemma leading_id3_image (self : TinyTag) (fh fh' : BinaryIO) (id3 : TinyTag) :
  _load_image self = false ->
  Flac.leading_id3 self fh = Ok (Some id3, fh') ->
  attr id3 "_image_data" = VNone.
Proof.
  intros Hload. unfold Flac.leading_id3.
  destruct (read 4 fh) as [header fh1].
  intros Hrun. bind_ok Hrun as [[o h] f] eqn E.
  destruct (negb _); [discriminate|]. injection Hrun as -> _.
  destruct (bytes_eqb _ _); [|discriminate].
  bind_ok E as fh2 eqn Es. bind_ok E as [tag fh3] eqn Ep.
  destruct (read 4 fh3) as [h' fh4]. injection E as -> _ _.
  destruct (parse_id3v2_kept (Flac.new_id3 self) _ _ _ "_image_data" image_is_protected
                             (fun _ => Hload) Ep) as (A & _ & _).
  exact A.
Qed.

End FlacPictures.

(** X20: where the picture of a FLAC stream comes from.  With
    [_load_image] unset, [_parse_tag] leaves [_image_data] as it was,
    whatever the stream holds: picture blocks are jumped over and a
    leading ID3v2 tag is read without its pictures.  And a picture that
    is stored as a Vorbis comment ([metadata_block_picture]) is never
    loaded, also when images were asked for: the comments are read into
    a fresh object that does not ask for images, so a round of the
    block loop on a comment block leaves [_image_data] as it was. *)
Theorem flac_picture_sources (R : PyRuntime) (self : TinyTag) (fh : BinaryIO) :
  (forall self' fh',
      _load_image self = false ->
      Flac._parse_tag self fh = Ok (self', fh') ->
      attr self' "_image_data" = attr self "_image_data") /\
  (forall (header_data : bytes) (r : Flac.round),
      Z.land (nth 0 (byte_val <$> header_data) 0) 127 = Flac.METADATA_VORBIS_COMMENT ->
      Flac.block self fh header_data = Ok r ->
      attr (round_self r) "_image_data" = attr self "_image_data").
Proof.
  split.
  - intros self' fh' Hload. unfold Flac._parse_tag. intros Hrun.
    bind_ok Hrun as [id3 fh1] eqn El. cbv zeta in Hrun.
    destruct (read 4 fh1) as [header_data fh2].
    bind_ok Hrun as [s1 fh3] eqn Eb. bind_ok Hrun as s2 eqn Ef. injection Hrun as <- _.
    rewrite <- (blocks_loop_image _ _ _ _ _ _ Hload Eb).
    revert Ef. unfold Flac.finish. intros Ef. bind_ok Ef as s3 eqn Eu. injection Ef as <-.
    destruct id3 as [id3|]; [|by injection Eu as <-].
    change (attr (with_tags_parsed s3 true) "_image_data") with (attr s3 "_image_data").
    eapply update_without_image; [|exact Eu].
    by eapply leading_id3_image.
  - intros header_data r Htype Hrun.
    by destruct (block_image _ _ _ _ (or_intror Htype) Hrun).
Qed.

Lemma flac_picture_sources_witness :
  exists self' fh',
    Flac._parse_tag (R := Samples.ascii_runtime) TinyTag_init
                    (file_on_disk MoreSamples.flac_with_picture) = Ok (self', fh') /\
    attr self' "_image_data" = VNone.
Proof.
  eassert (Hrun : Flac._parse_tag (R := Samples.ascii_runtime) TinyTag_init
                                  (file_on_disk MoreSamples.flac_with_picture) = Ok (_, _))
    by (vm_compute; reflexivity).
  do 2 eexists. split; [exact Hrun|].
  assert (Hload : _load_image TinyTag_init = false) by reflexivity.
  by rewrite (proj1 (flac_picture_sources Samples.ascii_runtime TinyTag_init _) _ _ Hload Hrun).
Defined.

(** X21: the layout [_Flac._parse_image] reads.  A picture block is the
    picture type, the length of the MIME type and the MIME type, the
    length of the description and the description, four numbers (width,
    height, depth, colours), the length of the image and the image; all
    numbers are four bytes, most significant first.  On a stream that
    holds such a block the image is returned and the stream is left
    after it. *)
Theorem flac_picture_layout (fh : BinaryIO)
        (pic_type mime_len mime desc_len desc numbers pic_len image rest : bytes) :
  0 <= io_pos fh ->
  io_rest fh = (pic_type ++ mime_len ++ mime ++ desc_len ++ desc ++ numbers
                ++ pic_len ++ image ++ rest)%list ->
  length pic_type = 4%nat ->
  length mime_len = 4%nat -> be_uint mime_len = Z.of_nat (length mime) ->
  length desc_len = 4%nat -> be_uint desc_len = Z.of_nat (length desc) ->
  length numbers = 16%nat ->
  length pic_len = 4%nat -> be_uint pic_len = Z.of_nat (length image) ->
  FlacPicture._parse_image fh
  = Ok (image,
        io_at fh (io_pos fh + 32 + Z.of_nat (length mime) + Z.of_nat (length desc)
                  + Z.of_nat (length image))).
Proof.
  intros Hp Hrest Lt Lml Hml Ldl Hdl Ln Lpl Hpl.
  unfold FlacPicture._parse_image.
  destruct (read_exactly fh 8 (pic_type ++ mime_len)%list
              (mime ++ desc_len ++ desc ++ numbers ++ pic_len ++ image ++ rest)%list Hp)
    as (R1 & E1 & P1); [by rewrite Hrest, <- !app_assoc|rewrite length_app; lia|].
  rewrite R1. rewrite length_app, Lt, Lml. cbn [Nat.add Nat.eqb negb].
  rewrite drop_app_length' by (symmetry; exact Lt). rewrite Hml.
  set (fh1 := io_at fh (io_pos fh + 8)) in *.
  destruct (read_exactly fh1 _ mime _ P1 E1 eq_refl) as (R2 & E2 & P2).
  rewrite R2.
  set (fh2 := io_at fh1 _) in *.
  destruct (read_exactly fh2 4 desc_len _ P2 E2 ltac:(lia)) as (R3 & E3 & P3).
  rewrite R3. unfold unpack_be. rewrite Ldl. cbn [Nat.eqb rbind]. rewrite Hdl.
  set (fh3 := io_at fh2 _) in *.
  destruct (read_exactly fh3 _ desc _ P3 E3 eq_refl) as (R4 & E4 & P4).
  rewrite R4.
  set (fh4 := io_at fh3 _) in *.
  destruct (read_exactly fh4 20 (numbers ++ pic_len)%list (image ++ rest)%list P4)
    as (R5 & E5 & P5); [by rewrite E4, <- !app_assoc|rewrite length_app; lia|].
  rewrite R5. rewrite length_app, Ln, Lpl. cbn [Nat.add Nat.eqb negb].
  rewrite drop_app_length' by (symmetry; exact Ln). rewrite Hpl.
  set (fh5 := io_at fh4 _) in *.
  destruct (read_exactly fh5 _ image rest P5 E5 eq_refl) as (R6 & _ & _).
  rewrite R6. do 2 f_equal.
  subst fh5 fh4 fh3 fh2 fh1. unfold io_at. cbn. f_equal. lia.
Qed.

Lemma flac_picture_layout_witness :
  FlacPicture._parse_image (BytesIO (Samples.bz MoreSamples.flac_picture))
  = Ok (Samples.bz [137; 80; 78; 71],
        io_at (BytesIO (Samples.bz MoreSamples.flac_picture)) 45).
Proof.
  apply (flac_picture_layout
           (BytesIO (Samples.bz MoreSamples.flac_picture))
           (Samples.bz (Samples.be32 3)) (Samples.bz (Samples.be32 9))
           (bytes_of_string "image/png") (Samples.bz (Samples.be32 0)) []
           (Samples.bz (Samples.be32 1 ++ Samples.be32 1 ++ Samples.be32 24
                        ++ Samples.be32 0)%list)
           (Samples.bz (Samples.be32 4)) (Samples.bz [137; 80; 78; 71]) []);
    first [reflexivity | cbn; lia].
Defined.

(** ** WMA *)

Lemma read_to_end (n : Z) (fh : BinaryIO) :
  0 <= io_pos fh ->
  Z.of_nat (length (io_rest fh)) <= n ->
  read n fh = (io_rest fh, io_at fh (io_pos fh + Z.of_nat (length (io_rest fh)))).
Proof.
  intros Hp Hn. unfold read. destruct (Z.ltb_spec n 0) as [?|_]; [lia|].
  rewrite ztake_take, take_ge by lia. reflexivity.
Qed.

Lemma bytes_eqb_neq (a b : bytes) : a <> b -> bytes_eqb a b = false.
Proof.
  intros Hne. destruct (bytes_eqb a b) eqn:E; [|reflexivity].
  apply bytes_eqb_eq in E. contradiction.
Qed.

Lemma objects_loop_stuck {R : PyRuntime} (self : TinyTag) (fh : BinaryIO)
      (object_id : bytes) :
  0 <= io_pos fh ->
  io_rest fh = (object_id ++ [x04; x00; x00; x00])%list ->
  length object_id = 16%nat ->
  ~ In object_id [ Wma.ASF_CONTENT_DESCRIPTION_OBJECT;
                   Wma.ASF_EXTENDED_CONTENT_DESCRIPTION_OBJECT;
                   Wma.ASF_FILE_PROPERTY_OBJECT;
                   Wma.ASF_STREAM_PROPERTIES_OBJECT ] ->
  4 <= filesize self ->
  forall fuel : nat, Wma.objects_loop fuel self fh = OutOfFuel.
Proof.
  intros Hp Hrest L Hid Hsize fuel.
  induction fuel as [|fuel IH]; [reflexivity|].
  cbn [Wma.objects_loop].
  destruct (read_exactly fh 16 object_id [x04; x00; x00; x00] Hp Hrest ltac:(lia))
    as (R16 & Rest16 & P16).
  rewrite R16.
  rewrite (read_to_end 8 _ P16) by (rewrite Rest16; cbn; lia).
  rewrite Rest16.
  change (_bytes_to_int_le [x04; x00; x00; x00]) with 4.
  destruct (Z.ltb_spec (filesize self) 4) as [?|_]; [lia|]. cbn [Z.eqb orb].
  rewrite !bytes_eqb_neq by (intros ->; apply Hid; cbn; tauto).
  cbn [andb].
  rewrite seek_cur_forward by (cbn; lia). cbn [rbind].
  replace (io_at _ _) with fh; [exact IH|].
  destruct fh as [data p mem]. unfold io_at. cbn. f_equal. lia.
Qed.

Lemma wma_header_accepted (fh : BinaryIO) (mid rest : bytes) :
  0 <= io_pos fh ->
  io_rest fh = (Wma.ASF_HEADER_OBJECT ++ mid ++ [x02] ++ rest)%list ->
  length mid = 13%nat ->
  exists header,
    read 30 fh = (header, io_at fh (io_pos fh + 30)) /\
    bytes_eqb (take 16 header) Wma.ASF_HEADER_OBJECT = true /\
    bytes_eqb (last_n 1 header) [x02] = true /\
    io_rest (io_at fh (io_pos fh + 30)) = rest.
Proof.
  intros Hp Hrest L. exists (Wma.ASF_HEADER_OBJECT ++ mid ++ [x02])%list.
  assert (L30 : Z.of_nat (length (Wma.ASF_HEADER_OBJECT ++ mid ++ [x02])%list) = 30).
  { rewrite !length_app, L. reflexivity. }
  destruct (read_exactly fh 30 (Wma.ASF_HEADER_OBJECT ++ mid ++ [x02])%list rest Hp)
    as (R30 & Rest30 & _); [by rewrite Hrest, <- !app_assoc|exact L30|].
  split; [exact R30|]. split; [|split; [|exact Rest30]].
  - rewrite take_app_length' by reflexivity. by apply bytes_eqb_eq.
  - unfold last_n. rewrite app_assoc, length_app. cbn [length].
    rewrite Nat.add_sub, drop_app_length. reflexivity.
Qed.

(** X29: a WMA stream can make [_parse_tag] run for ever.  When the
    stream ends twenty bytes after the start of an object, with sixteen
    bytes of an object id the parser does not know and the four bytes
    [04 00 00 00], the short read of the size is taken for the number 4,
    the parser seeks [4 - 24] bytes from the end of the stream, back to
    the start of the object, and reads it again: no number of rounds
    ends the loop.  Such an object right after the header is enough. *)
Theorem wma_short_size_never_returns (R : PyRuntime) (self : TinyTag) (fh : BinaryIO)
        (mid object_id : bytes) :
  0 <= io_pos fh ->
  io_rest fh = (Wma.ASF_HEADER_OBJECT ++ mid ++ [x02]
                ++ object_id ++ [x04; x00; x00; x00])%list ->
  length mid = 13%nat ->
  length object_id = 16%nat ->
  ~ In object_id [ Wma.ASF_CONTENT_DESCRIPTION_OBJECT;
                   Wma.ASF_EXTENDED_CONTENT_DESCRIPTION_OBJECT;
                   Wma.ASF_FILE_PROPERTY_OBJECT;
                   Wma.ASF_STREAM_PROPERTIES_OBJECT ] ->
  4 <= filesize self ->
  (forall fuel : nat,
      Wma.objects_loop fuel self (snd (read 30 fh)) = OutOfFuel) /\
  Wma._parse_tag self fh = OutOfFuel.
Proof.
  intros Hp Hrest Lm Lo Hid Hsize.
  destruct (wma_header_accepted fh mid _ Hp Hrest Lm) as (header & R30 & Hguid & Hlast & Rest).
  assert (Hloop : forall fuel : nat,
             Wma.objects_loop fuel self (io_at fh (io_pos fh + 30)) = OutOfFuel).
  { apply (objects_loop_stuck self _ object_id); [cbn; lia|exact Rest|done..]. }
  split.
  - intros fuel. rewrite R30. apply Hloop.
  - unfold Wma._parse_tag. rewrite R30, Hguid, Hlast. cbn [negb orb].
    by rewrite Hloop.
Qed.

Lemma wma_short_size_never_returns_witness :
  Wma._parse_tag (R := Samples.ascii_runtime) (Facade.new_tag 50 false None)
                 (file_on_disk (Wma.ASF_HEADER_OBJECT ++ repeat x00 13 ++ [x02]
                                ++ repeat x01 16 ++ [x04; x00; x00; x00])%list)
  = OutOfFuel.
Proof.
  apply (wma_short_size_never_returns Samples.ascii_runtime _ _ (repeat x00 13)
                                      (repeat x01 16)).
  - cbn. lia.
  - reflexivity.
  - reflexivity.
  - reflexivity.
  - cbn. intros [H|[H|[H|[H|[]]]]]; discriminate H.
  - cbn. lia.
Defined.

(** X28: what [_Wma._parse_tag] takes for a WMA stream.  The stream
    must start with the ASF header GUID and the last of its first thirty
    bytes must be [0x02] (the last byte of a shorter stream), or
    [TinyTagException('Invalid WMA file')] is raised.  A stream that is
    accepted and has no more than sixteen bytes after the header holds
    no object: the parser returns with the tags marked as parsed, no
    field changed and the stream at its end. *)
Theorem wma_header_check (R : PyRuntime) (self : TinyTag) (fh : BinaryIO) :
  0 <= io_pos fh ->
  let header := take 30 (io_rest fh) in
  (take 16 header <> Wma.ASF_HEADER_OBJECT \/ last_n 1 header <> [x02] ->
   Wma._parse_tag self fh = Raise (TinyTagException "Invalid WMA file")) /\
  (take 16 header = Wma.ASF_HEADER_OBJECT -> last_n 1 header = [x02] ->
   (length (io_rest fh) <= 46)%nat ->
   Wma._parse_tag self fh
   = Ok (with_tags_parsed self true,
         io_at fh (io_pos fh + Z.of_nat (length (io_rest fh))))).
Proof.
  intros Hp header.
  assert (Hread : read 30 fh = (header, io_at fh (io_pos fh + Z.of_nat (length header)))).
  { unfold read. cbn [Z.ltb Z.compare]. by rewrite ztake_take. }
  split.
  - intros Hbad. unfold Wma._parse_tag. rewrite Hread.
    destruct Hbad as [H|H]; rewrite (bytes_eqb_neq _ _ H); cbn [negb orb];
      [reflexivity|by rewrite orb_true_r].
  - intros Hguid Hlast Hshort. unfold Wma._parse_tag. rewrite Hread.
    rewrite (proj2 (bytes_eqb_eq _ _) Hguid), (proj2 (bytes_eqb_eq _ _) Hlast).
    cbn [negb orb].
    set (fh1 := io_at fh (io_pos fh + Z.of_nat (length header))).
    assert (P1 : 0 <= io_pos fh1) by (cbn; lia).
    assert (R1 : io_rest fh1 = drop 30 (io_rest fh)).
    { subst fh1. rewrite io_rest_at by lia. rewrite Nat2Z.id. subst header.
      rewrite length_take.
      destruct (Nat.le_gt_cases 30 (length (io_rest fh))) as [Hge|Hlt].
      - by rewrite Nat.min_l.
      - rewrite Nat.min_r by lia. rewrite !drop_ge; [done|lia..]. }
    assert (L1 : (length (io_rest fh1) <= 16)%nat) by (rewrite R1, length_drop; lia).
    cbn [Wma.objects_loop].
    rewrite (read_to_end 16 fh1 P1) by lia.
    set (fh2 := io_at fh1 _).
    assert (R2 : io_rest fh2 = []).
    { subst fh2. rewrite io_rest_at by lia. rewrite Nat2Z.id. by rewrite drop_all. }
    rewrite (read_to_end 8 fh2) by (rewrite ?R2; cbn; lia).
    rewrite R2. cbn [length _bytes_to_int_le Nat.eqb orb Z.eqb rbind].
    do 2 f_equal.
    pose proof (f_equal length R1) as LR1. rewrite length_drop in LR1.
    assert (Lh : length header = Nat.min 30 (length (io_rest fh)))
      by (subst header; apply length_take).
    assert (P : io_pos fh1 = io_pos fh + Z.of_nat (length header)) by reflexivity.
    assert (D : io_data fh1 = io_data fh) by reflexivity.
    assert (M : io_in_memory fh1 = io_in_memory fh) by reflexivity.
    clearbody fh1. subst fh2. unfold io_at. cbn [io_data io_pos io_in_memory length].
    rewrite D, M, P, LR1, Lh. f_equal. lia.
Qed.

Lemma wma_header_check_witness :
  Wma._parse_tag (R := Samples.ascii_runtime) TinyTag_init
                 (file_on_disk (bytes_of_string "RIFF"))
  = Raise (TinyTagException "Invalid WMA file").
Proof.
  apply (proj1 (wma_header_check Samples.ascii_runtime TinyTag_init
                                 (file_on_disk (bytes_of_string "RIFF"))
                                 ltac:(cbn; lia))).
  left. discriminate.
Defined.

Lemma wma_field_not_left_out (name fieldname k : string) :
  ID3.assoc_get Wma.mapping name = Some fieldname ->
  In k ["channels"; "track_total"; "disc_total"; "_image_data"] ->
  fieldname <> k.
Proof.
  intros Hget Hk. apply assoc_get_In in Hget. cbn in Hget, Hk.
  repeat (destruct Hk as [<-|Hk]; [|]); [..|destruct Hk];
    repeat (destruct Hget as [<-|Hget]; [discriminate|]); destruct Hget.
Qed.

Lemma extra_name_not_left_out (key k : string) :
  In k ["channels"; "track_total"; "disc_total"; "_image_data"] ->
  String.append "extra." key <> k.
Proof.
  intros Hk. cbn in Hk.
  repeat (destruct Hk as [<-|Hk]; [cbn; discriminate|]). destruct Hk.
Qed.

Section WmaFields.
Context {R : PyRuntime}.
Variable k : string.
Hypothesis Hk : In k ["channels"; "track_total"; "disc_total"; "_image_data"].

Lemma k_is_no_audio_field (name : string) :
  In name ["duration"; "samplerate"; "bitrate"; "bitdepth";
           "title"; "artist"; "_copyright"; "comment"; "_rating"] -> k <> name.
Proof.
  intros Hin ->. cbn in Hk, Hin.
  repeat (destruct Hin as [<-|Hin];
          [repeat (destruct Hk as [Hk'|Hk]; [discriminate Hk'|]); destruct Hk|]).
  destruct Hin.
Qed.

Lemma data_blocks_loop_kept (data_blocks : list (string * Z)) :
  Forall (fun b => b.1 <> k) data_blocks ->
  forall (self self' : TinyTag) (fh fh' : BinaryIO),
    Wma.data_blocks_loop self fh data_blocks = Ok (self', fh') ->
    attr self' k = attr self k.
Proof.
  induction data_blocks as [|[name len] data_blocks IH]; intros Hall self self' fh fh' Hrun.
  { by injection Hrun as <- _. }
  apply Forall_cons in Hall as [Hne Hall]. cbn [fst] in Hne.
  cbn [Wma.data_blocks_loop] in Hrun.
  destruct (read len fh) as [bytestring fh1].
  destruct (negb _); [|by eapply IH].
  bind_ok Hrun as s eqn Es. bind_ok Hrun as s1 eqn E1.
  rewrite <- (set_field_other_attr _ _ _ k _ E1 Hne). by eapply IH.
Qed.

Lemma content_description_kept (self self' : TinyTag) (fh fh' : BinaryIO) :
  Wma.content_description self fh = Ok (self', fh') -> attr self' k = attr self k.
Proof.
  unfold Wma.content_description.
  repeat match goal with |- context [read ?n ?f] => destruct (read n f) as [? ?] end.
  apply data_blocks_loop_kept.
  repeat (apply Forall_cons_2;
          [cbn [fst]; apply not_eq_sym, k_is_no_audio_field; cbn; tauto|]).
  apply Forall_nil_2.
Qed.

Lemma descriptor_kept (self self' : TinyTag) (fh fh' : BinaryIO) :
  Wma.descriptor self fh = Ok (self', fh') -> attr self' k = attr self k.
Proof.
  unfold Wma.descriptor.
  destruct (read 2 fh) as [b1 fh1]. destruct (read _ fh1) as [b2 fh2].
  intros Hrun. bind_ok Hrun as name eqn En.
  destruct (read 2 fh2) as [b3 fh3]. destruct (read 2 fh3) as [b4 fh4].
  destruct (_ =? 1).
  { bind_ok Hrun as fh5 eqn E5. by injection Hrun as <- _. }
  set (field_name := match ID3.assoc_get Wma.mapping name with
                     | Some f => f | None => _ end) in Hrun.
  assert (Hne : field_name <> k).
  { subst field_name. destruct (ID3.assoc_get Wma.mapping name) as [f|] eqn:Hget.
    - by eapply wma_field_not_left_out.
    - by apply extra_name_not_left_out. }
  clearbody field_name.
  destruct (read _ fh4) as [b5 fh5].
  bind_ok Hrun as field_value eqn Ev.
  destruct field_value as [v|]; [|by injection Hrun as <- _].
  assert (Hset : forall v0, (let? s := _set_field self field_name v0 in Ok (s, fh5))
                            = Ok (self', fh') -> attr self' k = attr self k).
  { intros v0 H. bind_ok H as s eqn Es. injection H as <- _.
    by eapply set_field_other_attr. }
  destruct (ID3.str_in field_name _); [|by eapply Hset].
  destruct v as [|s|z|f|b]; try (by eapply Hset).
  destruct (py_int s); [by eapply Hset|by injection Hrun as <- _].
Qed.

Lemma descriptors_loop_kept (count : nat) :
  forall (self self' : TinyTag) (fh fh' : BinaryIO),
    Wma.descriptors_loop count self fh = Ok (self', fh') -> attr self' k = attr self k.
Proof.
  induction count as [|count IH]; intros self self' fh fh' Hrun.
  { by injection Hrun as <- _. }
  cbn [Wma.descriptors_loop] in Hrun. bind_ok Hrun as [s1 fh1] eqn E.
  rewrite <- (descriptor_kept _ _ _ _ E). by eapply IH.
Qed.

Lemma file_properties_kept (self self' : TinyTag) (fh fh' : BinaryIO) :
  Wma.file_properties self fh = Ok (self', fh') -> attr self' k = attr self k.
Proof.
  unfold Wma.file_properties. intros Hrun.
  bind_ok Hrun as fh1 eqn E1. destruct (read 8 fh1) as [b1 fh2].
  bind_ok Hrun as fh3 eqn E3. destruct (read 8 fh3) as [b2 fh4].
  bind_ok Hrun as fh5 eqn E5. injection Hrun as <- _.
  apply attr_set_attr_ne, not_eq_sym, k_is_no_audio_field. cbn. tauto.
Qed.

Lemma stream_properties_kept (self self' : TinyTag) (fh fh' : BinaryIO) :
  Wma.stream_properties self fh = Ok (self', fh') -> attr self' k = attr self k.
Proof.
  unfold Wma.stream_properties. intros Hrun.
  destruct (read 16 fh) as [stream_type fh1].
  bind_ok Hrun as fh2 eqn E2.
  destruct (read 4 fh2) as [b1 fh3]. destruct (read 4 fh3) as [b2 fh4].
  bind_ok Hrun as fh5 eqn E5.
  bind_ok Hrun as [[already_read s1] fh6] eqn Ea.
  bind_ok Hrun as fh7 eqn E7. bind_ok Hrun as fh8 eqn E8. injection Hrun as <- _.
  destruct (bytes_eqb stream_type _); [|by injection Ea as _ <- _].
  destruct (read 2 fh5) as [c1 g1]. destruct (read 2 g1) as [c2 g2].
  destruct (read 4 g2) as [c3 g3]. destruct (read 4 g3) as [c4 g4].
  bind_ok Ea as g5 eqn Eg. destruct (read 2 g5) as [c5 g6].
  injection Ea as _ <- _.
  destruct (_ =? 355);
    rewrite ?attr_set_attr_ne by (apply not_eq_sym, k_is_no_audio_field; cbn; tauto);
    reflexivity.
Qed.

Lemma objects_loop_kept (fuel : nat) :
  forall (self self' : TinyTag) (fh fh' : BinaryIO),
    Wma.objects_loop fuel self fh = Ok (self', fh') -> attr self' k = attr self k.
Proof.
  induction fuel as [|fuel IH]; intros self self' fh fh' Hrun; [discriminate|].
  cbn [Wma.objects_loop] in Hrun.
  destruct (read 16 fh) as [object_id fh1]. destruct (read 8 fh1) as [b fh2].
  destruct (_ || _); [by injection Hrun as <- _|].
  bind_ok Hrun as [s1 fh3] eqn E.
  rewrite (IH _ _ _ _ Hrun).
  destruct (_ && _); [by eapply content_description_kept|].
  destruct (_ && _).
  { revert E. unfold Wma.extended_content_description.
    destruct (read 2 fh2) as [c fhx]. intros E. by eapply descriptors_loop_kept. }
  destruct (bytes_eqb object_id _); [by eapply file_properties_kept|].
  destruct (bytes_eqb object_id _); [by eapply stream_properties_kept|].
  bind_ok E as fhx eqn Ex. by injection E as <- _.
Qed.

End WmaFields.

(** X30: what a WMA stream never gives.  Whatever the stream holds, a
    [_parse_tag] that returns has marked the tags as parsed and has left
    [channels], [track_total], [disc_total] and the image as they were:
    the number of channels of the stream properties is read and
    dropped, and nothing is stored under the other three. *)
Theorem wma_leaves_channels_and_totals (R : PyRuntime) (self self' : TinyTag)
        (fh fh' : BinaryIO) :
  Wma._parse_tag self fh = Ok (self', fh') ->
  _tags_parsed self' = true /\
  forall k, In k ["channels"; "track_total"; "disc_total"; "_image_data"] ->
            attr self' k = attr self k.
Proof.
  unfold Wma._parse_tag. destruct (read 30 fh) as [header fh1].
  destruct (_ || _); [discriminate|].
  intros Hrun. bind_ok Hrun as [s1 fh2] eqn E. injection Hrun as <- _.
  split; [reflexivity|]. intros k Hk.
  exact (objects_loop_kept k Hk _ _ _ _ _ E).
Qed.

Lemma wma_leaves_channels_and_totals_witness :
  exists self' fh',
    Wma._parse_tag (R := Samples.ascii_runtime) (Facade.new_tag 126 false None)
                   (file_on_disk MoreSamples.wma_audio_stream) = Ok (self', fh') /\
    attr self' "samplerate" = VInt 44100 /\
    attr self' "channels" = VNone.
Proof.
  eassert (Hrun : Wma._parse_tag (R := Samples.ascii_runtime) (Facade.new_tag 126 false None)
                                 (file_on_disk MoreSamples.wma_audio_stream) = Ok (_, _))
    by (vm_compute; reflexivity).
  do 2 eexists. split; [exact Hrun|]. split; [vm_compute; reflexivity|].
  destruct (wma_leaves_channels_and_totals _ _ _ _ _ Hrun) as [_ Hkeep].
  rewrite (Hkeep "channels") by (cbn; tauto). reflexivity.
Defined.
